(** * Report-X: data quality and insight engine

    A shallow embedding of the decision logic of the Report-X sources
    ([data_processor.py], [anomalies.py], [summarize.py],
    [predictive_insight.py], [business_insight.py], and the automatic
    cleaning of [app.py]) together with the properties stated about it.

    Conventions of the embedding.
    - A pandas [DataFrame] is a row count plus an ordered list of named,
      typed columns ([Series]).  A numeric column holds [option Q] cells, an
      object column [option string] cells; [None] is a null (NaN) cell.
      [df[col]] is the first column of that name; pandas keeps the names of
      a frame it has read distinct, and the properties that depend on it
      say so.
    - Python and numpy floats are idealised as exact rationals ([Q]); the
      non-finite results of a numpy division by zero are kept ([npfloat]).
    - Python dictionaries are association lists in insertion order.
    - Library calls whose result no property below depends on
      ([pd.to_datetime], [Series.std], [DataFrame.corr], sklearn's
      [LinearRegression], the wall clock) are parameters of the sections
      that use them. *)

From Stdlib Require Import String Ascii.
From Stdlib Require Import ZArith QArith Qround Qabs Qpower List Bool Arith Lia Lqa.
From Stdlib Require Import Sorted Permutation.
Import ListNotations.

Local Open Scope Q_scope.

(** ** numpy floating point values *)

Module NP.

Inductive npfloat : Type :=
| Fin (q : Q)
| PInf
| NInf
| NaN.

(** [a / b] on two finite numbers, numpy style: no exception, a division
    by zero yields [nan] or a signed infinity. *)
Definition div (a b : Q) : npfloat :=
  if Qeq_bool b 0 then
    if Qeq_bool a 0 then NaN
    else if Qle_bool 0 a then PInf else NInf
  else Fin (a / b).

(** [x * c] for a finite constant [c]. *)
Definition mul (x : npfloat) (c : Q) : npfloat :=
  match x with
  | Fin q => Fin (q * c)
  | NaN => NaN
  | PInf => if Qeq_bool c 0 then NaN else if Qle_bool 0 c then PInf else NInf
  | NInf => if Qeq_bool c 0 then NaN else if Qle_bool 0 c then NInf else PInf
  end.

Definition sub (x y : npfloat) : npfloat :=
  match x, y with
  | NaN, _ | _, NaN => NaN
  | Fin a, Fin b => Fin (a - b)
  | Fin _, PInf => NInf
  | Fin _, NInf => PInf
  | PInf, PInf => NaN
  | PInf, _ => PInf
  | NInf, NInf => NaN
  | NInf, _ => NInf
  end.

Definition Qlt_bool (a b : Q) : bool := negb (Qle_bool b a).

(** [x < y]; every comparison with [nan] is false. *)
Definition ltb (x y : npfloat) : bool :=
  match x, y with
  | NaN, _ | _, NaN => false
  | Fin a, Fin b => Qlt_bool a b
  | NInf, NInf => false
  | NInf, _ => true
  | _, PInf => match x with PInf => false | _ => true end
  | _, _ => false
  end.

Definition gtb (x y : npfloat) : bool := ltb y x.

(** [x >= y]. *)
Definition geb (x y : npfloat) : bool :=
  match x, y with
  | NaN, _ | _, NaN => false
  | Fin a, Fin b => Qle_bool b a
  | PInf, _ => true
  | _, NInf => true
  | _, _ => false
  end.

Definition of_nat (n : nat) : Q := inject_Z (Z.of_nat n).

End NP.

Import NP.

(** ** Binary64 arithmetic

    Every binary64 number is a rational, and an operation of the
    processor returns the binary64 number nearest to its exact result, a
    tie going to the one whose last bit is 0.  The sign of a zero is not
    kept: no function below divides by a computed zero. *)

Module Binary64.

(** The integer nearest to [y], a tie going to the even one. *)
Definition nearest (y : Q) : Z :=
  let fl := Qfloor y in
  let r := y - inject_Z fl in
  if Qle_bool r (1 # 2) then
    if Qle_bool (1 # 2) r then (if Z.even fl then fl else fl + 1)%Z else fl
  else (fl + 1)%Z.

Definition pow2 (k : Z) : Q := 2 ^ k.

(** [floor (log2 x)] for a positive [x]. *)
Definition ilog2 (x : Q) : Z :=
  let e := (Z.log2 (Qnum x) - Z.log2 (Zpos (Qden x)))%Z in
  if Qle_bool (pow2 e) x then e else (e - 1)%Z.

(** The exponent of the last place of a positive number: 52 binary places
    below its leading bit, and never below the last place of the
    subnormal numbers. *)
Definition last_place (x : Q) : Z := Z.max (ilog2 x - 52) (-1074).

(** A positive rational rounded to the nearest number with 53 significant
    bits, the exponent not yet bounded above. *)
Definition rnd_pos (x : Q) : Q :=
  let k := last_place x in
  inject_Z (nearest (x * pow2 (- k))) * pow2 k.

Definition rnd (x : Q) : Q :=
  if Qle_bool x 0 then
    if Qle_bool 0 x then 0 else - rnd_pos (- x)
  else rnd_pos x.

(** Round to nearest, ties to even: what every binary64 operation does
    to its exact result.  A result of 2^1024 or more in magnitude is an
    infinity. *)
Definition round (x : Q) : npfloat :=
  let r := rnd x in
  if Qle_bool (pow2 1024) r then PInf
  else if Qle_bool r (- pow2 1024) then NInf
  else Fin (Qred r).

(** [q] is a binary64 number: rounding leaves it as it is. *)
Definition is_binary64 (q : Q) : bool :=
  match round q with
  | Fin r => Qeq_bool r q
  | _ => false
  end.

(** A decimal literal of the program: the binary64 number nearest to it. *)
Definition lit (q : Q) : Q :=
  match round q with
  | Fin r => r
  | _ => 0
  end.

Definition add (x y : npfloat) : npfloat :=
  match x, y with
  | NaN, _ | _, NaN => NaN
  | Fin a, Fin b => round (a + b)
  | PInf, NInf | NInf, PInf => NaN
  | PInf, _ | _, PInf => PInf
  | NInf, _ | _, NInf => NInf
  end.

Definition sub (x y : npfloat) : npfloat :=
  match x, y with
  | NaN, _ | _, NaN => NaN
  | Fin a, Fin b => round (a - b)
  | PInf, PInf | NInf, NInf => NaN
  | PInf, _ | _, NInf => PInf
  | NInf, _ | _, PInf => NInf
  end.

(** The sign of a product with an infinity; the product with zero is
    [nan]. *)
Definition signed_inf (positive : bool) (q : Q) : npfloat :=
  if Qeq_bool q 0 then NaN
  else if Bool.eqb positive (Qle_bool 0 q) then PInf else NInf.

Definition mul (x y : npfloat) : npfloat :=
  match x, y with
  | NaN, _ | _, NaN => NaN
  | Fin a, Fin b => round (a * b)
  | PInf, Fin b | Fin b, PInf => signed_inf true b
  | NInf, Fin b | Fin b, NInf => signed_inf false b
  | PInf, PInf | NInf, NInf => PInf
  | PInf, NInf | NInf, PInf => NInf
  end.

(** numpy's division: no exception, a division by zero yields [nan] or an
    infinity. *)
Definition div (x y : npfloat) : npfloat :=
  match x, y with
  | NaN, _ | _, NaN => NaN
  | Fin a, Fin b =>
      if Qeq_bool b 0 then
        if Qeq_bool a 0 then NaN else if Qle_bool 0 a then PInf else NInf
      else round (a / b)
  | Fin _, _ => Fin 0
  | _, PInf | _, NInf => NaN
  | PInf, Fin b => if Qle_bool 0 b then PInf else NInf
  | NInf, Fin b => if Qle_bool 0 b then NInf else PInf
  end.

(** The order of two floats that are not [nan]. *)
Definition le (x y : npfloat) : Prop :=
  match x, y with
  | NaN, _ | _, NaN => False
  | NInf, _ | _, PInf => True
  | Fin a, Fin b => a <= b
  | _, _ => False
  end.

End Binary64.

(** ** Data model: series and data frames *)

(** A column together with its pandas dtype: numeric ([int64]/[float64]) or
    [object] (strings).  [None] is a null cell. *)
Inductive Series : Type :=
| NumSeries (cells : list (option Q))
| ObjSeries (cells : list (option string)).

(** [len(df)] is [nrows]; [df.columns] are the names of [columns], in
    order. *)
Record DataFrame : Type := mkDataFrame {
  nrows : nat;
  columns : list (string * Series)
}.

Definition series_len (s : Series) : nat :=
  match s with
  | NumSeries l => length l
  | ObjSeries l => length l
  end.

(** The data-model invariant: uniform row count across columns. *)
Definition wf_df (df : DataFrame) : Prop :=
  Forall (fun c => series_len (snd c) = nrows df) (columns df).

Definition col_names (df : DataFrame) : list string := map fst (columns df).

(** [df[col]]: [None] stands for the [KeyError] of a missing column. *)
Fixpoint assoc {V : Type} (k : string) (l : list (string * V)) : option V :=
  match l with
  | [] => None
  | (k', v) :: t => if String.eqb k k' then Some v else assoc k t
  end.

Definition get_col (df : DataFrame) (col : string) : option Series :=
  assoc col (columns df).

(** [d[k] = v] on a dictionary kept in insertion order: a present key keeps
    its place and takes the new value, a new key goes last. *)
Fixpoint dict_set {V : Type} (k : string) (v : V) (d : list (string * V))
    : list (string * V) :=
  match d with
  | [] => [(k, v)]
  | (k', v') :: t =>
      if String.eqb k k' then (k, v) :: t else (k', v') :: dict_set k v t
  end.

Section ListOps.
Context {A : Type}.

Definition is_none (o : option A) : bool :=
  match o with None => true | Some _ => false end.

(** [series.dropna()] *)
Fixpoint dropna (l : list (option A)) : list A :=
  match l with
  | [] => []
  | None :: t => dropna t
  | Some x :: t => x :: dropna t
  end.

(** [series.isnull().sum()] *)
Definition null_count (l : list (option A)) : nat :=
  length (filter is_none l).

(** Boolean indexing: keep the entries whose mask bit is set. *)
Fixpoint select (mask : list bool) (l : list A) : list A :=
  match mask, l with
  | b :: m, x :: t => if b then x :: select m t else select m t
  | _, _ => []
  end.

Variable eqb : A -> A -> bool.

(** [duplicated()]: an entry is marked when an equal one came before. *)
Fixpoint duplicated_from (seen l : list A) : list bool :=
  match l with
  | [] => []
  | x :: t => existsb (eqb x) seen :: duplicated_from (x :: seen) t
  end.

Definition duplicated (l : list A) : list bool := duplicated_from [] l.

Definition count_true (m : list bool) : nat := length (filter id m).

(** [drop_duplicates()] keeps the first occurrence of every entry. *)
Definition drop_duplicates (l : list A) : list A :=
  select (map negb (duplicated l)) l.

(** [unique()], in order of first appearance, and [nunique()] on values
    that are already free of nulls. *)
Definition unique (l : list A) : list A := drop_duplicates l.
Definition nunique_vals (l : list A) : nat := length (unique l).

End ListOps.

Definition series_null_count (s : Series) : nat :=
  match s with
  | NumSeries l => null_count l
  | ObjSeries l => null_count l
  end.

(** [series.nunique()]: distinct non-null values. *)
Definition nunique (s : Series) : nat :=
  match s with
  | NumSeries l => nunique_vals Qeq_bool (dropna l)
  | ObjSeries l => nunique_vals String.eqb (dropna l)
  end.

(** [series.isna().all()] *)
Definition isna_all (s : Series) : bool :=
  match s with
  | NumSeries l => forallb is_none l
  | ObjSeries l => forallb is_none l
  end.

(** ** Type inference ([DataProcessor.detect_column_types]) *)

Inductive ColumnType : Type :=
| TUnknown | TInteger | TFloat | TCategorical | TBoolean | TText | TDatetime.

Definition ColumnType_eqb (a b : ColumnType) : bool :=
  match a, b with
  | TUnknown, TUnknown | TInteger, TInteger | TFloat, TFloat
  | TCategorical, TCategorical | TBoolean, TBoolean | TText, TText
  | TDatetime, TDatetime => true
  | _, _ => false
  end.

(** Python's [int(x)] on a float: truncation towards zero. *)
Definition int_of_float (x : Q) : Z := Z.quot (Qnum x) (Zpos (Qden x)).

(** [x == int(x)] *)
Definition equals_own_int (x : Q) : bool :=
  Qeq_bool x (inject_Z (int_of_float x)).

(** [str.lower()], on the ASCII letters. *)
Definition lower_ascii (c : ascii) : ascii :=
  let n := nat_of_ascii c in
  if (65 <=? n)%nat && (n <=? 90)%nat then ascii_of_nat (n + 32) else c.

Fixpoint lower (s : string) : string :=
  match s with
  | EmptyString => EmptyString
  | String c t => String (lower_ascii c) (lower t)
  end.

Definition bool_values : list string :=
  ["true"; "false"; "yes"; "no"; "y"; "n"; "1"; "0"; "t"; "f"]%string.

Definition str_mem (s : string) (l : list string) : bool :=
  existsb (String.eqb s) l.

(** [set(a).issubset(b)] *)
Definition issubset (a b : list string) : bool :=
  forallb (fun s => str_mem s b) a.

Section TypeInference.

(** [pd.to_datetime(series, errors='raise')] returns normally. *)
Variable to_datetime_ok : list (option string) -> bool.

(** The body of the loop over [df.columns]; [n] is [len(df)].  The
    threshold [0.05] is [5 # 100]. *)
Definition detect_column_type (n : nat) (s : Series) : ColumnType :=
  if isna_all s then TUnknown
  else
    match s with
    | NumSeries cells =>
        let non_null := dropna cells in
        if (0 <? length non_null)%nat && forallb equals_own_int non_null then
          let unique_count := nunique s in
          if (unique_count <=? 20)%nat
             && ltb (div (of_nat unique_count) (of_nat n)) (Fin (5 # 100))
          then TCategorical
          else TInteger
        else TFloat
    | ObjSeries cells =>
        if to_datetime_ok cells then TDatetime
        else
          let unique_count := nunique s in
          let lower_values := map lower (dropna cells) in
          if issubset (unique String.eqb lower_values) bool_values then TBoolean
          else if (unique_count <=? 20)%nat
                  || ltb (div (of_nat unique_count) (of_nat n)) (Fin (5 # 100))
          then TCategorical
          else TText
    end.

(** [self.column_datatypes] after the call: one entry per column, in
    column order. *)
Definition detect_column_types (df : DataFrame) : list (string * ColumnType) :=
  map (fun c => (fst c, detect_column_type (nrows df) (snd c))) (columns df).

End TypeInference.

(** ** Exceptions *)

Inductive exn : Type :=
| KeyError      (* [df[col]] on a column the frame does not have *)
| TypeError     (* arithmetic on an object column *)
| IndexError    (* [iloc[0]] on an empty series *)
| ValueError.   (* fitting a model on values that are not numbers *)

Inductive result (A : Type) : Type :=
| Ok (a : A)
| Raise (e : exn).

Arguments Ok {A} a.
Arguments Raise {A} e.

Definition bind {A B : Type} (r : result A) (k : A -> result B) : result B :=
  match r with
  | Ok a => k a
  | Raise e => Raise e
  end.

Notation "x <- r ;; k" := (bind r (fun x => k))
  (at level 61, r at next level, right associativity).

(** ** Descriptive statistics on the non-null values of a numeric column *)

Module Stats.

Fixpoint insert_sorted (x : Q) (l : list Q) : list Q :=
  match l with
  | [] => [x]
  | y :: t => if Qle_bool x y then x :: l else y :: insert_sorted x t
  end.

(** Ascending sort. *)
Fixpoint sort (l : list Q) : list Q :=
  match l with
  | [] => []
  | x :: t => insert_sorted x (sort t)
  end.

Definition sum (l : list Q) : Q := fold_right Qplus 0 l.

(** [series.mean()]; [nan] on an empty series. *)
Definition mean (l : list Q) : npfloat := div (sum l) (of_nat (length l)).

(** [series.quantile(q)] with pandas' default linear interpolation:
    position [(n-1)*q] in the sorted values, interpolated between its two
    neighbours.  Every caller has checked that the series is not empty
    (pandas answers [nan] on an empty one). *)
Definition quantile (l : list Q) (q : Q) : Q :=
  let s := sort l in
  let pos := of_nat (length l - 1) * q in
  let lo := Z.to_nat (Qfloor pos) in
  let frac := pos - inject_Z (Qfloor pos) in
  let a := nth lo s 0 in
  let b := nth (Nat.min (lo + 1) (length l - 1)) s 0 in
  a + (b - a) * frac.

(** [series.median()] *)
Definition median (l : list Q) : Q := quantile l (1 # 2).

Definition qmin (a b : Q) : Q := if Qle_bool a b then a else b.
Definition qmax (a b : Q) : Q := if Qle_bool a b then b else a.

(** [series.min()] and [series.max()]; [nan] on an empty series. *)
Definition series_min (l : list Q) : npfloat :=
  match l with
  | [] => NaN
  | x :: t => Fin (fold_left qmin t x)
  end.

Definition series_max (l : list Q) : npfloat :=
  match l with
  | [] => NaN
  | x :: t => Fin (fold_left qmax t x)
  end.

End Stats.

Import Stats.

(** ** IQR outlier test *)

(** The bounds [Q1 - 1.5*IQR] and [Q3 + 1.5*IQR]. *)
Definition lower_bound (data : list Q) : Q :=
  let Q1 := quantile data (1 # 4) in
  let Q3 := quantile data (3 # 4) in
  let IQR := Q3 - Q1 in
  Q1 - (3 # 2) * IQR.

Definition upper_bound (data : list Q) : Q :=
  let Q1 := quantile data (1 # 4) in
  let Q3 := quantile data (3 # 4) in
  let IQR := Q3 - Q1 in
  Q3 + (3 # 2) * IQR.

(** [(x < lower_bound) | (x > upper_bound)] *)
Definition is_outlier (lo hi x : Q) : bool :=
  Qlt_bool x lo || Qlt_bool hi x.

(** [(data < lower_bound) | (data > upper_bound)] *)
Definition outlier_mask (data : list Q) : list bool :=
  map (is_outlier (lower_bound data) (upper_bound data)) data.

(** ** Anomaly detector ([anomalies.py]) *)

Definition is_numeric_type (t : ColumnType) : bool :=
  match t with TInteger | TFloat => true | _ => false end.

Definition is_categorical_type (t : ColumnType) : bool :=
  match t with TCategorical | TBoolean | TText => true | _ => false end.

(** [[col for col, dtype in column_types.items() if dtype in [...]]] *)
Definition cols_of_type (p : ColumnType -> bool)
    (column_types : list (string * ColumnType)) : list string :=
  map fst (filter (fun c => p (snd c)) column_types).

Record OutlierInfo : Type := mkOutlierInfo {
  o_count : nat;
  o_percentage : npfloat;
  o_lower_bound : Q;
  o_upper_bound : Q;
  o_min_outlier : npfloat;
  o_max_outlier : npfloat
}.

Module AnomalyDetector.

Record t : Type := mk {
  df : DataFrame;
  column_types : list (string * ColumnType)
}.

Definition numeric_cols (self : t) : list string :=
  cols_of_type is_numeric_type (column_types self).

Definition categorical_cols (self : t) : list string :=
  cols_of_type is_categorical_type (column_types self).

(** The loop body of [_detect_outliers] once [data] is known to be
    non-empty: the report entry, if the column gets one. *)
Definition outlier_entry (data : list Q) : option OutlierInfo :=
  let mask := outlier_mask data in
  let outlier_count := count_true mask in
  if (0 <? outlier_count)%nat then
    Some {| o_count := outlier_count;
            o_percentage := mul (div (of_nat outlier_count) (of_nat (length data))) 100;
            o_lower_bound := lower_bound data;
            o_upper_bound := upper_bound data;
            o_min_outlier := series_min (select mask data);
            o_max_outlier := series_max (select mask data) |}
  else None.

(** [self.df[col].dropna()] for a column used as numbers.  Statistics on
    a non-empty object column raise. *)
Definition numeric_data (d : DataFrame) (col : string) : result (list Q) :=
  match get_col d col with
  | None => Raise KeyError
  | Some (NumSeries cells) => Ok (dropna cells)
  | Some (ObjSeries cells) =>
      match dropna cells with
      | [] => Ok []
      | _ :: _ => Raise TypeError
      end
  end.

(** The loop of [_detect_outliers]; [outliers] is the dictionary built so
    far. *)
Fixpoint detect_outliers_loop (d : DataFrame) (cols : list string)
    (outliers : list (string * OutlierInfo))
    : result (list (string * OutlierInfo)) :=
  match cols with
  | [] => Ok outliers
  | col :: rest =>
      data <- numeric_data d col ;;
      if (length data =? 0)%nat then detect_outliers_loop d rest outliers
      else
        match outlier_entry data with
        | Some e => detect_outliers_loop d rest (dict_set col e outliers)
        | None => detect_outliers_loop d rest outliers
        end
  end.

Definition _detect_outliers (self : t) : result (list (string * OutlierInfo)) :=
  detect_outliers_loop (df self) (firstn 5 (numeric_cols self)) [].

End AnomalyDetector.

(** ** Profiler's boolean outlier test ([DataProcessor._has_outliers]) *)

Definition _has_outliers (series : list (option Q)) : bool :=
  let series := dropna series in
  if (length series <? 4)%nat then false
  else existsb id (outlier_mask series).

(** ** Cell values and rows *)

Inductive value : Type :=
| VNum (q : Q)
| VStr (s : string).

Definition value_eqb (a b : value) : bool :=
  match a, b with
  | VNum x, VNum y => Qeq_bool x y
  | VStr x, VStr y => String.eqb x y
  | _, _ => false
  end.

(** Equality of cells as [duplicated()] sees it: two nulls are equal. *)
Definition cell_eqb (a b : option value) : bool :=
  match a, b with
  | None, None => true
  | Some x, Some y => value_eqb x y
  | _, _ => false
  end.

Fixpoint row_eqb (r1 r2 : list (option value)) : bool :=
  match r1, r2 with
  | [], [] => true
  | a :: t1, b :: t2 => cell_eqb a b && row_eqb t1 t2
  | _, _ => false
  end.

Definition series_values (s : Series) : list (option value) :=
  match s with
  | NumSeries l => map (option_map VNum) l
  | ObjSeries l => map (option_map VStr) l
  end.

(** The rows of a frame, in index order. *)
Definition row_at (df : DataFrame) (i : nat) : list (option value) :=
  map (fun c => nth i (series_values (snd c)) None) (columns df).

Definition rows_of (df : DataFrame) : list (list (option value)) :=
  map (row_at df) (seq 0 (nrows df)).

(** [df.duplicated()] and [df.duplicated().sum()] *)
Definition df_duplicated (df : DataFrame) : list bool :=
  duplicated row_eqb (rows_of df).

Definition duplicate_rows (df : DataFrame) : nat :=
  count_true (df_duplicated df).

(** [df.isnull().sum().sum()] *)
Definition missing_cells (df : DataFrame) : nat :=
  fold_right Nat.add 0%nat (map (fun c => series_null_count (snd c)) (columns df)).

(** ** Trend and correlation analyzer ([summarize.py]) *)

Inductive TrendDirection : Type :=
| insufficient_data | increasing | decreasing | stable.

Record TrendInfo : Type := mkTrendInfo {
  t_mean : npfloat;
  t_median : Q;
  t_std : npfloat;
  t_min : npfloat;
  t_max : npfloat;
  t_range : npfloat;
  trend_direction : TrendDirection;
  coefficient_of_variation : npfloat
}.

Record DistributionInfo : Type := mkDistributionInfo {
  unique_count : nat;
  top_values : list (value * nat);
  most_common : value;
  most_common_count : nat;
  concentration : npfloat
}.

Inductive Strength : Type := strong_positive | strong_negative.

Record CorrelationEntry : Type := mkCorrelationEntry {
  coefficient : npfloat;
  strength : Strength
}.

(** [x / y] on two floats. *)
Definition divf (x y : npfloat) : npfloat :=
  match x, y with
  | NaN, _ | _, NaN => NaN
  | Fin a, Fin b => div a b
  | Fin _, _ => Fin 0
  | _, PInf | _, NInf => NaN
  | PInf, Fin b => if Qlt_bool b 0 then NInf else PInf
  | NInf, Fin b => if Qlt_bool b 0 then PInf else NInf
  end.

(** [x != 0] *)
Definition nonzero (x : npfloat) : bool :=
  match x with
  | Fin q => negb (Qeq_bool q 0)
  | _ => true
  end.

(** [abs(x)] *)
Definition absf (x : npfloat) : npfloat :=
  match x with
  | Fin q => Fin (Qabs q)
  | NInf => PInf
  | _ => x
  end.

Fixpoint count_by {A : Type} (eqb : A -> A -> bool) (x : A) (l : list A) : nat :=
  match l with
  | [] => 0%nat
  | y :: t => if eqb x y then S (count_by eqb x t) else count_by eqb x t
  end.

(** Descending stable sort on the counts. *)
Fixpoint insert_count (x : value * nat) (l : list (value * nat)) : list (value * nat) :=
  match l with
  | [] => [x]
  | y :: t => if (snd y <=? snd x)%nat then x :: l else y :: insert_count x t
  end.

(** [series.value_counts()]: every distinct non-null value with its number
    of occurrences, most frequent first (ties in order of first
    appearance). *)
Definition value_counts (s : Series) : list (value * nat) :=
  let vals := dropna (series_values s) in
  fold_right insert_count []
    (map (fun v => (v, count_by value_eqb v vals)) (unique value_eqb vals)).

Module TrendAnalyzer.

Record t : Type := mk {
  df : DataFrame;
  column_types : list (string * ColumnType)
}.

Definition numeric_cols (self : t) : list string :=
  cols_of_type is_numeric_type (column_types self).

Definition categorical_cols (self : t) : list string :=
  cols_of_type is_categorical_type (column_types self).

Section NumericTrends.

(** [series.mean()] and [series.std()] (the sample standard deviation,
    [nan] below two values) are pandas' own: the order in which the
    values are summed, and so the last bit of the result, is the
    library's. *)
Variable series_mean : list Q -> npfloat.
Variable std : list Q -> npfloat.

(** [series] is free of nulls: the only caller passes [dropna()] data.
    The factors are the binary64 numbers written [1.1] and [0.9], and
    each product is rounded. *)
Definition _detect_trend_direction (series : list Q) : TrendDirection :=
  if (length series <? 2)%nat then insufficient_data
  else
    let mid := (length series / 2)%nat in
    let first_half_mean := series_mean (firstn mid series) in
    let second_half_mean := series_mean (skipn mid series) in
    if gtb second_half_mean
           (Binary64.mul first_half_mean (Fin (Binary64.lit (11 # 10))))
    then increasing
    else if ltb second_half_mean
                (Binary64.mul first_half_mean (Fin (Binary64.lit (9 # 10))))
    then decreasing
    else stable.

(** The difference [max - min] is the rounded one of a float column; on
    an integer column it is the integer difference, the same number as
    long as it fits 53 bits. *)
Definition trend_info (data : list Q) : TrendInfo :=
  let mean_val := series_mean data in
  {| t_mean := mean_val;
     t_median := median data;
     t_std := std data;
     t_min := series_min data;
     t_max := series_max data;
     t_range := Binary64.sub (series_max data) (series_min data);
     trend_direction := _detect_trend_direction data;
     coefficient_of_variation :=
       if nonzero mean_val
       then Binary64.mul (Binary64.div (std data) mean_val) (Fin 100)
       else Fin 0 |}.

Fixpoint numeric_trends_loop (d : DataFrame) (cols : list string)
    (trends : list (string * TrendInfo))
    : result (list (string * TrendInfo)) :=
  match cols with
  | [] => Ok trends
  | col :: rest =>
      data <- AnomalyDetector.numeric_data d col ;;
      if (length data =? 0)%nat then numeric_trends_loop d rest trends
      else numeric_trends_loop d rest (dict_set col (trend_info data) trends)
  end.

Definition _analyze_numeric_trends (self : t)
    : result (list (string * TrendInfo)) :=
  numeric_trends_loop (df self) (firstn 5 (numeric_cols self)) [].

End NumericTrends.

(** One entry of [_analyze_categorical_distributions]; [n] is
    [len(self.df)].  [value_counts.index[0]] raises on a column without a
    non-null value. *)
Definition distribution_info (n : nat) (s : Series) : result DistributionInfo :=
  let vc := value_counts s in
  match vc with
  | [] => Raise IndexError
  | (top, top_count) :: _ =>
      Ok {| unique_count := nunique s;
            top_values := firstn 5 vc;
            most_common := top;
            most_common_count := top_count;
            concentration := mul (div (of_nat top_count) (of_nat n)) 100 |}
  end.

Fixpoint distributions_loop (d : DataFrame) (cols : list string)
    (distributions : list (string * DistributionInfo))
    : result (list (string * DistributionInfo)) :=
  match cols with
  | [] => Ok distributions
  | col :: rest =>
      match get_col d col with
      | None => Raise KeyError
      | Some s =>
          info <- distribution_info (nrows d) s ;;
          distributions_loop d rest (dict_set col info distributions)
      end
  end.

Definition _analyze_categorical_distributions (self : t)
    : result (list (string * DistributionInfo)) :=
  distributions_loop (df self) (firstn 3 (categorical_cols self)) [].

Section Correlations.

(** One cell of [DataFrame.corr()]: the Pearson coefficient of two
    columns, [nan] where it is undefined. *)
Variable corr : Series -> Series -> npfloat.

(** [self.df[self.numeric_cols]] *)
Fixpoint get_cols (d : DataFrame) (cols : list string)
    : result (list (string * Series)) :=
  match cols with
  | [] => Ok []
  | col :: rest =>
      match get_col d col with
      | None => Raise KeyError
      | Some s => tl <- get_cols d rest ;; Ok ((col, s) :: tl)
      end
  end.

(** The index pairs [i < j] in the order of the two nested loops. *)
Fixpoint pairs {A : Type} (l : list A) : list (A * A) :=
  match l with
  | [] => []
  | x :: t => map (pair x) t ++ pairs t
  end.

Definition pair_name (a b : string) : string := (a ++ " & " ++ b)%string.

Definition add_correlation (correlations : list (string * CorrelationEntry))
    (p : (string * Series) * (string * Series))
    : list (string * CorrelationEntry) :=
  let corr_value := corr (snd (fst p)) (snd (snd p)) in
  if gtb (absf corr_value) (Fin (7 # 10)) then
    dict_set (pair_name (fst (fst p)) (fst (snd p)))
      {| coefficient := corr_value;
         strength := if gtb corr_value (Fin 0) then strong_positive
                     else strong_negative |}
      correlations
  else correlations.

Definition _analyze_correlations (self : t)
    : result (list (string * CorrelationEntry)) :=
  if (length (numeric_cols self) <? 2)%nat then Ok []
  else
    sub_df <- get_cols (df self) (numeric_cols self) ;;
    Ok (fold_left add_correlation (pairs sub_df) []).

End Correlations.

End TrendAnalyzer.

(** ** Forecasting ([predictive_insight.py]) *)

Module PredictiveInsights.

Record t : Type := mk {
  df : DataFrame;
  column_types : list (string * ColumnType)
}.

(** The chart: the historical points and the forecast points. *)
Record Figure : Type := mkFigure {
  historical : list Q;
  forecast : list Q
}.

(** The second component of the answer: a plain message, or the figures
    the forecast summary is formatted from. *)
Inductive Insight : Type :=
| Message (text : string)
| Summary (current_avg forecast_avg change_pct : npfloat)
          (trend : TrendDirection) (avg_change : Q).

Section Forecast.

(** [LinearRegression().fit(X, y)] on [X = 0, 1, ..., len(y)-1]: the
    fitted slope [coef_[0]] and [intercept_]. *)
Variable fit : list Q -> Q * Q.

Definition predict (model : Q * Q) (x : nat) : Q :=
  fst model * of_nat x + snd model.

Definition simple_forecast (self : t) (column : string) (periods : nat)
    : result (option Figure * Insight) :=
  match get_col (df self) column with
  | None => Raise KeyError
  | Some (ObjSeries cells) =>
      let data := dropna cells in
      if (length data <? 10)%nat then
        Ok (None, Message "Need at least 10 data points for forecasting")
      else Raise ValueError
  | Some (NumSeries cells) =>
      let data := dropna cells in
      if (length data <? 10)%nat then
        Ok (None, Message "Need at least 10 data points for forecasting")
      else
        let model := fit data in
        let predictions := map (predict model) (seq (length data) periods) in
        let trend := if Qlt_bool 0 (fst model) then increasing else decreasing in
        let current_avg := mean data in
        let forecast_avg := mean predictions in
        let change_pct :=
          if nonzero current_avg
          then mul (divf (sub forecast_avg current_avg) current_avg) 100
          else Fin 0 in
        Ok (Some {| historical := data; forecast := predictions |},
            Summary current_avg forecast_avg change_pct trend (fst model))
  end.

End Forecast.

End PredictiveInsights.

(** ** Action generator ([business_insight.py]) *)

Inductive priority : Type :=
| Critical     (* "Critical Priority" *)
| High         (* "High Priority" *)
| Strategic.   (* "Strategic Opportunity" *)

(** The [Category] texts.  The remaining literal copy of an action (impact,
    quick win, long-term step, expected benefit, owner, timeline) is fixed
    by its category. *)
Inductive category : Type :=
| DataQualityCrisis
| DataQualityIssue
| HighRiskAlert
| PerformanceAlert
| GrowthOpportunity
| PlanningAsset
| ConcentrationRisk
| BalancedPortfolio
| StrategicInsight
| DataGovernanceCrisis
| DataExcellence.

(** An action: its category and priority, and what is interpolated into its
    texts: the column or pair it is about ([Subject], empty for the
    dataset-wide ones), the number quoted in its reason ([Figure]) and, for
    a concentration risk, the dominating value ([Dominant]). *)
Record Action : Type := mkAction {
  Category : category;
  Subject : string;
  Figure : option npfloat;
  Dominant : option value;
  Priority : priority
}.

Definition category_eqb (a b : category) : bool :=
  match a, b with
  | DataQualityCrisis, DataQualityCrisis
  | DataQualityIssue, DataQualityIssue
  | HighRiskAlert, HighRiskAlert
  | PerformanceAlert, PerformanceAlert
  | GrowthOpportunity, GrowthOpportunity
  | PlanningAsset, PlanningAsset
  | ConcentrationRisk, ConcentrationRisk
  | BalancedPortfolio, BalancedPortfolio
  | StrategicInsight, StrategicInsight
  | DataGovernanceCrisis, DataGovernanceCrisis
  | DataExcellence, DataExcellence => true
  | _, _ => false
  end.

Definition priority_eqb (a b : priority) : bool :=
  match a, b with
  | Critical, Critical | High, High | Strategic, Strategic => true
  | _, _ => false
  end.

(** The [priority_order] dictionary.  Its [.get(..., 3)] default is never
    taken: every generated action has one of the three priorities. *)
Definition priority_order (p : priority) : nat :=
  match p with
  | Critical => 0
  | High => 1
  | Strategic => 2
  end.

(** [list.sort(key=...)]: a stable ascending sort on the key. *)
Section StableSort.
Context {A : Type}.
Variable key : A -> nat.

Fixpoint insert_by_key (x : A) (l : list A) : list A :=
  match l with
  | [] => [x]
  | y :: t => if (key x <=? key y)%nat then x :: l else y :: insert_by_key x t
  end.

Fixpoint sort_by_key (l : list A) : list A :=
  match l with
  | [] => []
  | x :: t => insert_by_key x (sort_by_key t)
  end.
End StableSort.

Module BusinessInsightGenerator.

Record t : Type := mk { trend_analyzer : TrendAnalyzer.t }.

(** [(df.isnull().sum() / total_rows) * 100], per column. *)
Definition missing_pct (df : DataFrame) : list (string * npfloat) :=
  map (fun c => (fst c,
                 mul (div (of_nat (series_null_count (snd c))) (of_nat (nrows df))) 100))
      (columns df).

(** Rule family 1: missing data. *)
Definition missing_action (e : string * npfloat) : list Action :=
  let (col, pct) := e in
  if gtb pct (Fin 30) then
    [mkAction DataQualityCrisis col (Some pct) None Critical]
  else if gtb pct (Fin 10) then
    [mkAction DataQualityIssue col (Some pct) None High]
  else [].

(** Rule family 2: variability. *)
Definition variability_action (e : string * TrendInfo) : list Action :=
  let (col, info) := e in
  let cv := coefficient_of_variation info in
  if gtb cv (Fin 100) then [mkAction HighRiskAlert col (Some cv) None Critical]
  else [].

(** Rule family 3: declining metrics.  ([avg_decline] is computed there
    and never used.) *)
Definition decline_action (e : string * TrendInfo) : list Action :=
  let (col, info) := e in
  match trend_direction info with
  | decreasing => [mkAction PerformanceAlert col None None Critical]
  | _ => []
  end.

(** Rule family 4: growth. *)
Definition growth_action (e : string * TrendInfo) : list Action :=
  let (col, info) := e in
  match trend_direction info with
  | increasing => [mkAction GrowthOpportunity col None None Strategic]
  | _ => []
  end.

(** Rule family 5: stable metrics. *)
Definition stable_action (e : string * TrendInfo) : list Action :=
  let (col, info) := e in
  match trend_direction info with
  | stable =>
      if ltb (coefficient_of_variation info) (Fin 10)
      then [mkAction PlanningAsset col None None Strategic]
      else []
  | _ => []
  end.

(** Rule family 6: concentration. *)
Definition concentration_action (e : string * DistributionInfo) : list Action :=
  let (col, info) := e in
  let c := concentration info in
  if gtb c (Fin 70) then
    [mkAction ConcentrationRisk col (Some c) (Some (most_common info)) High]
  else if ltb c (Fin 20) then
    [mkAction BalancedPortfolio col (Some c) None Strategic]
  else [].

(** Rule family 7: correlations. *)
Definition correlation_action (e : string * CorrelationEntry) : list Action :=
  let (pair, info) := e in
  match strength info with
  | strong_positive =>
      [mkAction StrategicInsight pair (Some (coefficient info)) None Strategic]
  | strong_negative => []
  end.

(** Rule family 8: the quality score and its action. *)
Definition quality_score (df : DataFrame) : npfloat :=
  let total_rows := nrows df in
  let total_cells := (total_rows * length (columns df))%nat in
  let score :=
    Binary64.mul
      (Binary64.div (Fin (of_nat total_cells - of_nat (missing_cells df)))
                    (Fin (of_nat total_cells)))
      (Fin 100) in
  Binary64.sub score
    (Binary64.mul
       (Binary64.div (Fin (of_nat (duplicate_rows df))) (Fin (of_nat total_rows)))
       (Fin 10)).

Definition governance_action (score : npfloat) : list Action :=
  if ltb score (Fin 80) then
    [mkAction DataGovernanceCrisis "" (Some score) None Critical]
  else if geb score (Fin 90) then
    [mkAction DataExcellence "" (Some score) None Strategic]
  else [].

Section Generator.

Variable series_mean : list Q -> npfloat.
Variable std : list Q -> npfloat.
Variable corr : Series -> Series -> npfloat.

(** The action list as the eight rule families append to it, before it
    is sorted. *)
Definition generated_actions (self : t) : result (list Action) :=
  let ta := trend_analyzer self in
  let df := TrendAnalyzer.df ta in
  let actions1 := flat_map missing_action (missing_pct df) in
  numeric_trends <- TrendAnalyzer._analyze_numeric_trends series_mean std ta ;;
  let actions2 := flat_map variability_action numeric_trends in
  let actions3 := flat_map decline_action numeric_trends in
  let actions4 := flat_map growth_action numeric_trends in
  let actions5 := flat_map stable_action numeric_trends in
  cat_distributions <- TrendAnalyzer._analyze_categorical_distributions ta ;;
  let actions6 := flat_map concentration_action cat_distributions in
  correlations <- TrendAnalyzer._analyze_correlations corr ta ;;
  let actions7 := flat_map correlation_action correlations in
  let actions8 := governance_action (quality_score df) in
  Ok (actions1 ++ actions2 ++ actions3 ++ actions4 ++ actions5
        ++ actions6 ++ actions7 ++ actions8).

Definition generate_business_actions (self : t) : result (list Action) :=
  actions <- generated_actions self ;;
  Ok (sort_by_key (fun x => priority_order (Priority x)) actions).

End Generator.

End BusinessInsightGenerator.

(** ** Frame operations used by the data processor *)

Definition series_select (mask : list bool) (s : Series) : Series :=
  match s with
  | NumSeries l => NumSeries (select mask l)
  | ObjSeries l => ObjSeries (select mask l)
  end.

(** [df[mask]]: the rows whose mask bit is set. *)
Definition select_rows (mask : list bool) (df : DataFrame) : DataFrame :=
  {| nrows := count_true mask;
     columns := map (fun c => (fst c, series_select mask (snd c))) (columns df) |}.

(** [df.drop_duplicates()] *)
Definition df_drop_duplicates (df : DataFrame) : DataFrame :=
  select_rows (map negb (df_duplicated df)) df.

(** [df.dropna()]: the rows without a null cell. *)
Definition df_dropna (df : DataFrame) : DataFrame :=
  select_rows (map (forallb (fun c : option value => negb (is_none c))) (rows_of df)) df.

(** [df.drop(columns=cols)] *)
Definition drop_columns (cols : list string) (df : DataFrame) : DataFrame :=
  {| nrows := nrows df;
     columns := filter (fun c => negb (str_mem (fst c) cols)) (columns df) |}.

(** [df[col] = s] for a column the frame has. *)
Fixpoint set_col (col : string) (s : Series) (cols : list (string * Series))
    : list (string * Series) :=
  match cols with
  | [] => []
  | (k, v) :: t =>
      if String.eqb col k then (k, s) :: t else (k, v) :: set_col col s t
  end.

Definition value_leb (a b : value) : bool :=
  match a, b with
  | VNum x, VNum y => Qle_bool x y
  | VStr x, VStr y => String.leb x y
  | VNum _, VStr _ => true
  | VStr _, VNum _ => false
  end.

(** [series.mode()]: [None] is the empty result; otherwise [mode()[0]], the
    smallest of the most frequent values. *)
Definition mode (s : Series) : option value :=
  match value_counts s with
  | [] => None
  | (v, c) :: t =>
      Some (fold_left (fun best e => if value_leb best e then best else e)
                      (map fst (filter (fun e => (snd e =? c)%nat) t)) v)
  end.

Definition fill_cell {A : Type} (x : A) (c : option A) : option A :=
  match c with
  | None => Some x
  | Some _ => c
  end.

(** [series.fillna(v)] *)
Definition series_fillna (v : value) (s : Series) : Series :=
  match s, v with
  | NumSeries l, VNum q => NumSeries (map (fill_cell q) l)
  | ObjSeries l, VStr x => ObjSeries (map (fill_cell x) l)
  | _, _ => s
  end.

(** ** Column names *)

Definition is_space (c : ascii) : bool :=
  let n := nat_of_ascii c in
  (n =? 32)%nat || ((9 <=? n)%nat && (n <=? 13)%nat).

Fixpoint lstrip (s : string) : string :=
  match s with
  | EmptyString => EmptyString
  | String c t => if is_space c then lstrip t else s
  end.

Fixpoint rstrip (s : string) : string :=
  match s with
  | EmptyString => EmptyString
  | String c t =>
      match rstrip t with
      | EmptyString => if is_space c then EmptyString else String c EmptyString
      | t' => String c t'
      end
  end.

Definition strip (s : string) : string := rstrip (lstrip s).

(** [s.replace(' ', '_')] *)
Fixpoint replace_spaces (s : string) : string :=
  match s with
  | EmptyString => EmptyString
  | String c t =>
      String (if (nat_of_ascii c =? 32)%nat then "_"%char else c) (replace_spaces t)
  end.

(** [df.columns.str.strip().str.replace(' ', '_').str.lower()] *)
Definition clean_column_name (s : string) : string :=
  lower (replace_spaces (strip s)).

(** ** Data processor ([data_processor.py]) *)

Record NumericProfile : Type := mkNumericProfile {
  p_min : npfloat;
  p_max : npfloat;
  p_mean : npfloat;
  p_median : Q;
  p_std : npfloat;
  has_outliers : bool
}.

(** A column's profile.  The date fields of a datetime column need parsed
    dates and are left out. *)
Record ColumnProfile : Type := mkColumnProfile {
  p_type : ColumnType;
  p_missing_count : nat;
  p_missing_percentage : npfloat;
  p_unique_values : nat;
  p_numeric : option NumericProfile;
  p_top_values : list (value * nat);
  p_most_common : option value
}.

(** The dataset profile; the memory estimate is left out. *)
Record DataProfile : Type := mkDataProfile {
  row_count : nat;
  column_count : nat;
  missing_values : list (string * nat);
  missing_percentage : list (string * npfloat);
  profile_duplicate_rows : nat;
  profile_column_types : list (string * ColumnType);
  profile_columns : list (string * ColumnProfile)
}.

Inductive HandleMissing : Type :=
| drop_cols | drop_rows | fill_mean | fill_mode | none.

(** The entries of [steps_taken]. *)
Inductive StepTaken : Type :=
| RemovedDuplicates (dup_count : nat)
| DroppedColumns (how_many : nat) (missing_threshold : Q)
| DroppedRows (rows_dropped : nat)
| FilledMeans
| FilledModes
| ReplacedOutliers (outliers_removed : nat).

Record CleaningReport : Type := mkCleaningReport {
  original_rows : nat;
  original_cols : nat;
  steps_taken : list StepTaken;
  cleaned_rows : nat;
  cleaned_cols : nat;
  rows_removed : nat;
  cols_removed : nat
}.

(** The entries of [cleaning_steps], stamped with the clock reading. *)
Inductive LogEntry : Type :=
| DataLoaded (rows cols : nat) (timestamp : string)
| DataCleaned (details : CleaningReport) (timestamp : string).

(** What [pd.read_csv] does with the uploaded bytes for one choice of
    separator and encoding: a frame, or the exception it raises with its
    text. *)
Inductive Separator : Type := comma | semicolon | tab.
Inductive Encoding : Type := utf_8 | latin1 | iso_8859_1.

Inductive ReadOutcome : Type :=
| Parsed (df : DataFrame)
| UnicodeDecodeError (text : string)
| ParserError (text : string)
| OtherError (text : string).

Definition UploadedFile : Type := Separator -> Encoding -> ReadOutcome.

Module DataProcessor.

Record t : Type := mk {
  original_df : option DataFrame;
  processed_df : option DataFrame;
  column_datatypes : list (string * ColumnType);
  data_profile : option DataProfile;
  cleaning_steps : list LogEntry
}.

(** [__init__] *)
Definition init : t :=
  {| original_df := None; processed_df := None; column_datatypes := [];
     data_profile := None; cleaning_steps := [] |}.

Section Processor.

Variable to_datetime_ok : list (option string) -> bool.
Variable std : list Q -> npfloat.

(** [self.column_datatypes.get(col, "unknown")] *)
Definition type_of (types : list (string * ColumnType)) (col : string) : ColumnType :=
  match assoc col types with
  | Some ty => ty
  | None => TUnknown
  end.

(** The profile of one column; [n] is [len(df)]. *)
Definition profile_column (n : nat) (col_type : ColumnType) (s : Series)
    : result ColumnProfile :=
  let base numeric top common :=
    {| p_type := col_type;
       p_missing_count := series_null_count s;
       p_missing_percentage := mul (div (of_nat (series_null_count s)) (of_nat n)) 100;
       p_unique_values := nunique s;
       p_numeric := numeric;
       p_top_values := top;
       p_most_common := common |} in
  if is_numeric_type col_type then
    match s with
    | NumSeries cells =>
        let data := dropna cells in
        match data with
        | [] => Ok (base None [] None)
        | _ :: _ =>
            Ok (base (Some {| p_min := series_min data;
                              p_max := series_max data;
                              p_mean := mean data;
                              p_median := median data;
                              p_std := match std data with NaN => Fin 0 | x => x end;
                              has_outliers := _has_outliers cells |})
                     [] None)
        end
    | ObjSeries cells =>
        match dropna cells with
        | [] => Ok (base None [] None)
        | _ :: _ => Raise TypeError
        end
    end
  else if is_categorical_type col_type then
    Ok (base None (firstn 5 (value_counts s)) (mode s))
  else Ok (base None [] None).

(** The loop over [df.columns]: the column profiles built so far, and
    the exception that stopped the loop, if one did. *)
Fixpoint profile_columns_loop (n : nat) (types : list (string * ColumnType))
    (cols : list (string * Series)) (acc : list (string * ColumnProfile))
    : list (string * ColumnProfile) * option exn :=
  match cols with
  | [] => (acc, None)
  | (col, s) :: rest =>
      match profile_column n (type_of types col) s with
      | Raise e => (acc, Some e)
      | Ok col_profile =>
          profile_columns_loop n types rest (dict_set col col_profile acc)
      end
  end.

(** [profile_data] for the frame [df] and the types [types]: the
    profile it leaves in [self.data_profile], and the exception it
    raised, if any. *)
Definition profile_data (types : list (string * ColumnType)) (df : DataFrame)
    : DataProfile * option exn :=
  let (cols, raised) := profile_columns_loop (nrows df) types (columns df) [] in
  ({| row_count := nrows df;
      column_count := length (columns df);
      missing_values := map (fun c => (fst c, series_null_count (snd c))) (columns df);
      missing_percentage := BusinessInsightGenerator.missing_pct df;
      profile_duplicate_rows := duplicate_rows df;
      profile_column_types := types;
      profile_columns := cols |}, raised).

(** The statements that publish a frame: store it, [detect_column_types],
    [profile_data].  The state is returned as far as it got, with the
    exception if the profiler raised. *)
Definition publish (self : t) (original : option DataFrame) (df : DataFrame)
    : t * option exn :=
  let types := detect_column_types to_datetime_ok df in
  let (profile, raised) := profile_data types df in
  ({| original_df := original; processed_df := Some df;
      column_datatypes := types; data_profile := Some profile;
      cleaning_steps := cleaning_steps self |}, raised).

Definition exn_text (e : exn) : string :=
  match e with
  | KeyError => "KeyError"
  | TypeError => "TypeError"
  | IndexError => "IndexError"
  | ValueError => "ValueError"
  end.

(** The nested [try] blocks around [pd.read_csv]: on a decoding error
    the other encodings, on a parser error the other separators. *)
Definition read_csv_with_fallbacks (f : UploadedFile) : ReadOutcome :=
  match f comma utf_8 with
  | UnicodeDecodeError _ =>
      match f comma latin1 with
      | Parsed df => Parsed df
      | _ => f comma iso_8859_1
      end
  | ParserError _ =>
      match f semicolon utf_8 with
      | Parsed df => Parsed df
      | _ => f tab utf_8
      end
  | r => r
  end.

(** [df.empty] *)
Definition df_empty (df : DataFrame) : bool :=
  (nrows df =? 0)%nat || (length (columns df) =? 0)%nat.

Definition rename_columns (df : DataFrame) : DataFrame :=
  {| nrows := nrows df;
     columns := map (fun c => (clean_column_name (fst c), snd c)) (columns df) |}.

Definition error_message (cause : string) : string :=
  ("Error loading CSV: " ++ cause)%string.

(** [load_data]: the processor afterwards, the returned frame ([None]
    for Python's [None]) and the message handed to [st.error], if any.
    [now] is the clock reading. *)
Definition load_data (self : t) (uploaded_file : option UploadedFile)
    (now : string) : t * option DataFrame * option string :=
  match uploaded_file with
  | None => (self, None, None)
  | Some f =>
      match read_csv_with_fallbacks f with
      | Parsed df =>
          if df_empty df then
            (self, None, Some (error_message "CSV file is empty"))
          else if (length (columns df) =? 0)%nat then
            (self, None, Some (error_message "CSV has no columns"))
          else
            let df := rename_columns df in
            match publish self (Some df) df with
            | (self', Some e) => (self', None, Some (error_message (exn_text e)))
            | (self', None) =>
                ({| original_df := original_df self';
                    processed_df := processed_df self';
                    column_datatypes := column_datatypes self';
                    data_profile := data_profile self';
                    cleaning_steps :=
                      cleaning_steps self'
                        ++ [DataLoaded (nrows df) (length (columns df)) now] |},
                 Some df, None)
            end
      | UnicodeDecodeError text | ParserError text | OtherError text =>
          (self, None, Some (error_message text))
      end
  end.

(** Step 2 of [clean_data]. *)
Definition fill_mean_col (s : Series) : Series :=
  match s with
  | NumSeries l =>
      if existsb is_none l then
        match mean (dropna l) with
        | Fin m => NumSeries (map (fill_cell m) l)
        | _ => s
        end
      else s
  | ObjSeries _ => s
  end.

Definition has_null (s : Series) : bool :=
  (0 <? series_null_count s)%nat.

Definition fill_mode_col (s : Series) : Series :=
  if has_null s then
    match mode s with
    | Some v => series_fillna v s
    | None => s
    end
  else s.

Definition map_columns (f : Series -> Series) (df : DataFrame) : DataFrame :=
  {| nrows := nrows df;
     columns := map (fun c => (fst c, f (snd c))) (columns df) |}.

Definition handle_missing_step (handle_missing : HandleMissing)
    (missing_threshold : Q) (df : DataFrame) : DataFrame * list StepTaken :=
  match handle_missing with
  | drop_cols =>
      let cols_to_drop :=
        map fst
          (filter (fun c => gtb (div (of_nat (series_null_count (snd c)))
                                     (of_nat (nrows df)))
                                (Fin missing_threshold))
                  (columns df)) in
      match cols_to_drop with
      | [] => (df, [])
      | _ :: _ => (drop_columns cols_to_drop df,
                   [DroppedColumns (length cols_to_drop) missing_threshold])
      end
  | drop_rows =>
      let rows_before := nrows df in
      let df' := df_dropna df in
      let rows_dropped := (rows_before - nrows df')%nat in
      (df', if (0 <? rows_dropped)%nat then [DroppedRows rows_dropped] else [])
  | fill_mean => (map_columns fill_mean_col df, [FilledMeans])
  | fill_mode => (map_columns fill_mode_col df, [FilledModes])
  | none => (df, [])
  end.

(** Step 3 of [clean_data] on one column: out-of-bounds values become
    the column median. *)
Definition cell_is_outlier (lo hi : Q) (c : option Q) : bool :=
  match c with
  | Some x => is_outlier lo hi x
  | None => false
  end.

Fixpoint remove_outliers_loop (cols : list string) (df : DataFrame)
    (outliers_removed : nat) : result (DataFrame * nat) :=
  match cols with
  | [] => Ok (df, outliers_removed)
  | col :: rest =>
      match get_col df col with
      | None => Raise KeyError
      | Some (ObjSeries cells) =>
          if (length (dropna cells) <? 4)%nat
          then remove_outliers_loop rest df outliers_removed
          else Raise TypeError
      | Some (NumSeries cells) =>
          let data := dropna cells in
          if (length data <? 4)%nat
          then remove_outliers_loop rest df outliers_removed
          else
            let lo := lower_bound data in
            let hi := upper_bound data in
            let outliers_in_col := count_true (map (cell_is_outlier lo hi) cells) in
            let med := median data in
            let cells' :=
              map (fun c => if cell_is_outlier lo hi c then Some med else c) cells in
            remove_outliers_loop rest
              {| nrows := nrows df;
                 columns := set_col col (NumSeries cells') (columns df) |}
              (outliers_removed + outliers_in_col)
      end
  end.

(** [clean_data]: the processor afterwards and the returned report
    ([None] when no frame is loaded), or the exception raised. *)
Definition clean_data (self : t) (remove_duplicates : bool)
    (handle_missing : HandleMissing) (missing_threshold : Q)
    (remove_outliers : bool) (now : string)
    : t * result (option CleaningReport) :=
  match processed_df self with
  | None => (self, Ok None)
  | Some df0 =>
      let original_rows := nrows df0 in
      let original_cols := length (columns df0) in
      (* 1. Remove duplicates *)
      let dup_count := duplicate_rows df0 in
      let (df1, steps1) :=
        if remove_duplicates && (0 <? dup_count)%nat
        then (df_drop_duplicates df0, [RemovedDuplicates dup_count])
        else (df0, []) in
      (* 2. Handle missing values *)
      let (df2, steps2) := handle_missing_step handle_missing missing_threshold df1 in
      (* 3. Remove outliers *)
      let step3 :=
        if remove_outliers then
          let numeric_cols :=
            map fst (filter (fun c => is_numeric_type (snd c)
                                      && str_mem (fst c) (col_names df2))
                            (column_datatypes self)) in
          r <- remove_outliers_loop numeric_cols df2 0%nat ;;
          Ok (fst r, if (0 <? snd r)%nat then [ReplacedOutliers (snd r)] else [])
        else Ok (df2, []) in
      match step3 with
      | Raise e => (self, Raise e)
      | Ok (df, steps3) =>
          match publish self (original_df self) df with
          | (self', Some e) => (self', Raise e)
          | (self', None) =>
              let cleaning_report :=
                {| original_rows := original_rows;
                   original_cols := original_cols;
                   steps_taken := steps1 ++ steps2 ++ steps3;
                   cleaned_rows := nrows df;
                   cleaned_cols := length (columns df);
                   rows_removed := (original_rows - nrows df)%nat;
                   cols_removed := (original_cols - length (columns df))%nat |} in
              ({| original_df := original_df self';
                  processed_df := processed_df self';
                  column_datatypes := column_datatypes self';
                  data_profile := data_profile self';
                  cleaning_steps :=
                    cleaning_steps self' ++ [DataCleaned cleaning_report now] |},
               Ok (Some cleaning_report))
          end
      end
  end.

End Processor.

End DataProcessor.

(** * Further functions of the sources *)

(** ** The remaining anomaly checks ([anomalies.py]) *)

(** [x + y] on two floats. *)
Definition addf (x y : npfloat) : npfloat :=
  match x, y with
  | NaN, _ | _, NaN => NaN
  | Fin a, Fin b => Fin (a + b)
  | PInf, NInf | NInf, PInf => NaN
  | PInf, _ | _, PInf => PInf
  | NInf, _ | _, NInf => NInf
  end.

(** [needle in hay] on strings. *)
Fixpoint contains (needle hay : string) : bool :=
  String.prefix needle hay
  || match hay with
     | EmptyString => false
     | String _ t => contains needle t
     end.

Record MissingInfo : Type := mkMissingInfo {
  m_count : nat;
  m_percentage : npfloat
}.

Record MissingPatterns : Type := mkMissingPatterns {
  by_column : list (string * MissingInfo);
  problematic_rows : nat;
  total_missing_cells : nat
}.

Record DuplicateInfo : Type := mkDuplicateInfo {
  d_count : nat;
  d_percentage : npfloat
}.

(** An entry of the unusual-distribution report: each key is present only
    when its check fired. *)
Record UnusualInfo : Type := mkUnusualInfo {
  excessive_zeros : option npfloat;
  unexpected_negatives : option nat
}.


Inductive QualityGrade : Type :=
| GradeExcellent | GradeGood | GradeFair | GradeNeedsImprovement.

Inductive QualityAdvice : Type :=
| AdviceReliable | AdviceUsable | AdviceCleanup.

Record QualityScore : Type := mkQualityScore {
  completeness_score : Q;
  uniqueness_score : Q;
  accuracy_score : Q;
  overall_score : Q;
  quality_grade : QualityGrade;
  quality_advice : QualityAdvice
}.

(** What [visualize_data_quality_score] does: it returns its scores, or
    one of the detectors it calls raises, or its own division of Python
    integers raises [ZeroDivisionError]. *)
Inductive ScoreOutcome : Type :=
| Scored (score : QualityScore)
| DetectorRaised (e : exn)
| ZeroDivisionError.

Module AnomalyChecks.

(** The loop of [_detect_missing_patterns] over [df.columns]. *)
Fixpoint missing_loop (n : nat) (cols : list (string * Series))
    (missing_info : list (string * MissingInfo)) : list (string * MissingInfo) :=
  match cols with
  | [] => missing_info
  | (col, s) :: rest =>
      let missing_count := series_null_count s in
      if (0 <? missing_count)%nat then
        missing_loop n rest
          (dict_set col
             {| m_count := missing_count;
                m_percentage := mul (div (of_nat missing_count) (of_nat n)) 100 |}
             missing_info)
      else missing_loop n rest missing_info
  end.

(** [df.isnull().sum(axis=1)]: the null cells of each row. *)
Definition row_null_counts (d : DataFrame) : list nat :=
  map (fun r => length (filter (fun c : option value => is_none c) r)) (rows_of d).

Definition _detect_missing_patterns (self : AnomalyDetector.t) : MissingPatterns :=
  let d := AnomalyDetector.df self in
  let rows_with_missing :=
    count_true
      (map (fun k => Qlt_bool (of_nat (length (columns d)) * (3 # 10)) (of_nat k))
           (row_null_counts d)) in
  {| by_column := missing_loop (nrows d) (columns d) [];
     problematic_rows := rows_with_missing;
     total_missing_cells := missing_cells d |}.

Definition _detect_duplicates (self : AnomalyDetector.t) : DuplicateInfo :=
  let d := AnomalyDetector.df self in
  let duplicate_count := duplicate_rows d in
  {| d_count := duplicate_count;
     d_percentage := mul (div (of_nat duplicate_count) (of_nat (nrows d))) 100 |}.

Definition positive_keywords : list string :=
  ["price"; "amount"; "quantity"; "age"; "count"]%string.

(** The two checks of [_detect_unusual_distributions] on the non-empty
    [data] of column [col], applied to the entry the column has so far. *)
Definition unusual_checks (col : string) (data : list Q) (unusual : list (string * UnusualInfo))
    : list (string * UnusualInfo) :=
  let current u :=
    match assoc col u with
    | Some e => e
    | None => {| excessive_zeros := None; unexpected_negatives := None |}
    end in
  let zero_pct :=
    mul (div (of_nat (length (filter (fun x => Qeq_bool x 0) data)))
             (of_nat (length data))) 100 in
  let unusual1 :=
    if gtb zero_pct (Fin 30) then
      dict_set col {| excessive_zeros := Some zero_pct;
                      unexpected_negatives := unexpected_negatives (current unusual) |}
               unusual
    else unusual in
  if existsb (fun keyword => contains keyword (lower col)) positive_keywords then
    let negative_count := length (filter (fun x => Qlt_bool x 0) data) in
    if (0 <? negative_count)%nat then
      dict_set col {| excessive_zeros := excessive_zeros (current unusual1);
                      unexpected_negatives := Some negative_count |}
               unusual1
    else unusual1
  else unusual1.

Fixpoint unusual_loop (d : DataFrame) (cols : list string)
    (unusual : list (string * UnusualInfo)) : result (list (string * UnusualInfo)) :=
  match cols with
  | [] => Ok unusual
  | col :: rest =>
      data <- AnomalyDetector.numeric_data d col ;;
      if (length data =? 0)%nat then unusual_loop d rest unusual
      else unusual_loop d rest (unusual_checks col data unusual)
  end.

Definition _detect_unusual_distributions (self : AnomalyDetector.t)
    : result (list (string * UnusualInfo)) :=
  unusual_loop (AnomalyDetector.df self)
    (firstn 5 (AnomalyDetector.numeric_cols self)) [].



(** The score part of [visualize_data_quality_score]; the gauge chart shows
    [overall_score].  The operands are Python integers here, so a division
    by zero raises. *)
Definition visualize_data_quality_score (self : AnomalyDetector.t) : ScoreOutcome :=
  let d := AnomalyDetector.df self in
  let missing_info := _detect_missing_patterns self in
  let dup_info := _detect_duplicates self in
  match AnomalyDetector._detect_outliers self with
  | Raise e => DetectorRaised e
  | Ok outlier_info =>
      let total_cells := (nrows d * length (columns d))%nat in
      if (total_cells =? 0)%nat then ZeroDivisionError
      else
        let completeness :=
          (of_nat total_cells - of_nat (total_missing_cells missing_info))
          / of_nat total_cells * 100 in
        if (nrows d =? 0)%nat then ZeroDivisionError
        else
          let uniqueness :=
            (of_nat (nrows d) - of_nat (d_count dup_info)) / of_nat (nrows d) * 100 in
          let total_outliers :=
            fold_right Nat.add 0%nat (map (fun e => o_count (snd e)) outlier_info) in
          let accuracy :=
            let x := 100 - of_nat total_outliers / of_nat (nrows d) * 100 in
            if Qlt_bool 0 x then x else 0 in
          let overall :=
            completeness * (4 # 10) + uniqueness * (3 # 10) + accuracy * (3 # 10) in
          Scored {| completeness_score := completeness;
                    uniqueness_score := uniqueness;
                    accuracy_score := accuracy;
                    overall_score := overall;
                    quality_grade :=
                      if Qle_bool 90 overall then GradeExcellent
                      else if Qle_bool 75 overall then GradeGood
                      else if Qle_bool 60 overall then GradeFair
                      else GradeNeedsImprovement;
                    quality_advice :=
                      if Qle_bool 80 overall then AdviceReliable
                      else if Qle_bool 60 overall then AdviceUsable
                      else AdviceCleanup |}
  end.

End AnomalyChecks.

(** ** The executive summary ([business_insight.py]) *)

Inductive SummaryGrade : Type :=
| Excellent | VeryGood | Good | Fair | Poor.

(** The answer of [_calculate_quality_score]; the recommendation text is
    fixed by the grade. *)
Record SummaryQuality : Type := mkSummaryQuality {
  sq_score : npfloat;
  sq_grade : SummaryGrade;
  sq_completeness : npfloat;
  sq_uniqueness : npfloat
}.

Inductive Variability : Type := HighVariability | LowVariability.

Record KeyMetric : Type := mkKeyMetric {
  km_name : string;
  km_average : npfloat;
  km_trend : TrendDirection;
  km_variability : Variability;
  km_range : npfloat * npfloat
}.

(** The alert texts, with the figure each one quotes. *)
Inductive Alert : Type :=
| DecliningMetrics (declining_count : nat)
| VolatileMetrics (volatile_count : nat)
| HighMissingFields (high_missing : nat)
| DuplicateRecords (dup_pct : npfloat)
| NoUrgentIssues.

Inductive Opportunity : Type :=
| GrowingMetrics (growing_count : nat)
| StableMetrics (stable_count : nat)
| BalancedCategories (balanced_count : nat)
| ContinueMonitoring.

Record ExecutiveSummary : Type := mkExecutiveSummary {
  dataset_size : nat * nat;
  data_quality : SummaryQuality;
  key_metrics : list KeyMetric;
  alerts : list Alert;
  opportunities : list Opportunity
}.

Module Summary.

Section Rounding.

(** Python's [round(x, 1)] and [round(x, 2)] on a float. *)
Variable round1 : npfloat -> npfloat.
Variable round2 : npfloat -> npfloat.

Definition _calculate_quality_score (df : DataFrame) : SummaryQuality :=
  let total_cells := (nrows df * length (columns df))%nat in
  let completeness :=
    mul (div (of_nat total_cells - of_nat (missing_cells df)) (of_nat total_cells)) 100 in
  let uniqueness :=
    mul (div (of_nat (nrows df) - of_nat (duplicate_rows df)) (of_nat (nrows df))) 100 in
  let overall_score := addf (mul completeness (6 # 10)) (mul uniqueness (4 # 10)) in
  {| sq_score := round1 overall_score;
     sq_grade :=
       if geb overall_score (Fin 95) then Excellent
       else if geb overall_score (Fin 85) then VeryGood
       else if geb overall_score (Fin 75) then Good
       else if geb overall_score (Fin 60) then Fair
       else Poor;
     sq_completeness := round1 completeness;
     sq_uniqueness := round1 uniqueness |}.

Definition _identify_key_metrics (numeric_trends : list (string * TrendInfo))
    : list KeyMetric :=
  map (fun e : string * TrendInfo =>
         let (col, info) := e in
         {| km_name := col;
            km_average := round2 (t_mean info);
            km_trend := trend_direction info;
            km_variability :=
              if gtb (coefficient_of_variation info) (Fin 50)
              then HighVariability else LowVariability;
            km_range := (t_min info, t_max info) |})
      (firstn 3 numeric_trends).

End Rounding.

Definition is_decreasing (t : TrendDirection) : bool :=
  match t with decreasing => true | _ => false end.

Definition is_increasing (t : TrendDirection) : bool :=
  match t with increasing => true | _ => false end.

Definition is_stable (t : TrendDirection) : bool :=
  match t with stable => true | _ => false end.

(** [sum(1 for x in xs if p(x))] *)
Definition count_if {A : Type} (p : A -> bool) (l : list A) : nat :=
  length (filter p l).

Definition _identify_alerts (numeric_trends : list (string * TrendInfo))
    (df : DataFrame) : list Alert :=
  let declining_count :=
    count_if (fun e : string * TrendInfo => is_decreasing (trend_direction (snd e))) numeric_trends in
  let alerts1 :=
    if (0 <? declining_count)%nat then [DecliningMetrics declining_count] else [] in
  let volatile_count :=
    count_if (fun e : string * TrendInfo => gtb (coefficient_of_variation (snd e)) (Fin 100)) numeric_trends in
  let alerts2 :=
    if (0 <? volatile_count)%nat then alerts1 ++ [VolatileMetrics volatile_count]
    else alerts1 in
  let high_missing :=
    count_if (fun c : string * Series => gtb (div (of_nat (series_null_count (snd c))) (of_nat (nrows df)))
                           (Fin (3 # 10)))
             (columns df) in
  let alerts3 :=
    if (0 <? high_missing)%nat then alerts2 ++ [HighMissingFields high_missing]
    else alerts2 in
  let dup_pct := mul (div (of_nat (duplicate_rows df)) (of_nat (nrows df))) 100 in
  let alerts4 :=
    if gtb dup_pct (Fin 5) then alerts3 ++ [DuplicateRecords dup_pct] else alerts3 in
  match alerts4 with
  | [] => [NoUrgentIssues]
  | _ :: _ => alerts4
  end.

Definition _identify_opportunities (numeric_trends : list (string * TrendInfo))
    (cat_distributions : list (string * DistributionInfo)) : list Opportunity :=
  let growing_count :=
    count_if (fun e : string * TrendInfo => is_increasing (trend_direction (snd e))) numeric_trends in
  let opportunities1 :=
    if (0 <? growing_count)%nat then [GrowingMetrics growing_count] else [] in
  let stable_count :=
    count_if (fun e : string * TrendInfo => is_stable (trend_direction (snd e))
                       && ltb (coefficient_of_variation (snd e)) (Fin 10))
             numeric_trends in
  let opportunities2 :=
    if (0 <? stable_count)%nat then opportunities1 ++ [StableMetrics stable_count]
    else opportunities1 in
  let balanced_count :=
    count_if (fun e : string * DistributionInfo => ltb (concentration (snd e)) (Fin 30)) cat_distributions in
  let opportunities3 :=
    if (0 <? balanced_count)%nat
    then opportunities2 ++ [BalancedCategories balanced_count]
    else opportunities2 in
  match opportunities3 with
  | [] => [ContinueMonitoring]
  | _ :: _ => opportunities3
  end.

Section Generator.

Variable series_mean : list Q -> npfloat.
Variable std : list Q -> npfloat.
Variable corr : Series -> Series -> npfloat.
Variable round1 : npfloat -> npfloat.
Variable round2 : npfloat -> npfloat.

Definition generate_executive_summary (self : BusinessInsightGenerator.t)
    : result ExecutiveSummary :=
  let ta := BusinessInsightGenerator.trend_analyzer self in
  let df := TrendAnalyzer.df ta in
  numeric_trends <- TrendAnalyzer._analyze_numeric_trends series_mean std ta ;;
  cat_distributions <- TrendAnalyzer._analyze_categorical_distributions ta ;;
  Ok {| dataset_size := (nrows df, length (columns df));
        data_quality := _calculate_quality_score round1 df;
        key_metrics := _identify_key_metrics round2 numeric_trends;
        alerts := _identify_alerts numeric_trends df;
        opportunities := _identify_opportunities numeric_trends cat_distributions |}.

Definition is_urgent (a : Action) : bool :=
  match Priority a with
  | Critical | High => true
  | Strategic => false
  end.

Definition is_strategic (a : Action) : bool :=
  match Priority a with
  | Strategic => true
  | _ => false
  end.

Definition generate_top_3_insights (self : BusinessInsightGenerator.t)
    : result (list Action) :=
  actions <- BusinessInsightGenerator.generate_business_actions series_mean std corr self ;;
  let top_actions := firstn 3 (filter is_urgent actions) in
  if (length top_actions <? 3)%nat then
    let strategic := filter is_strategic actions in
    Ok (top_actions ++ firstn (3 - length top_actions) strategic)
  else Ok top_actions.

End Generator.

End Summary.

(** ** The column lists of the processor ([data_processor.py]) *)

Definition is_datetime_type (t : ColumnType) : bool :=
  match t with TDatetime => true | _ => false end.

Module ProcessorQueries.

Definition get_numeric_columns (self : DataProcessor.t) : list string :=
  cols_of_type is_numeric_type (DataProcessor.column_datatypes self).

Definition get_categorical_columns (self : DataProcessor.t) : list string :=
  cols_of_type is_categorical_type (DataProcessor.column_datatypes self).

Definition get_datetime_columns (self : DataProcessor.t) : list string :=
  cols_of_type is_datetime_type (DataProcessor.column_datatypes self).

Definition get_cleaning_summary (self : DataProcessor.t) : list LogEntry :=
  DataProcessor.cleaning_steps self.

End ProcessorQueries.

(** ** Automatic cleaning ([app.py]) *)

(** The lines of the cleaning summary, with the figure each one quotes. *)
Inductive CleaningNote : Type :=
| RemovedDuplicateRecords (dup_count : nat)
| RemovedSparseColumns (how_many : nat)
| AlreadyClean.

Section AutoClean.

Variable to_datetime_ok : list (option string) -> bool.
Variable std : list Q -> npfloat.

(** [auto_clean_data]: the processor afterwards and the returned triple
    (frame, summary, whether cleaning ran), or the exception [clean_data]
    raised.  [now] is the clock reading.  The thresholds [5], [0.7] are
    [5] and [7 # 10]. *)
Definition auto_clean_data (df : DataFrame) (processor : DataProcessor.t)
    (now : string)
    : DataProcessor.t * result (option DataFrame * list CleaningNote * bool) :=
  let missing_pct :=
    mul (div (of_nat (missing_cells df)) (of_nat (nrows df * length (columns df)))) 100 in
  let dup_count := duplicate_rows df in
  let summary1 :=
    if (0 <? dup_count)%nat then [RemovedDuplicateRecords dup_count] else [] in
  let cols_to_drop :=
    filter (fun c : string * Series =>
              gtb (div (of_nat (series_null_count (snd c))) (of_nat (nrows df)))
                  (Fin (7 # 10)))
           (columns df) in
  let summary2 :=
    if gtb missing_pct (Fin 5) then
      match cols_to_drop with
      | [] => summary1
      | _ :: _ => summary1 ++ [RemovedSparseColumns (length cols_to_drop)]
      end
    else summary1 in
  let needs_cleaning := (0 <? dup_count)%nat || gtb missing_pct (Fin 5) in
  if needs_cleaning then
    match DataProcessor.clean_data to_datetime_ok std processor
            true drop_cols (7 # 10) false now with
    | (processor', Raise e) => (processor', Raise e)
    | (processor', Ok _) =>
        (processor', Ok (DataProcessor.processed_df processor', summary2, true))
    end
  else (processor, Ok (Some df, [AlreadyClean], false)).

End AutoClean.

(** ** The anomaly charts ([anomalies.py]) *)

(** [sorted(xs, key=..., reverse=True)]: a stable descending sort on the
    key (equal keys keep their order). *)
Section SortDescending.
Context {A : Type}.
Variable key : A -> nat.

Fixpoint insert_desc (x : A) (l : list A) : list A :=
  match l with
  | [] => [x]
  | y :: t => if (key y <=? key x)%nat then x :: l else y :: insert_desc x t
  end.

Definition sort_desc (l : list A) : list A := fold_right insert_desc [] l.
End SortDescending.

(** One panel of the outlier chart: the column, its values and the
    values marked as outliers. *)
Record OutlierPanel : Type := mkOutlierPanel {
  panel_col : string;
  panel_data : list Q;
  panel_outliers : list Q
}.

(** The outlier chart with the figures its text quotes. *)
Record OutlierChart : Type := mkOutlierChart {
  panels : list OutlierPanel;
  chart_total_outliers : nat;
  chart_worst : string * OutlierInfo
}.

(** The text of the missing-data chart: the overall percentage, the most
    incomplete field and the count of problematic rows.  The bars are
    left out: pandas orders equal percentages as it pleases. *)
Record MissingChart : Type := mkMissingChart {
  total_missing_pct : Q;
  chart_worst_col : string * MissingInfo;
  chart_problematic_rows : nat
}.

(** What [visualize_missing_data] does: the answer without a chart, the
    chart, or a [ZeroDivisionError]. *)
Inductive MissingOutcome : Type :=
| NoMissingData
| MissingCharted (chart : MissingChart)
| MissingZeroDivision.

(** [max(items, key=...)] on a non-empty list: the first item with the
    largest key. *)
Definition max_by {A : Type} (key : A -> npfloat) (first : A) (rest : list A) : A :=
  fold_left (fun best e => if gtb (key e) (key best) then e else best) rest first.

Module AnomalyCharts.

(** The loop over [sorted_cols]: one panel per column.  The red trace
    holds the values outside the bounds of the entry (it is skipped when
    there is none). *)
Fixpoint outlier_panels (d : DataFrame) (sorted_cols : list (string * OutlierInfo))
    : result (list OutlierPanel) :=
  match sorted_cols with
  | [] => Ok []
  | (col, info) :: rest =>
      data <- AnomalyDetector.numeric_data d col ;;
      let outlier_mask :=
        map (is_outlier (o_lower_bound info) (o_upper_bound info)) data in
      tl <- outlier_panels d rest ;;
      Ok ({| panel_col := col;
             panel_data := data;
             panel_outliers := select outlier_mask data |} :: tl)
  end.

(** [visualize_outliers]: [None] stands for the answer without a chart.
    With [top_n = 0] plotly's [make_subplots] refuses zero columns. *)
Definition visualize_outliers (self : AnomalyDetector.t) (top_n : nat)
    : result (option OutlierChart) :=
  outlier_info <- AnomalyDetector._detect_outliers self ;;
  match outlier_info with
  | [] => Ok None
  | _ :: _ =>
      let sorted_cols :=
        firstn top_n
          (sort_desc (fun e : string * OutlierInfo => o_count (snd e)) outlier_info) in
      match sorted_cols with
      | [] => Raise ValueError
      | worst :: _ =>
          ps <- outlier_panels (AnomalyDetector.df self) sorted_cols ;;
          Ok (Some {| panels := ps;
                      chart_total_outliers :=
                        fold_right Nat.add 0%nat
                          (map (fun e : string * OutlierInfo => o_count (snd e))
                               sorted_cols);
                      chart_worst := worst |})
      end
  end.

(** [visualize_missing_data]; its division of Python integers raises
    on a frame without cells. *)
Definition visualize_missing_data (self : AnomalyDetector.t) : MissingOutcome :=
  let d := AnomalyDetector.df self in
  let missing_info := AnomalyChecks._detect_missing_patterns self in
  match by_column missing_info with
  | [] => NoMissingData
  | first :: rest =>
      let total_cells := (nrows d * length (columns d))%nat in
      if (total_cells =? 0)%nat then MissingZeroDivision
      else
        MissingCharted
             ({| total_missing_pct :=
                        of_nat (total_missing_cells missing_info)
                        / of_nat total_cells * 100;
                      chart_worst_col :=
                        max_by (fun e : string * MissingInfo => m_percentage (snd e))
                               first rest;
                 chart_problematic_rows := problematic_rows missing_info |})
  end.

End AnomalyCharts.

(** * Vocabulary of the properties *)

(** The mean by a running sum in binary64, as pandas computes it on a
    short series; the examples below take it for [series.mean()]. *)
Definition running_mean (l : list Q) : npfloat :=
  Binary64.div (fold_left (fun acc x => Binary64.add acc (Fin x)) l (Fin 0))
               (Fin (of_nat (length l))).

(** The rule family (1 to 8) an action category belongs to. *)
Definition family (c : category) : nat :=
  match c with
  | DataQualityCrisis | DataQualityIssue => 1
  | HighRiskAlert => 2
  | PerformanceAlert => 3
  | GrowthOpportunity => 4
  | PlanningAsset => 5
  | ConcentrationRisk | BalancedPortfolio => 6
  | StrategicInsight => 7
  | DataGovernanceCrisis | DataExcellence => 8
  end.

(** The list holds an action of category [c]. *)
Definition emits (c : category) (actions : list Action) : Prop :=
  exists a, In a actions /\ Category a = c.

(** The quantities of the quality rule as exact rationals, for a frame with
    at least one row and one column. *)
Definition total_cells (df : DataFrame) : nat :=
  (nrows df * length (columns df))%nat.

Definition completeness (df : DataFrame) : Q :=
  (of_nat (total_cells df) - of_nat (missing_cells df)) / of_nat (total_cells df) * 100.

Definition duplicate_rate (df : DataFrame) : Q :=
  of_nat (duplicate_rows df) / of_nat (nrows df).

Definition uniqueness (df : DataFrame) : Q :=
  (of_nat (nrows df) - of_nat (duplicate_rows df)) / of_nat (nrows df) * 100.

(** The same two quantities as the generator computes them, each
    operation rounding to binary64, and the score of rule family 8:
    completeness minus 10 times the duplicate rate. *)
Definition measured_completeness (df : DataFrame) : npfloat :=
  Binary64.mul
    (Binary64.div (Fin (of_nat (total_cells df) - of_nat (missing_cells df)))
                  (Fin (of_nat (total_cells df))))
    (Fin 100).

Definition measured_duplicate_rate (df : DataFrame) : npfloat :=
  Binary64.div (Fin (of_nat (duplicate_rows df))) (Fin (of_nat (nrows df))).

Definition governance_score (df : DataFrame) : npfloat :=
  Binary64.sub (measured_completeness df)
               (Binary64.mul (measured_duplicate_rate df) (Fin 10)).

(** The score in the words of the specification: 0.6 completeness plus 0.4
    uniqueness, minus 10 times the duplicate rate. *)
Definition spec_quality_score (df : DataFrame) : Q :=
  (6 # 10) * completeness df + (4 # 10) * uniqueness df - 10 * duplicate_rate df.

(** A frame of two identical rows in one integer column, and its
    generator. *)
Definition two_identical_rows : DataFrame :=
  {| nrows := 2; columns := [("a"%string, NumSeries [Some 1; Some 1])] |}.

Definition two_identical_rows_generator : BusinessInsightGenerator.t :=
  BusinessInsightGenerator.mk
    (TrendAnalyzer.mk two_identical_rows [("a"%string, TInteger)]).

(** Twelve rows in one column: one cell is missing and two rows repeat
    an earlier one. *)
Definition eleven_of_twelve : DataFrame :=
  {| nrows := 12;
     columns := [("a"%string,
                  NumSeries [Some 1; Some 1; Some 2; Some 2; Some 3; Some 4; Some 5;
                             Some 6; Some 7; Some 8; Some 9; None])] |}.

Definition eleven_of_twelve_generator : BusinessInsightGenerator.t :=
  BusinessInsightGenerator.mk
    (TrendAnalyzer.mk eleven_of_twelve [("a"%string, TInteger)]).

(** Stand-ins for the library calls where an example needs them;
    [zero_std] is the standard deviation of a constant column. *)
Definition zero_std (data : list Q) : npfloat := Fin 0.
Definition no_std (data : list Q) : npfloat := NaN.
Definition no_corr (a b : Series) : npfloat := NaN.

(** The list a call returned, empty if it raised. *)
Definition returned {A : Type} (r : result (list A)) : list A :=
  match r with
  | Ok l => l
  | Raise _ => []
  end.

(** Four rows: a half-empty integer column and a one-valued category. *)
Definition half_empty_frame : DataFrame :=
  {| nrows := 4;
     columns := [("x"%string, NumSeries [Some 1; None; None; Some 3]);
                 ("c"%string, ObjSeries [Some "a"; Some "a"; Some "a"; Some "a"]%string)] |}.

Definition half_empty_generator : BusinessInsightGenerator.t :=
  BusinessInsightGenerator.mk
    (TrendAnalyzer.mk half_empty_frame
       [("x"%string, TInteger); ("c"%string, TCategorical)]).

(** Ten rows whose category column is half empty: four "a", one "b" and
    five nulls. *)
Definition half_null_category : DataFrame :=
  {| nrows := 10;
     columns := [("region"%string,
                  ObjSeries [Some "a"; Some "a"; None; Some "a"; None;
                             Some "b"; None; Some "a"; None; None]%string)] |}.

Definition half_null_generator : BusinessInsightGenerator.t :=
  BusinessInsightGenerator.mk
    (TrendAnalyzer.mk half_null_category [("region"%string, TCategorical)]).

(** A value lies strictly outside the interval [lo, hi]. *)
Definition outside (lo hi x : Q) : Prop := x < lo \/ hi < x.

(** The outlier report entry of one column, as a list of none or one. *)
Definition entry_for (d : DataFrame) (col : string) : list (string * OutlierInfo) :=
  match AnomalyDetector.numeric_data d col with
  | Ok data =>
      match AnomalyDetector.outlier_entry data with
      | Some e => [(col, e)]
      | None => []
      end
  | Raise _ => []
  end.



(** What step 1 of the cleaning leaves: the frame without its duplicate
    rows. *)
Definition deduplicated (df : DataFrame) : DataFrame :=
  if (0 <? duplicate_rows df)%nat then df_drop_duplicates df else df.

(** Three rows, the first and the last equal, and a processor holding
    them. *)
Definition repeated_row_frame : DataFrame :=
  {| nrows := 3;
     columns := [("id"%string, NumSeries [Some 1; Some 2; Some 1]);
                 ("tag"%string, ObjSeries [Some "x"; None; Some "x"]%string)] |}.

Definition repeated_row_processor : DataProcessor.t :=
  {| DataProcessor.original_df := Some repeated_row_frame;
     DataProcessor.processed_df := Some repeated_row_frame;
     DataProcessor.column_datatypes := [];
     DataProcessor.data_profile := None;
     DataProcessor.cleaning_steps := [] |}.

Definition never_dates (cells : list (option string)) : bool := false.




(** A column with a single value, its analyzer and its forecaster. *)
Definition single_value_frame : DataFrame :=
  {| nrows := 3; columns := [("sales"%string, NumSeries [None; Some 7; None])] |}.

Definition single_value_analyzer : TrendAnalyzer.t :=
  TrendAnalyzer.mk single_value_frame [("sales"%string, TInteger)].

Definition single_value_forecaster : PredictiveInsights.t :=
  PredictiveInsights.mk single_value_frame [("sales"%string, TInteger)].

Definition no_fit (y : list Q) : Q * Q := (0, 0).

(** The whole-number test in logical form. *)
Definition is_whole (x : Q) : Prop := x == inject_Z (int_of_float x).

(** The two cardinality tests in logical form; [n] is the row count. *)
Definition few_distinct (s : Series) : Prop := (nunique s <= 20)%nat.

Definition low_ratio (n : nat) (s : Series) : Prop :=
  of_nat (nunique s) / of_nat n < 5 # 100.

(** The exact mean of a non-empty list, and the two halves the trend test
    compares. *)
Definition avg (l : list Q) : Q := sum l / of_nat (length l).

Definition first_half (series : list Q) : list Q :=
  firstn (length series / 2) series.

Definition second_half (series : list Q) : list Q :=
  skipn (length series / 2) series.

(** [x * 1.1] and [x * 0.9] as the processor computes them: the factor is
    the binary64 number nearest to the decimal, the product is rounded. *)
Definition times_1_1 (x : npfloat) : npfloat :=
  Binary64.mul x (Fin (Binary64.lit (11 # 10))).

Definition times_0_9 (x : npfloat) : npfloat :=
  Binary64.mul x (Fin (Binary64.lit (9 # 10))).

(** A positive number in the normal range of binary64. *)
Definition positive_normal (q : Q) : Prop :=
  Binary64.pow2 (-1022) <= q /\ q < Binary64.pow2 1024.

(** The action is of tier [p]; the sort key of an action. *)
Definition has_priority (p : priority) (a : Action) : bool :=
  priority_eqb (Priority a) p.

Definition action_key (a : Action) : nat := priority_order (Priority a).

(** The order of [value_counts]: larger counts first. *)
Definition count_ge (a b : value * nat) : Prop := (snd b <= snd a)%nat.

(** The non-null values of a column. *)
Definition non_null_values (s : Series) : list value := dropna (series_values s).

(** Every entry of the distribution report is [distribution_info] of the
    column of that name. *)
Definition entry_of (d : DataFrame) (col : string) (info : DistributionInfo) : Prop :=
  exists s, get_col d col = Some s
            /\ TrendAnalyzer.distribution_info (nrows d) s = Ok info.

(** The rows of a list of equally long columns. *)
Definition rows_from (n : nat) (cols : list (list (option value)))
    : list (list (option value)) :=
  map (fun i => map (fun vs => nth i vs None) cols) (seq 0 n).

(** What one column contributes to [by_column]. *)
Definition missing_entry (n : nat) (c : string * Series) : list (string * MissingInfo) :=
  if (0 <? series_null_count (snd c))%nat then
    [(fst c, {| m_count := series_null_count (snd c);
                m_percentage := mul (div (of_nat (series_null_count (snd c))) (of_nat n)) 100 |})]
  else [].

(** The sum of a list of naturals. *)
Definition total (l : list nat) : nat := fold_right Nat.add 0%nat l.

(** A detector for the three-row frame with one repeated row. *)
Definition repeated_row_detector : AnomalyDetector.t :=
  AnomalyDetector.mk repeated_row_frame
    [("id"%string, TInteger); ("tag"%string, TCategorical)].

(** A frame of four rows with a nearly empty, one-valued column and a
    column of distinct labels, and its detector. *)
Definition sparse_frame : DataFrame :=
  {| nrows := 4;
     columns := [("note"%string, ObjSeries [None; Some "x"; None; None]%string);
                 ("code"%string, ObjSeries [Some "a"; Some "b"; Some "c"; Some "d"]%string)] |}.

Definition sparse_detector : AnomalyDetector.t :=
  AnomalyDetector.mk sparse_frame
    [("note"%string, TCategorical); ("code"%string, TCategorical)].

(** The name contains one of the keywords of typically positive
    quantities. *)
Definition positive_name (col : string) : bool :=
  existsb (fun keyword => contains keyword (lower col))
          AnomalyChecks.positive_keywords.

(** The unusual-distribution entry of a column with the non-null values
    [data], if it gets one. *)
Definition unusual_entry (col : string) (data : list Q) : option UnusualInfo :=
  let zero_pct :=
    mul (div (of_nat (length (filter (fun x => Qeq_bool x 0) data)))
             (of_nat (length data))) 100 in
  let negative_count := length (filter (fun x => Qlt_bool x 0) data) in
  let zeros := if gtb zero_pct (Fin 30) then Some zero_pct else None in
  let negatives :=
    if positive_name col && (0 <? negative_count)%nat then Some negative_count
    else None in
  match zeros, negatives with
  | None, None => None
  | _, _ => Some {| excessive_zeros := zeros; unexpected_negatives := negatives |}
  end.

Definition unusual_for (d : DataFrame) (col : string) : list (string * UnusualInfo) :=
  match AnomalyDetector.numeric_data d col with
  | Ok data =>
      match data with
      | [] => []
      | _ :: _ =>
          match unusual_entry col data with
          | Some e => [(col, e)]
          | None => []
          end
      end
  | Raise _ => []
  end.

(** Prices with a refund and many free items, beside a column of
    positive weights. *)
Definition price_frame : DataFrame :=
  {| nrows := 5;
     columns := [("Unit_Price"%string,
                  NumSeries [Some 0; Some 0; Some (-5 # 1); Some 12; None]);
                 ("weight"%string,
                  NumSeries [Some 1; Some 2; Some 3; Some 4; Some 5])] |}.

Definition price_detector : AnomalyDetector.t :=
  AnomalyDetector.mk price_frame
    [("Unit_Price"%string, TFloat); ("weight"%string, TInteger)].


(** Stand-ins for Python's [round]. *)
Definition no_round (x : npfloat) : npfloat := x.

(** Two complete, different rows. *)
Definition clean_frame : DataFrame :=
  {| nrows := 2;
     columns := [("k"%string, NumSeries [Some 1; Some 2]);
                 ("v"%string, ObjSeries [Some "a"; Some "b"]%string)] |}.

Definition clean_generator : BusinessInsightGenerator.t :=
  BusinessInsightGenerator.mk
    (TrendAnalyzer.mk clean_frame [("k"%string, TInteger); ("v"%string, TCategorical)]).

(** How a cleaned column relates to the one it came from: same name,
    same length, same number of nulls. *)
Definition same_column (c' c : string * Series) : Prop :=
  fst c' = fst c
  /\ series_len (snd c') = series_len (snd c)
  /\ series_null_count (snd c') = series_null_count (snd c).

(** A row without a null cell. *)
Definition complete (r : list (option value)) : bool :=
  forallb (fun c : option value => negb (is_none c)) r.

(** What step 1 of the cleaning leaves when duplicates are (or are not)
    to be removed. *)
Definition after_duplicates (remove_duplicates : bool) (df : DataFrame) : DataFrame :=
  if remove_duplicates then deduplicated df else df.

(** A processor holding the four-row frame with a half-empty column. *)
Definition half_empty_processor : DataProcessor.t :=
  {| DataProcessor.original_df := Some half_empty_frame;
     DataProcessor.processed_df := Some half_empty_frame;
     DataProcessor.column_datatypes := [("x"%string, TInteger); ("c"%string, TCategorical)];
     DataProcessor.data_profile := None;
     DataProcessor.cleaning_steps := [] |}.

(** The columns some list of the processor names. *)
Definition listed_columns (self : DataProcessor.t) : list string :=
  ProcessorQueries.get_numeric_columns self
    ++ ProcessorQueries.get_categorical_columns self
    ++ ProcessorQueries.get_datetime_columns self.

(** An upload that reads as the frame with a half-empty column plus an
    entirely empty one. *)
Definition gappy_frame : DataFrame :=
  {| nrows := 4;
     columns := [("x"%string, NumSeries [Some 1; None; None; Some 3]);
                 ("c"%string, ObjSeries [Some "a"; Some "a"; Some "a"; Some "a"]%string);
                 ("gap"%string, NumSeries [None; None; None; None])] |}.

Definition gappy_upload : UploadedFile := fun _ _ => Parsed gappy_frame.

(** The columns step 3 of the cleaning goes through: the numeric ones of
    the recorded types that the frame still has. *)
Definition treated_columns (types : list (string * ColumnType)) (df : DataFrame)
    : list string :=
  map fst (filter (fun c => is_numeric_type (snd c) && str_mem (fst c) (col_names df))
                  types).







(** [s'] is [s] with its nulls filled by [v]. *)
Definition filled_with (v : value) (s s' : Series) : Prop :=
  series_values s' = map (fill_cell v) (series_values s).

(** A value no other value of the column is more frequent than. *)
Definition most_frequent (v : value) (s : Series) : Prop :=
  In v (non_null_values s)
  /\ forall w, (count_by value_eqb w (non_null_values s)
                <= count_by value_eqb v (non_null_values s))%nat.

(** What [fill_mode] makes of a column: an entirely null column stays as
    it is; any other has its nulls filled with one of its most frequent
    values. *)
Definition mode_filled (c c' : string * Series) : Prop :=
  fst c' = fst c
  /\ if isna_all (snd c) then snd c' = snd c
     else exists v, most_frequent v (snd c) /\ filled_with v (snd c) (snd c').

(** What [fill_mean] makes of a column: a numeric column with at least
    one value has its nulls filled with the mean of its values; any other
    column stays as it is. *)
Definition mean_filled (c c' : string * Series) : Prop :=
  fst c' = fst c
  /\ match snd c with
     | NumSeries cells =>
         if isna_all (snd c) then snd c' = snd c
         else filled_with (VNum (avg (dropna cells))) (snd c) (snd c')
     | ObjSeries _ => snd c' = snd c
     end.

(** How many actions of a category a list holds. *)
Definition count_category (c : category) (actions : list Action) : nat :=
  length (filter (fun a => category_eqb (Category a) c) actions).

(** Four rows of a falling metric beside a rising one, and the generator
    on them. *)
Definition two_trends_frame : DataFrame :=
  {| nrows := 4;
     columns := [("sales"%string, NumSeries [Some 10; Some 10; Some 2; Some 2]);
                 ("visits"%string, NumSeries [Some 1; Some 1; Some 5; Some 5])] |}.

Definition two_trends_generator : BusinessInsightGenerator.t :=
  BusinessInsightGenerator.mk
    (TrendAnalyzer.mk two_trends_frame
       [("sales"%string, TInteger); ("visits"%string, TInteger)]).

(** [a] comes before [b] in the list. *)
Definition precedes {A : Type} (a b : A) (l : list A) : Prop :=
  exists l1 l2 l3, l = l1 ++ a :: l2 ++ b :: l3.

(** The label of a reported coefficient is borne out by its value:
    above 0.7 for a positive one, below -0.7 for a negative one. *)
Definition label_holds (e : CorrelationEntry) : Prop :=
  match strength e with
  | strong_positive => gtb (coefficient e) (Fin (7 # 10)) = true
  | strong_negative => ltb (coefficient e) (Fin (- (7 # 10))) = true
  end.

(** A coefficient that rises with the first value of the second column;
    two columns and an analyzer to try it on. *)
Definition sign_corr (a b : Series) : npfloat :=
  match b with
  | NumSeries (Some q :: _) => if Qle_bool 0 q then Fin (9 # 10) else Fin (- (9 # 10))
  | _ => NaN
  end.

Definition pair_frame : DataFrame :=
  {| nrows := 2;
     columns := [("u"%string, NumSeries [Some 1; Some 2]);
                 ("v"%string, NumSeries [Some (-1); Some (-2)])] |}.

Definition pair_analyzer : TrendAnalyzer.t :=
  TrendAnalyzer.mk pair_frame [("u"%string, TInteger); ("v"%string, TInteger)].

(** A pair of named columns as the analyzer goes through them: whether
    its coefficient counts as strong, and the key and the entry it is
    then reported under. *)
Definition pair_is_strong (corr : Series -> Series -> npfloat)
    (p : (string * Series) * (string * Series)) : bool :=
  gtb (absf (corr (snd (fst p)) (snd (snd p)))) (Fin (7 # 10)).

Definition pair_key (p : (string * Series) * (string * Series)) : string :=
  TrendAnalyzer.pair_name (fst (fst p)) (fst (snd p)).

Definition pair_entry (corr : Series -> Series -> npfloat)
    (p : (string * Series) * (string * Series)) : CorrelationEntry :=
  {| coefficient := corr (snd (fst p)) (snd (snd p));
     strength := if gtb (corr (snd (fst p)) (snd (snd p))) (Fin 0)
                 then strong_positive else strong_negative |}.


(** What the profile of a column has to say about the column [s] of a
    frame of [n] rows. *)
Definition profile_matches (n : nat) (s : Series) (p : ColumnProfile) : Prop :=
  p_missing_count p = series_null_count s
  /\ (p_missing_count p + length (non_null_values s) = n)%nat
  /\ (p_unique_values p <= length (non_null_values s))%nat
  /\ (exists pct, p_missing_percentage p = Fin pct /\ 0 <= pct /\ pct <= 100)
  /\ (p_numeric p <> None <-> is_numeric_type (p_type p) = true)
  /\ (forall np, p_numeric p = Some np ->
        exists lo hi, p_min np = Fin lo /\ p_max np = Fin hi
                      /\ lo <= p_median np /\ p_median np <= hi)
  /\ (is_categorical_type (p_type p) = true ->
        (length (p_top_values p) <= 5)%nat
        /\ exists v, p_most_common p = Some v /\ most_frequent v s).


(** The outlier counts of a list of report entries, summed. *)
Definition outlier_total (entries : list (string * OutlierInfo)) : nat :=
  total (map (fun e : string * OutlierInfo => o_count (snd e)) entries).

(** Two columns with a far value each, one of them with two, and their
    detector. *)
Definition two_spikes_frame : DataFrame :=
  {| nrows := 9;
     columns := [("a"%string,
                  NumSeries [Some 0; Some 0; Some 0; Some 0; Some 0; Some 0; Some 0;
                             Some 0; Some 100]);
                 ("b"%string,
                  NumSeries [Some 0; Some 0; Some 0; Some 0; Some 0; Some 0; Some 0;
                             Some 50; Some 100])] |}.

Definition two_spikes_detector : AnomalyDetector.t :=
  AnomalyDetector.mk two_spikes_frame
    [("a"%string, TInteger); ("b"%string, TInteger)].
(** The missing percentage of a report entry in a frame of [n] rows, as
    an exact rational. *)
Definition missing_share (n : nat) (e : string * MissingInfo) : Q :=
  of_nat (m_count (snd e)) / of_nat n * 100.




(** The priority each category of action comes with. *)
Definition category_priority (c : category) : priority :=
  match c with
  | DataQualityCrisis | HighRiskAlert | PerformanceAlert | DataGovernanceCrisis =>
      Critical
  | DataQualityIssue | ConcentrationRisk => High
  | GrowthOpportunity | PlanningAsset | BalancedPortfolio | StrategicInsight
  | DataExcellence => Strategic
  end.

(** The figure an action quotes meets the threshold of the rule that
    emitted it; the trend actions quote none. *)
Definition justified (a : Action) : Prop :=
  match Category a with
  | DataQualityCrisis => exists f, Figure a = Some f /\ gtb f (Fin 30) = true
  | DataQualityIssue =>
      exists f, Figure a = Some f /\ gtb f (Fin 10) = true /\ gtb f (Fin 30) = false
  | HighRiskAlert => exists f, Figure a = Some f /\ gtb f (Fin 100) = true
  | ConcentrationRisk =>
      exists f, Figure a = Some f /\ gtb f (Fin 70) = true /\ Dominant a <> None
  | BalancedPortfolio => exists f, Figure a = Some f /\ ltb f (Fin 20) = true
  | StrategicInsight => exists f, Figure a = Some f /\ gtb f (Fin (7 # 10)) = true
  | DataGovernanceCrisis => exists f, Figure a = Some f /\ ltb f (Fin 80) = true
  | DataExcellence => exists f, Figure a = Some f /\ geb f (Fin 90) = true
  | PerformanceAlert | GrowthOpportunity | PlanningAsset => Figure a = None
  end.

(** The rules that speak about the same thing: missing data of a column,
    its variability, its trend, the concentration of a category, a pair
    of columns, the dataset. *)
Definition rule_group (c : category) : nat :=
  match c with
  | DataQualityCrisis | DataQualityIssue => 1
  | HighRiskAlert => 2
  | PerformanceAlert | GrowthOpportunity | PlanningAsset => 3
  | ConcentrationRisk | BalancedPortfolio => 4
  | StrategicInsight => 5
  | DataGovernanceCrisis | DataExcellence => 6
  end.

(** What the three trend rules make of one entry. *)
Definition trend_actions (e : string * TrendInfo) : list Action :=
  BusinessInsightGenerator.decline_action e
    ++ BusinessInsightGenerator.growth_action e
    ++ BusinessInsightGenerator.stable_action e.

(** * Properties *)

(** ** Facts about the float model *)

Lemma Qlt_bool_iff (a b : Q) : Qlt_bool a b = true <-> a < b.
Proof.
  unfold Qlt_bool. rewrite negb_true_iff.
  split; intro H.
  - apply Qnot_le_lt. intro Hle. apply Qle_bool_iff in Hle. congruence.
  - destruct (Qle_bool b a) eqn:E; [|reflexivity].
    apply Qle_bool_iff in E. exfalso. apply (Qlt_not_le _ _ H E).
Qed.

Lemma Qlt_bool_false_iff (a b : Q) : Qlt_bool a b = false <-> b <= a.
Proof.
  unfold Qlt_bool. rewrite negb_false_iff. apply Qle_bool_iff.
Qed.

Lemma of_nat_pos (n : nat) : (0 < n)%nat -> 0 < of_nat n.
Proof. intro H. unfold of_nat, Qlt. simpl. lia. Qed.

Lemma of_nat_nonneg (n : nat) : 0 <= of_nat n.
Proof. unfold of_nat, Qle. simpl. lia. Qed.

Lemma of_nat_le (n m : nat) : (n <= m)%nat -> of_nat n <= of_nat m.
Proof. intro H. unfold of_nat, Qle. simpl. lia. Qed.

Lemma div_pos (a b : Q) : 0 < b -> div a b = Fin (a / b).
Proof.
  intro H. unfold div.
  destruct (Qeq_bool b 0) eqn:E; [|reflexivity].
  apply Qeq_bool_iff in E. rewrite E in H. exfalso. apply (Qlt_irrefl 0 H).
Qed.

Lemma ltb_Fin (a b : Q) : ltb (Fin a) (Fin b) = true <-> a < b.
Proof. simpl. apply Qlt_bool_iff. Qed.

Lemma gtb_Fin (a b : Q) : gtb (Fin a) (Fin b) = true <-> b < a.
Proof. unfold gtb. apply ltb_Fin. Qed.

Lemma geb_Fin (a b : Q) : geb (Fin a) (Fin b) = true <-> b <= a.
Proof. simpl. apply Qle_bool_iff. Qed.

(** ** Binary64 rounding *)

Module Binary64Facts.

Import Binary64.

Lemma Qle_bool_false (a b : Q) : Qle_bool a b = false <-> b < a.
Proof.
  split.
  - intro H. apply Qnot_le_lt. intro H'. apply Qle_bool_iff in H'. congruence.
  - intro H. destruct (Qle_bool a b) eqn:E; [|reflexivity].
    apply Qle_bool_iff in E. exfalso. apply (Qlt_not_le _ _ H E).
Qed.

Lemma floor_bounds (y : Q) : inject_Z (Qfloor y) <= y /\ y < inject_Z (Qfloor y) + 1.
Proof.
  split; [apply Qfloor_le|].
  pose proof (Qlt_floor y) as H. rewrite inject_Z_plus in H. exact H.
Qed.

Lemma nearest_cases (y : Q) :
  (nearest y = Qfloor y /\ y - inject_Z (Qfloor y) <= 1 # 2)
  \/ (nearest y = (Qfloor y + 1)%Z /\ 1 # 2 <= y - inject_Z (Qfloor y)).
Proof.
  unfold nearest. cbv zeta.
  destruct (Qle_bool (y - inject_Z (Qfloor y)) (1 # 2)) eqn:E1.
  - apply Qle_bool_iff in E1.
    destruct (Qle_bool (1 # 2) (y - inject_Z (Qfloor y))) eqn:E2.
    + apply Qle_bool_iff in E2. destruct (Z.even (Qfloor y)); auto.
    + auto.
  - apply Qle_bool_false in E1. right. split; [reflexivity|]. lra.
Qed.

Lemma nearest_error (y : Q) : Qabs (inject_Z (nearest y) - y) <= 1 # 2.
Proof.
  destruct (floor_bounds y) as [H1 H2].
  apply Qabs_Qle_condition.
  destruct (nearest_cases y) as [[-> H]|[-> H]].
  - split; lra.
  - rewrite inject_Z_plus. change (inject_Z 1) with 1. split; lra.
Qed.

Lemma nearest_lower (y : Q) (j : Z) : inject_Z j <= y -> (j <= nearest y)%Z.
Proof.
  intro H. assert (Hj : (j <= Qfloor y)%Z).
  { rewrite <- (Qfloor_Z j). now apply Qfloor_resp_le. }
  destruct (nearest_cases y) as [[-> _]|[-> _]]; lia.
Qed.

Lemma nearest_upper (y : Q) (j : Z) : y <= inject_Z j -> (nearest y <= j)%Z.
Proof.
  intro H. destruct (floor_bounds y) as [H1 H2].
  assert (Hj : (Qfloor y <= j)%Z).
  { rewrite <- (Qfloor_Z j). now apply Qfloor_resp_le. }
  destruct (nearest_cases y) as [[-> _]|[-> Hr]]; [exact Hj|].
  destruct (Z.eq_dec (Qfloor y) j) as [E|E]; [|lia].
  exfalso. rewrite E in Hr. lra.
Qed.

Lemma nearest_Z (j : Z) : nearest (inject_Z j) = j.
Proof.
  apply Z.le_antisymm; [apply nearest_upper | apply nearest_lower]; apply Qle_refl.
Qed.

Lemma nearest_mono (x y : Q) : x <= y -> (nearest x <= nearest y)%Z.
Proof.
  intro H.
  assert (Hf : (Qfloor x <= Qfloor y)%Z) by now apply Qfloor_resp_le.
  destruct (Z.eq_dec (Qfloor x) (Qfloor y)) as [E|E].
  - unfold nearest. cbv zeta. rewrite <- E.
    set (rx := x - inject_Z (Qfloor x)). set (ry := y - inject_Z (Qfloor x)).
    assert (Hr : rx <= ry) by (unfold rx, ry; lra).
    destruct (Qle_bool rx (1 # 2)) eqn:X1; destruct (Qle_bool ry (1 # 2)) eqn:Y1;
      try apply Qle_bool_iff in X1; try apply Qle_bool_iff in Y1;
      try apply Qle_bool_false in X1; try apply Qle_bool_false in Y1;
      try (exfalso; lra); try lia.
    + destruct (Qle_bool (1 # 2) rx) eqn:X2; destruct (Qle_bool (1 # 2) ry) eqn:Y2;
        try apply Qle_bool_iff in X2; try apply Qle_bool_iff in Y2;
        try apply Qle_bool_false in X2; try apply Qle_bool_false in Y2;
        try (exfalso; lra); destruct (Z.even (Qfloor x)); lia.
    + destruct (Qle_bool (1 # 2) rx); destruct (Z.even (Qfloor x)); lia.
  - destruct (nearest_cases x) as [[-> _]|[-> _]];
      destruct (nearest_cases y) as [[-> _]|[-> _]]; lia.
Qed.

Lemma nearest_comp (x y : Q) : x == y -> nearest x = nearest y.
Proof.
  intro H. apply Z.le_antisymm; apply nearest_mono; rewrite H; apply Qle_refl.
Qed.

(** *** Powers of two *)

Lemma pow2_pos (k : Z) : 0 < pow2 k.
Proof. apply Qpower_0_lt. reflexivity. Qed.

Lemma pow2_add (a b : Z) : pow2 (a + b) == pow2 a * pow2 b.
Proof. apply Qpower_plus. discriminate. Qed.

Lemma pow2_opp (a : Z) : pow2 (- a) * pow2 a == 1.
Proof.
  rewrite <- pow2_add. replace (- a + a)%Z with 0%Z by lia. reflexivity.
Qed.

Lemma pow2_le (a b : Z) : (a <= b)%Z -> pow2 a <= pow2 b.
Proof. intro H. apply Qpower_le_compat_l; [exact H | discriminate]. Qed.

Lemma pow2_lt (a b : Z) : (a < b)%Z -> pow2 a < pow2 b.
Proof. intro H. apply Qpower_lt_compat_l; [exact H | reflexivity]. Qed.

Lemma pow2_Z (a : Z) : (0 <= a)%Z -> pow2 a == inject_Z (2 ^ a).
Proof. intro H. unfold pow2. rewrite Zpower_Qpower by exact H. reflexivity. Qed.

(** *** The binary logarithm *)

Lemma Q_as_fraction (x : Q) : x * inject_Z (Zpos (Qden x)) == inject_Z (Qnum x).
Proof.
  destruct x as [n d]. unfold Qeq, Qmult, inject_Z. simpl. lia.
Qed.

Lemma Qnum_pos (x : Q) : 0 < x -> (0 < Qnum x)%Z.
Proof. destruct x as [n d]. unfold Qlt. simpl. lia. Qed.

Lemma log2_bounds (n : Z) :
  (0 < n)%Z -> pow2 (Z.log2 n) <= inject_Z n /\ inject_Z n < pow2 (Z.log2 n + 1).
Proof.
  intro H. pose proof (Z.log2_nonneg n) as Hn.
  destruct (Z.log2_spec n H) as [H1 H2].
  rewrite !pow2_Z by lia. rewrite <- Zle_Qle, <- Zlt_Qlt.
  replace (Z.log2 n + 1)%Z with (Z.succ (Z.log2 n)) by lia. auto.
Qed.

Lemma ilog2_spec (x : Q) :
  0 < x -> pow2 (ilog2 x) <= x /\ x < pow2 (ilog2 x + 1).
Proof.
  intro Hx. unfold ilog2. cbv zeta.
  set (a := Z.log2 (Qnum x)). set (b := Z.log2 (Z.pos (Qden x))).
  destruct (log2_bounds (Qnum x) (Qnum_pos x Hx)) as [A1 A2]. fold a in A1, A2.
  destruct (log2_bounds (Z.pos (Qden x)) eq_refl) as [B1 B2]. fold b in B1, B2.
  pose proof (Q_as_fraction x) as Hf.
  set (n := inject_Z (Qnum x)) in *. set (d := inject_Z (Z.pos (Qden x))) in *.
  assert (Hd : 0 < d) by (unfold d; rewrite <- (Zlt_Qlt 0); lia).
  pose proof (pow2_pos b) as Pb. pose proof (pow2_pos (a - b)) as Pab.
  pose proof (pow2_pos (a - b - 1)) as Pab1.
  assert (Ea : pow2 a == pow2 (a - b) * pow2 b).
  { rewrite <- pow2_add. replace (a - b + b)%Z with a by lia. reflexivity. }
  assert (Ea1 : pow2 (a + 1) == pow2 (a - b) * pow2 (b + 1)).
  { rewrite <- pow2_add. replace (a - b + (b + 1))%Z with (a + 1)%Z by lia. reflexivity. }
  assert (Ea2 : pow2 a == pow2 (a - b - 1) * pow2 (b + 1)).
  { rewrite <- pow2_add. replace (a - b - 1 + (b + 1))%Z with a by lia. reflexivity. }
  assert (Eab : pow2 (a - b + 1) == 2 * pow2 (a - b)).
  { rewrite pow2_add. change (pow2 1) with 2. ring. }
  assert (Eab1 : pow2 (a - b) == 2 * pow2 (a - b - 1)).
  { replace (a - b)%Z with (a - b - 1 + 1)%Z at 1 by lia.
    rewrite pow2_add. change (pow2 1) with 2. ring. }
  assert (Eb1 : pow2 (b + 1) == 2 * pow2 b).
  { rewrite pow2_add. change (pow2 1) with 2. ring. }
  assert (Hup : x < pow2 (a - b + 1)).
  { apply Qnot_le_lt. intro Hc.
    assert (pow2 (a - b + 1) * d <= x * d) by (apply Qmult_le_compat_r; lra).
    assert (pow2 (a - b + 1) * pow2 b <= pow2 (a - b + 1) * d)
      by (apply Qmult_le_l; [apply pow2_pos | exact B1]).
    rewrite Eab in *. nra. }
  assert (Hlow : pow2 (a - b - 1) < x).
  { apply Qnot_le_lt. intro Hc.
    assert (x * d <= pow2 (a - b - 1) * d) by (apply Qmult_le_compat_r; lra).
    assert (pow2 (a - b - 1) * d < pow2 (a - b - 1) * pow2 (b + 1))
      by (apply Qmult_lt_l; [exact Pab1 | exact B2]).
    lra. }
  destruct (Qle_bool (pow2 (a - b)) x) eqn:E.
  - apply Qle_bool_iff in E. split; [exact E | exact Hup].
  - apply Qle_bool_false in E. split; [lra|].
    replace (a - b - 1 + 1)%Z with (a - b)%Z by lia. exact E.
Qed.

Lemma ilog2_unique (x : Q) (e : Z) :
  pow2 e <= x -> x < pow2 (e + 1) -> ilog2 x = e.
Proof.
  intros H1 H2.
  assert (Hx : 0 < x) by (pose proof (pow2_pos e); lra).
  destruct (ilog2_spec x Hx) as [S1 S2].
  destruct (Z.lt_trichotomy (ilog2 x) e) as [L|[E|L]]; [|exact E|]; exfalso.
  - assert (pow2 (ilog2 x + 1) <= pow2 e) by (apply pow2_le; lia). lra.
  - assert (pow2 (e + 1) <= pow2 (ilog2 x)) by (apply pow2_le; lia). lra.
Qed.

Lemma ilog2_mono (x y : Q) : 0 < x -> x <= y -> (ilog2 x <= ilog2 y)%Z.
Proof.
  intros Hx Hxy. assert (Hy : 0 < y) by lra.
  destruct (ilog2_spec x Hx) as [X1 X2]. destruct (ilog2_spec y Hy) as [Y1 Y2].
  destruct (Z_le_gt_dec (ilog2 x) (ilog2 y)) as [L|G]; [exact L|]. exfalso.
  assert (pow2 (ilog2 y + 1) <= pow2 (ilog2 x)) by (apply pow2_le; lia). lra.
Qed.

Lemma ilog2_comp (x y : Q) : 0 < x -> x == y -> ilog2 x = ilog2 y.
Proof.
  intros Hx E. apply Z.le_antisymm; apply ilog2_mono; lra.
Qed.

Lemma last_place_mono (x y : Q) : 0 < x -> x <= y -> (last_place x <= last_place y)%Z.
Proof.
  intros Hx Hxy. unfold last_place. pose proof (ilog2_mono x y Hx Hxy). lia.
Qed.

(** *** Rounding a positive number *)

(** The rounded value is a multiple of the last place; it lies between
    any two such multiples that enclose the number. *)
Lemma rnd_pos_below (x : Q) (j : Z) :
  x <= inject_Z j * pow2 (last_place x) -> rnd_pos x <= inject_Z j * pow2 (last_place x).
Proof.
  intro H. unfold rnd_pos. cbv zeta. set (k := last_place x) in *.
  pose proof (pow2_pos k) as Pk. pose proof (pow2_pos (- k)) as Pk'.
  pose proof (pow2_opp k) as Ho.
  apply Qmult_le_compat_r; [|lra]. rewrite <- Zle_Qle. apply nearest_upper.
  assert (x * pow2 (- k) <= inject_Z j * pow2 k * pow2 (- k))
    by (apply Qmult_le_compat_r; lra).
  assert (inject_Z j * pow2 k * pow2 (- k) == inject_Z j).
  { rewrite <- Qmult_assoc, (Qmult_comm (pow2 k)), Ho. ring. }
  lra.
Qed.

Lemma rnd_pos_above (x : Q) (j : Z) :
  inject_Z j * pow2 (last_place x) <= x -> inject_Z j * pow2 (last_place x) <= rnd_pos x.
Proof.
  intro H. unfold rnd_pos. cbv zeta. set (k := last_place x) in *.
  pose proof (pow2_pos k) as Pk. pose proof (pow2_pos (- k)) as Pk'.
  pose proof (pow2_opp k) as Ho.
  apply Qmult_le_compat_r; [|lra]. rewrite <- Zle_Qle. apply nearest_lower.
  assert (inject_Z j * pow2 k * pow2 (- k) <= x * pow2 (- k))
    by (apply Qmult_le_compat_r; lra).
  assert (inject_Z j * pow2 k * pow2 (- k) == inject_Z j).
  { rewrite <- Qmult_assoc, (Qmult_comm (pow2 k)), Ho. ring. }
  lra.
Qed.

Lemma rnd_pos_nonneg (x : Q) : 0 < x -> 0 <= rnd_pos x.
Proof.
  intro Hx. pose proof (rnd_pos_above x 0) as H.
  change (inject_Z 0) with 0 in H. rewrite Qmult_0_l in H. apply H. lra.
Qed.

(** A power of two at or above the leading bit is a multiple of the last
    place. *)
Lemma pow2_multiple (e k : Z) :
  (k <= e)%Z -> pow2 e == inject_Z (2 ^ (e - k)) * pow2 k.
Proof.
  intro H. rewrite <- pow2_Z by lia. rewrite <- pow2_add.
  replace (e - k + k)%Z with e by lia. reflexivity.
Qed.

Lemma last_place_le_ilog2 (x : Q) : (-1074 <= ilog2 x)%Z -> (last_place x <= ilog2 x)%Z.
Proof. unfold last_place. lia. Qed.

Lemma rnd_pos_mono (x y : Q) : 0 < x -> x <= y -> rnd_pos x <= rnd_pos y.
Proof.
  intros Hx Hxy. assert (Hy : 0 < y) by lra.
  pose proof (last_place_mono x y Hx Hxy) as Hk.
  destruct (Z.eq_dec (last_place x) (last_place y)) as [E|E].
  - unfold rnd_pos. cbv zeta. rewrite E. set (k := last_place y).
    pose proof (pow2_pos k) as Pk. pose proof (pow2_pos (- k)) as Pk'.
    apply Qmult_le_compat_r; [|lra]. rewrite <- Zle_Qle. apply nearest_mono.
    apply Qmult_le_compat_r; lra.
  - assert (Hlt : (last_place x < last_place y)%Z) by lia.
    destruct (ilog2_spec x Hx) as [X1 X2]. destruct (ilog2_spec y Hy) as [Y1 Y2].
    assert (Hyk : last_place y = (ilog2 y - 52)%Z) by (unfold last_place in *; lia).
    assert (Hey : (ilog2 x + 1 <= ilog2 y)%Z) by (unfold last_place in *; lia).
    assert (Hkx : (last_place x <= ilog2 y)%Z) by (unfold last_place in *; lia).
    set (g := pow2 (ilog2 y)).
    assert (Hxg : x <= g).
    { assert (pow2 (ilog2 x + 1) <= g) by (apply pow2_le; lia). lra. }
    apply Qle_trans with g.
    + unfold g. rewrite (pow2_multiple (ilog2 y) (last_place x) Hkx).
      apply rnd_pos_below. rewrite <- (pow2_multiple (ilog2 y) (last_place x) Hkx).
      exact Hxg.
    + assert (Hky : (last_place y <= ilog2 y)%Z) by lia.
      unfold g. rewrite (pow2_multiple (ilog2 y) (last_place y) Hky).
      apply rnd_pos_above. rewrite <- (pow2_multiple (ilog2 y) (last_place y) Hky).
      exact Y1.
Qed.

Lemma rnd_pos_comp (x y : Q) : 0 < x -> x == y -> rnd_pos x == rnd_pos y.
Proof.
  intros Hx E. apply Qle_antisym; apply rnd_pos_mono; lra.
Qed.

(** Half a unit in the last place bounds the error. *)
Lemma rnd_pos_error (x : Q) :
  Qabs (rnd_pos x - x) <= (1 # 2) * pow2 (last_place x).
Proof.
  unfold rnd_pos. cbv zeta. set (k := last_place x).
  pose proof (pow2_pos k) as Pk. pose proof (pow2_opp k) as Ho.
  set (y := x * pow2 (- k)).
  assert (Ex : x == y * pow2 k).
  { unfold y. rewrite <- Qmult_assoc, Ho. ring. }
  pose proof (nearest_error y) as Hn.
  apply Qabs_Qle_condition in Hn. destruct Hn as [N1 N2].
  apply Qabs_Qle_condition. split.
  - assert (H : (- (1 # 2)) * pow2 k <= (inject_Z (nearest y) - y) * pow2 k)
      by (apply Qmult_le_compat_r; lra).
    nra.
  - assert (H : (inject_Z (nearest y) - y) * pow2 k <= (1 # 2) * pow2 k)
      by (apply Qmult_le_compat_r; lra).
    nra.
Qed.

(** A multiple of its own last place is left as it is. *)
Lemma rnd_pos_exact (x : Q) (j : Z) :
  x == inject_Z j * pow2 (last_place x) -> rnd_pos x == x.
Proof.
  intro H. apply Qle_antisym.
  - rewrite H at 2. apply rnd_pos_below. rewrite <- H. apply Qle_refl.
  - rewrite H at 1. apply rnd_pos_above. rewrite <- H. apply Qle_refl.
Qed.

(** *** Rounding any number *)

Lemma rnd_0 (x : Q) : x == 0 -> rnd x = 0.
Proof.
  intro H. unfold rnd.
  assert (Qle_bool x 0 = true) as -> by (apply Qle_bool_iff; lra).
  assert (Qle_bool 0 x = true) as -> by (apply Qle_bool_iff; lra).
  reflexivity.
Qed.

Lemma rnd_of_pos (x : Q) : 0 < x -> rnd x = rnd_pos x.
Proof.
  intro H. unfold rnd.
  assert (Qle_bool x 0 = false) as -> by (apply Qle_bool_false; exact H).
  reflexivity.
Qed.

Lemma rnd_of_neg (x : Q) : x < 0 -> rnd x = - rnd_pos (- x).
Proof.
  intro H. unfold rnd.
  assert (Qle_bool x 0 = true) as -> by (apply Qle_bool_iff; lra).
  assert (Qle_bool 0 x = false) as -> by (apply Qle_bool_false; exact H).
  reflexivity.
Qed.

Lemma rnd_sign (x : Q) : (0 <= x -> 0 <= rnd x) /\ (x <= 0 -> rnd x <= 0).
Proof.
  destruct (Q_dec x 0) as [[H|H]|H].
  - rewrite (rnd_of_neg x H).
    assert (0 <= rnd_pos (- x)) by (apply rnd_pos_nonneg; lra). split; intro; lra.
  - rewrite (rnd_of_pos x H).
    assert (0 <= rnd_pos x) by (apply rnd_pos_nonneg; lra). split; intro; lra.
  - rewrite (rnd_0 x H). split; intro; lra.
Qed.

Theorem rnd_mono (x y : Q) : x <= y -> rnd x <= rnd y.
Proof.
  intro H.
  destruct (Q_dec x 0) as [[Hx|Hx]|Hx]; destruct (Q_dec y 0) as [[Hy|Hy]|Hy];
    try (exfalso; lra).
  - rewrite (rnd_of_neg x Hx), (rnd_of_neg y Hy).
    assert (rnd_pos (- y) <= rnd_pos (- x)) by (apply rnd_pos_mono; lra). lra.
  - destruct (rnd_sign x) as [_ A]. destruct (rnd_sign y) as [B _].
    apply Qle_trans with 0; [apply A | apply B]; lra.
  - destruct (rnd_sign x) as [_ A]. destruct (rnd_sign y) as [B _].
    apply Qle_trans with 0; [apply A | apply B]; lra.
  - rewrite (rnd_of_pos x Hx), (rnd_of_pos y Hy). apply rnd_pos_mono; lra.
  - destruct (rnd_sign x) as [_ A]. destruct (rnd_sign y) as [B _].
    apply Qle_trans with 0; [apply A | apply B]; lra.
  - destruct (rnd_sign x) as [_ A]. destruct (rnd_sign y) as [B _].
    apply Qle_trans with 0; [apply A | apply B]; lra.
Qed.

Lemma rnd_comp (x y : Q) : x == y -> rnd x == rnd y.
Proof. intro H. apply Qle_antisym; apply rnd_mono; lra. Qed.

(** *** The rounded result as a float *)

Lemma round_cases (x : Q) :
  (round x = PInf /\ pow2 1024 <= rnd x)
  \/ (round x = NInf /\ rnd x <= - pow2 1024)
  \/ (exists r, round x = Fin r /\ r == rnd x
                /\ - pow2 1024 < r /\ r < pow2 1024).
Proof.
  unfold round. cbv zeta.
  destruct (Qle_bool (pow2 1024) (rnd x)) eqn:E1.
  - left. apply Qle_bool_iff in E1. auto.
  - apply Qle_bool_false in E1.
    destruct (Qle_bool (rnd x) (- pow2 1024)) eqn:E2.
    + right. left. apply Qle_bool_iff in E2. auto.
    + apply Qle_bool_false in E2. right. right.
      exists (Qred (rnd x)). pose proof (Qred_correct (rnd x)) as Hr.
      split; [reflexivity|]. split; [exact Hr|]. rewrite Hr. auto.
Qed.


Lemma round_mono (x y : Q) : x <= y -> le (round x) (round y).
Proof.
  intro H. apply rnd_mono in H. pose proof (pow2_pos 1024) as P.
  destruct (round_cases x) as [[-> X]|[[-> X]|(r & -> & Er & X1 & X2)]];
    destruct (round_cases y) as [[-> Y]|[[-> Y]|(s & -> & Es & Y1 & Y2)]];
    simpl; auto; try lra.
Qed.

Lemma is_binary64_spec (q : Q) :
  is_binary64 q = true <-> exists r, round q = Fin r /\ r == q.
Proof.
  unfold is_binary64. destruct (round q) as [r| | |].
  - rewrite Qeq_bool_iff. split; [eauto|]. intros (r' & H & E). congruence.
  - split; [discriminate | intros (r & H & _); discriminate].
  - split; [discriminate | intros (r & H & _); discriminate].
  - split; [discriminate | intros (r & H & _); discriminate].
Qed.

(** A result between two binary64 numbers is finite and rounds to a
    number between them. *)
Lemma round_between (a b x : Q) :
  is_binary64 a = true -> is_binary64 b = true -> a <= x -> x <= b ->
  exists r, round x = Fin r /\ a <= r /\ r <= b.
Proof.
  intros Ha Hb H1 H2.
  apply is_binary64_spec in Ha. destruct Ha as (ra & Ra & Ea).
  apply is_binary64_spec in Hb. destruct Hb as (rb & Rb & Eb).
  pose proof (round_mono a x H1) as M1. pose proof (round_mono x b H2) as M2.
  rewrite Ra in M1. rewrite Rb in M2.
  destruct (round x) as [r| | |]; simpl in M1, M2; try contradiction.
  exists r. split; [reflexivity|]. lra.
Qed.

Lemma round_upper (b x : Q) :
  is_binary64 b = true -> x <= b -> le (round x) (Fin b).
Proof.
  intros Hb H. apply is_binary64_spec in Hb. destruct Hb as (rb & Rb & Eb).
  pose proof (round_mono x b H) as M. rewrite Rb in M.
  destruct (round x) as [r| | |]; simpl in *; try contradiction; auto. lra.
Qed.

Lemma round_lower (a x : Q) :
  is_binary64 a = true -> a <= x -> le (Fin a) (round x).
Proof.
  intros Ha H. apply is_binary64_spec in Ha. destruct Ha as (ra & Ra & Ea).
  pose proof (round_mono a x H) as M. rewrite Ra in M.
  destruct (round x) as [r| | |]; simpl in *; try contradiction; auto. lra.
Qed.

(** In the normal range the relative error is at most 2^-53. *)
Lemma rnd_relative_error (x : Q) :
  pow2 (-1022) <= x ->
  x * (1 - pow2 (-53)) <= rnd x /\ rnd x <= x * (1 + pow2 (-53)).
Proof.
  intro H. pose proof (pow2_pos (-1022)) as P.
  assert (Hx : 0 < x) by lra.
  rewrite (rnd_of_pos x Hx).
  destruct (ilog2_spec x Hx) as [S1 S2].
  assert (He : (-1022 <= ilog2 x)%Z).
  { destruct (Z_le_gt_dec (-1022) (ilog2 x)) as [L|G]; [exact L|]. exfalso.
    assert (pow2 (ilog2 x + 1) <= pow2 (-1022)) by (apply pow2_le; lia). lra. }
  assert (Hk : last_place x = (ilog2 x - 52)%Z) by (unfold last_place; lia).
  pose proof (rnd_pos_error x) as Herr. rewrite Hk in Herr.
  assert (Ek : (1 # 2) * pow2 (ilog2 x - 52) == pow2 (ilog2 x) * pow2 (-53)).
  { replace (ilog2 x - 52)%Z with (ilog2 x + -53 + 1)%Z by lia.
    rewrite !pow2_add. change (pow2 1) with 2. ring. }
  rewrite Ek in Herr.
  apply Qabs_Qle_condition in Herr. destruct Herr as [E1 E2].
  pose proof (pow2_pos (-53)) as P53.
  assert (pow2 (ilog2 x) * pow2 (-53) <= x * pow2 (-53))
    by (apply Qmult_le_compat_r; lra).
  split; lra.
Qed.

(** Integers of at most 53 bits are binary64 numbers. *)
Lemma rnd_pos_Z (z : Z) : (0 < z <= 2 ^ 53)%Z -> rnd_pos (inject_Z z) == inject_Z z.
Proof.
  intro Hz. set (x := inject_Z z).
  assert (Hx : 0 < x) by (unfold x; change 0 with (inject_Z 0); rewrite <- Zlt_Qlt; lia).
  destruct (ilog2_spec x Hx) as [S1 S2].
  assert (Hup : x <= pow2 53).
  { rewrite pow2_Z by lia. unfold x. rewrite <- Zle_Qle. lia. }
  assert (Hlow : pow2 0 <= x).
  { change (pow2 0) with 1. unfold x. change 1 with (inject_Z 1).
    rewrite <- Zle_Qle. lia. }
  assert (He : (0 <= ilog2 x <= 53)%Z).
  { split.
    - destruct (Z_le_gt_dec 0 (ilog2 x)) as [L|G]; [exact L|]. exfalso.
      assert (pow2 (ilog2 x + 1) <= pow2 0) by (apply pow2_le; lia). lra.
    - destruct (Z_le_gt_dec (ilog2 x) 53) as [L|G]; [exact L|]. exfalso.
      assert (pow2 54 <= pow2 (ilog2 x)) by (apply pow2_le; lia).
      assert (pow2 53 < pow2 54) by (apply pow2_lt; lia). lra. }
  destruct (Z.eq_dec (ilog2 x) 53) as [E53|N53].
  - (* x = 2^53 *)
    assert (Ex : x == pow2 53) by (rewrite E53 in S1; lra).
    assert (Hk : last_place x = 1%Z) by (unfold last_place; rewrite E53; reflexivity).
    apply (rnd_pos_exact x (2 ^ 52)). rewrite Hk, Ex.
    rewrite <- pow2_Z by lia. rewrite <- pow2_add. reflexivity.
  - assert (Hk : (-1074 <= last_place x <= 0)%Z) by (unfold last_place; lia).
    apply (rnd_pos_exact x (z * 2 ^ (- last_place x))).
    rewrite inject_Z_mult, <- pow2_Z by lia.
    rewrite <- Qmult_assoc, pow2_opp. unfold x. ring.
Qed.

Lemma round_Z (z : Z) : (- 2 ^ 53 <= z <= 2 ^ 53)%Z -> is_binary64 (inject_Z z) = true.
Proof.
  intro Hz. apply is_binary64_spec.
  assert (Hr : rnd (inject_Z z) == inject_Z z).
  { destruct (Z.lt_trichotomy z 0) as [N|[E|P]].
    - assert (Hn : inject_Z z < 0) by (change 0 with (inject_Z 0); rewrite <- Zlt_Qlt; exact N).
      rewrite (rnd_of_neg _ Hn).
      assert (E : - inject_Z z == inject_Z (- z)) by (rewrite inject_Z_opp; reflexivity).
      assert (Hn' : 0 < - inject_Z z) by lra.
      rewrite (rnd_pos_comp _ _ Hn' E), rnd_pos_Z by lia.
      rewrite inject_Z_opp. ring.
    - subst z. reflexivity.
    - assert (Hp : 0 < inject_Z z) by (change 0 with (inject_Z 0); rewrite <- Zlt_Qlt; exact P).
      rewrite (rnd_of_pos _ Hp). apply rnd_pos_Z. lia. }
  assert (Hb : - pow2 53 <= inject_Z z /\ inject_Z z <= pow2 53).
  { rewrite pow2_Z by lia. rewrite <- inject_Z_opp, <- !Zle_Qle. lia. }
  assert (pow2 53 < pow2 1024) by (apply pow2_lt; lia).
  destruct (round_cases (inject_Z z)) as [[_ X]|[[_ X]|(r & Hr' & Er & _)]];
    try (exfalso; lra).
  exists r. split; [exact Hr' | lra].
Qed.

End Binary64Facts.

(** ** Type inference *)

Lemma forallb_is_none_false {A : Type} (l : list (option A)) :
  forallb is_none l = false -> (0 < length (dropna l))%nat.
Proof.
  induction l as [|[x|] t IH]; simpl; intro H.
  - discriminate.
  - lia.
  - auto.
Qed.

Lemma forallb_is_none_true {A : Type} (l : list (option A)) :
  forallb is_none l = true <-> Forall (fun c => c = None) l.
Proof.
  rewrite forallb_forall, Forall_forall.
  split; intros H c Hc; specialize (H c Hc); destruct c; simpl in *; congruence.
Qed.

Lemma equals_own_int_iff (l : list Q) :
  forallb equals_own_int l = true <-> Forall is_whole l.
Proof.
  rewrite forallb_forall, Forall_forall.
  split; intros H x Hx; specialize (H x Hx); unfold equals_own_int, is_whole in *;
    now apply Qeq_bool_iff.
Qed.

Lemma low_ratio_iff (n : nat) (s : Series) :
  (0 < n)%nat ->
  ltb (div (of_nat (nunique s)) (of_nat n)) (Fin (5 # 100)) = true <-> low_ratio n s.
Proof.
  intro Hn. rewrite div_pos by now apply of_nat_pos.
  apply ltb_Fin.
Qed.

Section TypeInferenceFacts.

Variable to_datetime_ok : list (option string) -> bool.

Let classify := detect_column_type to_datetime_ok.

Lemma both_tests_iff (n : nat) (s : Series) :
  (0 < n)%nat ->
  (nunique s <=? 20)%nat
    && ltb (div (of_nat (nunique s)) (of_nat n)) (Fin (5 # 100)) = true
  <-> few_distinct s /\ low_ratio n s.
Proof.
  intro Hn. rewrite andb_true_iff, Nat.leb_le, (low_ratio_iff n s Hn).
  reflexivity.
Qed.

Lemma either_test_iff (n : nat) (s : Series) :
  (0 < n)%nat ->
  (nunique s <=? 20)%nat
    || ltb (div (of_nat (nunique s)) (of_nat n)) (Fin (5 # 100)) = true
  <-> few_distinct s \/ low_ratio n s.
Proof.
  intro Hn. rewrite orb_true_iff, Nat.leb_le, (low_ratio_iff n s Hn).
  reflexivity.
Qed.

Lemma classify_whole_numbers (n : nat) (cells : list (option Q)) :
  isna_all (NumSeries cells) = false ->
  Forall is_whole (dropna cells) ->
  classify n (NumSeries cells) =
    if (nunique (NumSeries cells) <=? 20)%nat
       && ltb (div (of_nat (nunique (NumSeries cells))) (of_nat n)) (Fin (5 # 100))
    then TCategorical else TInteger.
Proof.
  intros Hna Hw. unfold classify, detect_column_type. rewrite Hna.
  simpl in Hna. apply forallb_is_none_false, Nat.ltb_lt in Hna.
  apply equals_own_int_iff in Hw. rewrite Hna, Hw. reflexivity.
Qed.

Lemma classify_other_object (n : nat) (cells : list (option string)) :
  isna_all (ObjSeries cells) = false ->
  to_datetime_ok cells = false ->
  issubset (unique String.eqb (map lower (dropna cells))) bool_values = false ->
  classify n (ObjSeries cells) =
    if (nunique (ObjSeries cells) <=? 20)%nat
       || ltb (div (of_nat (nunique (ObjSeries cells))) (of_nat n)) (Fin (5 # 100))
    then TCategorical else TText.
Proof.
  intros Hna Hdt Hb. unfold classify, detect_column_type.
  rewrite Hna, Hdt. cbv zeta. rewrite Hb. reflexivity.
Qed.

(** C3.  The rules of type inference in their order, first match winning:
    an all-null column is unknown; a numeric column of whole numbers is
    categorical exactly when it has at most 20 distinct values AND its
    distinct/row ratio is below 0.05, and integer otherwise; another
    numeric column is float; an object column that parses as dates is
    datetime; failing that, one whose lowercased values are all boolean
    words is boolean; and any other object column is categorical exactly
    when it has at most 20 distinct values OR its ratio is below 0.05, and
    text otherwise. *)
Theorem type_inference_rules (n : nat) (s : Series) :
  (0 < n)%nat ->
  (isna_all s = true -> classify n s = TUnknown)
  /\ (forall cells, s = NumSeries cells -> isna_all s = false ->
      Forall is_whole (dropna cells) ->
      (classify n s = TCategorical <-> few_distinct s /\ low_ratio n s)
      /\ (classify n s = TInteger <-> ~ (few_distinct s /\ low_ratio n s)))
  /\ (forall cells, s = NumSeries cells -> isna_all s = false ->
      ~ Forall is_whole (dropna cells) -> classify n s = TFloat)
  /\ (forall cells, s = ObjSeries cells -> isna_all s = false ->
      to_datetime_ok cells = true -> classify n s = TDatetime)
  /\ (forall cells, s = ObjSeries cells -> isna_all s = false ->
      to_datetime_ok cells = false ->
      issubset (unique String.eqb (map lower (dropna cells))) bool_values = true ->
      classify n s = TBoolean)
  /\ (forall cells, s = ObjSeries cells -> isna_all s = false ->
      to_datetime_ok cells = false ->
      issubset (unique String.eqb (map lower (dropna cells))) bool_values = false ->
      (classify n s = TCategorical <-> few_distinct s \/ low_ratio n s)
      /\ (classify n s = TText <-> ~ (few_distinct s \/ low_ratio n s))).
Proof.
  intro Hn.
  split; [|split; [|split; [|split; [|split]]]].
  - intro Hna. unfold classify, detect_column_type. rewrite Hna. reflexivity.
  - intros cells -> Hna Hw.
    rewrite (classify_whole_numbers n cells Hna Hw).
    pose proof (both_tests_iff n (NumSeries cells) Hn) as Hiff.
    destruct (_ && _).
    + assert (HP : few_distinct (NumSeries cells) /\ low_ratio n (NumSeries cells))
        by now apply Hiff.
      split; split; intro H; try reflexivity; try discriminate; tauto.
    + assert (HP : ~ (few_distinct (NumSeries cells) /\ low_ratio n (NumSeries cells))).
      { intro H. apply Hiff in H. discriminate. }
      split; split; intro H; try reflexivity; try discriminate; tauto.
  - intros cells -> Hna Hw. unfold classify, detect_column_type. rewrite Hna.
    destruct (forallb equals_own_int (dropna cells)) eqn:E.
    + exfalso. apply Hw. now apply equals_own_int_iff.
    + rewrite andb_false_r. reflexivity.
  - intros cells -> Hna Hdt. unfold classify, detect_column_type.
    rewrite Hna, Hdt. reflexivity.
  - intros cells -> Hna Hdt Hb. unfold classify, detect_column_type.
    rewrite Hna, Hdt. cbv zeta. rewrite Hb. reflexivity.
  - intros cells -> Hna Hdt Hb.
    rewrite (classify_other_object n cells Hna Hdt Hb).
    pose proof (either_test_iff n (ObjSeries cells) Hn) as Hiff.
    destruct (_ || _).
    + assert (HP : few_distinct (ObjSeries cells) \/ low_ratio n (ObjSeries cells))
        by now apply Hiff.
      split; split; intro H; try reflexivity; try discriminate; tauto.
    + assert (HP : ~ (few_distinct (ObjSeries cells) \/ low_ratio n (ObjSeries cells))).
      { intro H. apply Hiff in H. discriminate. }
      split; split; intro H; try reflexivity; try discriminate; tauto.
Qed.

End TypeInferenceFacts.

Lemma whole_number_codes_witness :
  detect_column_type (fun _ => false) 100
    (NumSeries (repeat (Some 1) 40 ++ repeat (Some 2) 60)) = TCategorical.
Proof.
  destruct (type_inference_rules (fun _ => false) 100
              (NumSeries (repeat (Some 1) 40 ++ repeat (Some 2) 60))
              ltac:(lia)) as (_ & Hwhole & _).
  destruct (Hwhole _ eq_refl eq_refl) as [Hcat _].
  - apply equals_own_int_iff. vm_compute. reflexivity.
  - apply Hcat. split.
    + unfold few_distinct. vm_compute. lia.
    + unfold low_ratio. vm_compute. reflexivity.
Defined.

(** ** Trend direction *)

Lemma mean_nonempty (l : list Q) : (0 < length l)%nat -> mean l = Fin (avg l).
Proof.
  intro H. unfold mean, avg. apply div_pos. now apply of_nat_pos.
Qed.

Lemma halves_nonempty (series : list Q) :
  (2 <= length series)%nat ->
  (0 < length (first_half series))%nat /\ (0 < length (second_half series))%nat.
Proof.
  intro H. unfold first_half, second_half.
  rewrite length_firstn, length_skipn.
  assert (1 <= length series / 2)%nat.
  { change 1%nat with (2 / 2)%nat. apply Nat.Div0.div_le_mono. exact H. }
  assert (length series / 2 < length series)%nat by (apply Nat.div_lt; lia).
  lia.
Qed.

Lemma trend_direction_unfold (series_mean : list Q -> npfloat) (series : list Q) :
  (2 <= length series)%nat ->
  TrendAnalyzer._detect_trend_direction series_mean series =
    if gtb (series_mean (second_half series))
           (times_1_1 (series_mean (first_half series)))
    then increasing
    else if ltb (series_mean (second_half series))
                (times_0_9 (series_mean (first_half series)))
         then decreasing else stable.
Proof.
  intro H. unfold TrendAnalyzer._detect_trend_direction.
  apply Nat.ltb_ge in H. rewrite H. reflexivity.
Qed.

(** No float lies above the larger and below the smaller of two floats. *)
Lemma not_between (x lo hi : npfloat) :
  Binary64.le lo hi -> gtb x hi = true -> ltb x lo = true -> False.
Proof.
  unfold gtb.
  destruct x as [x| | |], lo as [a| | |], hi as [b| | |]; simpl;
    try discriminate; try contradiction.
  intros Hle H1 H2. apply Qlt_bool_iff in H1. apply Qlt_bool_iff in H2. lra.
Qed.

Lemma times_ordered (f : Q) : 0 <= f -> Binary64.le (times_0_9 (Fin f)) (times_1_1 (Fin f)).
Proof.
  intro Hf. unfold times_0_9, times_1_1, Binary64.mul.
  apply Binary64Facts.round_mono.
  assert (Hc : Binary64.lit (9 # 10) <= Binary64.lit (11 # 10))
    by (vm_compute; discriminate).
  set (a := Binary64.lit (9 # 10)) in *. set (b := Binary64.lit (11 # 10)) in *.
  nra.
Qed.

(** The rounded product with 1.1 stays below 1.15 times a positive normal
    number. *)
Lemma times_1_1_below (f s : Q) :
  positive_normal f -> positive_normal s -> (115 # 100) * f <= s ->
  gtb (Fin s) (times_1_1 (Fin f)) = true.
Proof.
  intros [F1 F2] [S1 S2] Hs. unfold times_1_1, Binary64.mul.
  set (c := Binary64.lit (11 # 10)).
  assert (Hc1 : 1 <= c) by (vm_compute; discriminate).
  assert (Hc2 : c * (1 + Binary64.pow2 (-53)) < 115 # 100) by (vm_compute; reflexivity).
  pose proof (Binary64Facts.pow2_pos (-1022)) as P.
  assert (Hfc : Binary64.pow2 (-1022) <= f * c) by nra.
  destruct (Binary64Facts.rnd_relative_error (f * c) Hfc) as [_ Hup].
  assert (Hlt : Binary64.rnd (f * c) < s) by nra.
  unfold gtb.
  destruct (Binary64Facts.round_cases (f * c))
    as [[_ X]|[[-> _]|(r & -> & Er & _)]].
  - exfalso. lra.
  - reflexivity.
  - simpl. apply Qlt_bool_iff. lra.
Qed.

(** C5, as the claim puts it, fails on a series with a negative first-half
    mean: on [-10, -10] the second-half mean (-10) is below 0.9 times the
    first-half mean (-9), yet the answer is "increasing", because -10 also
    exceeds 1.1 times the first-half mean (-11) and that test comes first. *)
Lemma trend_negative_mean_counterexample :
  let series := [-10 # 1; -10 # 1] in
  (2 <= length series)%nat
  /\ avg (second_half series) < (9 # 10) * avg (first_half series)
  /\ ltb (running_mean (second_half series))
         (times_0_9 (running_mean (first_half series))) = true
  /\ TrendAnalyzer._detect_trend_direction running_mean series = increasing
  /\ TrendAnalyzer._detect_trend_direction running_mean series <> decreasing.
Proof.
  cbv zeta. split; [simpl; lia|]. split; [vm_compute; reflexivity|].
  split; [vm_compute; reflexivity|].
  split; [vm_compute; reflexivity|]. vm_compute. discriminate.
Qed.

(** The products are the rounded ones.  On [-50, -55] the exact product
    -50 x 1.1 is -55, the one the processor computes is
    -55.00000000000001, and the answer is "increasing". *)
Lemma trend_product_rounds :
  times_1_1 (Fin (-50)) = Fin (-7740561859543041 # 140737488355328)
  /\ -7740561859543041 # 140737488355328 < -55
  /\ TrendAnalyzer._detect_trend_direction running_mean [-50 # 1; -55 # 1] = increasing.
Proof.
  split; [vm_compute; reflexivity|]. split; vm_compute; reflexivity.
Qed.

Section TrendRules.

Variable series_mean : list Q -> npfloat.

(** C5, amended.  Fewer than 2 values give "insufficient_data".  With at
    least 2 values the answer is "increasing" iff the second-half mean
    exceeds 1.1 times the first-half mean; "decreasing" iff it does not and
    the second-half mean is below 0.9 times the first-half mean; "stable"
    iff neither test holds.  The means are the ones pandas returns and the
    two products are rounded to binary64.  When the first-half mean is a
    number that is not negative the two tests exclude each other, so
    "decreasing" is then exactly the 0.9 test; and a second-half mean at
    least 15% above a first-half mean gives "increasing" when both are
    positive normal numbers. *)
Theorem trend_direction_rules (series : list Q) :
  let dir := TrendAnalyzer._detect_trend_direction series_mean series in
  let first := series_mean (first_half series) in
  let second := series_mean (second_half series) in
  ((length series < 2)%nat -> dir = insufficient_data)
  /\ ((2 <= length series)%nat ->
      (dir = increasing <-> gtb second (times_1_1 first) = true)
      /\ (dir = decreasing <->
            gtb second (times_1_1 first) = false
            /\ ltb second (times_0_9 first) = true)
      /\ (dir = stable <->
            gtb second (times_1_1 first) = false
            /\ ltb second (times_0_9 first) = false)
      /\ (forall f, first = Fin f -> 0 <= f ->
          (dir = decreasing <-> ltb second (times_0_9 first) = true))
      /\ (forall f s, first = Fin f -> second = Fin s ->
          positive_normal f -> positive_normal s -> (115 # 100) * f <= s ->
          dir = increasing)).
Proof.
  cbv zeta. split.
  - intro H. unfold TrendAnalyzer._detect_trend_direction.
    apply Nat.ltb_lt in H. rewrite H. reflexivity.
  - intro H. rewrite (trend_direction_unfold series_mean series H).
    set (first := series_mean (first_half series)).
    set (second := series_mean (second_half series)).
    assert (Hexcl : forall f, first = Fin f -> 0 <= f ->
              gtb second (times_1_1 first) = true ->
              ltb second (times_0_9 first) = true -> False).
    { intros f Ef Hf H1 H2. rewrite Ef in H1, H2.
      exact (not_between second _ _ (times_ordered f Hf) H1 H2). }
    assert (H115 : forall f s, first = Fin f -> second = Fin s ->
              positive_normal f -> positive_normal s -> (115 # 100) * f <= s ->
              gtb second (times_1_1 first) = true).
    { intros f s Ef Es Nf Ns Hs. rewrite Ef, Es. now apply times_1_1_below. }
    destruct (gtb second (times_1_1 first)) eqn:E1.
    + split; [tauto|]. split; [split; [discriminate | intros [H0 _]; discriminate]|].
      split; [split; [discriminate | intros [H0 _]; discriminate]|].
      split.
      * intros f Ef Hf. split; [discriminate|]. intro H2. exfalso.
        exact (Hexcl f Ef Hf eq_refl H2).
      * reflexivity.
    + destruct (ltb second (times_0_9 first)) eqn:E2.
      * split; [split; [discriminate | discriminate]|].
        split; [tauto|].
        split; [split; [discriminate | intros [_ H0]; discriminate]|].
        split; [intros; tauto|].
        intros f s Ef Es Nf Ns Hs. specialize (H115 f s Ef Es Nf Ns Hs). discriminate.
      * split; [split; [discriminate | discriminate]|].
        split; [split; [discriminate | intros [_ H0]; discriminate]|].
        split; [tauto|].
        split; [intros; split; discriminate|].
        intros f s Ef Es Nf Ns Hs. specialize (H115 f s Ef Es Nf Ns Hs). discriminate.
Qed.

End TrendRules.

Lemma revenue_trend_witness :
  TrendAnalyzer._detect_trend_direction running_mean (repeat 100 50 ++ repeat 115 50)
  = increasing.
Proof.
  destruct (trend_direction_rules running_mean (repeat 100 50 ++ repeat 115 50))
    as [_ H].
  destruct H as (_ & _ & _ & _ & H115).
  - vm_compute. lia.
  - apply (H115 100 115).
    + vm_compute. reflexivity.
    + vm_compute. reflexivity.
    + split; vm_compute; [discriminate | reflexivity].
    + split; vm_compute; [discriminate | reflexivity].
    + vm_compute. discriminate.
Defined.

(** ** The stable sort *)

Section StableSortFacts.
Context {A : Type}.
Variable key : A -> nat.

Let key_le (a b : A) : Prop := (key a <= key b)%nat.

Lemma insert_by_key_perm (x : A) (l : list A) :
  Permutation (x :: l) (insert_by_key key x l).
Proof.
  induction l as [|y t IH]; simpl.
  - apply Permutation_refl.
  - destruct (key x <=? key y)%nat.
    + apply Permutation_refl.
    + eapply perm_trans; [apply perm_swap|]. now apply perm_skip.
Qed.

Lemma sort_by_key_perm (l : list A) : Permutation l (sort_by_key key l).
Proof.
  induction l as [|x t IH]; simpl.
  - apply perm_nil.
  - eapply perm_trans; [|apply insert_by_key_perm]. now apply perm_skip.
Qed.

Lemma insert_by_key_sorted (x : A) (l : list A) :
  StronglySorted key_le l -> StronglySorted key_le (insert_by_key key x l).
Proof.
  induction l as [|y t IH]; simpl; intro Hs.
  - constructor; constructor.
  - inversion Hs as [|? ? Ht Hy]; subst.
    destruct (key x <=? key y)%nat eqn:E.
    + apply Nat.leb_le in E. constructor; [exact Hs|].
      constructor; [exact E|].
      eapply Forall_impl; [|exact Hy]. intros a Ha. unfold key_le in *. lia.
    + apply Nat.leb_gt in E. constructor; [now apply IH|].
      apply (Permutation_Forall (insert_by_key_perm x t)).
      constructor; [unfold key_le; lia | exact Hy].
Qed.

Lemma sort_by_key_sorted (l : list A) : StronglySorted key_le (sort_by_key key l).
Proof.
  induction l as [|x t IH]; simpl.
  - constructor.
  - now apply insert_by_key_sorted.
Qed.

(** Stability: within one key the order of the input is kept. *)
Lemma insert_by_key_filter (p : A -> bool) (x : A) (l : list A) :
  (forall y, In y l -> p x = true -> p y = true -> (key x <= key y)%nat) ->
  filter p (insert_by_key key x l) = filter p (x :: l).
Proof.
  induction l as [|y t IH]; intro H; [reflexivity|].
  simpl insert_by_key.
  destruct (key x <=? key y)%nat eqn:E; [reflexivity|].
  apply Nat.leb_gt in E.
  simpl. rewrite IH by (intros; apply H; simpl; auto).
  simpl. destruct (p x) eqn:Px, (p y) eqn:Py; try reflexivity.
  exfalso. specialize (H y (or_introl eq_refl) eq_refl Py). lia.
Qed.

Lemma sort_by_key_stable (k : nat) (l : list A) :
  filter (fun x => (key x =? k)%nat) (sort_by_key key l)
  = filter (fun x => (key x =? k)%nat) l.
Proof.
  induction l as [|x t IH]; [reflexivity|].
  simpl sort_by_key. rewrite insert_by_key_filter.
  - simpl. rewrite IH. reflexivity.
  - intros y _ Hx Hy. apply Nat.eqb_eq in Hx, Hy. lia.
Qed.

Lemma strongly_sorted_split (l1 l2 l3 : list A) (a b : A) :
  StronglySorted key_le (l1 ++ a :: l2 ++ b :: l3) -> (key a <= key b)%nat.
Proof.
  induction l1 as [|x t IH]; simpl; intro Hs.
  - inversion Hs as [|? ? _ Hall]; subst.
    rewrite Forall_forall in Hall. apply (Hall b).
    apply in_or_app. right. left. reflexivity.
  - inversion Hs; subst. auto.
Qed.

End StableSortFacts.

(** ** Action generator *)

Lemma has_priority_key (p : priority) (a : Action) :
  has_priority p a = (action_key a =? priority_order p)%nat.
Proof.
  unfold has_priority, action_key. destruct (Priority a), p; reflexivity.
Qed.

Section GeneratorFacts.

Variable series_mean : list Q -> npfloat.
Variable std : list Q -> npfloat.
Variable corr : Series -> Series -> npfloat.

Let generated := BusinessInsightGenerator.generated_actions series_mean std corr.
Let generate := BusinessInsightGenerator.generate_business_actions series_mean std corr.

Lemma generate_inv (self : BusinessInsightGenerator.t) (actions : list Action) :
  generate self = Ok actions ->
  exists unsorted,
    generated self = Ok unsorted /\ actions = sort_by_key action_key unsorted.
Proof.
  unfold generate, BusinessInsightGenerator.generate_business_actions.
  fold generated. destruct (generated self) as [unsorted|e]; simpl; intro H.
  - exists unsorted. split; [reflexivity|]. now inversion H.
  - discriminate.
Qed.

End GeneratorFacts.

Ltac rule_cases H :=
  repeat match type of H with
         | In _ (if ?c then _ else _) => destruct c eqn:?
         | In _ (match ?c with _ => _ end) => destruct c eqn:?
         | In _ (_ :: _) => destruct H as [H | H]
         | In _ [] => destruct H
         end.

Section RuleFamilies.

Variable series_mean : list Q -> npfloat.
Variable std : list Q -> npfloat.
Variable corr : Series -> Series -> npfloat.

Lemma missing_action_family (l : list (string * npfloat)) (a : Action) :
  In a (flat_map BusinessInsightGenerator.missing_action l) -> family (Category a) = 1%nat.
Proof.
  intro H. apply in_flat_map in H as ((col & pct) & _ & H).
  unfold BusinessInsightGenerator.missing_action in H.
  rule_cases H; subst; reflexivity.
Qed.

Lemma variability_action_family (l : list (string * TrendInfo)) (a : Action) :
  In a (flat_map BusinessInsightGenerator.variability_action l) ->
  family (Category a) = 2%nat.
Proof.
  intro H. apply in_flat_map in H as ((col & info) & _ & H).
  unfold BusinessInsightGenerator.variability_action in H.
  rule_cases H; subst; reflexivity.
Qed.

Lemma decline_action_family (l : list (string * TrendInfo)) (a : Action) :
  In a (flat_map BusinessInsightGenerator.decline_action l) ->
  family (Category a) = 3%nat.
Proof.
  intro H. apply in_flat_map in H as ((col & info) & _ & H).
  unfold BusinessInsightGenerator.decline_action in H.
  rule_cases H; subst; reflexivity.
Qed.

Lemma growth_action_family (l : list (string * TrendInfo)) (a : Action) :
  In a (flat_map BusinessInsightGenerator.growth_action l) ->
  family (Category a) = 4%nat.
Proof.
  intro H. apply in_flat_map in H as ((col & info) & _ & H).
  unfold BusinessInsightGenerator.growth_action in H.
  rule_cases H; subst; reflexivity.
Qed.

Lemma stable_action_family (l : list (string * TrendInfo)) (a : Action) :
  In a (flat_map BusinessInsightGenerator.stable_action l) ->
  family (Category a) = 5%nat.
Proof.
  intro H. apply in_flat_map in H as ((col & info) & _ & H).
  unfold BusinessInsightGenerator.stable_action in H.
  rule_cases H; subst; reflexivity.
Qed.

Lemma concentration_action_family (l : list (string * DistributionInfo)) (a : Action) :
  In a (flat_map BusinessInsightGenerator.concentration_action l) ->
  family (Category a) = 6%nat.
Proof.
  intro H. apply in_flat_map in H as ((col & info) & _ & H).
  unfold BusinessInsightGenerator.concentration_action in H.
  rule_cases H; subst; reflexivity.
Qed.

Lemma correlation_action_family (l : list (string * CorrelationEntry)) (a : Action) :
  In a (flat_map BusinessInsightGenerator.correlation_action l) ->
  family (Category a) = 7%nat.
Proof.
  intro H. apply in_flat_map in H as ((col & info) & _ & H).
  unfold BusinessInsightGenerator.correlation_action in H.
  rule_cases H; subst; reflexivity.
Qed.

Lemma governance_action_family (score : npfloat) (a : Action) :
  In a (BusinessInsightGenerator.governance_action score) ->
  family (Category a) = 8%nat.
Proof.
  intro H. unfold BusinessInsightGenerator.governance_action in H.
  rule_cases H; subst; reflexivity.
Qed.

(** What the unsorted list is made of. *)
Lemma generated_inv (self : BusinessInsightGenerator.t) (unsorted : list Action) :
  BusinessInsightGenerator.generated_actions series_mean std corr self = Ok unsorted ->
  let ta := BusinessInsightGenerator.trend_analyzer self in
  let df := TrendAnalyzer.df ta in
  exists numeric_trends cat_distributions correlations,
    TrendAnalyzer._analyze_numeric_trends series_mean std ta = Ok numeric_trends
    /\ TrendAnalyzer._analyze_categorical_distributions ta = Ok cat_distributions
    /\ TrendAnalyzer._analyze_correlations corr ta = Ok correlations
    /\ unsorted =
         flat_map BusinessInsightGenerator.missing_action
                  (BusinessInsightGenerator.missing_pct df)
         ++ flat_map BusinessInsightGenerator.variability_action numeric_trends
         ++ flat_map BusinessInsightGenerator.decline_action numeric_trends
         ++ flat_map BusinessInsightGenerator.growth_action numeric_trends
         ++ flat_map BusinessInsightGenerator.stable_action numeric_trends
         ++ flat_map BusinessInsightGenerator.concentration_action cat_distributions
         ++ flat_map BusinessInsightGenerator.correlation_action correlations
         ++ BusinessInsightGenerator.governance_action
              (BusinessInsightGenerator.quality_score df).
Proof.
  unfold BusinessInsightGenerator.generated_actions. cbv zeta.
  destruct (TrendAnalyzer._analyze_numeric_trends series_mean std _) as [nt|]; simpl; [|discriminate].
  destruct (TrendAnalyzer._analyze_categorical_distributions _) as [cd|];
    simpl; [|discriminate].
  destruct (TrendAnalyzer._analyze_correlations corr _) as [co|]; simpl; [|discriminate].
  intro H. inversion H. exists nt, cd, co. repeat split; reflexivity.
Qed.

(** The actions of family 8 in the unsorted list are those of the
    governance rule, those of family 6 come from the concentration
    rule. *)
Lemma generated_family_8 (self : BusinessInsightGenerator.t)
    (unsorted : list Action) (a : Action) :
  BusinessInsightGenerator.generated_actions series_mean std corr self = Ok unsorted ->
  family (Category a) = 8%nat ->
  In a unsorted <->
  In a (BusinessInsightGenerator.governance_action
          (BusinessInsightGenerator.quality_score
             (TrendAnalyzer.df (BusinessInsightGenerator.trend_analyzer self)))).
Proof.
  intros Hgen Hfam.
  destruct (generated_inv self unsorted Hgen) as (nt & cd & co & _ & _ & _ & ->).
  split.
  - intro H.
    repeat (apply in_app_or in H; destruct H as [H | H]); try exact H; exfalso.
    + apply missing_action_family in H. congruence.
    + apply variability_action_family in H. congruence.
    + apply decline_action_family in H. congruence.
    + apply growth_action_family in H. congruence.
    + apply stable_action_family in H. congruence.
    + apply concentration_action_family in H. congruence.
    + apply correlation_action_family in H. congruence.
  - intro H. repeat (apply in_or_app; right). exact H.
Qed.

Lemma generated_family_6 (self : BusinessInsightGenerator.t)
    (unsorted : list Action) (a : Action) :
  BusinessInsightGenerator.generated_actions series_mean std corr self = Ok unsorted ->
  family (Category a) = 6%nat ->
  In a unsorted ->
  exists cat_distributions,
    TrendAnalyzer._analyze_categorical_distributions
      (BusinessInsightGenerator.trend_analyzer self) = Ok cat_distributions
    /\ In a (flat_map BusinessInsightGenerator.concentration_action cat_distributions).
Proof.
  intros Hgen Hfam H.
  destruct (generated_inv self unsorted Hgen) as (nt & cd & co & _ & Hcd & _ & ->).
  exists cd. split; [exact Hcd|].
  repeat (apply in_app_or in H; destruct H as [H | H]); try exact H; exfalso.
  + apply missing_action_family in H. congruence.
  + apply variability_action_family in H. congruence.
  + apply decline_action_family in H. congruence.
  + apply growth_action_family in H. congruence.
  + apply stable_action_family in H. congruence.
  + apply correlation_action_family in H. congruence.
  + apply governance_action_family in H. congruence.
Qed.

End RuleFamilies.

(** ** Duplicates, distinct values and counts *)

Lemma select_In {A : Type} (mask : list bool) (l : list A) (x : A) :
  In x (select mask l) -> In x l.
Proof.
  revert mask. induction l as [|y t IH]; intros [|b m] H; simpl in *; try contradiction.
  destruct b; simpl in H; [destruct H as [->|H]|]; eauto.
Qed.

Lemma select_length {A : Type} (mask : list bool) (l : list A) :
  length mask = length l -> length (select mask l) = count_true mask.
Proof.
  revert l. unfold count_true.
  induction mask as [|b m IH]; intros [|x t] H; simpl in *; try discriminate; auto.
  injection H as H. destruct b; simpl; rewrite IH; auto.
Qed.

Lemma dropna_length {A : Type} (l : list (option A)) :
  (length (dropna l) + null_count l = length l)%nat.
Proof.
  unfold null_count. induction l as [|[x|] t IH]; simpl; lia.
Qed.

Section Equivalence.
Context {A : Type}.
Variable eqb : A -> A -> bool.
Hypothesis eqb_refl : forall x, eqb x x = true.
Hypothesis eqb_sym : forall x y, eqb x y = true -> eqb y x = true.
Hypothesis eqb_trans : forall x y z, eqb x y = true -> eqb y z = true -> eqb x z = true.

Lemma kept_or_seen (seen l : list A) (x : A) :
  In x l ->
  (exists u, In u (select (map negb (duplicated_from eqb seen l)) l) /\ eqb x u = true)
  \/ (exists y, In y seen /\ eqb x y = true).
Proof.
  revert seen. induction l as [|a t IH]; intros seen H; [contradiction|].
  simpl. destruct (existsb (eqb a) seen) eqn:E; simpl.
  - apply existsb_exists in E as (y' & Hy' & Hay').
    destruct H as [->|H].
    + right. exists y'. auto.
    + destruct (IH (a :: seen) H) as [(u & Hu & Hxu) | (y & [->|Hy] & Hxy)].
      * left. exists u. auto.
      * right. exists y'. split; [exact Hy'|]. eapply eqb_trans; eauto.
      * right. exists y. auto.
  - destruct H as [->|H].
    + left. exists x. split; [left; reflexivity | apply eqb_refl].
    + destruct (IH (a :: seen) H) as [(u & Hu & Hxu) | (y & [->|Hy] & Hxy)].
      * left. exists u. split; [right; exact Hu | exact Hxu].
      * left. exists y. split; [left; reflexivity | exact Hxy].
      * right. exists y. auto.
Qed.

Lemma unique_covers (l : list A) (x : A) :
  In x l -> exists u, In u (unique eqb l) /\ eqb x u = true.
Proof.
  intro H. destruct (kept_or_seen [] l x H) as [Hl | (y & [] & _)]. exact Hl.
Qed.

Lemma count_by_pos (v : A) (l : list A) :
  (0 < count_by eqb v l)%nat -> exists x, In x l /\ eqb v x = true.
Proof.
  induction l as [|y t IH]; simpl; [lia|].
  destruct (eqb v y) eqn:E; intro H.
  - exists y. auto.
  - destruct (IH H) as (x & Hx & Hvx). exists x. auto.
Qed.

Lemma count_by_equiv (u v : A) (l : list A) :
  eqb u v = true -> count_by eqb u l = count_by eqb v l.
Proof.
  intro H. induction l as [|y t IH]; simpl; [reflexivity|].
  rewrite IH.
  destruct (eqb u y) eqn:Eu, (eqb v y) eqn:Ev; try reflexivity; exfalso.
  - assert (eqb v y = true) by (eapply eqb_trans; [apply eqb_sym|]; eauto). congruence.
  - assert (eqb u y = true) by (eapply eqb_trans; eauto). congruence.
Qed.

End Equivalence.

Lemma count_by_le_length {A : Type} (eqb : A -> A -> bool) (v : A) (l : list A) :
  (count_by eqb v l <= length l)%nat.
Proof.
  induction l as [|y t IH]; simpl; [lia|]. destruct (eqb v y); lia.
Qed.

Lemma value_eqb_refl (x : value) : value_eqb x x = true.
Proof.
  destruct x; simpl; [apply Qeq_bool_iff; reflexivity | apply String.eqb_refl].
Qed.

Lemma value_eqb_sym (x y : value) : value_eqb x y = true -> value_eqb y x = true.
Proof.
  destruct x, y; simpl; try discriminate.
  - rewrite !Qeq_bool_iff. intro H. symmetry. exact H.
  - rewrite !String.eqb_eq. congruence.
Qed.

Lemma value_eqb_trans (x y z : value) :
  value_eqb x y = true -> value_eqb y z = true -> value_eqb x z = true.
Proof.
  destruct x, y, z; simpl; try discriminate.
  - rewrite !Qeq_bool_iff. intros H1 H2. rewrite H1. exact H2.
  - rewrite !String.eqb_eq. congruence.
Qed.

(** ** Value counts *)

Lemma insert_count_perm (x : value * nat) (l : list (value * nat)) :
  Permutation (x :: l) (insert_count x l).
Proof.
  induction l as [|y t IH]; simpl.
  - apply Permutation_refl.
  - destruct (snd y <=? snd x)%nat.
    + apply Permutation_refl.
    + eapply perm_trans; [apply perm_swap|]. now apply perm_skip.
Qed.

Lemma insert_count_sorted (x : value * nat) (l : list (value * nat)) :
  StronglySorted count_ge l -> StronglySorted count_ge (insert_count x l).
Proof.
  induction l as [|y t IH]; simpl; intro Hs.
  - constructor; constructor.
  - inversion Hs as [|? ? Ht Hy]; subst.
    destruct (snd y <=? snd x)%nat eqn:E.
    + apply Nat.leb_le in E. constructor; [exact Hs|].
      constructor; [exact E|].
      eapply Forall_impl; [|exact Hy]. intros a Ha. unfold count_ge in *. lia.
    + apply Nat.leb_gt in E. constructor; [now apply IH|].
      apply (Permutation_Forall (insert_count_perm x t)).
      constructor; [unfold count_ge; lia | exact Hy].
Qed.

Lemma sort_counts_perm (l : list (value * nat)) :
  Permutation l (fold_right insert_count [] l).
Proof.
  induction l as [|x t IH]; simpl.
  - apply perm_nil.
  - eapply perm_trans; [|apply insert_count_perm]. now apply perm_skip.
Qed.

Lemma sort_counts_sorted (l : list (value * nat)) :
  StronglySorted count_ge (fold_right insert_count [] l).
Proof.
  induction l as [|x t IH]; simpl; [constructor | now apply insert_count_sorted].
Qed.

Lemma value_counts_entry (s : Series) (v : value) (c : nat) :
  In (v, c) (value_counts s) ->
  In v (non_null_values s) /\ c = count_by value_eqb v (non_null_values s).
Proof.
  unfold value_counts. fold (non_null_values s). intro H.
  apply (Permutation_in _ (Permutation_sym (sort_counts_perm _))) in H.
  apply in_map_iff in H as (u & Hu & Hin). inversion Hu; subst.
  split; [|reflexivity]. unfold unique, drop_duplicates in Hin.
  now apply select_In in Hin.
Qed.

(** The first entry of [value_counts] is a most frequent value. *)
Lemma value_counts_head (s : Series) (top : value) (top_count : nat)
    (rest : list (value * nat)) :
  value_counts s = (top, top_count) :: rest ->
  In top (non_null_values s)
  /\ top_count = count_by value_eqb top (non_null_values s)
  /\ forall v, (count_by value_eqb v (non_null_values s) <= top_count)%nat.
Proof.
  intro H.
  destruct (value_counts_entry s top top_count) as [Hin Hc];
    [rewrite H; left; reflexivity|].
  split; [exact Hin|]. split; [exact Hc|].
  intro v.
  destruct (count_by value_eqb v (non_null_values s)) eqn:E; [lia|].
  rewrite <- E.
  destruct (count_by_pos value_eqb v (non_null_values s)) as (x & Hx & Hvx); [lia|].
  destruct (unique_covers value_eqb value_eqb_refl value_eqb_trans _ x Hx)
    as (u & Hu & Hxu).
  assert (Hvu : value_eqb v u = true) by (eapply value_eqb_trans; eauto).
  rewrite (count_by_equiv value_eqb value_eqb_sym value_eqb_trans v u _ Hvu).
  assert (Hentry : In (u, count_by value_eqb u (non_null_values s)) (value_counts s)).
  { unfold value_counts. fold (non_null_values s).
    apply (Permutation_in _ (sort_counts_perm _)).
    apply in_map_iff. exists u. auto. }
  pose proof (sort_counts_sorted
                (map (fun v => (v, count_by value_eqb v (non_null_values s)))
                     (unique value_eqb (non_null_values s)))) as Hs.
  unfold value_counts in H, Hentry. fold (non_null_values s) in H, Hentry.
  rewrite H in Hs, Hentry. inversion Hs as [|? ? _ Hall]; subst.
  destruct Hentry as [Heq | Hin'].
  - inversion Heq. lia.
  - rewrite Forall_forall in Hall. apply (Hall _ Hin').
Qed.

(** ** Concentration of a categorical column *)

Lemma dropna_map_length {A B : Type} (f : A -> B) (l : list (option A)) :
  length (dropna (map (option_map f) l)) = length (dropna l).
Proof.
  induction l as [|[x|] t IH]; simpl; auto.
Qed.

Lemma non_null_values_length (s : Series) :
  (length (non_null_values s) + series_null_count s = series_len s)%nat.
Proof.
  unfold non_null_values. destruct s as [l|l]; simpl;
    rewrite dropna_map_length; apply dropna_length.
Qed.

Lemma assoc_In {V : Type} (k : string) (v : V) (l : list (string * V)) :
  assoc k l = Some v -> In (k, v) l.
Proof.
  induction l as [|[k' v'] t IH]; simpl; [discriminate|].
  destruct (String.eqb k k') eqn:E; intro H.
  - apply String.eqb_eq in E. inversion H; subst. now left.
  - right. auto.
Qed.

Lemma dict_set_In {V : Type} (k k' : string) (v v' : V) (d : list (string * V)) :
  In (k', v') (dict_set k v d) -> (k', v') = (k, v) \/ In (k', v') d.
Proof.
  induction d as [|[k0 v0] t IH]; simpl.
  - intros [H|[]]. left. now symmetry.
  - destruct (String.eqb k k0); simpl; intros [H|H]; auto.
    destruct (IH H); auto.
Qed.

Lemma get_col_len (df : DataFrame) (col : string) (s : Series) :
  wf_df df -> get_col df col = Some s -> series_len s = nrows df.
Proof.
  unfold wf_df, get_col. intros Hwf H. apply assoc_In in H.
  rewrite Forall_forall in Hwf. apply (Hwf _ H).
Qed.

Lemma distributions_loop_entries (d : DataFrame) (cols : list string)
    (acc res : list (string * DistributionInfo)) :
  TrendAnalyzer.distributions_loop d cols acc = Ok res ->
  (forall col info, In (col, info) acc -> entry_of d col info) ->
  forall col info, In (col, info) res -> entry_of d col info.
Proof.
  revert acc. induction cols as [|c rest IH]; simpl; intros acc H Hacc.
  - inversion H; subst. exact Hacc.
  - destruct (get_col d c) as [s|] eqn:Hs; [|discriminate].
    destruct (TrendAnalyzer.distribution_info (nrows d) s) as [i|] eqn:Hi;
      simpl in H; [|discriminate].
    apply (IH _ H). intros col info Hin.
    apply dict_set_In in Hin as [Heq | Hin]; [|now apply Hacc].
    inversion Heq; subst. exists s. auto.
Qed.

Lemma distribution_info_inv (n : nat) (s : Series) (info : DistributionInfo) :
  TrendAnalyzer.distribution_info n s = Ok info ->
  In (most_common info) (non_null_values s)
  /\ most_common_count info = count_by value_eqb (most_common info) (non_null_values s)
  /\ (forall v, (count_by value_eqb v (non_null_values s) <= most_common_count info)%nat)
  /\ concentration info = mul (div (of_nat (most_common_count info)) (of_nat n)) 100.
Proof.
  unfold TrendAnalyzer.distribution_info.
  destruct (value_counts s) as [|[top c] rest] eqn:E; [discriminate|].
  intro H. inversion H; subst; simpl.
  destruct (value_counts_head s top c rest E) as (H1 & H2 & H3). auto.
Qed.

Section Concentration.

Variable series_mean : list Q -> npfloat.
Variable std : list Q -> npfloat.
Variable corr : Series -> Series -> npfloat.

(** C10.  For every column in the distribution report, the concentration
    is the count of the column's most frequent value divided by the row
    count of the whole dataset (null rows of the column included), times
    100.  With k null entries in the column it is therefore at most
    (rows - k) / rows x 100; and whenever the most frequent value covers at
    most 70% of all rows (however large its share of the non-null entries
    is), the returned actions hold no concentration-risk action for the
    column. *)
Theorem concentration_over_all_rows (self : BusinessInsightGenerator.t)
    (dists : list (string * DistributionInfo)) (col : string)
    (info : DistributionInfo) :
  let ta := BusinessInsightGenerator.trend_analyzer self in
  let df := TrendAnalyzer.df ta in
  wf_df df ->
  TrendAnalyzer._analyze_categorical_distributions ta = Ok dists ->
  In (col, info) dists ->
  exists s,
    get_col df col = Some s
    /\ most_common_count info
       = count_by value_eqb (most_common info) (non_null_values s)
    /\ (forall v, (count_by value_eqb v (non_null_values s)
                   <= most_common_count info)%nat)
    /\ concentration info
       = Fin (of_nat (most_common_count info) / of_nat (nrows df) * 100)
    /\ of_nat (most_common_count info) / of_nat (nrows df) * 100
       <= of_nat (nrows df - series_null_count s) / of_nat (nrows df) * 100
    /\ forall actions,
        BusinessInsightGenerator.generate_business_actions series_mean std corr self = Ok actions ->
        of_nat (most_common_count info) / of_nat (nrows df) * 100 <= 70 ->
        ~ exists a, In a actions /\ Category a = ConcentrationRisk /\ Subject a = col.
Proof.
  intros ta df Hwf Hd Hin.
  assert (Hentries : forall c i, In (c, i) dists -> entry_of df c i).
  { unfold TrendAnalyzer._analyze_categorical_distributions in Hd.
    apply (distributions_loop_entries _ _ _ _ Hd). intros c i []. }
  destruct (Hentries col info Hin) as (s & Hs & Hi).
  exists s. split; [exact Hs|].
  destruct (distribution_info_inv _ _ _ Hi) as (Hmem & Hcount & Hmax & Hconc).
  pose proof (get_col_len df col s Hwf Hs) as Hlen.
  pose proof (non_null_values_length s) as Hnn.
  assert (Hpos : (0 < nrows df)%nat).
  { destruct (non_null_values s); [destruct Hmem | simpl in Hnn; lia]. }
  assert (Hle : (most_common_count info <= nrows df - series_null_count s)%nat).
  { rewrite Hcount.
    pose proof (count_by_le_length value_eqb (most_common info) (non_null_values s)).
    lia. }
  assert (HposQ : 0 < of_nat (nrows df)) by now apply of_nat_pos.
  split; [exact Hcount|]. split; [exact Hmax|]. split.
  { rewrite Hconc, (div_pos _ _ HposQ). reflexivity. }
  split.
  { apply Qmult_le_compat_r; [|unfold Qle; simpl; lia].
    apply Qmult_le_compat_r; [now apply of_nat_le|].
    apply Qlt_le_weak, Qinv_lt_0_compat, HposQ. }
  intros actions Hgen Hshare (a & Ha & Hcat & Hsub).
  destruct (generate_inv series_mean std corr self actions Hgen) as (unsorted & Hun & ->).
  apply (Permutation_in _ (Permutation_sym (sort_by_key_perm _ _))) in Ha.
  destruct (generated_family_6 series_mean std corr self unsorted a Hun) as (cd & Hcd & Hflat);
    [rewrite Hcat; reflexivity | exact Ha |].
  fold ta in Hcd. rewrite Hd in Hcd. inversion Hcd; subst cd.
  apply in_flat_map in Hflat as ((col' & info') & Hin' & Hrule).
  unfold BusinessInsightGenerator.concentration_action in Hrule.
  destruct (gtb (concentration info') (Fin 70)) eqn:Egt.
  - destruct Hrule as [<-|[]]. simpl in Hsub. subst col'.
    destruct (Hentries col info' Hin') as (s' & Hs' & Hi').
    rewrite Hs in Hs'. inversion Hs'; subst s'.
    rewrite Hi in Hi'. inversion Hi'; subst info'.
    rewrite Hconc, (div_pos _ _ HposQ) in Egt. simpl mul in Egt.
    apply gtb_Fin in Egt. apply (Qlt_not_le _ _ Egt Hshare).
  - destruct (ltb (concentration info') (Fin 20)).
    + destruct Hrule as [<-|[]]. discriminate.
    + destruct Hrule.
Qed.

End Concentration.

Lemma concentration_witness :
  ~ exists a,
      In a (returned (BusinessInsightGenerator.generate_business_actions
                        running_mean no_std no_corr half_null_generator))
      /\ Category a = ConcentrationRisk /\ Subject a = "region"%string.
Proof.
  edestruct (concentration_over_all_rows running_mean no_std no_corr half_null_generator)
    as (s & _ & _ & _ & _ & _ & Hno).
  - repeat constructor.
  - vm_compute. reflexivity.
  - left. reflexivity.
  - apply (Hno (returned (BusinessInsightGenerator.generate_business_actions
                            running_mean no_std no_corr half_null_generator))).
    + vm_compute. reflexivity.
    + vm_compute. discriminate.
Defined.

(** ** Outlier detection *)

Lemma is_outlier_iff (lo hi x : Q) : is_outlier lo hi x = true <-> outside lo hi x.
Proof.
  unfold is_outlier, outside. rewrite orb_true_iff, !Qlt_bool_iff. reflexivity.
Qed.

Lemma select_map_filter {A : Type} (p : A -> bool) (l : list A) :
  select (map p l) l = filter p l.
Proof.
  induction l as [|x t IH]; simpl; [reflexivity|].
  destruct (p x); rewrite IH; reflexivity.
Qed.

Lemma count_true_map {A : Type} (p : A -> bool) (l : list A) :
  count_true (map p l) = length (filter p l).
Proof.
  unfold count_true. induction l as [|x t IH]; simpl; [reflexivity|].
  destruct (p x); simpl; rewrite IH; reflexivity.
Qed.

Lemma fold_qmin_In (t : list Q) (x : Q) : In (fold_left qmin t x) (x :: t).
Proof.
  revert x. induction t as [|y t IH]; intro x; simpl; [now left|].
  destruct (IH (qmin x y)) as [H|H]; [|right; right; exact H].
  rewrite <- H. unfold qmin. destruct (Qle_bool x y); auto.
Qed.

Lemma fold_qmax_In (t : list Q) (x : Q) : In (fold_left qmax t x) (x :: t).
Proof.
  revert x. induction t as [|y t IH]; intro x; simpl; [now left|].
  destruct (IH (qmax x y)) as [H|H]; [|right; right; exact H].
  rewrite <- H. unfold qmax. destruct (Qle_bool x y); auto.
Qed.

Lemma series_min_In (l : list Q) :
  l <> [] -> exists v, series_min l = Fin v /\ In v l.
Proof.
  destruct l as [|x t]; [congruence|]. intros _.
  exists (fold_left qmin t x). split; [reflexivity | apply fold_qmin_In].
Qed.

Lemma series_max_In (l : list Q) :
  l <> [] -> exists v, series_max l = Fin v /\ In v l.
Proof.
  destruct l as [|x t]; [congruence|]. intros _.
  exists (fold_left qmax t x). split; [reflexivity | apply fold_qmax_In].
Qed.

(** What an entry says about the data it was computed from. *)
Lemma outlier_entry_inv (data : list Q) (e : OutlierInfo) :
  AnomalyDetector.outlier_entry data = Some e ->
  let Q1 := quantile data (1 # 4) in
  let Q3 := quantile data (3 # 4) in
  let lo := Q1 - (3 # 2) * (Q3 - Q1) in
  let hi := Q3 + (3 # 2) * (Q3 - Q1) in
  o_lower_bound e = lo
  /\ o_upper_bound e = hi
  /\ o_count e = length (filter (is_outlier lo hi) data)
  /\ (1 <= o_count e)%nat
  /\ (exists v, o_min_outlier e = Fin v /\ In v data /\ outside lo hi v)
  /\ (exists v, o_max_outlier e = Fin v /\ In v data /\ outside lo hi v).
Proof.
  unfold AnomalyDetector.outlier_entry. cbv zeta.
  destruct (0 <? count_true (outlier_mask data))%nat eqn:E; [|discriminate].
  apply Nat.ltb_lt in E. intro H. inversion H; subst; clear H. simpl.
  unfold outlier_mask in *. rewrite count_true_map in *. rewrite select_map_filter.
  change (lower_bound data)
    with (quantile data (1 # 4)
          - (3 # 2) * (quantile data (3 # 4) - quantile data (1 # 4))) in *.
  change (upper_bound data)
    with (quantile data (3 # 4)
          + (3 # 2) * (quantile data (3 # 4) - quantile data (1 # 4))) in *.
  set (lo := quantile data (1 # 4) - _) in *.
  set (hi := quantile data (3 # 4) + _) in *.
  assert (Hne : filter (is_outlier lo hi) data <> []).
  { intro Hnil. rewrite Hnil in E. simpl in E. lia. }
  repeat split; try lia.
  - destruct (series_min_In _ Hne) as (v & Hv & Hin).
    apply filter_In in Hin as [Hin Hout]. exists v.
    repeat split; auto. now apply is_outlier_iff.
  - destruct (series_max_In _ Hne) as (v & Hv & Hin).
    apply filter_In in Hin as [Hin Hout]. exists v.
    repeat split; auto. now apply is_outlier_iff.
Qed.

Lemma outlier_entry_nil : AnomalyDetector.outlier_entry [] = None.
Proof. reflexivity. Qed.

Lemma dict_set_absent {V : Type} (k : string) (v : V) (d : list (string * V)) :
  ~ In k (map fst d) -> dict_set k v d = d ++ [(k, v)].
Proof.
  induction d as [|[k' v'] t IH]; simpl; intro H; [reflexivity|].
  destruct (String.eqb k k') eqn:E.
  - apply String.eqb_eq in E. exfalso. apply H. left. now symmetry.
  - rewrite IH; [reflexivity|]. intro Hin. apply H. now right.
Qed.

Lemma entry_for_keys (d : DataFrame) (cols : list string) (k : string) :
  In k (map fst (flat_map (entry_for d) cols)) -> In k cols.
Proof.
  induction cols as [|c rest IH]; simpl; [auto|].
  rewrite map_app, in_app_iff. intros [H|H]; [left | right; auto].
  unfold entry_for in H.
  destruct (AnomalyDetector.numeric_data d c) as [data|]; [|destruct H].
  destruct (AnomalyDetector.outlier_entry data); simpl in H; [|destruct H].
  destruct H as [H|[]]. exact H.
Qed.

(** The loop that fills the dictionary computes the entries column by
    column, in order. *)
Lemma detect_outliers_loop_spec (d : DataFrame) (cols : list string)
    (acc res : list (string * OutlierInfo)) :
  NoDup cols ->
  (forall c, In c cols -> ~ In c (map fst acc)) ->
  AnomalyDetector.detect_outliers_loop d cols acc = Ok res ->
  res = acc ++ flat_map (entry_for d) cols.
Proof.
  revert acc. induction cols as [|c rest IH]; simpl; intros acc Hnd Hfresh H.
  - inversion H. now rewrite app_nil_r.
  - inversion Hnd as [|? ? Hc Hrest]; subst.
    unfold entry_for at 1.
    destruct (AnomalyDetector.numeric_data d c) as [data|]; simpl in H; [|discriminate].
    destruct (length data =? 0)%nat eqn:E.
    + apply Nat.eqb_eq in E. destruct data; [|discriminate].
      rewrite outlier_entry_nil. simpl. apply IH; auto.
    + destruct (AnomalyDetector.outlier_entry data) as [e|].
      * rewrite dict_set_absent in H by (apply Hfresh; now left).
        apply IH in H; auto.
        -- rewrite H, <- app_assoc. reflexivity.
        -- intros c' Hc'. rewrite map_app, in_app_iff. simpl.
           intros [Hin | [-> | []]]; [|contradiction].
           apply (Hfresh c'); auto.
      * simpl. apply IH; auto.
Qed.


Lemma NoDup_map_fst_filter {V : Type} (p : string * V -> bool) (l : list (string * V)) :
  NoDup (map fst l) -> NoDup (map fst (filter p l)).
Proof.
  induction l as [|x t IH]; simpl; intro H; [constructor|].
  inversion H as [|? ? Hx Ht]; subst.
  destruct (p x); simpl; [|auto]. constructor; [|auto].
  intro Hin. apply Hx. apply in_map_iff in Hin as (y & Hy & Hin).
  apply filter_In in Hin as [Hin _]. apply in_map_iff. eauto.
Qed.

Lemma In_firstn {A : Type} (n : nat) (l : list A) (x : A) :
  In x (firstn n l) -> In x l.
Proof.
  revert n. induction l as [|y t IH]; intros [|n] H; simpl in *; try contradiction.
  destruct H as [H|H]; eauto.
Qed.

Lemma NoDup_firstn {A : Type} (n : nat) (l : list A) : NoDup l -> NoDup (firstn n l).
Proof.
  revert n. induction l as [|x t IH]; intros [|n] H; simpl; try constructor.
  - inversion H; subst. intro Hin. apply In_firstn in Hin. contradiction.
  - inversion H; subst. auto.
Qed.

Lemma examined_cols_nodup (self : AnomalyDetector.t) :
  NoDup (map fst (AnomalyDetector.column_types self)) ->
  NoDup (firstn 5 (AnomalyDetector.numeric_cols self)).
Proof.
  intro H. apply NoDup_firstn. unfold AnomalyDetector.numeric_cols, cols_of_type.
  now apply NoDup_map_fst_filter.
Qed.

Lemma detect_outliers_entries (self : AnomalyDetector.t)
    (report : list (string * OutlierInfo)) :
  NoDup (map fst (AnomalyDetector.column_types self)) ->
  AnomalyDetector._detect_outliers self = Ok report ->
  report = flat_map (entry_for (AnomalyDetector.df self))
                    (firstn 5 (AnomalyDetector.numeric_cols self)).
Proof.
  intros Hnd H. unfold AnomalyDetector._detect_outliers in H.
  apply detect_outliers_loop_spec in H;
    [exact H | now apply examined_cols_nodup | intros c _ []].
Qed.

Lemma entry_for_inv (d : DataFrame) (c col : string) (e : OutlierInfo) :
  In (col, e) (entry_for d c) ->
  col = c
  /\ exists cells, get_col d col = Some (NumSeries cells)
                   /\ AnomalyDetector.outlier_entry (dropna cells) = Some e.
Proof.
  unfold entry_for, AnomalyDetector.numeric_data.
  destruct (get_col d c) as [[cells|cells]|] eqn:Hc; simpl.
  - destruct (AnomalyDetector.outlier_entry (dropna cells)) as [e'|] eqn:He;
      [intros [H|[]] | intros []].
    inversion H; subst. eauto.
  - destruct (dropna cells); [rewrite outlier_entry_nil|]; intros [].
  - intros [].
Qed.




(** ** The profiler's outlier flag *)

Lemma insert_sorted_perm (x : Q) (l : list Q) : Permutation (x :: l) (insert_sorted x l).
Proof.
  induction l as [|y t IH]; simpl.
  - apply Permutation_refl.
  - destruct (Qle_bool x y).
    + apply Permutation_refl.
    + eapply perm_trans; [apply perm_swap|]. now apply perm_skip.
Qed.

Lemma sort_perm (l : list Q) : Permutation l (sort l).
Proof.
  induction l as [|x t IH]; simpl.
  - apply perm_nil.
  - eapply perm_trans; [|apply insert_sorted_perm]. now apply perm_skip.
Qed.

Lemma insert_sorted_sorted (x : Q) (l : list Q) :
  StronglySorted Qle l -> StronglySorted Qle (insert_sorted x l).
Proof.
  induction l as [|y t IH]; simpl; intro Hs.
  - constructor; constructor.
  - inversion Hs as [|? ? Ht Hy]; subst.
    destruct (Qle_bool x y) eqn:E.
    + apply Qle_bool_iff in E. constructor; [exact Hs|].
      constructor; [exact E|].
      eapply Forall_impl; [|exact Hy]. intros a Ha. eapply Qle_trans; eauto.
    + assert (Hyx : y <= x).
      { apply Qlt_le_weak, Qnot_le_lt. intro H. apply Qle_bool_iff in H. congruence. }
      constructor; [now apply IH|].
      apply (Permutation_Forall (insert_sorted_perm x t)).
      constructor; [exact Hyx | exact Hy].
Qed.

Lemma sort_sorted (l : list Q) : StronglySorted Qle (sort l).
Proof.
  induction l as [|x t IH]; simpl; [constructor | now apply insert_sorted_sorted].
Qed.







(** ** Dropping duplicate rows *)

Section Dedup.
Context {A : Type}.
Variable eqb : A -> A -> bool.

Lemma duplicated_from_length (seen l : list A) :
  length (duplicated_from eqb seen l) = length l.
Proof.
  revert seen. induction l as [|x t IH]; intro seen; simpl; auto.
Qed.

(** Among the kept entries none is marked again, whatever smaller set of
    entries has been seen before. *)
Lemma kept_not_duplicated (seen seen' l : list A) :
  (forall x, existsb (eqb x) seen' = true -> existsb (eqb x) seen = true) ->
  count_true
    (duplicated_from eqb seen' (select (map negb (duplicated_from eqb seen l)) l))
  = 0%nat.
Proof.
  revert seen seen'. induction l as [|a t IH]; intros seen seen' Hsub; [reflexivity|].
  assert (Hnext : forall x, existsb (eqb x) (a :: seen') = true ->
                            existsb (eqb x) (a :: seen) = true).
  { intros x. simpl. rewrite !orb_true_iff. intros [H|H]; auto. }
  simpl. destruct (existsb (eqb a) seen) eqn:E; simpl.
  - apply IH. intros x H. simpl. rewrite orb_true_iff. right. now apply Hsub.
  - destruct (existsb (eqb a) seen') eqn:E'.
    + apply Hsub in E'. congruence.
    + unfold count_true. simpl. apply (IH (a :: seen) (a :: seen') Hnext).
Qed.

Lemma drop_duplicates_clean (l : list A) :
  count_true (duplicated eqb (drop_duplicates eqb l)) = 0%nat.
Proof.
  unfold duplicated, drop_duplicates, duplicated. apply kept_not_duplicated. auto.
Qed.

End Dedup.

Lemma select_map {A B : Type} (f : A -> B) (mask : list bool) (l : list A) :
  select mask (map f l) = map f (select mask l).
Proof.
  revert mask. induction l as [|x t IH]; intros [|b m]; simpl; try reflexivity.
  destruct b; simpl; rewrite IH; reflexivity.
Qed.

Lemma rows_of_from (df : DataFrame) :
  rows_of df = rows_from (nrows df) (map (fun c => series_values (snd c)) (columns df)).
Proof.
  unfold rows_of, rows_from, row_at. apply map_ext. intro i.
  rewrite map_map. reflexivity.
Qed.

Lemma rows_from_S (n : nat) (cols : list (list (option value))) :
  rows_from (S n) cols
  = map (fun vs => nth 0 vs None) cols :: rows_from n (map (@tl _) cols).
Proof.
  unfold rows_from. simpl. f_equal.
  rewrite <- seq_shift, map_map. apply map_ext. intro i.
  rewrite map_map. apply map_ext. intros [|x t]; simpl; [destruct i|]; reflexivity.
Qed.

Lemma rows_from_select (mask : list bool) (cols : list (list (option value))) :
  Forall (fun vs => length vs = length mask) cols ->
  rows_from (count_true mask) (map (select mask) cols)
  = select mask (rows_from (length mask) cols).
Proof.
  revert cols. induction mask as [|b m IH]; intros cols Hlen; [reflexivity|].
  simpl length. rewrite rows_from_S.
  assert (Htl : Forall (fun vs => length vs = length m) (map (@tl _) cols)).
  { rewrite Forall_map. eapply Forall_impl; [|exact Hlen].
    intros [|x t] H; simpl in *; [discriminate | lia]. }
  specialize (IH _ Htl). rewrite map_map in IH.
  destruct b.
  - change (count_true (true :: m)) with (S (count_true m)).
    rewrite rows_from_S. simpl select. rewrite !map_map. f_equal.
    + apply map_ext_Forall. eapply Forall_impl; [|exact Hlen].
      intros [|x t] H; simpl in *; [discriminate | reflexivity].
    + rewrite <- IH. f_equal. apply map_ext_Forall.
      eapply Forall_impl; [|exact Hlen].
      intros [|x t] H; simpl in *; [discriminate | reflexivity].
  - change (count_true (false :: m)) with (count_true m).
    simpl select. rewrite <- IH. f_equal. apply map_ext_Forall.
    eapply Forall_impl; [|exact Hlen].
    intros [|x t] H; simpl in *; [discriminate | reflexivity].
Qed.

Lemma series_values_select (mask : list bool) (s : Series) :
  series_values (series_select mask s) = select mask (series_values s).
Proof.
  destruct s; simpl; now rewrite select_map.
Qed.

Lemma series_values_length (s : Series) : length (series_values s) = series_len s.
Proof.
  destruct s; simpl; apply length_map.
Qed.

Lemma rows_of_length (df : DataFrame) : length (rows_of df) = nrows df.
Proof.
  unfold rows_of. rewrite length_map, length_seq. reflexivity.
Qed.

Lemma rows_of_select_rows (mask : list bool) (df : DataFrame) :
  wf_df df -> length mask = nrows df ->
  rows_of (select_rows mask df) = select mask (rows_of df).
Proof.
  intros Hwf Hlen. rewrite !rows_of_from. simpl. rewrite <- Hlen.
  rewrite <- rows_from_select.
  - f_equal. rewrite !map_map. apply map_ext. intro c. simpl.
    apply series_values_select.
  - rewrite Forall_map. eapply Forall_impl; [|exact Hwf].
    intros c H. simpl in H. rewrite series_values_length. lia.
Qed.

Lemma df_drop_duplicates_clean (df : DataFrame) :
  wf_df df -> duplicate_rows (df_drop_duplicates df) = 0%nat.
Proof.
  intro Hwf. unfold duplicate_rows, df_duplicated, df_drop_duplicates.
  rewrite rows_of_select_rows.
  - apply (drop_duplicates_clean row_eqb).
  - exact Hwf.
  - unfold df_duplicated, duplicated.
    rewrite length_map, duplicated_from_length. apply rows_of_length.
Qed.

(** ** Publishing a frame never fails on inferred types *)

Section ProcessorFacts.

Variable to_datetime_ok : list (option string) -> bool.
Variable std : list Q -> npfloat.

Lemma detect_object_not_numeric (n : nat) (cells : list (option string)) :
  is_numeric_type (detect_column_type to_datetime_ok n (ObjSeries cells)) = false.
Proof.
  unfold detect_column_type.
  destruct (isna_all _); [reflexivity|].
  destruct (to_datetime_ok cells); [reflexivity|]. cbv zeta.
  destruct (issubset _ _); [reflexivity|].
  destruct (_ || _); reflexivity.
Qed.

Lemma profile_column_inferred (n : nat) (s : Series) :
  exists p,
    DataProcessor.profile_column std n (detect_column_type to_datetime_ok n s) s = Ok p.
Proof.
  unfold DataProcessor.profile_column.
  destruct s as [cells|cells].
  - destruct (is_numeric_type _).
    + destruct (dropna cells); eauto.
    + destruct (is_categorical_type _); eauto.
  - rewrite detect_object_not_numeric.
    destruct (is_categorical_type _); eauto.
Qed.

Lemma type_of_inferred (n : nat) (cols : list (string * Series)) (col : string)
    (s : Series) :
  NoDup (map fst cols) -> In (col, s) cols ->
  DataProcessor.type_of
    (map (fun c => (fst c, detect_column_type to_datetime_ok n (snd c))) cols) col
  = detect_column_type to_datetime_ok n s.
Proof.
  unfold DataProcessor.type_of.
  induction cols as [|[k v] t IH]; simpl; intros Hnd Hin; [destruct Hin|].
  inversion Hnd as [|? ? Hk Ht]; subst.
  destruct Hin as [Heq|Hin].
  - inversion Heq; subst. rewrite String.eqb_refl. reflexivity.
  - destruct (String.eqb col k) eqn:E; [|auto].
    apply String.eqb_eq in E. subst k. exfalso. apply Hk.
    apply in_map_iff. exists (col, s). auto.
Qed.

Lemma profile_loop_no_exception (n : nat) (types : list (string * ColumnType))
    (cols : list (string * Series)) (acc : list (string * ColumnProfile)) :
  (forall col s, In (col, s) cols ->
     DataProcessor.type_of types col = detect_column_type to_datetime_ok n s) ->
  snd (DataProcessor.profile_columns_loop std n types cols acc) = None.
Proof.
  revert acc. induction cols as [|[col s] rest IH]; intros acc H; [reflexivity|].
  simpl. rewrite (H col s) by now left.
  destruct (profile_column_inferred n s) as (p & ->).
  apply IH. intros c s' Hin. apply H. now right.
Qed.

Lemma publish_no_exception (self : DataProcessor.t) (original : option DataFrame)
    (df : DataFrame) :
  NoDup (col_names df) ->
  snd (DataProcessor.publish to_datetime_ok std self original df) = None.
Proof.
  intro Hnd. unfold DataProcessor.publish, DataProcessor.profile_data.
  pose proof (profile_loop_no_exception (nrows df)
                (detect_column_types to_datetime_ok df) (columns df) []) as H.
  destruct (DataProcessor.profile_columns_loop _ _ _ _ _) as [cols raised].
  simpl in *. apply H. intros col s Hin.
  unfold detect_column_types. now apply type_of_inferred.
Qed.

(** What [publish] leaves behind depends on the frame alone, apart from
    the log and the stored original. *)
Lemma publish_fields (self : DataProcessor.t) (original : option DataFrame)
    (df : DataFrame) :
  let r := DataProcessor.publish to_datetime_ok std self original df in
  DataProcessor.original_df (fst r) = original
  /\ DataProcessor.processed_df (fst r) = Some df
  /\ DataProcessor.column_datatypes (fst r) = detect_column_types to_datetime_ok df
  /\ DataProcessor.data_profile (fst r)
     = Some (fst (DataProcessor.profile_data std
                    (detect_column_types to_datetime_ok df) df))
  /\ DataProcessor.cleaning_steps (fst r) = DataProcessor.cleaning_steps self
  /\ snd r = snd (DataProcessor.profile_data std
                    (detect_column_types to_datetime_ok df) df).
Proof.
  unfold DataProcessor.publish.
  destruct (DataProcessor.profile_data _ _ _) as [profile raised].
  simpl. repeat split; reflexivity.
Qed.

End ProcessorFacts.

(** ** The generator returns on inferred types *)

Lemma assoc_nodup {V : Type} (k : string) (v : V) (l : list (string * V)) :
  NoDup (map fst l) -> In (k, v) l -> assoc k l = Some v.
Proof.
  induction l as [|[k' v'] t IH]; simpl; intros Hnd Hin; [destruct Hin|].
  inversion Hnd as [|? ? Hk Ht]; subst.
  destruct Hin as [Heq|Hin].
  - inversion Heq; subst. rewrite String.eqb_refl. reflexivity.
  - destruct (String.eqb k k') eqn:E; [|auto].
    apply String.eqb_eq in E. subst k'. exfalso. apply Hk.
    apply in_map_iff. exists (k, v). auto.
Qed.

Lemma cols_of_type_In (p : ColumnType -> bool) (types : list (string * ColumnType))
    (col : string) :
  In col (cols_of_type p types) -> exists ty, In (col, ty) types /\ p ty = true.
Proof.
  unfold cols_of_type. intro H. apply in_map_iff in H as ([c ty] & Hc & Hin).
  apply filter_In in Hin as [Hin Hp]. simpl in *. subst c. eauto.
Qed.

Lemma insert_count_nonempty (x : value * nat) (l : list (value * nat)) :
  insert_count x l <> [].
Proof.
  destruct l as [|y t]; simpl; [discriminate|].
  destruct (snd y <=? snd x)%nat; discriminate.
Qed.

Lemma value_counts_nonempty (s : Series) : isna_all s = false -> value_counts s <> [].
Proof.
  intro H. unfold value_counts.
  assert (Hlen : (0 < length (dropna (series_values s)))%nat).
  { destruct s as [l|l]; simpl in *; rewrite dropna_map_length;
      now apply forallb_is_none_false. }
  destruct (dropna (series_values s)) as [|x t]; [simpl in Hlen; lia|].
  unfold unique, drop_duplicates, duplicated. simpl.
  apply insert_count_nonempty.
Qed.

Section Returns.

Variable to_datetime_ok : list (option string) -> bool.
Variable series_mean : list Q -> npfloat.
Variable std : list Q -> npfloat.
Variable corr : Series -> Series -> npfloat.

Lemma inferred_type_lookup (df : DataFrame) (col : string) (ty : ColumnType) :
  NoDup (col_names df) ->
  In (col, ty) (detect_column_types to_datetime_ok df) ->
  exists s, get_col df col = Some s
            /\ ty = detect_column_type to_datetime_ok (nrows df) s.
Proof.
  intros Hnd Hin. unfold detect_column_types in Hin.
  apply in_map_iff in Hin as ([c s] & Heq & Hin). simpl in Heq.
  inversion Heq; subst. exists s. split; [|reflexivity].
  unfold get_col. now apply assoc_nodup.
Qed.

Lemma inferred_numeric_col (df : DataFrame) (col : string) :
  NoDup (col_names df) ->
  In col (cols_of_type is_numeric_type (detect_column_types to_datetime_ok df)) ->
  exists cells, get_col df col = Some (NumSeries cells).
Proof.
  intros Hnd Hin. apply cols_of_type_In in Hin as (ty & Hin & Hnum).
  destruct (inferred_type_lookup df col ty Hnd Hin) as (s & Hget & ->).
  destruct s as [cells|cells]; [eauto|].
  rewrite detect_object_not_numeric in Hnum. discriminate.
Qed.

Lemma inferred_categorical_col (df : DataFrame) (col : string) :
  NoDup (col_names df) ->
  In col (cols_of_type is_categorical_type (detect_column_types to_datetime_ok df)) ->
  exists s, get_col df col = Some s /\ value_counts s <> [].
Proof.
  intros Hnd Hin. apply cols_of_type_In in Hin as (ty & Hin & Hcat).
  destruct (inferred_type_lookup df col ty Hnd Hin) as (s & Hget & ->).
  exists s. split; [exact Hget|]. apply value_counts_nonempty.
  unfold detect_column_type in Hcat.
  destruct (isna_all s); [discriminate | reflexivity].
Qed.

Lemma numeric_trends_loop_returns (d : DataFrame) (cols : list string)
    (acc : list (string * TrendInfo)) :
  Forall (fun col => exists cells, get_col d col = Some (NumSeries cells)) cols ->
  exists res, TrendAnalyzer.numeric_trends_loop series_mean std d cols acc = Ok res.
Proof.
  revert acc. induction cols as [|c rest IH]; simpl; intros acc H; [eauto|].
  inversion H as [|? ? (cells & Hc) Hrest]; subst.
  unfold AnomalyDetector.numeric_data. rewrite Hc. simpl.
  destruct (length (dropna cells) =? 0)%nat; apply IH; auto.
Qed.

Lemma distributions_loop_returns (d : DataFrame) (cols : list string)
    (acc : list (string * DistributionInfo)) :
  Forall (fun col => exists s, get_col d col = Some s /\ value_counts s <> []) cols ->
  exists res, TrendAnalyzer.distributions_loop d cols acc = Ok res.
Proof.
  revert acc. induction cols as [|c rest IH]; simpl; intros acc H; [eauto|].
  inversion H as [|? ? (s & Hc & Hvc) Hrest]; subst. rewrite Hc.
  unfold TrendAnalyzer.distribution_info.
  destruct (value_counts s) as [|[top n] t]; [congruence|]. simpl.
  apply IH; auto.
Qed.

Lemma get_cols_returns (d : DataFrame) (cols : list string) :
  Forall (fun col => exists cells, get_col d col = Some (NumSeries cells)) cols ->
  exists sub_df, TrendAnalyzer.get_cols d cols = Ok sub_df.
Proof.
  induction cols as [|c rest IH]; simpl; intro H; [eauto|].
  inversion H as [|? ? (cells & Hc) Hrest]; subst. rewrite Hc.
  destruct (IH Hrest) as (tl & ->). simpl. eauto.
Qed.

Lemma Forall_firstn {A : Type} (P : A -> Prop) (n : nat) (l : list A) :
  Forall P l -> Forall P (firstn n l).
Proof.
  rewrite !Forall_forall. intros H x Hx. apply H. now apply In_firstn in Hx.
Qed.

(** On the types inferred from its own frame, whose column names are
    distinct, the generator raises nothing. *)
Lemma generator_returns (self : BusinessInsightGenerator.t) :
  let ta := BusinessInsightGenerator.trend_analyzer self in
  NoDup (col_names (TrendAnalyzer.df ta)) ->
  TrendAnalyzer.column_types ta
  = detect_column_types to_datetime_ok (TrendAnalyzer.df ta) ->
  exists actions,
    BusinessInsightGenerator.generate_business_actions series_mean std corr self = Ok actions.
Proof.
  intros ta Hnd Hty.
  assert (Hnum : Forall (fun col => exists cells,
                           get_col (TrendAnalyzer.df ta) col = Some (NumSeries cells))
                        (TrendAnalyzer.numeric_cols ta)).
  { apply Forall_forall. intros col Hin.
    unfold TrendAnalyzer.numeric_cols in Hin. rewrite Hty in Hin.
    now apply inferred_numeric_col. }
  assert (Hcat : Forall (fun col => exists s,
                           get_col (TrendAnalyzer.df ta) col = Some s
                           /\ value_counts s <> [])
                        (TrendAnalyzer.categorical_cols ta)).
  { apply Forall_forall. intros col Hin.
    unfold TrendAnalyzer.categorical_cols in Hin. rewrite Hty in Hin.
    now apply inferred_categorical_col. }
  unfold BusinessInsightGenerator.generate_business_actions,
    BusinessInsightGenerator.generated_actions. cbv zeta. fold ta.
  unfold TrendAnalyzer._analyze_numeric_trends,
    TrendAnalyzer._analyze_categorical_distributions,
    TrendAnalyzer._analyze_correlations.
  destruct (numeric_trends_loop_returns (TrendAnalyzer.df ta)
              (firstn 5 (TrendAnalyzer.numeric_cols ta)) [])
    as (nt & ->); [now apply Forall_firstn|].
  destruct (distributions_loop_returns (TrendAnalyzer.df ta)
              (firstn 3 (TrendAnalyzer.categorical_cols ta)) [])
    as (cd & ->); [now apply Forall_firstn|].
  simpl bind.
  destruct (length (TrendAnalyzer.numeric_cols ta) <? 2)%nat; [simpl; eauto|].
  destruct (get_cols_returns (TrendAnalyzer.df ta) (TrendAnalyzer.numeric_cols ta) Hnum)
    as (sub_df & ->).
  simpl. eauto.
Qed.

End Returns.

(** ** Cleaning twice *)

Lemma deduplicated_clean (df : DataFrame) :
  wf_df df -> duplicate_rows (deduplicated df) = 0%nat.
Proof.
  intro Hwf. unfold deduplicated.
  destruct (0 <? duplicate_rows df)%nat eqn:E.
  - now apply df_drop_duplicates_clean.
  - apply Nat.ltb_ge in E. lia.
Qed.

Lemma deduplicated_names (df : DataFrame) :
  col_names (deduplicated df) = col_names df.
Proof.
  unfold deduplicated. destruct (0 <? duplicate_rows df)%nat; [|reflexivity].
  unfold col_names, df_drop_duplicates, select_rows. simpl.
  rewrite map_map. reflexivity.
Qed.

Section CleaningTwice.

Variable to_datetime_ok : list (option string) -> bool.
Variable std : list Q -> npfloat.

(** A cleaning run that only removes duplicates. *)
Let clean (self : DataProcessor.t) (threshold : Q) (now : string) :=
  DataProcessor.clean_data to_datetime_ok std self true none threshold false now.

(** The outcome of such a run, spelled out. *)
Lemma clean_dedup_only (self : DataProcessor.t) (df : DataFrame)
    (threshold : Q) (now : string) :
  DataProcessor.processed_df self = Some df ->
  let df1 := deduplicated df in
  let published :=
    DataProcessor.publish to_datetime_ok std self (DataProcessor.original_df self) df1 in
  let report :=
    {| original_rows := nrows df;
       original_cols := length (columns df);
       steps_taken :=
         (if (0 <? duplicate_rows df)%nat
          then [RemovedDuplicates (duplicate_rows df)] else []) ++ [] ++ [];
       cleaned_rows := nrows df1;
       cleaned_cols := length (columns df1);
       rows_removed := (nrows df - nrows df1)%nat;
       cols_removed := (length (columns df) - length (columns df1))%nat |} in
  clean self threshold now =
    match snd published with
    | Some e => (fst published, Raise e)
    | None =>
        ({| DataProcessor.original_df := DataProcessor.original_df (fst published);
            DataProcessor.processed_df := DataProcessor.processed_df (fst published);
            DataProcessor.column_datatypes := DataProcessor.column_datatypes (fst published);
            DataProcessor.data_profile := DataProcessor.data_profile (fst published);
            DataProcessor.cleaning_steps :=
              DataProcessor.cleaning_steps (fst published) ++ [DataCleaned report now] |},
         Ok (Some report))
    end.
Proof.
  intros Hp. unfold clean, DataProcessor.clean_data, deduplicated. rewrite Hp.
  simpl andb.
  destruct (0 <? duplicate_rows df)%nat; unfold DataProcessor.handle_missing_step;
    cbv iota beta; unfold bind;
    destruct (DataProcessor.publish _ _ _ _ _) as [s' [e|]]; reflexivity.
Qed.

(** C6.  Run the cleaning with duplicate removal only (no missing-value
    strategy, no outlier removal) on a processor that holds a frame, and
    let it return; run it again.  The second run returns a report that
    lists no step, with zero rows and zero columns removed, and leaves the
    frame, the original, the column types and the profile as the first run
    left them.  The first run does return when the column names are
    distinct. *)
Theorem clean_twice_idempotent (self : DataProcessor.t) (df : DataFrame)
    (threshold1 threshold2 : Q) (now1 now2 : string) :
  DataProcessor.processed_df self = Some df ->
  wf_df df ->
  (forall self1 report1,
     clean self threshold1 now1 = (self1, Ok report1) ->
     exists self2 report2,
       clean self1 threshold2 now2 = (self2, Ok (Some report2))
       /\ DataProcessor.processed_df self2 = DataProcessor.processed_df self1
       /\ DataProcessor.processed_df self1 = Some (deduplicated df)
       /\ DataProcessor.original_df self2 = DataProcessor.original_df self1
       /\ DataProcessor.column_datatypes self2 = DataProcessor.column_datatypes self1
       /\ DataProcessor.data_profile self2 = DataProcessor.data_profile self1
       /\ steps_taken report2 = []
       /\ rows_removed report2 = 0%nat
       /\ cols_removed report2 = 0%nat
       /\ cleaned_rows report2 = original_rows report2)
  /\ (NoDup (col_names df) ->
      exists self1 report1, clean self threshold1 now1 = (self1, Ok (Some report1))).
Proof.
  intros Hp Hwf.
  pose proof (clean_dedup_only self df threshold1 now1 Hp) as H1. cbv zeta in H1.
  set (df1 := deduplicated df) in *.
  destruct (publish_fields to_datetime_ok std self (DataProcessor.original_df self) df1)
    as (Ho & Hproc & Hty & Hprof & Hlog & Hexn).
  split.
  - intros self1 report1 Hrun. rewrite H1 in Hrun.
    destruct (snd (DataProcessor.publish to_datetime_ok std self _ df1)) eqn:E;
      [discriminate|].
    injection Hrun as Hself1 Hrep1. clear H1.
    assert (Hp1 : DataProcessor.processed_df self1 = Some df1)
      by (rewrite <- Hself1; exact Hproc).
    pose proof (clean_dedup_only self1 df1 threshold2 now2 Hp1) as H2. cbv zeta in H2.
    assert (Hd0 : duplicate_rows df1 = 0%nat) by (apply deduplicated_clean; exact Hwf).
    assert (Hdd : deduplicated df1 = df1).
    { unfold deduplicated. rewrite Hd0. reflexivity. }
    rewrite Hdd, Hd0 in H2.
    destruct (publish_fields to_datetime_ok std self1
                (DataProcessor.original_df self1) df1)
      as (Ho2 & Hproc2 & Hty2 & Hprof2 & Hlog2 & Hexn2).
    rewrite <- Hexn in Hexn2. rewrite Hexn2 in H2.
    assert (Hty1 : DataProcessor.column_datatypes self1
                   = detect_column_types to_datetime_ok df1)
      by (rewrite <- Hself1; exact Hty).
    assert (Hprof1 : DataProcessor.data_profile self1
                     = Some (fst (DataProcessor.profile_data std
                                    (detect_column_types to_datetime_ok df1) df1)))
      by (rewrite <- Hself1; exact Hprof).
    eexists. eexists. split; [exact H2|].
    cbn [DataProcessor.original_df DataProcessor.processed_df
         DataProcessor.column_datatypes DataProcessor.data_profile
         steps_taken rows_removed cols_removed cleaned_rows original_rows].
    rewrite Hproc2, Ho2, Hty2, Hprof2, Hp1, Hty1, Hprof1.
    repeat split; try reflexivity; lia.
  - intro Hnd. rewrite H1.
    rewrite (publish_no_exception to_datetime_ok std self _ df1)
      by (unfold df1; rewrite deduplicated_names; exact Hnd).
    eauto.
Qed.

End CleaningTwice.

Lemma clean_twice_witness :
  let first :=
    DataProcessor.clean_data never_dates no_std repeated_row_processor
      true none (1 # 2) false "t1" in
  let second :=
    DataProcessor.clean_data never_dates no_std (fst first)
      true none (1 # 2) false "t2" in
  exists report2,
    snd second = Ok (Some report2)
    /\ steps_taken report2 = []
    /\ rows_removed report2 = 0%nat
    /\ DataProcessor.processed_df (fst second) = DataProcessor.processed_df (fst first).
Proof.
  intros first second.
  destruct (clean_twice_idempotent never_dates no_std repeated_row_processor
              repeated_row_frame (1 # 2) (1 # 2) "t1" "t2" eq_refl) as [Htwice _].
  - repeat constructor.
  - destruct (Htwice (fst first)
                match snd first with Ok r => r | Raise _ => None end)
      as (self2 & report2 & Hrun & Hp & _ & _ & _ & _ & Hsteps & Hrows & _).
    + vm_compute. reflexivity.
    + exists report2. unfold second. rewrite Hrun. simpl. auto.
Defined.

(** ** Insufficient data *)

Lemma non_null_values_num (cells : list (option Q)) :
  length (non_null_values (NumSeries cells)) = length (dropna cells).
Proof. unfold non_null_values. simpl. apply dropna_map_length. Qed.

Lemma non_null_values_obj (cells : list (option string)) :
  length (non_null_values (ObjSeries cells)) = length (dropna cells).
Proof. unfold non_null_values. simpl. apply dropna_map_length. Qed.

(** C7.  The insufficient-data cases are ordinary results, not exceptions:
    a series of fewer than 2 points has trend "insufficient_data", also
    inside the trend record of its column; with fewer than 2 numeric
    columns the correlation analysis returns the empty dictionary; and
    forecasting a column with fewer than 10 non-null values returns no
    figure and the message "Need at least 10 data points for
    forecasting". *)
Theorem insufficient_data_results :
  (forall series_mean series, (length series < 2)%nat ->
     TrendAnalyzer._detect_trend_direction series_mean series = insufficient_data)
  /\ (forall series_mean std data, (length data < 2)%nat ->
      trend_direction (TrendAnalyzer.trend_info series_mean std data)
      = insufficient_data)
  /\ (forall corr self, (length (TrendAnalyzer.numeric_cols self) < 2)%nat ->
      TrendAnalyzer._analyze_correlations corr self = Ok [])
  /\ (forall fit self column periods s,
      get_col (PredictiveInsights.df self) column = Some s ->
      (length (non_null_values s) < 10)%nat ->
      PredictiveInsights.simple_forecast fit self column periods
      = Ok (None, PredictiveInsights.Message
                    "Need at least 10 data points for forecasting")).
Proof.
  assert (Htrend : forall series_mean series, (length series < 2)%nat ->
            TrendAnalyzer._detect_trend_direction series_mean series
            = insufficient_data).
  { intros series_mean series H. unfold TrendAnalyzer._detect_trend_direction.
    apply Nat.ltb_lt in H. rewrite H. reflexivity. }
  split; [exact Htrend|]. split; [|split].
  - intros series_mean std data H. simpl. now apply Htrend.
  - intros corr self H. unfold TrendAnalyzer._analyze_correlations.
    apply Nat.ltb_lt in H. rewrite H. reflexivity.
  - intros fit self column periods s Hget Hlen.
    unfold PredictiveInsights.simple_forecast. rewrite Hget.
    destruct s as [cells|cells].
    + rewrite non_null_values_num in Hlen. apply Nat.ltb_lt in Hlen.
      rewrite Hlen. reflexivity.
    + rewrite non_null_values_obj in Hlen. apply Nat.ltb_lt in Hlen.
      rewrite Hlen. reflexivity.
Qed.

Lemma insufficient_data_witness :
  TrendAnalyzer._detect_trend_direction running_mean [7] = insufficient_data
  /\ TrendAnalyzer._analyze_correlations no_corr single_value_analyzer = Ok []
  /\ PredictiveInsights.simple_forecast no_fit single_value_forecaster "sales" 5
     = Ok (None, PredictiveInsights.Message
                   "Need at least 10 data points for forecasting").
Proof.
  destruct insufficient_data_results as (Htrend & _ & Hcorr & Hforecast).
  split; [apply Htrend; simpl; lia|].
  split; [apply Hcorr; simpl; lia|].
  apply (Hforecast no_fit single_value_forecaster "sales"%string 5%nat
           (NumSeries [None; Some 7; None])).
  - reflexivity.
  - vm_compute. lia.
Defined.

(** ** Loading *)

Section Loading.

Variable to_datetime_ok : list (option string) -> bool.
Variable std : list Q -> npfloat.




End Loading.


(** ** The ranked action list *)

Section RankedActions.

Variable series_mean : list Q -> npfloat.
Variable std : list Q -> npfloat.
Variable corr : Series -> Series -> npfloat.

(** C2.  Whenever the generator returns, its list is the generated
    actions reordered: an action never comes before one of a more urgent
    tier (critical, then high, then strategic), so nothing precedes a
    critical action but critical actions; and within each tier the
    actions stand in the order in which the rule families produced
    them.  The generator does return when the column types are the ones
    inferred from its frame and the column names are distinct. *)
Theorem actions_sorted_by_priority (self : BusinessInsightGenerator.t) :
  (forall actions,
     BusinessInsightGenerator.generate_business_actions series_mean std corr self = Ok actions ->
     exists unsorted,
       BusinessInsightGenerator.generated_actions series_mean std corr self = Ok unsorted
       /\ Permutation unsorted actions
       /\ (forall l1 a l2 b l3, actions = l1 ++ a :: l2 ++ b :: l3 ->
           (priority_order (Priority a) <= priority_order (Priority b))%nat)
       /\ (forall l1 a l2 b l3, actions = l1 ++ a :: l2 ++ b :: l3 ->
           Priority b = Critical -> Priority a = Critical)
       /\ (forall p, filter (has_priority p) actions
                     = filter (has_priority p) unsorted))
  /\ (forall to_datetime_ok,
      let ta := BusinessInsightGenerator.trend_analyzer self in
      NoDup (col_names (TrendAnalyzer.df ta)) ->
      TrendAnalyzer.column_types ta
      = detect_column_types to_datetime_ok (TrendAnalyzer.df ta) ->
      exists actions,
        BusinessInsightGenerator.generate_business_actions series_mean std corr self = Ok actions).
Proof.
  split; [|intros tdo ta Hnd Hty; now apply (generator_returns tdo)].
  intros actions H.
  destruct (generate_inv series_mean std corr self actions H) as (unsorted & Hgen & ->).
  exists unsorted. split; [exact Hgen|]. split; [apply sort_by_key_perm|].
  assert (Hord : forall l1 a l2 b l3,
             sort_by_key action_key unsorted = l1 ++ a :: l2 ++ b :: l3 ->
             (action_key a <= action_key b)%nat).
  { intros l1 a l2 b l3 E.
    apply (strongly_sorted_split action_key l1 l2 l3). rewrite <- E.
    apply sort_by_key_sorted. }
  split; [exact Hord|]. split.
  - intros l1 a l2 b l3 E Hb. specialize (Hord l1 a l2 b l3 E).
    unfold action_key in Hord. rewrite Hb in Hord.
    destruct (Priority a); simpl in Hord; try reflexivity; lia.
  - intro p.
    rewrite (filter_ext _ _ (has_priority_key p)).
    rewrite (filter_ext _ _ (has_priority_key p) unsorted).
    apply sort_by_key_stable.
Qed.

End RankedActions.

Lemma actions_sorted_witness :
  map Category
      (returned (BusinessInsightGenerator.generate_business_actions running_mean no_std no_corr
                   half_empty_generator))
    = [DataQualityCrisis; DataGovernanceCrisis; ConcentrationRisk; GrowthOpportunity]
  /\ filter (has_priority Critical)
        (returned (BusinessInsightGenerator.generate_business_actions running_mean no_std no_corr
                     half_empty_generator))
      = filter (has_priority Critical)
          (returned (BusinessInsightGenerator.generated_actions running_mean no_std no_corr
                       half_empty_generator)).
Proof.
  split; [vm_compute; reflexivity|].
  destruct (actions_sorted_by_priority running_mean no_std no_corr half_empty_generator)
    as [Hsorted _].
  destruct (Hsorted (returned (BusinessInsightGenerator.generate_business_actions
                                 running_mean no_std no_corr half_empty_generator)))
    as (unsorted & Hgen & _ & _ & _ & Hstable).
  - vm_compute. reflexivity.
  - rewrite Hgen. apply Hstable.
Defined.

(** * Properties of the further functions *)

(** ** Duplicate rows *)

Lemma count_true_le_length (m : list bool) : (count_true m <= length m)%nat.
Proof.
  unfold count_true. induction m as [|b t IH]; simpl; [lia|].
  destruct b; simpl; lia.
Qed.

Lemma count_true_negb (m : list bool) :
  (count_true (map negb m) + count_true m = length m)%nat.
Proof.
  unfold count_true. induction m as [|b t IH]; simpl; [lia|].
  destruct b; simpl; lia.
Qed.

Lemma duplicated_first {A : Type} (eqb : A -> A -> bool) (x : A) (t : list A) :
  (count_true (duplicated eqb (x :: t)) <= length t)%nat.
Proof.
  unfold duplicated. simpl. unfold count_true. simpl.
  pose proof (count_true_le_length (duplicated_from eqb [x] t)) as H.
  rewrite duplicated_from_length in H. exact H.
Qed.

Lemma df_duplicated_length (d : DataFrame) : length (df_duplicated d) = nrows d.
Proof.
  unfold df_duplicated, duplicated. rewrite duplicated_from_length.
  apply rows_of_length.
Qed.

Lemma duplicate_rows_bound (d : DataFrame) :
  (0 < nrows d)%nat -> (duplicate_rows d <= nrows d - 1)%nat.
Proof.
  intro H. unfold duplicate_rows, df_duplicated.
  pose proof (rows_of_length d) as Hl.
  destruct (rows_of d) as [|r t]; simpl in Hl; [lia|].
  pose proof (duplicated_first row_eqb r t). lia.
Qed.

Lemma drop_duplicates_rows (d : DataFrame) :
  (nrows (df_drop_duplicates d) + duplicate_rows d = nrows d)%nat.
Proof.
  unfold df_drop_duplicates, select_rows, duplicate_rows. simpl.
  rewrite count_true_negb. apply df_duplicated_length.
Qed.

(** X1.  In a frame with at least one row the duplicate count is at most
    the row count minus one (the first row is never a duplicate), so the
    duplicate percentage is a number below 100; and dropping the duplicates
    removes exactly that many rows and leaves at least one. *)
Theorem duplicates_bounded (self : AnomalyDetector.t) :
  let d := AnomalyDetector.df self in
  let info := AnomalyChecks._detect_duplicates self in
  (0 < nrows d)%nat ->
  (d_count info <= nrows d - 1)%nat
  /\ (exists pct, d_percentage info = Fin pct
                  /\ pct == of_nat (d_count info) / of_nat (nrows d) * 100
                  /\ 0 <= pct /\ pct < 100)
  /\ (nrows (df_drop_duplicates d) + d_count info = nrows d)%nat
  /\ (1 <= nrows (df_drop_duplicates d))%nat.
Proof.
  intros d info Hpos.
  pose proof (duplicate_rows_bound d Hpos) as Hb.
  pose proof (drop_duplicates_rows d) as Hd.
  unfold info, AnomalyChecks._detect_duplicates. cbv zeta.
  cbn [d_count d_percentage]. fold d.
  split; [exact Hb|]. split; [|split; [exact Hd | lia]].
  assert (HposQ : 0 < of_nat (nrows d)) by now apply of_nat_pos.
  rewrite (div_pos _ _ HposQ). simpl mul.
  eexists. split; [reflexivity|]. split; [reflexivity|].
  assert (Hfrac : of_nat (duplicate_rows d) / of_nat (nrows d) < 1).
  { apply Qlt_shift_div_r; [exact HposQ|]. rewrite Qmult_1_l.
    unfold of_nat, Qlt. simpl. lia. }
  assert (Hnn : 0 <= of_nat (duplicate_rows d) / of_nat (nrows d)).
  { apply Qle_shift_div_l; [exact HposQ|]. rewrite Qmult_0_l. apply of_nat_nonneg. }
  set (f := of_nat (duplicate_rows d) / of_nat (nrows d)) in *.
  split; lra.
Qed.

Lemma duplicates_bounded_witness :
  d_count (AnomalyChecks._detect_duplicates repeated_row_detector) = 1%nat
  /\ (nrows (df_drop_duplicates repeated_row_frame) + 1 = 3)%nat.
Proof.
  destruct (duplicates_bounded repeated_row_detector) as (_ & _ & Hrows & _).
  - simpl. lia.
  - split; [vm_compute; reflexivity|].
    change 1%nat with (d_count (AnomalyChecks._detect_duplicates repeated_row_detector))
      at 1.
    exact Hrows.
Defined.

(** ** Missing-data patterns *)

Lemma missing_loop_spec (n : nat) (cols : list (string * Series))
    (acc : list (string * MissingInfo)) :
  NoDup (map fst cols) ->
  (forall c, In c (map fst cols) -> ~ In c (map fst acc)) ->
  AnomalyChecks.missing_loop n cols acc = acc ++ flat_map (missing_entry n) cols.
Proof.
  revert acc. induction cols as [|[col s] rest IH]; simpl; intros acc Hnd Hfresh.
  - now rewrite app_nil_r.
  - inversion Hnd as [|? ? Hc Hrest]; subst.
    unfold missing_entry at 1. simpl.
    destruct (0 <? series_null_count s)%nat.
    + rewrite dict_set_absent by (apply Hfresh; now left).
      rewrite IH; [now rewrite <- app_assoc | exact Hrest |].
      intros c Hin. rewrite map_app, in_app_iff. simpl.
      intros [H | [<- | []]]; [|contradiction].
      apply (Hfresh c); auto.
    + apply IH; auto.
Qed.

Lemma total_app (l1 l2 : list nat) : total (l1 ++ l2) = (total l1 + total l2)%nat.
Proof.
  unfold total. induction l1 as [|x t IH]; simpl; [reflexivity|]. rewrite IH. lia.
Qed.

Lemma missing_entries_total (n : nat) (cols : list (string * Series)) :
  total (map (fun e => m_count (snd e)) (flat_map (missing_entry n) cols))
  = total (map (fun c => series_null_count (snd c)) cols).
Proof.
  induction cols as [|c rest IH]; [reflexivity|].
  simpl flat_map. rewrite map_app, total_app, IH. simpl.
  unfold missing_entry.
  destruct (0 <? series_null_count (snd c))%nat eqn:E; simpl; [lia|].
  apply Nat.ltb_ge in E. lia.
Qed.

Lemma series_null_count_values (s : Series) :
  series_null_count s
  = length (filter (fun c : option value => is_none c) (series_values s)).
Proof.
  unfold series_null_count, null_count.
  destruct s as [l|l]; simpl; induction l as [|[x|] t IH]; simpl; auto.
Qed.

(** Counting the null cells row by row or column by column gives the same
    total. *)
Lemma rows_from_null_total (n : nat) (cols : list (list (option value))) :
  Forall (fun vs => length vs = n) cols ->
  total (map (fun r => length (filter (fun c : option value => is_none c) r))
             (rows_from n cols))
  = total (map (fun vs => length (filter (fun c : option value => is_none c) vs)) cols).
Proof.
  revert cols. induction n as [|n IH]; intros cols Hlen.
  - unfold rows_from. simpl.
    induction cols as [|vs t IHc]; [reflexivity|].
    inversion Hlen as [|? ? Hvs Ht]; subst.
    destruct vs; [|discriminate]. simpl. now apply IHc.
  - rewrite rows_from_S. simpl map. unfold total at 1. simpl fold_right.
    fold (total (map (fun r => length (filter (fun c : option value => is_none c) r))
                     (rows_from n (map (@tl _) cols)))).
    rewrite IH.
    + clear IH. induction cols as [|vs t IHc]; [reflexivity|].
      inversion Hlen as [|? ? Hvs Ht]; subst.
      specialize (IHc Ht). destruct vs as [|x vs']; [discriminate|].
      simpl in *. unfold total in *. simpl.
      destruct x; simpl; lia.
    + rewrite Forall_map. eapply Forall_impl; [|exact Hlen].
      intros [|x t] H; simpl in *; [discriminate | lia].
Qed.

Lemma row_null_counts_total (d : DataFrame) :
  wf_df d -> total (AnomalyChecks.row_null_counts d) = missing_cells d.
Proof.
  intro Hwf. unfold AnomalyChecks.row_null_counts, missing_cells.
  rewrite rows_of_from, rows_from_null_total.
  - fold (total (map (fun c => series_null_count (snd c)) (columns d))).
    f_equal. rewrite map_map. apply map_ext. intro c.
    symmetry. apply series_null_count_values.
  - rewrite Forall_map. eapply Forall_impl; [|exact Hwf].
    intros c H. simpl in H. now rewrite series_values_length.
Qed.

Lemma total_zero (l : list nat) : total l = 0%nat -> Forall (fun k => k = 0%nat) l.
Proof.
  unfold total. induction l as [|x t IH]; simpl; intro H; constructor; [lia|].
  apply IH. lia.
Qed.

(** X2.  In a frame with distinct column names and uniform column lengths,
    the per-column part of the missing-data report lists, in column order,
    exactly the columns that have a null cell, each with its null count
    (at least 1); these counts add up to the reported total of missing
    cells, and so do the null counts of the rows.  The number of
    problematic rows never exceeds the row count, and a frame without a
    missing cell has an empty per-column part and no problematic row. *)
Theorem missing_patterns_consistent (self : AnomalyDetector.t) :
  let d := AnomalyDetector.df self in
  let report := AnomalyChecks._detect_missing_patterns self in
  NoDup (col_names d) -> wf_df d ->
  by_column report = flat_map (missing_entry (nrows d)) (columns d)
  /\ (forall col info, In (col, info) (by_column report) ->
      (1 <= m_count info)%nat
      /\ exists s, get_col d col = Some s /\ m_count info = series_null_count s)
  /\ total (map (fun e => m_count (snd e)) (by_column report))
     = total_missing_cells report
  /\ total (AnomalyChecks.row_null_counts d) = total_missing_cells report
  /\ (problematic_rows report <= nrows d)%nat
  /\ (total_missing_cells report = 0%nat ->
      by_column report = [] /\ problematic_rows report = 0%nat).
Proof.
  intros d report Hnd Hwf.
  assert (Hby : by_column report = flat_map (missing_entry (nrows d)) (columns d)).
  { unfold report, AnomalyChecks._detect_missing_patterns. cbv zeta.
    cbn [by_column]. fold d.
    rewrite missing_loop_spec; [reflexivity | exact Hnd | intros c _ []]. }
  assert (Hrows : total (AnomalyChecks.row_null_counts d) = missing_cells d)
    by now apply row_null_counts_total.
  assert (Hprob : problematic_rows report
                  = count_true
                      (map (fun k => Qlt_bool (of_nat (length (columns d)) * (3 # 10))
                                              (of_nat k))
                           (AnomalyChecks.row_null_counts d))) by reflexivity.
  assert (Htot : total_missing_cells report = missing_cells d) by reflexivity.
  split; [exact Hby|]. split; [|split; [|split; [|split]]].
  - intros col info Hin. rewrite Hby in Hin.
    apply in_flat_map in Hin as ([c s] & Hc & Hin).
    unfold missing_entry in Hin. simpl in Hin.
    destruct (0 <? series_null_count s)%nat eqn:E; [|destruct Hin].
    destruct Hin as [Heq|[]]. inversion Heq; subst. simpl.
    apply Nat.ltb_lt in E. split; [lia|].
    exists s. split; [|reflexivity]. unfold get_col. now apply assoc_nodup.
  - rewrite Hby, Htot. apply missing_entries_total.
  - rewrite Htot. exact Hrows.
  - rewrite Hprob.
    pose proof (count_true_le_length
                  (map (fun k => Qlt_bool (of_nat (length (columns d)) * (3 # 10))
                                          (of_nat k))
                       (AnomalyChecks.row_null_counts d))) as H.
    unfold AnomalyChecks.row_null_counts in H at 2.
    rewrite !length_map, rows_of_length in H. exact H.
  - intro Hzero. rewrite Htot in Hzero. split.
    + rewrite Hby. unfold missing_cells in Hzero.
      apply total_zero in Hzero. rewrite Forall_map in Hzero.
      clear -Hzero. induction (columns d) as [|c t IH]; [reflexivity|].
      inversion Hzero as [|? ? Hc Ht]; subst. simpl.
      unfold missing_entry at 1. rewrite Hc. simpl. now apply IH.
    + rewrite Hprob. rewrite Hzero in Hrows. apply total_zero in Hrows.
      clear -Hrows. unfold count_true.
      induction (AnomalyChecks.row_null_counts d) as [|k t IH]; [reflexivity|].
      inversion Hrows as [|? ? Hk Ht]; subst. simpl.
      destruct (Qlt_bool _ _) eqn:E; [|now apply IH].
      apply Qlt_bool_iff in E. exfalso.
      assert (0 <= of_nat (length (columns d))) by apply of_nat_nonneg.
      change (of_nat 0) with 0 in E. lra.
Qed.

Lemma missing_patterns_witness :
  map fst (by_column (AnomalyChecks._detect_missing_patterns repeated_row_detector))
    = ["tag"%string]
  /\ total (AnomalyChecks.row_null_counts repeated_row_frame) = 1%nat.
Proof.
  destruct (missing_patterns_consistent repeated_row_detector)
    as (Hby & _ & _ & Hrows & _).
  - repeat constructor; simpl; intuition discriminate.
  - repeat constructor.
  - split; [rewrite Hby; reflexivity | exact (eq_trans Hrows eq_refl)].
Defined.

(** ** Data-quality issues *)

Lemma select_length_le {A : Type} (mask : list bool) (l : list A) :
  (length (select mask l) <= length l)%nat.
Proof.
  revert mask. induction l as [|x t IH]; intros [|b m]; simpl; try lia.
  specialize (IH m). destruct b; simpl; lia.
Qed.

Lemma nunique_plus_nulls (s : Series) :
  (nunique s + series_null_count s <= series_len s)%nat.
Proof.
  destruct s as [l|l]; simpl; unfold nunique_vals, unique, drop_duplicates.
  - pose proof (select_length_le (map negb (duplicated Qeq_bool (dropna l))) (dropna l)).
    pose proof (dropna_length l). lia.
  - pose proof (select_length_le (map negb (duplicated String.eqb (dropna l))) (dropna l)).
    pose proof (dropna_length l). lia.
Qed.





(** ** Unusual distributions *)

Lemma assoc_absent {V : Type} (k : string) (l : list (string * V)) :
  ~ In k (map fst l) -> assoc k l = None.
Proof.
  induction l as [|[k' v] t IH]; simpl; intro H; [reflexivity|].
  destruct (String.eqb k k') eqn:E.
  - apply String.eqb_eq in E. exfalso. apply H. left. now symmetry.
  - apply IH. intro Hin. apply H. now right.
Qed.

Lemma assoc_app_last {V : Type} (k : string) (v : V) (l : list (string * V)) :
  ~ In k (map fst l) -> assoc k (l ++ [(k, v)]) = Some v.
Proof.
  induction l as [|[k' v'] t IH]; simpl; intro H.
  - now rewrite String.eqb_refl.
  - destruct (String.eqb k k') eqn:E.
    + apply String.eqb_eq in E. exfalso. apply H. left. now symmetry.
    + apply IH. intro Hin. apply H. now right.
Qed.

Lemma dict_set_app_last {V : Type} (k : string) (v v' : V) (l : list (string * V)) :
  ~ In k (map fst l) -> dict_set k v' (l ++ [(k, v)]) = l ++ [(k, v')].
Proof.
  induction l as [|[k0 v0] t IH]; simpl; intro H.
  - now rewrite String.eqb_refl.
  - destruct (String.eqb k k0) eqn:E.
    + apply String.eqb_eq in E. exfalso. apply H. left. now symmetry.
    + rewrite IH; [reflexivity|]. intro Hin. apply H. now right.
Qed.

Lemma unusual_checks_fresh (col : string) (data : list Q)
    (unusual : list (string * UnusualInfo)) :
  ~ In col (map fst unusual) ->
  AnomalyChecks.unusual_checks col data unusual
  = unusual ++ match unusual_entry col data with
               | Some e => [(col, e)]
               | None => []
               end.
Proof.
  intro Hfresh. unfold AnomalyChecks.unusual_checks, unusual_entry. cbv zeta.
  fold (positive_name col).
  rewrite (assoc_absent col unusual Hfresh).
  destruct (gtb _ (Fin 30)) eqn:Ez.
  - rewrite (dict_set_absent col _ unusual Hfresh).
    destruct (positive_name col); simpl andb.
    + destruct (0 <? _)%nat.
      * rewrite (assoc_app_last col _ unusual Hfresh).
        rewrite (dict_set_app_last col _ _ unusual Hfresh). reflexivity.
      * reflexivity.
    + reflexivity.
  - destruct (positive_name col); simpl andb.
    + destruct (0 <? _)%nat.
      * rewrite (assoc_absent col unusual Hfresh).
        rewrite (dict_set_absent col _ unusual Hfresh). reflexivity.
      * now rewrite app_nil_r.
    + now rewrite app_nil_r.
Qed.

Lemma unusual_for_keys (d : DataFrame) (cols : list string) (k : string) :
  In k (map fst (flat_map (unusual_for d) cols)) -> In k cols.
Proof.
  induction cols as [|c rest IH]; simpl; [auto|].
  rewrite map_app, in_app_iff. intros [H|H]; [left | right; auto].
  unfold unusual_for in H.
  destruct (AnomalyDetector.numeric_data d c) as [[|x t]|]; try destruct H.
  destruct (unusual_entry c (x :: t)); simpl in H; [|destruct H].
  destruct H as [H|[]]. exact H.
Qed.

Lemma unusual_loop_spec (d : DataFrame) (cols : list string)
    (acc res : list (string * UnusualInfo)) :
  NoDup cols ->
  (forall c, In c cols -> ~ In c (map fst acc)) ->
  AnomalyChecks.unusual_loop d cols acc = Ok res ->
  res = acc ++ flat_map (unusual_for d) cols.
Proof.
  revert acc. induction cols as [|c rest IH]; simpl; intros acc Hnd Hfresh H.
  - inversion H. now rewrite app_nil_r.
  - inversion Hnd as [|? ? Hc Hrest]; subst.
    unfold unusual_for at 1.
    destruct (AnomalyDetector.numeric_data d c) as [data|]; simpl in H; [|discriminate].
    destruct data as [|x t]; simpl in H.
    + apply IH; auto.
    + rewrite unusual_checks_fresh in H by (apply Hfresh; now left).
      apply IH in H; [| exact Hrest |].
      * rewrite H, <- app_assoc. reflexivity.
      * intros c' Hc'. rewrite map_app, in_app_iff.
        intros [Hin | Hin]; [apply (Hfresh c'); auto|].
        destruct (unusual_entry c (x :: t)); simpl in Hin; [|destruct Hin].
        destruct Hin as [<- | []]. contradiction.
Qed.

Lemma filter_nonempty {A : Type} (p : A -> bool) (l : list A) :
  (0 < length (filter p l))%nat -> exists x, In x l /\ p x = true.
Proof.
  intro H. destruct (filter p l) as [|x t] eqn:E; [simpl in H; lia|].
  assert (Hin : In x (filter p l)) by (rewrite E; now left).
  apply filter_In in Hin. eauto.
Qed.

(** X4.  With distinct keys in the column types, every entry of the
    unusual-distribution report belongs to one of the first five numeric
    columns, a numeric column of the frame, and carries at least one
    finding.  An "excessive zeros" figure is the percentage of zeros among
    the non-null values and exceeds 30, so the column holds a zero; an
    "unexpected negatives" count is the number of negative values, is at
    least 1, and appears only for a column whose lowercased name contains
    price, amount, quantity, age or count.  Hence a column whose non-null
    values are all positive is never reported. *)
Theorem unusual_distributions_sound (self : AnomalyDetector.t)
    (report : list (string * UnusualInfo)) :
  let d := AnomalyDetector.df self in
  NoDup (map fst (AnomalyDetector.column_types self)) ->
  AnomalyChecks._detect_unusual_distributions self = Ok report ->
  (forall col e, In (col, e) report ->
     In col (firstn 5 (AnomalyDetector.numeric_cols self))
     /\ exists cells,
          get_col d col = Some (NumSeries cells)
          /\ (excessive_zeros e <> None \/ unexpected_negatives e <> None)
          /\ (forall z, excessive_zeros e = Some z ->
              exists q, z = Fin q /\ 30 < q
                /\ q == of_nat (length (filter (fun x => Qeq_bool x 0) (dropna cells)))
                        / of_nat (length (dropna cells)) * 100
                /\ exists x, In x (dropna cells) /\ x == 0)
          /\ (forall k, unexpected_negatives e = Some k ->
              (1 <= k)%nat
              /\ k = length (filter (fun x => Qlt_bool x 0) (dropna cells))
              /\ positive_name col = true
              /\ exists x, In x (dropna cells) /\ x < 0))
  /\ (forall col cells,
        get_col d col = Some (NumSeries cells) ->
        (forall x, In x (dropna cells) -> 0 < x) ->
        ~ exists e, In (col, e) report).
Proof.
  intros d Hnd H.
  unfold AnomalyChecks._detect_unusual_distributions in H. fold d in H.
  apply unusual_loop_spec in H;
    [| now apply examined_cols_nodup | intros c _ []].
  simpl in H. subst report.
  assert (Hentry : forall col e,
            In (col, e) (flat_map (unusual_for d)
                                  (firstn 5 (AnomalyDetector.numeric_cols self))) ->
            In col (firstn 5 (AnomalyDetector.numeric_cols self))
            /\ exists cells x t,
                 get_col d col = Some (NumSeries cells)
                 /\ dropna cells = x :: t
                 /\ unusual_entry col (dropna cells) = Some e).
  { intros col e Hin. apply in_flat_map in Hin as (c & Hc & Hin).
    unfold unusual_for, AnomalyDetector.numeric_data in Hin.
    destruct (get_col d c) as [[cells|cells]|] eqn:Hget; simpl in Hin.
    - destruct (dropna cells) as [|x t] eqn:Hdata; [destruct Hin|].
      destruct (unusual_entry c (x :: t)) as [e'|] eqn:He; [|destruct Hin].
      destruct Hin as [Heq|[]]. inversion Heq; subst.
      split; [exact Hc|]. exists cells, x, t. rewrite Hdata. auto.
    - destruct (dropna cells); destruct Hin.
    - destruct Hin. }
  assert (Hfacts : forall col data e,
            (0 < length data)%nat ->
            unusual_entry col data = Some e ->
            (excessive_zeros e <> None \/ unexpected_negatives e <> None)
            /\ (forall z, excessive_zeros e = Some z ->
                exists q, z = Fin q /\ 30 < q
                  /\ q == of_nat (length (filter (fun x => Qeq_bool x 0) data))
                          / of_nat (length data) * 100
                  /\ exists x, In x data /\ x == 0)
            /\ (forall k, unexpected_negatives e = Some k ->
                (1 <= k)%nat
                /\ k = length (filter (fun x => Qlt_bool x 0) data)
                /\ positive_name col = true
                /\ exists x, In x data /\ x < 0)).
  { intros col data e Hlen He. unfold unusual_entry in He. cbv zeta in He.
    rewrite (div_pos _ _ (of_nat_pos _ Hlen)) in He. simpl mul in He.
    set (zq := of_nat (length (filter (fun x => Qeq_bool x 0) data))
               / of_nat (length data) * 100) in *.
    assert (Hz : forall z,
              (if gtb (Fin zq) (Fin 30) then Some (Fin zq) else None) = Some z ->
              exists q, z = Fin q /\ 30 < q /\ q == zq
                        /\ exists x, In x data /\ x == 0).
    { intros z Hzq. destruct (gtb (Fin zq) (Fin 30)) eqn:Eg; [|discriminate].
      inversion Hzq; subst z. apply gtb_Fin in Eg.
      exists zq. split; [reflexivity|]. split; [exact Eg|]. split; [reflexivity|].
      destruct (length (filter (fun x => Qeq_bool x 0) data)) eqn:El.
      - exfalso. unfold zq in Eg. change (of_nat 0) with 0 in Eg.
        unfold Qdiv in Eg. rewrite !Qmult_0_l in Eg. apply (Qlt_irrefl 30).
        eapply Qlt_trans; [exact Eg|]. reflexivity.
      - destruct (filter_nonempty (fun x => Qeq_bool x 0) data) as (x & Hx & Hp);
          [rewrite El; lia|].
        exists x. split; [exact Hx|]. now apply Qeq_bool_iff. }
    assert (Hn : forall k,
              (if positive_name col
                  && (0 <? length (filter (fun x => Qlt_bool x 0) data))%nat
               then Some (length (filter (fun x => Qlt_bool x 0) data)) else None)
              = Some k ->
              (1 <= k)%nat
              /\ k = length (filter (fun x => Qlt_bool x 0) data)
              /\ positive_name col = true
              /\ exists x, In x data /\ x < 0).
    { intros k Hk. destruct (positive_name col); simpl in Hk; [|discriminate].
      destruct (0 <? _)%nat eqn:El; [|discriminate].
      inversion Hk; subst k. apply Nat.ltb_lt in El.
      split; [lia|]. split; [reflexivity|]. split; [reflexivity|].
      destruct (filter_nonempty _ _ El) as (x & Hx & Hp).
      exists x. split; [exact Hx|]. now apply Qlt_bool_iff. }
    destruct (if gtb (Fin zq) (Fin 30) then Some (Fin zq) else None) as [z|] eqn:Ez;
      destruct (if positive_name col && _ then _ else None) as [k|] eqn:Ek;
      inversion He; subst e; cbn [excessive_zeros unexpected_negatives].
    - split; [left; discriminate|]. split; [exact Hz | exact Hn].
    - split; [left; discriminate|]. split; [exact Hz | intros k; discriminate].
    - split; [right; discriminate|]. split; [intros z; discriminate | exact Hn]. }
  split.
  - intros col e Hin. destruct (Hentry col e Hin) as (Hcol & cells & x & t & Hget & Hd & He).
    split; [exact Hcol|]. exists cells. split; [exact Hget|].
    apply (Hfacts col (dropna cells) e); [rewrite Hd; simpl; lia | exact He].
  - intros col cells Hget Hall (e & Hin).
    destruct (Hentry col e Hin) as (_ & cells' & x & t & Hget' & Hd & He).
    rewrite Hget in Hget'. inversion Hget'; subst cells'.
    destruct (Hfacts col (dropna cells) e) as (Hsome & Hz & Hn);
      [rewrite Hd; simpl; lia | exact He |].
    destruct Hsome as [Hs | Hs].
    + destruct (excessive_zeros e) as [z|]; [|congruence].
      destruct (Hz z eq_refl) as (q & _ & _ & _ & y & Hy & Hy0).
      specialize (Hall y Hy). rewrite Hy0 in Hall. apply (Qlt_irrefl 0 Hall).
    + destruct (unexpected_negatives e) as [k|]; [|congruence].
      destruct (Hn k eq_refl) as (_ & _ & _ & y & Hy & Hy0).
      specialize (Hall y Hy). apply (Qlt_irrefl 0). eapply Qlt_trans; eauto.
Qed.

Lemma unusual_distributions_witness :
  map fst (returned (AnomalyChecks._detect_unusual_distributions price_detector))
    = ["Unit_Price"%string]
  /\ ~ exists e,
         In ("weight"%string, e)
            (returned (AnomalyChecks._detect_unusual_distributions price_detector)).
Proof.
  split; [vm_compute; reflexivity|].
  destruct (unusual_distributions_sound price_detector
              (returned (AnomalyChecks._detect_unusual_distributions price_detector)))
    as [_ Hpos].
  - repeat constructor; simpl; intuition discriminate.
  - vm_compute. reflexivity.
  - apply (Hpos "weight"%string [Some 1; Some 2; Some 3; Some 4; Some 5]).
    + reflexivity.
    + intros x Hx. simpl in Hx.
      repeat (destruct Hx as [<- | Hx]; [reflexivity|]). destruct Hx.
Defined.

(** ** The anomaly detector's quality score *)

Lemma missing_cells_bound (d : DataFrame) :
  wf_df d -> (missing_cells d <= nrows d * length (columns d))%nat.
Proof.
  unfold wf_df, missing_cells. intro Hwf.
  induction (columns d) as [|c t IH]; simpl; [lia|].
  inversion Hwf as [|? ? Hc Ht]; subst. specialize (IH Ht).
  pose proof (nunique_plus_nulls (snd c)). nia.
Qed.

Lemma fraction_bounds (a b : Q) :
  0 <= a -> a <= b -> 0 < b -> 0 <= a / b /\ a / b <= 1.
Proof.
  intros Ha Hab Hb. split.
  - apply Qle_shift_div_l; [exact Hb|]. now rewrite Qmult_0_l.
  - apply Qle_shift_div_r; [exact Hb|]. now rewrite Qmult_1_l.
Qed.

Lemma of_nat_sub (a b : nat) :
  (b <= a)%nat -> of_nat a - of_nat b == of_nat (a - b).
Proof.
  intro H. unfold of_nat, Qeq, Qminus, Qplus, Qopp. simpl. lia.
Qed.

(** X5.  The quality score of the anomaly detector.  If its outlier
    detection raises, so does the score; otherwise it raises
    ZeroDivisionError exactly on a frame without rows or without columns.
    On a frame with uniform column lengths every returned component
    (completeness, uniqueness, accuracy) and the overall score
    0.4 completeness + 0.3 uniqueness + 0.3 accuracy lie between 0 and 100;
    the grade is "needs improvement" exactly when the advice is "cleanup"
    (both below 60), and an "excellent" grade (90 and above) always comes
    with the "reliable" advice. *)
Theorem anomaly_quality_score_bounds (self : AnomalyDetector.t) :
  let d := AnomalyDetector.df self in
  let outcome := AnomalyChecks.visualize_data_quality_score self in
  (forall e, AnomalyDetector._detect_outliers self = Raise e ->
     outcome = DetectorRaised e)
  /\ (forall report, AnomalyDetector._detect_outliers self = Ok report ->
      (outcome = ZeroDivisionError <-> nrows d = 0%nat \/ columns d = []))
  /\ (wf_df d -> forall score, outcome = Scored score ->
      0 <= completeness_score score /\ completeness_score score <= 100
      /\ 0 <= uniqueness_score score /\ uniqueness_score score <= 100
      /\ 0 <= accuracy_score score /\ accuracy_score score <= 100
      /\ overall_score score
         == completeness_score score * (4 # 10) + uniqueness_score score * (3 # 10)
            + accuracy_score score * (3 # 10)
      /\ 0 <= overall_score score /\ overall_score score <= 100
      /\ (quality_grade score = GradeNeedsImprovement
          <-> quality_advice score = AdviceCleanup)
      /\ (quality_grade score = GradeExcellent ->
          quality_advice score = AdviceReliable)).
Proof.
  intros d outcome. unfold outcome, AnomalyChecks.visualize_data_quality_score.
  cbv zeta. fold d.
  split; [intros e ->; reflexivity|]. split.
  - intros report ->.
    destruct (nrows d * length (columns d) =? 0)%nat eqn:Et.
    + apply Nat.eqb_eq in Et. split; [intros _|reflexivity].
      destruct (nrows d); [now left|]. right.
      destruct (columns d); [reflexivity | simpl in Et; lia].
    + apply Nat.eqb_neq in Et.
      destruct (nrows d =? 0)%nat eqn:Er.
      * apply Nat.eqb_eq in Er. rewrite Er in Et. simpl in Et. lia.
      * split; [discriminate|]. intros [H | H]; exfalso.
        -- rewrite H in Et. simpl in Et. lia.
        -- rewrite H in Et. simpl in Et. lia.
  - intros Hwf score.
    destruct (AnomalyDetector._detect_outliers self) as [report|]; [|discriminate].
    destruct (nrows d * length (columns d) =? 0)%nat eqn:Et; [discriminate|].
    destruct (nrows d =? 0)%nat eqn:Er; [discriminate|].
    apply Nat.eqb_neq in Et, Er.
    intro H. inversion H; subst score; clear H.
    cbn [completeness_score uniqueness_score accuracy_score overall_score
         quality_grade quality_advice].
    change (total_missing_cells (AnomalyChecks._detect_missing_patterns self))
      with (missing_cells d).
    change (d_count (AnomalyChecks._detect_duplicates self)) with (duplicate_rows d).
    fold d.
    set (T := (nrows d * length (columns d))%nat) in *.
    set (outliers := fold_right Nat.add 0%nat (map (fun e => o_count (snd e)) report)).
    assert (HT : 0 < of_nat T) by (apply of_nat_pos; lia).
    assert (HR : 0 < of_nat (nrows d)) by (apply of_nat_pos; lia).
    pose proof (missing_cells_bound d Hwf) as HM. fold T in HM.
    assert (HD : (duplicate_rows d <= nrows d)%nat)
      by (pose proof (duplicate_rows_bound d); lia).
    destruct (fraction_bounds (of_nat T - of_nat (missing_cells d)) (of_nat T))
      as [Hc0 Hc1]; [| | exact HT |].
    { rewrite (of_nat_sub _ _ HM). apply of_nat_nonneg. }
    { pose proof (of_nat_nonneg (missing_cells d)). lra. }
    destruct (fraction_bounds (of_nat (nrows d) - of_nat (duplicate_rows d))
                              (of_nat (nrows d))) as [Hu0 Hu1]; [| | exact HR |].
    { rewrite (of_nat_sub _ _ HD). apply of_nat_nonneg. }
    { pose proof (of_nat_nonneg (duplicate_rows d)). lra. }
    assert (Ho0 : 0 <= of_nat outliers / of_nat (nrows d)).
    { apply Qle_shift_div_l; [exact HR|]. rewrite Qmult_0_l. apply of_nat_nonneg. }
    set (c := (of_nat T - of_nat (missing_cells d)) / of_nat T) in *.
    set (u := (of_nat (nrows d) - of_nat (duplicate_rows d)) / of_nat (nrows d)) in *.
    set (o := of_nat outliers / of_nat (nrows d)) in *.
    assert (Ha : 0 <= (if Qlt_bool 0 (100 - o * 100) then 100 - o * 100 else 0)
                 /\ (if Qlt_bool 0 (100 - o * 100) then 100 - o * 100 else 0) <= 100).
    { destruct (Qlt_bool 0 (100 - o * 100)) eqn:E.
      - apply Qlt_bool_iff in E. split; lra.
      - split; lra. }
    set (a := if Qlt_bool 0 (100 - o * 100) then 100 - o * 100 else 0) in *.
    set (overall := c * 100 * (4 # 10) + u * 100 * (3 # 10) + a * (3 # 10)).
    assert (Hov : 0 <= overall /\ overall <= 100) by (unfold overall; split; lra).
    repeat (split; [lra || reflexivity|]).
    assert (H90 : Qle_bool 90 overall = true -> Qle_bool 80 overall = true).
    { rewrite !Qle_bool_iff. lra. }
    assert (H75 : Qle_bool 75 overall = true -> Qle_bool 60 overall = true).
    { rewrite !Qle_bool_iff. lra. }
    assert (H80 : Qle_bool 80 overall = true -> Qle_bool 60 overall = true).
    { rewrite !Qle_bool_iff. lra. }
    destruct (Qle_bool 90 overall) eqn:E90.
    + rewrite (H90 eq_refl). split; [split; discriminate | reflexivity].
    + destruct (Qle_bool 75 overall) eqn:E75.
      * rewrite (H75 eq_refl). destruct (Qle_bool 80 overall);
          (split; [split; discriminate | discriminate]).
      * destruct (Qle_bool 80 overall) eqn:E80.
        -- rewrite (H80 eq_refl) in *. exfalso.
           apply Qle_bool_iff in E80.
           assert (Hn : ~ 75 <= overall) by (intro Hx; apply Qle_bool_iff in Hx; congruence).
           apply Hn. lra.
        -- destruct (Qle_bool 60 overall);
             (split; [split; (reflexivity || discriminate) | discriminate]).
Qed.

Lemma anomaly_quality_score_witness :
  exists score,
    AnomalyChecks.visualize_data_quality_score price_detector = Scored score
    /\ overall_score score <= 100
    /\ quality_grade score = GradeExcellent.
Proof.
  destruct (anomaly_quality_score_bounds price_detector) as (_ & _ & Hbounds).
  eexists. split; [vm_compute; reflexivity|].
  split; [|reflexivity].
  refine (proj1 (proj2 (proj2 (proj2 (proj2 (proj2 (proj2 (proj2
           (Hbounds _ _ eq_refl))))))))).
  repeat constructor.
Defined.

(** ** The top three insights *)

Lemma sorted_split_by_key {A : Type} (key : A -> nat) (k : nat) (l : list A) :
  StronglySorted (fun a b => (key a <= key b)%nat) l ->
  l = filter (fun x => (key x <=? k)%nat) l
      ++ filter (fun x => negb (key x <=? k)%nat) l.
Proof.
  induction l as [|x t IH]; intro Hs; [reflexivity|].
  inversion Hs as [|? ? Ht Hx]; subst. simpl.
  destruct (key x <=? k)%nat eqn:E; simpl.
  - f_equal. now apply IH.
  - apply Nat.leb_gt in E.
    assert (Hnone : filter (fun y => (key y <=? k)%nat) t = []).
    { clear IH Ht Hs. induction t as [|y t IHt]; [reflexivity|].
      inversion Hx as [|? ? Hy Hrest]; subst. simpl.
      destruct (key y <=? k)%nat eqn:Ey.
      - apply Nat.leb_le in Ey. lia.
      - now apply IHt. }
    rewrite Hnone. simpl. f_equal.
    rewrite (IH Ht) at 1. rewrite Hnone. reflexivity.
Qed.

Lemma is_urgent_key (a : Action) : Summary.is_urgent a = (action_key a <=? 1)%nat.
Proof. unfold Summary.is_urgent, action_key. destruct (Priority a); reflexivity. Qed.

Lemma is_strategic_key (a : Action) :
  Summary.is_strategic a = negb (action_key a <=? 1)%nat.
Proof. unfold Summary.is_strategic, action_key. destruct (Priority a); reflexivity. Qed.

Lemma top_of_split {A : Type} (u s : list A) :
  (if (length (firstn 3 u) <? 3)%nat
   then firstn 3 u ++ firstn (3 - length (firstn 3 u)) s
   else firstn 3 u)
  = firstn 3 (u ++ s).
Proof.
  rewrite firstn_app.
  destruct (length (firstn 3 u) <? 3)%nat eqn:E.
  - apply Nat.ltb_lt in E. rewrite length_firstn in E.
    rewrite length_firstn. f_equal. f_equal. lia.
  - apply Nat.ltb_ge in E. rewrite length_firstn in E.
    replace (3 - length u)%nat with 0%nat by lia.
    simpl. now rewrite app_nil_r.
Qed.

Section TopThree.

Variable series_mean : list Q -> npfloat.
Variable std : list Q -> npfloat.
Variable corr : Series -> Series -> npfloat.

(** X6.  The "top 3" view is the first three actions of the ranked list
    (all of them when there are fewer): preferring critical and high
    actions and backfilling with strategic ones is the same as cutting the
    sorted list.  It holds at most three actions, and it raises exactly
    when the generator does. *)
Theorem top_3_is_prefix (self : BusinessInsightGenerator.t) :
  (forall actions,
     BusinessInsightGenerator.generate_business_actions series_mean std corr self = Ok actions ->
     Summary.generate_top_3_insights series_mean std corr self = Ok (firstn 3 actions)
     /\ (length (firstn 3 actions) <= 3)%nat)
  /\ (forall e,
      BusinessInsightGenerator.generate_business_actions series_mean std corr self = Raise e ->
      Summary.generate_top_3_insights series_mean std corr self = Raise e).
Proof.
  split.
  - intros actions H. split; [|rewrite length_firstn; lia].
    unfold Summary.generate_top_3_insights. rewrite H. unfold bind.
    destruct (generate_inv series_mean std corr self actions H) as (unsorted & _ & Hsorted).
    assert (Hsplit : actions = filter Summary.is_urgent actions
                               ++ filter Summary.is_strategic actions).
    { rewrite (filter_ext _ _ is_urgent_key), (filter_ext _ _ is_strategic_key).
      apply sorted_split_by_key. rewrite Hsorted. apply sort_by_key_sorted. }
    transitivity (@Ok (list Action)
                    (firstn 3 (filter Summary.is_urgent actions
                               ++ filter Summary.is_strategic actions)));
      [|rewrite <- Hsplit; reflexivity].
    rewrite <- top_of_split.
    destruct (length (firstn 3 (filter Summary.is_urgent actions)) <? 3)%nat;
      reflexivity.
  - intros e H. unfold Summary.generate_top_3_insights. rewrite H. reflexivity.
Qed.

End TopThree.

Lemma top_3_witness :
  map Category
      (returned (Summary.generate_top_3_insights running_mean no_std no_corr half_empty_generator))
  = [DataQualityCrisis; DataGovernanceCrisis; ConcentrationRisk].
Proof.
  destruct (top_3_is_prefix running_mean no_std no_corr half_empty_generator) as [Hprefix _].
  destruct (Hprefix (returned (BusinessInsightGenerator.generate_business_actions
                                 running_mean no_std no_corr half_empty_generator))) as [Htop _].
  - vm_compute. reflexivity.
  - rewrite Htop. vm_compute. reflexivity.
Defined.

(** ** The quality score of the executive summary *)





(** ** The quality-score rule *)

Lemma governance_action_crisis (score : npfloat) :
  emits DataGovernanceCrisis (BusinessInsightGenerator.governance_action score)
  <-> ltb score (Fin 80) = true.
Proof.
  unfold emits, BusinessInsightGenerator.governance_action.
  destruct (ltb score (Fin 80)) eqn:E.
  - split; [reflexivity|]. intros _.
    eexists. split; [left; reflexivity | reflexivity].
  - split; [|discriminate].
    intros (a & H & Hc). rule_cases H; subst; discriminate.
Qed.

Lemma below_80_not_90 (score : npfloat) :
  ltb score (Fin 80) = true -> geb score (Fin 90) = false.
Proof.
  destruct score as [q| | |]; simpl; try discriminate; try reflexivity.
  intro H. apply Qlt_bool_iff in H.
  destruct (Qle_bool 90 q) eqn:E; [|reflexivity].
  apply Qle_bool_iff in E. exfalso. lra.
Qed.

Lemma governance_action_excellence (score : npfloat) :
  emits DataExcellence (BusinessInsightGenerator.governance_action score)
  <-> geb score (Fin 90) = true.
Proof.
  unfold emits, BusinessInsightGenerator.governance_action.
  destruct (ltb score (Fin 80)) eqn:E.
  - rewrite (below_80_not_90 score E). split; [|discriminate].
    intros (a & H & Hc). rule_cases H; subst; discriminate.
  - destruct (geb score (Fin 90)) eqn:E2.
    + split; [reflexivity|]. intros _.
      eexists. split; [left; reflexivity | reflexivity].
    + split; [|discriminate]. intros (a & H & Hc). destruct H.
Qed.

Lemma quality_score_unfold (df : DataFrame) :
  BusinessInsightGenerator.quality_score df = governance_score df.
Proof. reflexivity. Qed.

(** A ratio of two counts, the first at most the second, rounds to a
    number between 0 and 1. *)
Lemma measured_ratio (a b : Q) :
  0 <= a -> a <= b -> 0 < b ->
  exists r, Binary64.div (Fin a) (Fin b) = Fin r /\ 0 <= r /\ r <= 1.
Proof.
  intros Ha Hab Hb. unfold Binary64.div.
  assert (Qeq_bool b 0 = false) as ->.
  { destruct (Qeq_bool b 0) eqn:E; [|reflexivity].
    apply Qeq_bool_iff in E. exfalso. lra. }
  destruct (fraction_bounds a b Ha Hab Hb) as [F0 F1].
  apply (Binary64Facts.round_between 0 1); auto.
Qed.

Lemma scaled_ratio (r c : Q) :
  Binary64.is_binary64 c = true -> 0 <= c -> 0 <= r -> r <= 1 ->
  exists p, Binary64.mul (Fin r) (Fin c) = Fin p /\ 0 <= p /\ p <= c.
Proof.
  intros Hc Hc0 H0 H1. unfold Binary64.mul.
  apply (Binary64Facts.round_between 0 c); auto; nra.
Qed.

(** With at least one row and one column, on a frame whose columns have
    its number of rows, the score is a number between -10 and 100. *)
Lemma governance_score_finite (df : DataFrame) :
  wf_df df -> (0 < nrows df)%nat -> (0 < length (columns df))%nat ->
  exists q, governance_score df = Fin q /\ -10 <= q /\ q <= 100.
Proof.
  intros Hwf Hr Hc. unfold governance_score, measured_completeness,
    measured_duplicate_rate.
  assert (Ht : (0 < total_cells df)%nat) by (unfold total_cells; nia).
  pose proof (missing_cells_bound df Hwf) as HM. fold (total_cells df) in HM.
  assert (HD : (duplicate_rows df <= nrows df)%nat)
    by (pose proof (duplicate_rows_bound df Hr); lia).
  destruct (measured_ratio (of_nat (total_cells df) - of_nat (missing_cells df))
                           (of_nat (total_cells df))) as (r1 & -> & A0 & A1).
  { rewrite (of_nat_sub _ _ HM). apply of_nat_nonneg. }
  { pose proof (of_nat_nonneg (missing_cells df)). lra. }
  { now apply of_nat_pos. }
  destruct (measured_ratio (of_nat (duplicate_rows df)) (of_nat (nrows df)))
    as (r2 & -> & B0 & B1).
  { apply of_nat_nonneg. }
  { now apply of_nat_le. }
  { now apply of_nat_pos. }
  destruct (scaled_ratio r1 100) as (c & -> & C0 & C1); auto; try lra.
  destruct (scaled_ratio r2 10) as (p & -> & P0 & P1); auto; try lra.
  unfold Binary64.sub.
  apply (Binary64Facts.round_between (-10) 100); auto; lra.
Qed.

(** C1, as the claim puts it, fails on two identical rows in one complete
    column: 0.6 completeness + 0.4 uniqueness - 10 x duplicate rate is
    60 + 20 - 5 = 75, below 80, yet the generator emits no governance
    crisis but the data-excellence action, since the score it computes is
    completeness - 10 x duplicate rate = 95. *)
Lemma quality_score_counterexample :
  spec_quality_score two_identical_rows < 80
  /\ exists actions,
       BusinessInsightGenerator.generate_business_actions running_mean zero_std no_corr
         two_identical_rows_generator = Ok actions
       /\ ~ emits DataGovernanceCrisis actions
       /\ emits DataExcellence actions.
Proof.
  split; [vm_compute; reflexivity|].
  eexists. split; [vm_compute; reflexivity|]. split.
  - intros (a & H & Hc). simpl in H. destruct H as [<- | [<- | []]]; discriminate.
  - eexists. split; [right; left; reflexivity | reflexivity].
Qed.

(** The score is the one the processor computes.  Twelve rows in one
    column, one cell missing and two rows repeated: the exact value of
    11/12 x 100 - 2/12 x 10 is 90, the three roundings leave
    89.99999999999999, and no data-excellence action is emitted. *)
Lemma quality_score_rounds :
  governance_score eleven_of_twelve = Fin (6333186975989759 # 70368744177664)
  /\ geb (governance_score eleven_of_twelve) (Fin 90) = false
  /\ completeness eleven_of_twelve - duplicate_rate eleven_of_twelve * 10 == 90
  /\ exists actions,
       BusinessInsightGenerator.generate_business_actions running_mean zero_std no_corr
         eleven_of_twelve_generator = Ok actions
       /\ ~ emits DataExcellence actions.
Proof.
  split; [vm_compute; reflexivity|]. split; [vm_compute; reflexivity|].
  split; [vm_compute; reflexivity|].
  eexists. split; [vm_compute; reflexivity|].
  intros (a & H & Hc). simpl in H. destruct H as [<- | []]. discriminate.
Qed.

Section QualityRule.

Variable series_mean : list Q -> npfloat.
Variable std : list Q -> npfloat.
Variable corr : Series -> Series -> npfloat.

(** C1, amended.  The score of rule family 8 is completeness (the
    percentage of non-null cells) minus 10 times the duplicate rate
    (duplicate rows over rows), each operation rounding as the processor
    does; uniqueness and the weights 0.6 and 0.4 have no part in it.  The
    returned list holds the governance-crisis action exactly when that
    score is below 80 and the data-excellence action exactly when it is
    at least 90; the former is critical, the latter strategic.  On a
    frame with at least one row and one column, whose columns have its
    number of rows, the score is a number between -10 and 100. *)
Theorem quality_rule (self : BusinessInsightGenerator.t) (actions : list Action) :
  let df := TrendAnalyzer.df (BusinessInsightGenerator.trend_analyzer self) in
  BusinessInsightGenerator.generate_business_actions series_mean std corr self = Ok actions ->
  BusinessInsightGenerator.quality_score df
    = Binary64.sub (measured_completeness df)
                   (Binary64.mul (measured_duplicate_rate df) (Fin 10))
  /\ (emits DataGovernanceCrisis actions
      <-> ltb (BusinessInsightGenerator.quality_score df) (Fin 80) = true)
  /\ (emits DataExcellence actions
      <-> geb (BusinessInsightGenerator.quality_score df) (Fin 90) = true)
  /\ (forall a, In a actions ->
      (Category a = DataGovernanceCrisis -> Priority a = Critical)
      /\ (Category a = DataExcellence -> Priority a = Strategic))
  /\ (wf_df df -> (0 < nrows df)%nat -> (0 < length (columns df))%nat ->
      exists q, BusinessInsightGenerator.quality_score df = Fin q
                /\ -10 <= q /\ q <= 100
                /\ (emits DataGovernanceCrisis actions <-> q < 80)
                /\ (emits DataExcellence actions <-> 90 <= q)).
Proof.
  intros df H.
  destruct (generate_inv series_mean std corr self actions H) as (unsorted & Hgen & ->).
  set (score := BusinessInsightGenerator.quality_score df).
  assert (Hin : forall a, family (Category a) = 8%nat ->
            In a (sort_by_key action_key unsorted) <->
            In a (BusinessInsightGenerator.governance_action score)).
  { intros a Hfam.
    etransitivity; [|apply (generated_family_8 series_mean std corr self unsorted a Hgen Hfam)].
    split; apply Permutation_in;
      [apply Permutation_sym|]; apply sort_by_key_perm. }
  assert (Hcrisis : emits DataGovernanceCrisis (sort_by_key action_key unsorted)
                    <-> ltb score (Fin 80) = true).
  { rewrite <- governance_action_crisis. unfold emits.
    split; intros (a & Ha & Hcat); exists a; (split; [|exact Hcat]);
      apply Hin; try exact Ha; rewrite Hcat; reflexivity. }
  assert (Hexc : emits DataExcellence (sort_by_key action_key unsorted)
                 <-> geb score (Fin 90) = true).
  { rewrite <- governance_action_excellence. unfold emits.
    split; intros (a & Ha & Hcat); exists a; (split; [|exact Hcat]);
      apply Hin; try exact Ha; rewrite Hcat; reflexivity. }
  split; [reflexivity|]. split; [exact Hcrisis|]. split; [exact Hexc|]. split.
  - intros a Ha. split; intro Hcat.
    + apply Hin in Ha; [|rewrite Hcat; reflexivity].
      unfold BusinessInsightGenerator.governance_action in Ha.
      rule_cases Ha; subst; try reflexivity; discriminate.
    + apply Hin in Ha; [|rewrite Hcat; reflexivity].
      unfold BusinessInsightGenerator.governance_action in Ha.
      rule_cases Ha; subst; try reflexivity; discriminate.
  - intros Hwf Hr Hc.
    destruct (governance_score_finite df Hwf Hr Hc) as (q & Hq & Q0 & Q1).
    rewrite <- quality_score_unfold in Hq. fold score in Hq.
    exists q. split; [exact Hq|]. split; [exact Q0|]. split; [exact Q1|].
    rewrite Hcrisis, Hexc, Hq. split; [apply ltb_Fin | apply geb_Fin].
Qed.

End QualityRule.

Lemma quality_rule_witness :
  ~ emits DataGovernanceCrisis
      (returned (BusinessInsightGenerator.generate_business_actions running_mean zero_std no_corr
                   two_identical_rows_generator)).
Proof.
  intro H.
  destruct (quality_rule running_mean zero_std no_corr two_identical_rows_generator
              (returned (BusinessInsightGenerator.generate_business_actions
                           running_mean zero_std no_corr two_identical_rows_generator)))
    as (_ & Hcrisis & _).
  - vm_compute. reflexivity.
  - apply Hcrisis in H. vm_compute in H. discriminate.
Defined.

Section SummaryQualityFacts.

Variable round1 : npfloat -> npfloat.


End SummaryQualityFacts.


(** ** What cleaning does to the shape of the frame *)

Lemma series_select_len (mask : list bool) (s : Series) :
  series_len s = length mask ->
  series_len (series_select mask s) = count_true mask.
Proof.
  destruct s as [l|l]; simpl; intro H; apply select_length; auto.
Qed.

Lemma select_rows_wf (mask : list bool) (df : DataFrame) :
  wf_df df -> length mask = nrows df -> wf_df (select_rows mask df).
Proof.
  unfold wf_df, select_rows. simpl. intros Hwf Hlen.
  rewrite Forall_map. eapply Forall_impl; [|exact Hwf].
  intros [k s] H. simpl in *. apply series_select_len. congruence.
Qed.

Lemma select_rows_names (mask : list bool) (df : DataFrame) :
  col_names (select_rows mask df) = col_names df.
Proof.
  unfold col_names, select_rows. simpl. rewrite map_map. reflexivity.
Qed.

Lemma columns_names_length (df : DataFrame) :
  length (columns df) = length (col_names df).
Proof.
  unfold col_names. now rewrite length_map.
Qed.

Lemma after_duplicates_shape (remove_duplicates : bool) (df : DataFrame) :
  wf_df df ->
  wf_df (after_duplicates remove_duplicates df)
  /\ col_names (after_duplicates remove_duplicates df) = col_names df
  /\ (nrows (after_duplicates remove_duplicates df) <= nrows df)%nat
  /\ (remove_duplicates = false -> after_duplicates remove_duplicates df = df).
Proof.
  intro Hwf. unfold after_duplicates, deduplicated.
  destruct remove_duplicates; [|repeat split; auto].
  destruct (0 <? duplicate_rows df)%nat; [|repeat split; auto; discriminate].
  split; [|split; [|split]].
  - apply select_rows_wf; [exact Hwf|].
    rewrite length_map. apply df_duplicated_length.
  - apply select_rows_names.
  - pose proof (drop_duplicates_rows df). lia.
  - discriminate.
Qed.

Lemma series_fillna_len (v : value) (s : Series) :
  series_len (series_fillna v s) = series_len s.
Proof.
  destruct s as [l|l], v as [q|x]; simpl; try reflexivity; apply length_map.
Qed.

Lemma fill_mean_col_len (s : Series) :
  series_len (DataProcessor.fill_mean_col s) = series_len s.
Proof.
  destruct s as [l|l]; simpl; [|reflexivity].
  destruct (existsb _ l); [|reflexivity].
  destruct (mean (dropna l)); simpl; try reflexivity. apply length_map.
Qed.

Lemma fill_mode_col_len (s : Series) :
  series_len (DataProcessor.fill_mode_col s) = series_len s.
Proof.
  unfold DataProcessor.fill_mode_col.
  destruct (DataProcessor.has_null s); [|reflexivity].
  destruct (mode s); [apply series_fillna_len | reflexivity].
Qed.

Lemma map_columns_shape (f : Series -> Series) (df : DataFrame) :
  (forall s, series_len (f s) = series_len s) ->
  wf_df df ->
  wf_df (DataProcessor.map_columns f df)
  /\ col_names (DataProcessor.map_columns f df) = col_names df
  /\ nrows (DataProcessor.map_columns f df) = nrows df.
Proof.
  intros Hf Hwf. unfold wf_df, col_names, DataProcessor.map_columns. simpl.
  split; [|split; [rewrite map_map; reflexivity | reflexivity]].
  rewrite Forall_map. eapply Forall_impl; [|exact Hwf].
  intros [k s] H. simpl in *. now rewrite Hf.
Qed.

Lemma filter_names_incl (p : string * Series -> bool) (cols : list (string * Series)) :
  incl (map fst (filter p cols)) (map fst cols).
Proof.
  intros k H. apply in_map_iff in H. destruct H as (c & <- & Hc).
  apply filter_In in Hc. apply in_map. tauto.
Qed.

Lemma filter_length_le {A : Type} (p : A -> bool) (l : list A) :
  (length (filter p l) <= length l)%nat.
Proof.
  induction l as [|x t IH]; simpl; [lia|]. destruct (p x); simpl; lia.
Qed.

(** Step 2 never adds a row or a column, keeps the lengths uniform, and
    removes rows only under [drop_rows], columns only under [drop_cols]. *)
Lemma handle_missing_shape (handle_missing : HandleMissing) (threshold : Q)
    (df : DataFrame) :
  let df' := fst (DataProcessor.handle_missing_step handle_missing threshold df) in
  wf_df df ->
  wf_df df'
  /\ incl (col_names df') (col_names df)
  /\ (length (columns df') <= length (columns df))%nat
  /\ (nrows df' <= nrows df)%nat
  /\ (handle_missing <> drop_rows -> nrows df' = nrows df)
  /\ (handle_missing <> drop_cols -> col_names df' = col_names df).
Proof.
  intros df' Hwf. unfold df', DataProcessor.handle_missing_step.
  destruct handle_missing.
  - match goal with |- context [map fst ?l] => destruct (map fst l) as [|c0 rest] end;
      simpl fst.
    + repeat split; auto using incl_refl.
    + unfold drop_columns, wf_df, col_names. simpl.
      repeat split; auto; try congruence.
      * apply Forall_forall. intros c Hc. apply filter_In in Hc.
        unfold wf_df in Hwf. rewrite Forall_forall in Hwf. now apply Hwf.
      * apply filter_names_incl.
      * apply filter_length_le.
  - simpl fst. unfold df_dropna.
    assert (Hlen : length (map (forallb (fun c : option value => negb (is_none c)))
                               (rows_of df)) = nrows df)
      by (rewrite length_map; apply rows_of_length).
    repeat split.
    + now apply select_rows_wf.
    + rewrite select_rows_names. apply incl_refl.
    + unfold select_rows. simpl. rewrite length_map. lia.
    + unfold select_rows. simpl.
      etransitivity; [apply count_true_le_length | rewrite Hlen; apply Nat.le_refl].
    + congruence.
    + intros _. apply select_rows_names.
  - simpl fst.
    destruct (map_columns_shape DataProcessor.fill_mean_col df fill_mean_col_len Hwf)
      as (H1 & H2 & H3).
    split; [exact H1|]. split; [rewrite H2; apply incl_refl|].
    split; [rewrite !columns_names_length, H2; lia|].
    split; [lia|]. split; auto.
  - simpl fst.
    destruct (map_columns_shape DataProcessor.fill_mode_col df fill_mode_col_len Hwf)
      as (H1 & H2 & H3).
    split; [exact H1|]. split; [rewrite H2; apply incl_refl|].
    split; [rewrite !columns_names_length, H2; lia|].
    split; [lia|]. split; auto.
  - simpl fst. repeat split; auto using incl_refl.
Qed.

Lemma same_column_refl (cols : list (string * Series)) :
  Forall2 same_column cols cols.
Proof.
  induction cols; constructor; auto. repeat split.
Qed.

Lemma same_column_trans (a b c : list (string * Series)) :
  Forall2 same_column a b -> Forall2 same_column b c -> Forall2 same_column a c.
Proof.
  intros Hab. revert c. induction Hab as [|x y a b Hxy Hab IH]; intros c Hbc;
    inversion Hbc; subst; constructor.
  - destruct Hxy as (? & ? & ?).
    match goal with H : same_column y _ |- _ => destruct H as (? & ? & ?) end.
    repeat split; congruence.
  - now apply IH.
Qed.

Lemma set_col_same (col : string) (s s' : Series) (cols : list (string * Series)) :
  assoc col cols = Some s ->
  series_len s' = series_len s -> series_null_count s' = series_null_count s ->
  Forall2 same_column (set_col col s' cols) cols.
Proof.
  intros Hget Hlen Hnull. induction cols as [|[k v] t IH]; simpl in *; [discriminate|].
  destruct (String.eqb col k).
  - injection Hget as ->. constructor; [repeat split; auto | apply same_column_refl].
  - constructor; [repeat split | now apply IH].
Qed.

Lemma replaced_null_count (lo hi med : Q) (cells : list (option Q)) :
  null_count (map (fun c => if DataProcessor.cell_is_outlier lo hi c
                            then Some med else c) cells)
  = null_count cells.
Proof.
  unfold null_count. induction cells as [|[x|] t IH]; simpl; auto.
  destruct (is_outlier lo hi x); simpl; auto.
Qed.

(** Step 3 rewrites cells of numeric columns only: every column keeps its
    name, its length and its nulls, and the row count stays. *)
Lemma remove_outliers_loop_shape (cols : list string) (df df' : DataFrame) (k k' : nat) :
  DataProcessor.remove_outliers_loop cols df k = Ok (df', k') ->
  nrows df' = nrows df /\ Forall2 same_column (columns df') (columns df).
Proof.
  revert df k. induction cols as [|col rest IH]; intros df k H; simpl in H.
  - injection H as <- _. split; [reflexivity | apply same_column_refl].
  - unfold get_col in H. destruct (assoc col (columns df)) as [[cells|cells]|] eqn:Hget;
      [| |discriminate].
    + destruct (length (dropna cells) <? 4)%nat; [now apply IH in H|].
      apply IH in H. simpl in H. destruct H as [Hn Hc]. split; [exact Hn|].
      eapply same_column_trans; [exact Hc|].
      eapply set_col_same; [exact Hget | |]; simpl.
      * apply length_map.
      * apply replaced_null_count.
    + destruct (length (dropna cells) <? 4)%nat; [now apply IH in H | discriminate].
Qed.

Lemma same_column_names (a b : list (string * Series)) :
  Forall2 same_column a b -> map fst a = map fst b.
Proof.
  induction 1 as [|x y a b (H & _) _ IH]; simpl; congruence.
Qed.

Lemma same_column_nulls (a b : list (string * Series)) :
  Forall2 same_column a b ->
  map (fun c => series_null_count (snd c)) a = map (fun c => series_null_count (snd c)) b.
Proof.
  induction 1 as [|x y a b (_ & _ & H) _ IH]; simpl; congruence.
Qed.

Lemma same_column_wf (df' df : DataFrame) :
  nrows df' = nrows df -> Forall2 same_column (columns df') (columns df) ->
  wf_df df -> wf_df df'.
Proof.
  unfold wf_df. intros Hn H. rewrite Hn.
  induction H as [|x y a b (_ & Hl & _) _ IH]; intro Hwf; constructor;
    inversion Hwf; subst; auto. congruence.
Qed.

Lemma complete_no_nulls (r : list (option value)) :
  complete r = true -> filter (fun c : option value => is_none c) r = [].
Proof.
  unfold complete. induction r as [|c r IH]; simpl; [reflexivity|].
  intro H. apply andb_prop in H. destruct H as [Hc Hr].
  destruct (is_none c); [discriminate | now apply IH].
Qed.

Lemma complete_rows_no_nulls (rows : list (list (option value))) :
  total (map (fun r => length (filter (fun c : option value => is_none c) r))
             (filter complete rows)) = 0%nat.
Proof.
  induction rows as [|r t IH]; simpl; [reflexivity|].
  destruct (complete r) eqn:Hr; [|exact IH].
  simpl. rewrite (complete_no_nulls r Hr). exact IH.
Qed.

Section CleaningShape.

Variable to_datetime_ok : list (option string) -> bool.
Variable std : list Q -> npfloat.

(** The frames a successful [clean_data] goes through, and the steps
    it reports. *)
Lemma clean_data_inv (self self' : DataProcessor.t) (df0 : DataFrame)
    (remove_duplicates : bool) (handle_missing : HandleMissing)
    (missing_threshold : Q) (remove_outliers : bool) (now : string)
    (report : CleaningReport) :
  DataProcessor.processed_df self = Some df0 ->
  DataProcessor.clean_data to_datetime_ok std self remove_duplicates handle_missing
    missing_threshold remove_outliers now = (self', Ok (Some report)) ->
  let step2 := DataProcessor.handle_missing_step handle_missing missing_threshold
                 (after_duplicates remove_duplicates df0) in
  let df2 := fst step2 in
  exists df steps3,
    (remove_outliers = false /\ df = df2 /\ steps3 = []
     \/ remove_outliers = true
        /\ exists k,
             DataProcessor.remove_outliers_loop
               (treated_columns (DataProcessor.column_datatypes self) df2) df2 0
             = Ok (df, k)
             /\ steps3 = if (0 <? k)%nat then [ReplacedOutliers k] else [])
    /\ steps_taken report
       = (if remove_duplicates && (0 <? duplicate_rows df0)%nat
          then [RemovedDuplicates (duplicate_rows df0)] else [])
         ++ snd step2 ++ steps3
    /\ DataProcessor.processed_df self' = Some df
    /\ DataProcessor.original_df self' = DataProcessor.original_df self
    /\ DataProcessor.cleaning_steps self'
       = DataProcessor.cleaning_steps self ++ [DataCleaned report now]
    /\ original_rows report = nrows df0
    /\ original_cols report = length (columns df0)
    /\ cleaned_rows report = nrows df
    /\ cleaned_cols report = length (columns df)
    /\ rows_removed report = (nrows df0 - nrows df)%nat
    /\ cols_removed report = (length (columns df0) - length (columns df))%nat.
Proof.
  intros Hp Hrun step2 df2. unfold DataProcessor.clean_data in Hrun. rewrite Hp in Hrun.
  cbv zeta in Hrun.
  set (steps1 := if remove_duplicates && (0 <? duplicate_rows df0)%nat
                 then [RemovedDuplicates (duplicate_rows df0)] else []).
  assert (Hstep1 :
            (if remove_duplicates && (0 <? duplicate_rows df0)%nat
             then (df_drop_duplicates df0, [RemovedDuplicates (duplicate_rows df0)])
             else (df0, []))
            = (after_duplicates remove_duplicates df0, steps1)).
  { unfold steps1, after_duplicates, deduplicated.
    destruct remove_duplicates; simpl; [|reflexivity].
    destruct (0 <? duplicate_rows df0)%nat; reflexivity. }
  rewrite Hstep1 in Hrun. clearbody steps1.
  unfold df2, step2.
  destruct (DataProcessor.handle_missing_step handle_missing missing_threshold
              (after_duplicates remove_duplicates df0)) as [d2 steps2].
  simpl fst. simpl snd.
  assert (Hpub : forall df steps3,
    match DataProcessor.publish to_datetime_ok std self
            (DataProcessor.original_df self) df with
    | (s', Some e) => (s', Raise e)
    | (s', None) =>
        let cleaning_report :=
          {| original_rows := nrows df0;
             original_cols := length (columns df0);
             steps_taken := steps1 ++ steps2 ++ steps3;
             cleaned_rows := nrows df;
             cleaned_cols := length (columns df);
             rows_removed := (nrows df0 - nrows df)%nat;
             cols_removed := (length (columns df0) - length (columns df))%nat |} in
        ({| DataProcessor.original_df := DataProcessor.original_df s';
            DataProcessor.processed_df := DataProcessor.processed_df s';
            DataProcessor.column_datatypes := DataProcessor.column_datatypes s';
            DataProcessor.data_profile := DataProcessor.data_profile s';
            DataProcessor.cleaning_steps :=
              DataProcessor.cleaning_steps s' ++ [DataCleaned cleaning_report now] |},
         Ok (Some cleaning_report))
    end = (self', Ok (Some report)) ->
    steps_taken report = steps1 ++ steps2 ++ steps3
    /\ DataProcessor.processed_df self' = Some df
    /\ DataProcessor.original_df self' = DataProcessor.original_df self
    /\ DataProcessor.cleaning_steps self'
       = DataProcessor.cleaning_steps self ++ [DataCleaned report now]
    /\ original_rows report = nrows df0
    /\ original_cols report = length (columns df0)
    /\ cleaned_rows report = nrows df
    /\ cleaned_cols report = length (columns df)
    /\ rows_removed report = (nrows df0 - nrows df)%nat
    /\ cols_removed report = (length (columns df0) - length (columns df))%nat).
  { intros df steps3 H.
    destruct (publish_fields to_datetime_ok std self (DataProcessor.original_df self) df)
      as (Ho & Hpd & _ & _ & Hcs & _).
    destruct (DataProcessor.publish to_datetime_ok std self
                (DataProcessor.original_df self) df) as [s' [e|]];
      [discriminate|].
    simpl in Ho, Hpd, Hcs. cbv zeta in H.
    injection H as Hself Hrep. subst self' report. simpl.
    rewrite Hcs. repeat split; auto. }
  destruct remove_outliers.
  - unfold bind in Hrun.
    destruct (DataProcessor.remove_outliers_loop
                (treated_columns (DataProcessor.column_datatypes self) d2) d2 0%nat)
      as [[df k]|e] eqn:Hloop;
      unfold treated_columns in Hloop; rewrite Hloop in Hrun; [|discriminate].
    exists df, (if (0 <? k)%nat then [ReplacedOutliers k] else []).
    split; [right; split; [reflexivity|]; exists k; split; reflexivity|].
    simpl fst in Hrun. simpl snd in Hrun. exact (Hpub _ _ Hrun).
  - exists d2, []. split; [left; auto|]. exact (Hpub _ _ Hrun).
Qed.

(** X8.  A successful [clean_data] never adds a row or a column: the
    published frame has uniform column lengths, its columns are columns
    of the frame before, the report's counts are those of the two frames
    and add up (cleaned + removed = original, for rows and for columns).
    Rows go only when duplicates are removed or rows with nulls are
    dropped, columns only under [drop_cols].  The original frame is
    untouched and the log gains exactly the entry with this report. *)
Theorem clean_data_accounting (self self' : DataProcessor.t) (df0 : DataFrame)
    (remove_duplicates : bool) (handle_missing : HandleMissing)
    (missing_threshold : Q) (remove_outliers : bool) (now : string)
    (report : CleaningReport) :
  DataProcessor.processed_df self = Some df0 -> wf_df df0 ->
  DataProcessor.clean_data to_datetime_ok std self remove_duplicates handle_missing
    missing_threshold remove_outliers now = (self', Ok (Some report)) ->
  exists df,
    DataProcessor.processed_df self' = Some df /\ wf_df df
    /\ DataProcessor.original_df self' = DataProcessor.original_df self
    /\ DataProcessor.cleaning_steps self'
       = DataProcessor.cleaning_steps self ++ [DataCleaned report now]
    /\ original_rows report = nrows df0
    /\ original_cols report = length (columns df0)
    /\ cleaned_rows report = nrows df
    /\ cleaned_cols report = length (columns df)
    /\ (cleaned_rows report + rows_removed report = original_rows report)%nat
    /\ (cleaned_cols report + cols_removed report = original_cols report)%nat
    /\ incl (col_names df) (col_names df0)
    /\ ((0 < rows_removed report)%nat ->
        remove_duplicates = true \/ handle_missing = drop_rows)
    /\ ((0 < cols_removed report)%nat -> handle_missing = drop_cols).
Proof.
  intros Hp Hwf Hrun.
  destruct (clean_data_inv _ _ _ _ _ _ _ _ _ Hp Hrun)
    as (df & steps3 & Hstep3 & _ & Hpd & Ho & Hlog & Hor & Hoc & Hcr & Hcc & Hrr & Hcrm).
  destruct (after_duplicates_shape remove_duplicates df0 Hwf)
    as (Hwf1 & Hnames1 & Hrows1 & Hsame1).
  destruct (handle_missing_shape handle_missing missing_threshold _ Hwf1)
    as (Hwf2 & Hincl2 & Hlen2 & Hrows2 & Hkeep_rows & Hkeep_cols).
  set (df1 := after_duplicates remove_duplicates df0) in *.
  set (df2 := fst (DataProcessor.handle_missing_step handle_missing missing_threshold df1))
    in *.
  assert (Hshape : wf_df df /\ nrows df = nrows df2 /\ col_names df = col_names df2).
  { destruct Hstep3 as [(_ & -> & _)|(_ & k & Hloop & _)]; [auto|].
    apply remove_outliers_loop_shape in Hloop. destruct Hloop as [Hn Hc].
    split; [now apply (same_column_wf _ _ Hn Hc)|].
    split; [exact Hn | now apply same_column_names]. }
  destruct Hshape as (Hwf3 & Hn3 & Hnames3).
  assert (Hl1 : length (columns df1) = length (columns df0))
    by (rewrite !columns_names_length; now rewrite Hnames1).
  assert (Hl3 : length (columns df) = length (columns df2))
    by (rewrite !columns_names_length; now rewrite Hnames3).
  exists df. split; [exact Hpd|]. split; [exact Hwf3|].
  split; [exact Ho|]. split; [exact Hlog|].
  split; [exact Hor|]. split; [exact Hoc|]. split; [exact Hcr|]. split; [exact Hcc|].
  split; [lia|]. split; [lia|].
  split; [rewrite Hnames3, <- Hnames1; exact Hincl2|].
  split.
  - intro Hpos. destruct remove_duplicates; [now left|]. right.
    destruct handle_missing; try reflexivity; exfalso;
      (assert (Hk : nrows df2 = nrows df1) by (apply Hkeep_rows; discriminate));
      rewrite (Hsame1 eq_refl) in Hk; lia.
  - intro Hpos. destruct handle_missing; try reflexivity; exfalso;
      (assert (Hk : col_names df2 = col_names df1) by (apply Hkeep_cols; discriminate));
      assert (length (columns df2) = length (columns df1))
        by (rewrite !columns_names_length; now rewrite Hk); lia.
Qed.

(** X9.  After a successful [clean_data] with [drop_rows] the published
    frame has no null cell, with or without the outlier step; without it
    the rows kept are exactly the complete rows of the frame that step 1
    left, in their order. *)
Theorem drop_rows_leaves_no_missing (self self' : DataProcessor.t) (df0 : DataFrame)
    (remove_duplicates : bool) (missing_threshold : Q) (remove_outliers : bool)
    (now : string) (report : CleaningReport) :
  DataProcessor.processed_df self = Some df0 -> wf_df df0 ->
  DataProcessor.clean_data to_datetime_ok std self remove_duplicates drop_rows
    missing_threshold remove_outliers now = (self', Ok (Some report)) ->
  exists df,
    DataProcessor.processed_df self' = Some df
    /\ missing_cells df = 0%nat
    /\ (remove_outliers = false ->
        rows_of df = filter complete (rows_of (after_duplicates remove_duplicates df0))).
Proof.
  intros Hp Hwf Hrun.
  destruct (clean_data_inv _ _ _ _ _ _ _ _ _ Hp Hrun)
    as (df & steps3 & Hstep3 & _ & Hpd & _).
  destruct (after_duplicates_shape remove_duplicates df0 Hwf) as (Hwf1 & _).
  set (df1 := after_duplicates remove_duplicates df0) in *.
  simpl fst in Hstep3.
  assert (Hlen : length (map (forallb (fun c : option value => negb (is_none c)))
                             (rows_of df1)) = nrows df1)
    by (rewrite length_map; apply rows_of_length).
  assert (Hrows : rows_of (df_dropna df1) = filter complete (rows_of df1)).
  { unfold df_dropna. rewrite (rows_of_select_rows _ _ Hwf1 Hlen).
    apply select_map_filter. }
  assert (Hwf2 : wf_df (df_dropna df1)) by now apply select_rows_wf.
  assert (Hnone : missing_cells (df_dropna df1) = 0%nat).
  { rewrite <- (row_null_counts_total _ Hwf2).
    unfold AnomalyChecks.row_null_counts. rewrite Hrows.
    apply complete_rows_no_nulls. }
  exists df. split; [exact Hpd|].
  destruct Hstep3 as [(Hro & -> & _)|(Hro & k & Hloop & _)].
  - split; [exact Hnone | intros _; exact Hrows].
  - split.
    + apply remove_outliers_loop_shape in Hloop. destruct Hloop as [_ Hc].
      unfold missing_cells in *. now rewrite (same_column_nulls _ _ Hc).
    + intro Hno. congruence.
Qed.

End CleaningShape.

Lemma clean_data_accounting_witness :
  let run := DataProcessor.clean_data never_dates no_std half_empty_processor
               true drop_cols (1 # 4) false "t" in
  exists df report,
    DataProcessor.processed_df (fst run) = Some df
    /\ snd run = Ok (Some report)
    /\ (cleaned_rows report + rows_removed report = 4)%nat
    /\ (cleaned_cols report + cols_removed report = 2)%nat
    /\ col_names df = ["c"%string].
Proof.
  intro run.
  destruct (clean_data_accounting never_dates no_std half_empty_processor (fst run)
              half_empty_frame true drop_cols (1 # 4) false "t"
              (match snd run with
               | Ok (Some r) => r
               | _ => mkCleaningReport 0 0 [] 0 0 0 0
               end) eq_refl)
    as (df & Hpd & _ & _ & _ & Hor & Hoc & _ & _ & Hrows & Hcols & _).
  - repeat constructor.
  - vm_compute. reflexivity.
  - exists df. eexists. split; [exact Hpd|]. split; [vm_compute; reflexivity|].
    rewrite Hor in Hrows. rewrite Hoc in Hcols.
    split; [exact Hrows|]. split; [exact Hcols|].
    vm_compute in Hpd. injection Hpd as <-. reflexivity.
Defined.

Lemma drop_rows_witness :
  let run := DataProcessor.clean_data never_dates no_std half_empty_processor
               false drop_rows (1 # 2) true "t" in
  exists df,
    DataProcessor.processed_df (fst run) = Some df
    /\ missing_cells df = 0%nat.
Proof.
  intro run.
  destruct (drop_rows_leaves_no_missing never_dates no_std half_empty_processor (fst run)
              half_empty_frame false (1 # 2) true "t"
              (match snd run with
               | Ok (Some r) => r
               | _ => mkCleaningReport 0 0 [] 0 0 0 0
               end) eq_refl)
    as (df & Hpd & Hnone & _).
  - repeat constructor.
  - vm_compute. reflexivity.
  - exists df. split; [exact Hpd | exact Hnone].
Defined.

(** ** The column lists after a load *)

Lemma cols_of_type_iff (p : ColumnType -> bool) (types : list (string * ColumnType))
    (col : string) :
  In col (cols_of_type p types) <-> exists ty, In (col, ty) types /\ p ty = true.
Proof.
  split; [apply cols_of_type_In|].
  intros (ty & Hin & Hp). unfold cols_of_type. apply in_map_iff.
  exists (col, ty). split; [reflexivity|]. apply filter_In. auto.
Qed.

Lemma nodup_keys_functional {V : Type} (l : list (string * V)) (k : string) (v w : V) :
  NoDup (map fst l) -> In (k, v) l -> In (k, w) l -> v = w.
Proof.
  intros Hnd Hv Hw.
  pose proof (assoc_nodup k v l Hnd Hv) as H1.
  pose proof (assoc_nodup k w l Hnd Hw) as H2. congruence.
Qed.

Lemma cols_of_type_disjoint (p q : ColumnType -> bool)
    (types : list (string * ColumnType)) :
  NoDup (map fst types) -> (forall ty, p ty = true -> q ty = false) ->
  NoDup (cols_of_type p types ++ cols_of_type q types).
Proof.
  intros Hnd Hpq. apply NoDup_app.
  - unfold cols_of_type. now apply NoDup_map_fst_filter.
  - unfold cols_of_type. now apply NoDup_map_fst_filter.
  - intros col Hp Hq.
    apply cols_of_type_In in Hp as (ty & Hin & Hp).
    apply cols_of_type_In in Hq as (ty' & Hin' & Hq).
    rewrite (nodup_keys_functional _ _ _ _ Hnd Hin' Hin) in Hq.
    rewrite (Hpq _ Hp) in Hq. discriminate.
Qed.

Ltac split_ifs :=
  repeat match goal with
         | |- context [if ?c then _ else _] => destruct c
         end.

Section ColumnLists.

Variable to_datetime_ok : list (option string) -> bool.
Variable std : list Q -> npfloat.

Lemma detect_unknown_iff (n : nat) (s : Series) :
  detect_column_type to_datetime_ok n s = TUnknown <-> isna_all s = true.
Proof.
  unfold detect_column_type. destruct (isna_all s); [tauto|].
  split; [|discriminate].
  destruct s as [cells|cells]; split_ifs; discriminate.
Qed.

Lemma detect_numeric_series (n : nat) (s : Series) :
  is_numeric_type (detect_column_type to_datetime_ok n s) = true ->
  exists cells, s = NumSeries cells.
Proof.
  destruct s as [cells|cells]; [eauto|].
  rewrite detect_object_not_numeric. discriminate.
Qed.

Lemma detect_datetime_series (n : nat) (s : Series) :
  is_datetime_type (detect_column_type to_datetime_ok n s) = true ->
  exists cells, s = ObjSeries cells /\ to_datetime_ok cells = true.
Proof.
  unfold detect_column_type. destruct (isna_all s); [discriminate|].
  destruct s as [cells|cells]; [split_ifs; discriminate|].
  destruct (to_datetime_ok cells) eqn:Hok; [eauto|].
  split_ifs; discriminate.
Qed.

(** What a successful [load_data] leaves in the processor. *)
Lemma load_data_success (self self' : DataProcessor.t) (f : UploadedFile)
    (now : string) (df : DataFrame) (message : option string) :
  DataProcessor.load_data to_datetime_ok std self (Some f) now
    = (self', Some df, message) ->
  message = None
  /\ (exists raw, DataProcessor.read_csv_with_fallbacks f = Parsed raw
                  /\ df = DataProcessor.rename_columns raw)
  /\ (0 < nrows df)%nat /\ (0 < length (columns df))%nat
  /\ DataProcessor.original_df self' = Some df
  /\ DataProcessor.processed_df self' = Some df
  /\ DataProcessor.column_datatypes self' = detect_column_types to_datetime_ok df
  /\ DataProcessor.cleaning_steps self'
     = DataProcessor.cleaning_steps self
         ++ [DataLoaded (nrows df) (length (columns df)) now].
Proof.
  unfold DataProcessor.load_data.
  destruct (DataProcessor.read_csv_with_fallbacks f) as [raw|t|t|t];
    try discriminate.
  destruct (DataProcessor.df_empty raw) eqn:Hempty; [discriminate|].
  destruct (length (columns raw) =? 0)%nat; [discriminate|].
  destruct (publish_fields to_datetime_ok std self
              (Some (DataProcessor.rename_columns raw))
              (DataProcessor.rename_columns raw))
    as (Ho & Hp & Hty & _ & Hlog & _).
  destruct (DataProcessor.publish to_datetime_ok std self
              (Some (DataProcessor.rename_columns raw))
              (DataProcessor.rename_columns raw)) as [s' [e|]]; [discriminate|].
  simpl in Ho, Hp, Hty, Hlog. intro H. injection H as <- <- <-.
  unfold DataProcessor.df_empty in Hempty. apply orb_false_elim in Hempty.
  destruct Hempty as [Hr Hc]. apply Nat.eqb_neq in Hr, Hc.
  split; [reflexivity|]. split; [eauto|].
  split; [simpl; lia|]. split; [simpl; rewrite length_map; lia|].
  simpl. rewrite Hlog. auto.
Qed.

(** X10.  After a successful [load_data] of a frame with distinct column
    names, [original_df] and [processed_df] are the returned frame, which
    has at least one row and one column, and the log gains one "Data
    Loaded" entry.  The lists of numeric, categorical and datetime columns
    are pairwise disjoint and free of repetitions, name only columns of
    the frame, and together miss exactly the columns that are entirely
    null; a numeric column holds numbers and a datetime column holds
    text that parses as dates. *)
Theorem loaded_columns_partition (self self' : DataProcessor.t) (f : UploadedFile)
    (now : string) (df : DataFrame) (message : option string) :
  DataProcessor.load_data to_datetime_ok std self (Some f) now
    = (self', Some df, message) ->
  NoDup (col_names df) ->
  message = None
  /\ DataProcessor.original_df self' = Some df
  /\ DataProcessor.processed_df self' = Some df
  /\ (0 < nrows df)%nat /\ (0 < length (columns df))%nat
  /\ ProcessorQueries.get_cleaning_summary self'
     = ProcessorQueries.get_cleaning_summary self
         ++ [DataLoaded (nrows df) (length (columns df)) now]
  /\ NoDup (listed_columns self')
  /\ (forall col s, In (col, s) (columns df) ->
        (In col (listed_columns self') <-> isna_all s = false))
  /\ (forall col, In col (listed_columns self') -> In col (col_names df))
  /\ (forall col, In col (ProcessorQueries.get_numeric_columns self') ->
        exists cells, get_col df col = Some (NumSeries cells))
  /\ (forall col, In col (ProcessorQueries.get_datetime_columns self') ->
        exists cells, get_col df col = Some (ObjSeries cells)
                      /\ to_datetime_ok cells = true).
Proof.
  intros Hload Hnd.
  destruct (load_data_success _ _ _ _ _ _ Hload)
    as (Hmsg & _ & Hrows & Hcols & Ho & Hp & Hty & Hlog).
  assert (Hkeys : map fst (detect_column_types to_datetime_ok df) = col_names df).
  { unfold detect_column_types, col_names. rewrite map_map. reflexivity. }
  assert (Hndk : NoDup (map fst (detect_column_types to_datetime_ok df)))
    by now rewrite Hkeys.
  assert (Hlisted : forall col,
            In col (listed_columns self') <->
            exists ty, In (col, ty) (detect_column_types to_datetime_ok df)
                       /\ ty <> TUnknown).
  { intro col. unfold listed_columns, ProcessorQueries.get_numeric_columns,
      ProcessorQueries.get_categorical_columns, ProcessorQueries.get_datetime_columns.
    rewrite Hty, !in_app_iff, !cols_of_type_iff. split.
    - intros [(ty & Hin & H)|[(ty & Hin & H)|(ty & Hin & H)]]; exists ty;
        (split; [exact Hin|]); intros ->; discriminate.
    - intros (ty & Hin & Hne).
      destruct ty; try contradiction;
        first [ left; eexists; split; [exact Hin | reflexivity]
              | right; left; eexists; split; [exact Hin | reflexivity]
              | right; right; eexists; split; [exact Hin | reflexivity] ]. }
  split; [exact Hmsg|]. split; [exact Ho|]. split; [exact Hp|].
  split; [exact Hrows|]. split; [exact Hcols|]. split; [exact Hlog|].
  split; [|split; [|split; [|split]]].
  - unfold listed_columns, ProcessorQueries.get_numeric_columns,
      ProcessorQueries.get_categorical_columns, ProcessorQueries.get_datetime_columns.
    rewrite Hty. apply NoDup_app.
    + unfold cols_of_type. now apply NoDup_map_fst_filter.
    + apply cols_of_type_disjoint; [exact Hndk|]. now intros [].
    + intros col Hn Hcd. apply cols_of_type_In in Hn as (ty & Hin & Hn).
      apply in_app_iff in Hcd.
      destruct Hcd as [Hc|Hd]; apply cols_of_type_In in Hc || apply cols_of_type_In in Hd.
      * destruct Hc as (ty' & Hin' & Hc).
        rewrite (nodup_keys_functional _ _ _ _ Hndk Hin' Hin) in Hc.
        destruct ty; discriminate.
      * destruct Hd as (ty' & Hin' & Hd).
        rewrite (nodup_keys_functional _ _ _ _ Hndk Hin' Hin) in Hd.
        destruct ty; discriminate.
  - intros col s Hin. rewrite Hlisted.
    assert (Hin' : In (col, detect_column_type to_datetime_ok (nrows df) s)
                      (detect_column_types to_datetime_ok df)).
    { unfold detect_column_types. apply in_map_iff. exists (col, s). auto. }
    split.
    + intros (ty & Hty' & Hne).
      rewrite (nodup_keys_functional _ _ _ _ Hndk Hty' Hin') in Hne.
      destruct (isna_all s) eqn:E; [|reflexivity].
      exfalso. apply Hne. now apply detect_unknown_iff.
    + intro Hna. eexists. split; [exact Hin'|].
      intro Hu. apply detect_unknown_iff in Hu. congruence.
  - intros col Hin. apply Hlisted in Hin. destruct Hin as (ty & Hin & _).
    rewrite <- Hkeys. apply in_map_iff. exists (col, ty). auto.
  - intros col Hin. unfold ProcessorQueries.get_numeric_columns in Hin.
    rewrite Hty in Hin. apply cols_of_type_In in Hin as (ty & Hin & Hnum).
    destruct (inferred_type_lookup to_datetime_ok df col ty Hnd Hin) as (s & Hget & ->).
    destruct (detect_numeric_series _ _ Hnum) as [cells ->]. eauto.
  - intros col Hin. unfold ProcessorQueries.get_datetime_columns in Hin.
    rewrite Hty in Hin. apply cols_of_type_In in Hin as (ty & Hin & Hdt).
    destruct (inferred_type_lookup to_datetime_ok df col ty Hnd Hin) as (s & Hget & ->).
    destruct (detect_datetime_series _ _ Hdt) as (cells & -> & Hok). eauto.
Qed.

End ColumnLists.

Lemma loaded_columns_witness :
  let self' := fst (fst (DataProcessor.load_data never_dates no_std
                           DataProcessor.init (Some gappy_upload) "t")) in
  listed_columns self' = ["x"; "c"]%string
  /\ NoDup (listed_columns self')
  /\ ~ In "gap"%string (listed_columns self').
Proof.
  intro self'.
  destruct (loaded_columns_partition never_dates no_std DataProcessor.init self'
              gappy_upload "t" gappy_frame None)
    as (_ & _ & _ & _ & _ & _ & Hnd & Hiff & _).
  - vm_compute. reflexivity.
  - vm_compute. repeat constructor; simpl; intuition discriminate.
  - split; [vm_compute; reflexivity|]. split; [exact Hnd|].
    intro Hin. apply (Hiff "gap"%string (NumSeries [None; None; None; None])) in Hin.
    + discriminate.
    + simpl. auto.
Defined.

(** ** Replacing outliers *)

Lemma sort_length (l : list Q) : length (sort l) = length l.
Proof.
  symmetry. apply Permutation_length, sort_perm.
Qed.

Lemma sorted_nth_le (s : list Q) (i j : nat) :
  StronglySorted Qle s -> (i <= j)%nat -> (j < length s)%nat ->
  nth i s 0 <= nth j s 0.
Proof.
  intro Hs. revert i j.
  induction Hs as [|x t Hs IH Hall]; intros i j Hij Hj; simpl in Hj; [lia|].
  destruct i as [|i], j as [|j]; simpl; try lia.
  - apply Qle_refl.
  - rewrite Forall_forall in Hall. apply Hall. apply nth_In. lia.
  - apply IH; lia.
Qed.

(** The position of a quantile: its floor is an index of the list and
    the fraction lies in [0, 1). *)
Lemma quantile_position (n : nat) (q : Q) :
  0 <= q -> q <= 1 ->
  let pos := of_nat n * q in
  (0 <= Qfloor pos)%Z /\ (Z.to_nat (Qfloor pos) <= n)%nat
  /\ 0 <= pos - inject_Z (Qfloor pos) /\ pos - inject_Z (Qfloor pos) <= 1.
Proof.
  intros H0 H1 pos. pose proof (of_nat_nonneg n) as Hn.
  assert (Hpos0 : 0 <= pos) by (unfold pos; nra).
  assert (Hposn : pos <= of_nat n) by (unfold pos; nra).
  pose proof (Qfloor_resp_le _ _ Hpos0) as Hf0. change (Qfloor 0) with 0%Z in Hf0.
  pose proof (Qfloor_resp_le _ _ Hposn) as Hfn. unfold of_nat in Hfn.
  rewrite Qfloor_Z in Hfn.
  pose proof (Qfloor_le pos) as Hle. pose proof (Qlt_floor pos) as Hlt.
  rewrite inject_Z_plus in Hlt. change (inject_Z 1) with 1 in Hlt.
  split; [exact Hf0|]. split; [lia|]. split; lra.
Qed.

(** A quantile lies between the two sorted values it interpolates. *)
Lemma quantile_between (l : list Q) (q : Q) :
  l <> [] -> 0 <= q -> q <= 1 ->
  let lo := Z.to_nat (Qfloor (of_nat (length l - 1) * q)) in
  nth lo (sort l) 0 <= quantile l q
  /\ quantile l q <= nth (Nat.min (lo + 1) (length l - 1)) (sort l) 0.
Proof.
  intros Hne H0 H1 lo.
  destruct (quantile_position (length l - 1) q H0 H1) as (_ & Hidx & Hf0 & Hf1).
  fold lo in Hidx.
  assert (Hlen : (0 < length l)%nat) by (destruct l; simpl; [congruence | lia]).
  assert (Hab : nth lo (sort l) 0 <= nth (Nat.min (lo + 1) (length l - 1)) (sort l) 0).
  { apply sorted_nth_le; [apply sort_sorted | lia | rewrite sort_length; lia]. }
  unfold quantile. cbv zeta. fold lo.
  set (a := nth lo (sort l) 0) in *.
  set (b := nth (Nat.min (lo + 1) (length l - 1)) (sort l) 0) in *.
  set (f := of_nat (length l - 1) * q - inject_Z (Qfloor (of_nat (length l - 1) * q))) in *.
  split; nra.
Qed.















Section ReplacingOutliers.

Variable to_datetime_ok : list (option string) -> bool.
Variable std : list Q -> npfloat.


End ReplacingOutliers.


(** ** Filling missing values *)

Lemma fold_pick {A : Type} (f : A -> A -> bool) (l : list A) (v : A) :
  In (fold_left (fun best e => if f best e then best else e) l v) (v :: l).
Proof.
  revert v. induction l as [|x t IH]; intro v; simpl; [auto|].
  destruct (f v x).
  - destruct (IH v) as [H|H]; auto.
  - destruct (IH x) as [H|H]; auto.
Qed.

(** [mode()[0]] is a most frequent value of the column. *)
Lemma mode_most_frequent (s : Series) (v : value) :
  mode s = Some v -> most_frequent v s.
Proof.
  unfold mode. destruct (value_counts s) as [|[v0 c0] t] eqn:E; [discriminate|].
  intro H. injection H as H.
  destruct (value_counts_head s v0 c0 t E) as (Hin0 & Hc0 & Hmax).
  pose proof (fold_pick value_leb
                (map fst (filter (fun e : value * nat => (snd e =? c0)%nat) t)) v0) as Hpick.
  rewrite H in Hpick. destruct Hpick as [<-|Hpick].
  - split; [exact Hin0|]. intro w. rewrite <- Hc0. apply Hmax.
  - apply in_map_iff in Hpick. destruct Hpick as ([w c] & Hw & Hf). simpl in Hw. subst w.
    apply filter_In in Hf. destruct Hf as [Hin Hc]. simpl in Hc.
    apply Nat.eqb_eq in Hc. subst c.
    destruct (value_counts_entry s v c0) as [Hv Hcv]; [rewrite E; right; exact Hin|].
    split; [exact Hv|]. intro w. rewrite <- Hcv. apply Hmax.
Qed.

Lemma all_null_no_values (s : Series) : isna_all s = true -> non_null_values s = [].
Proof.
  unfold non_null_values.
  destruct s as [l|l]; simpl; induction l as [|[x|] t IH]; simpl; auto; discriminate.
Qed.

Lemma all_null_mode (s : Series) : isna_all s = true -> mode s = None.
Proof.
  intro H. unfold mode, value_counts.
  fold (non_null_values s). rewrite (all_null_no_values s H). reflexivity.
Qed.

Lemma fill_cell_no_null {A : Type} (v : A) (l : list (option A)) :
  null_count l = 0%nat -> map (fill_cell v) l = l.
Proof.
  unfold null_count. induction l as [|[x|] t IH]; simpl; intro H;
    [reflexivity | now rewrite IH | discriminate].
Qed.

Lemma filled_null_count {A : Type} (v : A) (l : list (option A)) :
  null_count (map (fill_cell v) l) = 0%nat.
Proof.
  unfold null_count. induction l as [|[x|] t IH]; simpl; auto.
Qed.

Lemma series_values_fill_num (q : Q) (l : list (option Q)) :
  series_values (NumSeries (map (fill_cell q) l))
  = map (fill_cell (VNum q)) (series_values (NumSeries l)).
Proof.
  simpl. rewrite !map_map. apply map_ext. now intros [x|].
Qed.

Lemma series_values_fill_str (x : string) (l : list (option string)) :
  series_values (ObjSeries (map (fill_cell x) l))
  = map (fill_cell (VStr x)) (series_values (ObjSeries l)).
Proof.
  simpl. rewrite !map_map. apply map_ext. now intros [y|].
Qed.

Lemma series_fillna_filled (v : value) (s : Series) :
  In v (non_null_values s) -> filled_with v s (series_fillna v s).
Proof.
  unfold filled_with, non_null_values. intro Hin.
  destruct s as [l|l], v as [q|x]; simpl series_fillna.
  - apply series_values_fill_num.
  - exfalso. simpl in Hin. induction l as [|[y|] t IH]; simpl in Hin; auto.
    destruct Hin as [H|H]; [discriminate | auto].
  - exfalso. simpl in Hin. induction l as [|[y|] t IH]; simpl in Hin; auto.
    destruct Hin as [H|H]; [discriminate | auto].
  - apply series_values_fill_str.
Qed.

Lemma no_null_filled (v : value) (s : Series) :
  series_null_count s = 0%nat -> filled_with v s s.
Proof.
  unfold filled_with. rewrite series_null_count_values. intro H.
  symmetry. apply fill_cell_no_null. exact H.
Qed.

Lemma filled_no_null (v : value) (s s' : Series) :
  filled_with v s s' -> series_null_count s' = 0%nat.
Proof.
  unfold filled_with. intro H. rewrite series_null_count_values, H.
  apply (filled_null_count v).
Qed.

Lemma fill_mode_col_filled (c : string * Series) :
  mode_filled c (fst c, DataProcessor.fill_mode_col (snd c)).
Proof.
  split; [reflexivity|]. simpl snd. unfold DataProcessor.fill_mode_col.
  destruct (isna_all (snd c)) eqn:Hall.
  - rewrite (all_null_mode _ Hall). now destruct (DataProcessor.has_null (snd c)).
  - destruct (mode (snd c)) as [v|] eqn:Hmode.
    + pose proof (mode_most_frequent _ _ Hmode) as Hv. exists v. split; [exact Hv|].
      destruct (DataProcessor.has_null (snd c)) eqn:Hnull.
      * apply series_fillna_filled. apply Hv.
      * apply no_null_filled. unfold DataProcessor.has_null in Hnull.
        apply Nat.ltb_ge in Hnull. lia.
    + exfalso. apply (value_counts_nonempty _ Hall).
      unfold mode in Hmode. destruct (value_counts (snd c)) as [|[v0 c0] t];
        [reflexivity | discriminate].
Qed.

Lemma existsb_is_none {A : Type} (l : list (option A)) :
  existsb is_none l = false -> null_count l = 0%nat.
Proof.
  unfold null_count. induction l as [|[x|] t IH]; simpl; auto; discriminate.
Qed.

Lemma fill_mean_col_filled (c : string * Series) :
  mean_filled c (fst c, DataProcessor.fill_mean_col (snd c)).
Proof.
  split; [reflexivity|]. simpl snd.
  destruct (snd c) as [cells|cells] eqn:Hs; [|reflexivity].
  unfold DataProcessor.fill_mean_col.
  destruct (isna_all (NumSeries cells)) eqn:Hall.
  - assert (Hnil : dropna cells = []).
    { clear Hs. simpl in Hall. induction cells as [|[x|] t IH]; simpl in *;
        auto; discriminate. }
    rewrite Hnil. simpl. now destruct (existsb is_none cells).
  - assert (Hpos : (0 < length (dropna cells))%nat).
    { simpl in Hall. now apply forallb_is_none_false. }
    rewrite (mean_nonempty _ Hpos).
    destruct (existsb is_none cells) eqn:Hnull.
    + apply series_values_fill_num.
    + apply no_null_filled. simpl. now apply existsb_is_none.
Qed.

Lemma Forall2_map_r {A B : Type} (R : A -> B -> Prop) (f : A -> B) (l : list A) :
  (forall x, R x (f x)) -> Forall2 R l (map f l).
Proof.
  intro H. induction l; simpl; constructor; auto.
Qed.

Section Filling.

Variable to_datetime_ok : list (option string) -> bool.
Variable std : list Q -> npfloat.

(** X12.  A successful [clean_data] with [fill_mode] and no outlier
    step publishes the frame left by step 1 with, column by column, the
    nulls filled by a most frequent value of that column; values that
    were there are unchanged, and a column that is entirely null stays
    so.  Hence every published column is either free of nulls or was
    entirely null, and the row count is that of step 1. *)
Theorem fill_mode_fills (self self' : DataProcessor.t) (df0 : DataFrame)
    (remove_duplicates : bool) (missing_threshold : Q) (now : string)
    (report : CleaningReport) :
  DataProcessor.processed_df self = Some df0 ->
  DataProcessor.clean_data to_datetime_ok std self remove_duplicates fill_mode
    missing_threshold false now = (self', Ok (Some report)) ->
  let before := after_duplicates remove_duplicates df0 in
  exists df,
    DataProcessor.processed_df self' = Some df
    /\ nrows df = nrows before
    /\ Forall2 mode_filled (columns before) (columns df)
    /\ (forall c', In c' (columns df) ->
          series_null_count (snd c') = 0%nat \/ isna_all (snd c') = true)
    /\ In FilledModes (steps_taken report).
Proof.
  intros Hp Hrun before.
  destruct (clean_data_inv to_datetime_ok std _ _ _ _ _ _ _ _ _ Hp Hrun)
    as (df & steps3 & Hstep3 & Hsteps & Hpd & _).
  destruct Hstep3 as [(_ & -> & _)|(Hro & _)]; [|discriminate].
  fold before. fold before in Hsteps. simpl fst. simpl snd in Hsteps.
  exists (DataProcessor.map_columns DataProcessor.fill_mode_col before).
  split; [exact Hpd|]. split; [reflexivity|]. split; [|split].
  - unfold DataProcessor.map_columns. simpl.
    apply Forall2_map_r. apply fill_mode_col_filled.
  - intros c' Hin. unfold DataProcessor.map_columns in Hin. simpl in Hin.
    apply in_map_iff in Hin. destruct Hin as (c & <- & _).
    destruct (fill_mode_col_filled c) as [_ H]. simpl in H. simpl snd.
    destruct (isna_all (snd c)) eqn:Hall.
    + right. now rewrite H.
    + left. destruct H as (v & _ & Hv). exact (filled_no_null _ _ _ Hv).
  - rewrite Hsteps, !in_app_iff. right. left. left. reflexivity.
Qed.

(** X13.  A successful [clean_data] with [fill_mean] and no outlier
    step publishes the frame left by step 1 where every numeric column
    that has a value has its nulls filled with the mean of its values;
    values that were there, text columns and entirely null columns are
    unchanged.  Hence every published numeric column is either free of
    nulls or was entirely null. *)
Theorem fill_mean_fills (self self' : DataProcessor.t) (df0 : DataFrame)
    (remove_duplicates : bool) (missing_threshold : Q) (now : string)
    (report : CleaningReport) :
  DataProcessor.processed_df self = Some df0 ->
  DataProcessor.clean_data to_datetime_ok std self remove_duplicates fill_mean
    missing_threshold false now = (self', Ok (Some report)) ->
  let before := after_duplicates remove_duplicates df0 in
  exists df,
    DataProcessor.processed_df self' = Some df
    /\ nrows df = nrows before
    /\ Forall2 mean_filled (columns before) (columns df)
    /\ (forall name cells, In (name, NumSeries cells) (columns df) ->
          null_count cells = 0%nat \/ forallb is_none cells = true)
    /\ In FilledMeans (steps_taken report).
Proof.
  intros Hp Hrun before.
  destruct (clean_data_inv to_datetime_ok std _ _ _ _ _ _ _ _ _ Hp Hrun)
    as (df & steps3 & Hstep3 & Hsteps & Hpd & _).
  destruct Hstep3 as [(_ & -> & _)|(Hro & _)]; [|discriminate].
  fold before. fold before in Hsteps. simpl fst. simpl snd in Hsteps.
  exists (DataProcessor.map_columns DataProcessor.fill_mean_col before).
  split; [exact Hpd|]. split; [reflexivity|]. split; [|split].
  - unfold DataProcessor.map_columns. simpl.
    apply Forall2_map_r. apply fill_mean_col_filled.
  - intros name cells Hin. unfold DataProcessor.map_columns in Hin. simpl in Hin.
    apply in_map_iff in Hin. destruct Hin as (c & Heq & _).
    destruct (fill_mean_col_filled c) as [_ H]. simpl snd in H.
    injection Heq as _ Heq. rewrite Heq in H.
    destruct (snd c) as [old|old] eqn:Hs.
    + destruct (isna_all (NumSeries old)) eqn:Hall.
      * right. injection H as ->. exact Hall.
      * left. exact (filled_no_null _ _ _ H).
    + discriminate.
  - rewrite Hsteps, !in_app_iff. right. left. left. reflexivity.
Qed.

End Filling.

Lemma fill_mode_witness :
  let run := DataProcessor.clean_data never_dates no_std repeated_row_processor
               false fill_mode (1 # 2) false "t" in
  exists df,
    DataProcessor.processed_df (fst run) = Some df
    /\ columns df = [("id"%string, NumSeries [Some 1; Some 2; Some 1]);
                     ("tag"%string, ObjSeries [Some "x"; Some "x"; Some "x"]%string)].
Proof.
  intro run.
  destruct (fill_mode_fills never_dates no_std repeated_row_processor (fst run)
              repeated_row_frame false (1 # 2) "t"
              (match snd run with
               | Ok (Some r) => r
               | _ => mkCleaningReport 0 0 [] 0 0 0 0
               end) eq_refl)
    as (df & Hpd & _).
  - vm_compute. reflexivity.
  - exists df. split; [exact Hpd|].
    vm_compute in Hpd. injection Hpd as <-. reflexivity.
Defined.

Lemma fill_mean_witness :
  let run := DataProcessor.clean_data never_dates no_std half_empty_processor
               false fill_mean (1 # 2) false "t" in
  exists df,
    DataProcessor.processed_df (fst run) = Some df
    /\ forall name cells, In (name, NumSeries cells) (columns df) ->
         null_count cells = 0%nat \/ forallb is_none cells = true.
Proof.
  intro run.
  destruct (fill_mean_fills never_dates no_std half_empty_processor (fst run)
              half_empty_frame false (1 # 2) "t"
              (match snd run with
               | Ok (Some r) => r
               | _ => mkCleaningReport 0 0 [] 0 0 0 0
               end) eq_refl)
    as (df & Hpd & _ & _ & Hnull & _).
  - vm_compute. reflexivity.
  - exists df. split; [exact Hpd | exact Hnull].
Defined.

(** ** The executive summary and the action list *)

Lemma count_category_app (c : category) (l1 l2 : list Action) :
  count_category c (l1 ++ l2) = (count_category c l1 + count_category c l2)%nat.
Proof.
  unfold count_category. now rewrite filter_app, length_app.
Qed.

Lemma category_eqb_eq (a b : category) : category_eqb a b = true <-> a = b.
Proof.
  split; [destruct a, b; simpl; intro H; congruence | intros ->; now destruct b].
Qed.

Lemma count_other_family (c : category) (k : nat) (l : list Action) :
  (forall a, In a l -> family (Category a) = k) -> family c <> k ->
  count_category c l = 0%nat.
Proof.
  intros Hall Hc. unfold count_category.
  induction l as [|a t IH]; simpl; [reflexivity|].
  destruct (category_eqb (Category a) c) eqn:E.
  - apply category_eqb_eq in E. exfalso. apply Hc. rewrite <- E. apply Hall. now left.
  - apply IH. intros b Hb. apply Hall. now right.
Qed.

Lemma count_category_perm (c : category) (l1 l2 : list Action) :
  Permutation l1 l2 -> count_category c l1 = count_category c l2.
Proof.
  unfold count_category. induction 1; simpl; auto.
  - destruct (category_eqb (Category x) c); simpl; congruence.
  - destruct (category_eqb (Category x) c), (category_eqb (Category y) c); reflexivity.
  - congruence.
Qed.

Lemma count_decline (nt : list (string * TrendInfo)) :
  count_category PerformanceAlert (flat_map BusinessInsightGenerator.decline_action nt)
  = Summary.count_if
      (fun e : string * TrendInfo => Summary.is_decreasing (trend_direction (snd e))) nt.
Proof.
  unfold Summary.count_if. induction nt as [|[col info] t IH]; [reflexivity|].
  cbn [flat_map filter snd]. rewrite count_category_app, IH.
  cbv beta iota delta [BusinessInsightGenerator.decline_action BusinessInsightGenerator.growth_action].
  destruct (trend_direction info); reflexivity.
Qed.

Lemma count_growth (nt : list (string * TrendInfo)) :
  count_category GrowthOpportunity (flat_map BusinessInsightGenerator.growth_action nt)
  = Summary.count_if
      (fun e : string * TrendInfo => Summary.is_increasing (trend_direction (snd e))) nt.
Proof.
  unfold Summary.count_if. induction nt as [|[col info] t IH]; [reflexivity|].
  cbn [flat_map filter snd]. rewrite count_category_app, IH.
  cbv beta iota delta [BusinessInsightGenerator.decline_action BusinessInsightGenerator.growth_action].
  destruct (trend_direction info); reflexivity.
Qed.

Lemma count_volatile (nt : list (string * TrendInfo)) :
  count_category HighRiskAlert (flat_map BusinessInsightGenerator.variability_action nt)
  = Summary.count_if
      (fun e : string * TrendInfo => gtb (coefficient_of_variation (snd e)) (Fin 100)) nt.
Proof.
  unfold Summary.count_if. induction nt as [|[col info] t IH]; [reflexivity|].
  cbn [flat_map filter snd]. rewrite count_category_app, IH.
  cbv beta iota zeta delta [BusinessInsightGenerator.variability_action].
  destruct (gtb (coefficient_of_variation info) (Fin 100)); reflexivity.
Qed.

Lemma count_stable (nt : list (string * TrendInfo)) :
  count_category PlanningAsset (flat_map BusinessInsightGenerator.stable_action nt)
  = Summary.count_if
      (fun e : string * TrendInfo =>
         Summary.is_stable (trend_direction (snd e))
         && ltb (coefficient_of_variation (snd e)) (Fin 10)) nt.
Proof.
  unfold Summary.count_if. induction nt as [|[col info] t IH]; [reflexivity|].
  cbn [flat_map filter snd]. rewrite count_category_app, IH.
  cbv beta iota zeta delta [BusinessInsightGenerator.stable_action].
  destruct (trend_direction info); cbn [Summary.is_stable andb]; try reflexivity.
  destruct (ltb (coefficient_of_variation info) (Fin 10)); reflexivity.
Qed.

Lemma ltb_Fin_trans (x : npfloat) (a b : Q) :
  a <= b -> ltb x (Fin a) = true -> ltb x (Fin b) = true.
Proof.
  intro Hab. destruct x as [q| | |]; [|simpl; auto ..].
  rewrite !ltb_Fin. intro H. lra.
Qed.

Lemma count_balanced (cd : list (string * DistributionInfo)) :
  (count_category BalancedPortfolio
     (flat_map BusinessInsightGenerator.concentration_action cd)
   <= Summary.count_if
        (fun e : string * DistributionInfo => ltb (concentration (snd e)) (Fin 30)) cd)%nat.
Proof.
  unfold Summary.count_if. induction cd as [|[col info] t IH]; [apply Nat.le_refl|].
  cbn [flat_map filter snd]. rewrite count_category_app.
  set (counted := count_category BalancedPortfolio
                    (flat_map BusinessInsightGenerator.concentration_action t)) in *.
  cbv beta iota zeta delta [BusinessInsightGenerator.concentration_action].
  destruct (gtb (concentration info) (Fin 70)) eqn:Hhigh.
  - destruct (ltb (concentration info) (Fin 30)); cbn [length];
      change (count_category BalancedPortfolio [_]) with 0%nat; lia.
  - destruct (ltb (concentration info) (Fin 20)) eqn:Hlow.
    + assert (Hle : 20 <= 30) by lra.
      rewrite (ltb_Fin_trans _ 20 30 Hle Hlow). cbn [length].
      change (count_category BalancedPortfolio [_]) with 1%nat. lia.
    + destruct (ltb (concentration info) (Fin 30)); cbn [length];
        change (count_category BalancedPortfolio []) with 0%nat; lia.
Qed.

Lemma alerts_inv (nt : list (string * TrendInfo)) (df : DataFrame) :
  let alerts := Summary._identify_alerts nt df in
  let declining :=
    Summary.count_if
      (fun e : string * TrendInfo => Summary.is_decreasing (trend_direction (snd e))) nt in
  let volatile :=
    Summary.count_if
      (fun e : string * TrendInfo => gtb (coefficient_of_variation (snd e)) (Fin 100)) nt in
  alerts <> []
  /\ (forall n, In (DecliningMetrics n) alerts <-> (0 < n)%nat /\ n = declining)
  /\ (forall n, In (VolatileMetrics n) alerts <-> (0 < n)%nat /\ n = volatile)
  /\ (In NoUrgentIssues alerts <-> alerts = [NoUrgentIssues])
  /\ (In NoUrgentIssues alerts -> declining = 0%nat /\ volatile = 0%nat).
Proof.
  intros alerts declining volatile. unfold alerts, Summary._identify_alerts.
  cbv zeta. fold declining. fold volatile.
  destruct (0 <? declining)%nat eqn:Hd; [apply Nat.ltb_lt in Hd | apply Nat.ltb_ge in Hd];
    (destruct (0 <? volatile)%nat eqn:Hv;
       [apply Nat.ltb_lt in Hv | apply Nat.ltb_ge in Hv]);
    destruct (0 <? Summary.count_if _ (columns df))%nat;
    destruct (gtb _ (Fin 5));
    cbn [app];
    (split; [discriminate|]);
    (split; [intro n; cbn [In]; split;
               [intros H; repeat (destruct H as [H|H]; try discriminate);
                try contradiction; try (injection H as <-; split; [lia | reflexivity])
               | intros [Hn ->]; try lia; auto]|]);
    (split; [intro n; cbn [In]; split;
               [intros H; repeat (destruct H as [H|H]; try discriminate);
                try contradiction; try (injection H as <-; split; [lia | reflexivity])
               | intros [Hn ->]; try lia; auto 6]|]);
    (split; [cbn [In]; split;
               [intros H; repeat (destruct H as [H|H]; try discriminate);
                try contradiction; try reflexivity
               | intros H; try discriminate; auto]|]);
    cbn [In]; intros H; repeat (destruct H as [H|H]; try discriminate);
    try contradiction; split; lia.
Qed.

Lemma opportunities_inv (nt : list (string * TrendInfo))
    (cd : list (string * DistributionInfo)) :
  let opportunities := Summary._identify_opportunities nt cd in
  let growing :=
    Summary.count_if
      (fun e : string * TrendInfo => Summary.is_increasing (trend_direction (snd e))) nt in
  let steady :=
    Summary.count_if
      (fun e : string * TrendInfo =>
         Summary.is_stable (trend_direction (snd e))
         && ltb (coefficient_of_variation (snd e)) (Fin 10)) nt in
  let balanced :=
    Summary.count_if
      (fun e : string * DistributionInfo => ltb (concentration (snd e)) (Fin 30)) cd in
  opportunities <> []
  /\ (forall n, In (GrowingMetrics n) opportunities <-> (0 < n)%nat /\ n = growing)
  /\ (forall n, In (StableMetrics n) opportunities <-> (0 < n)%nat /\ n = steady)
  /\ (forall n, In (BalancedCategories n) opportunities <-> (0 < n)%nat /\ n = balanced)
  /\ (In ContinueMonitoring opportunities <-> opportunities = [ContinueMonitoring])
  /\ (In ContinueMonitoring opportunities ->
      growing = 0%nat /\ steady = 0%nat /\ balanced = 0%nat).
Proof.
  intros opportunities growing steady balanced.
  unfold opportunities, Summary._identify_opportunities.
  cbv zeta. fold growing. fold steady. fold balanced.
  destruct (0 <? growing)%nat eqn:Hg; [apply Nat.ltb_lt in Hg | apply Nat.ltb_ge in Hg];
    (destruct (0 <? steady)%nat eqn:Hs;
       [apply Nat.ltb_lt in Hs | apply Nat.ltb_ge in Hs]);
    (destruct (0 <? balanced)%nat eqn:Hb;
       [apply Nat.ltb_lt in Hb | apply Nat.ltb_ge in Hb]);
    cbn [app];
    (split; [discriminate|]);
    (split; [intro n; cbn [In]; split;
               [intros H; repeat (destruct H as [H|H]; try discriminate);
                try contradiction; try (injection H as <-; split; [lia | reflexivity])
               | intros [Hn ->]; try lia; auto]|]);
    (split; [intro n; cbn [In]; split;
               [intros H; repeat (destruct H as [H|H]; try discriminate);
                try contradiction; try (injection H as <-; split; [lia | reflexivity])
               | intros [Hn ->]; try lia; auto 6]|]);
    (split; [intro n; cbn [In]; split;
               [intros H; repeat (destruct H as [H|H]; try discriminate);
                try contradiction; try (injection H as <-; split; [lia | reflexivity])
               | intros [Hn ->]; try lia; auto 6]|]);
    (split; [cbn [In]; split;
               [intros H; repeat (destruct H as [H|H]; try discriminate);
                try contradiction; try reflexivity
               | intros H; try discriminate; auto]|]);
    cbn [In]; intros H; repeat (destruct H as [H|H]; try discriminate);
    try contradiction; repeat split; lia.
Qed.

(** The actions of one category all come from the rule family of that
    category. *)
Lemma generated_counts (mp : list (string * npfloat)) (nt : list (string * TrendInfo))
    (cd : list (string * DistributionInfo)) (co : list (string * CorrelationEntry))
    (score : npfloat) (c : category) :
  count_category c
    (flat_map BusinessInsightGenerator.missing_action mp
       ++ flat_map BusinessInsightGenerator.variability_action nt
       ++ flat_map BusinessInsightGenerator.decline_action nt
       ++ flat_map BusinessInsightGenerator.growth_action nt
       ++ flat_map BusinessInsightGenerator.stable_action nt
       ++ flat_map BusinessInsightGenerator.concentration_action cd
       ++ flat_map BusinessInsightGenerator.correlation_action co
       ++ BusinessInsightGenerator.governance_action score)
  = match family c with
    | 1 => count_category c (flat_map BusinessInsightGenerator.missing_action mp)
    | 2 => count_category c (flat_map BusinessInsightGenerator.variability_action nt)
    | 3 => count_category c (flat_map BusinessInsightGenerator.decline_action nt)
    | 4 => count_category c (flat_map BusinessInsightGenerator.growth_action nt)
    | 5 => count_category c (flat_map BusinessInsightGenerator.stable_action nt)
    | 6 => count_category c (flat_map BusinessInsightGenerator.concentration_action cd)
    | 7 => count_category c (flat_map BusinessInsightGenerator.correlation_action co)
    | _ => count_category c (BusinessInsightGenerator.governance_action score)
    end%nat.
Proof.
  rewrite !count_category_app.
  pose proof (fun H => count_other_family c 1 _ (missing_action_family mp) H) as H1.
  pose proof (fun H => count_other_family c 2 _ (variability_action_family nt) H) as H2.
  pose proof (fun H => count_other_family c 3 _ (decline_action_family nt) H) as H3.
  pose proof (fun H => count_other_family c 4 _ (growth_action_family nt) H) as H4.
  pose proof (fun H => count_other_family c 5 _ (stable_action_family nt) H) as H5.
  pose proof (fun H => count_other_family c 6 _ (concentration_action_family cd) H) as H6.
  pose proof (fun H => count_other_family c 7 _ (correlation_action_family co) H) as H7.
  pose proof (fun H => count_other_family c 8 _ (governance_action_family score) H) as H8.
  destruct c; cbn [family] in *;
    try rewrite H1 by discriminate; try rewrite H2 by discriminate;
    try rewrite H3 by discriminate; try rewrite H4 by discriminate;
    try rewrite H5 by discriminate; try rewrite H6 by discriminate;
    try rewrite H7 by discriminate; try rewrite H8 by discriminate; lia.
Qed.

Section SummaryAgreement.

Variable series_mean : list Q -> npfloat.
Variable std : list Q -> npfloat.
Variable corr : Series -> Series -> npfloat.
Variable round1 : npfloat -> npfloat.
Variable round2 : npfloat -> npfloat.

(** X14.  When the executive summary and the action list are both
    produced for a generator, they agree: the summary is never without an
    alert or an opportunity line and names at most three key metrics; it
    reports [n] declining metrics exactly when the list holds [n > 0]
    performance alerts, [n] volatile metrics exactly when it holds
    [n > 0] high-risk alerts, [n] growing metrics exactly when it holds
    [n > 0] growth opportunities, [n] stable metrics exactly when it holds
    [n > 0] planning assets; the balanced categories it counts are at
    least the balanced-portfolio actions.  "No urgent issues" stands alone
    and then the list has no performance or high-risk alert; "continue
    monitoring" stands alone and then the list has no growth, planning or
    balanced-portfolio action. *)
Theorem summary_agrees_with_actions (self : BusinessInsightGenerator.t)
    (summary : ExecutiveSummary) (actions : list Action) :
  Summary.generate_executive_summary series_mean std round1 round2 self = Ok summary ->
  BusinessInsightGenerator.generate_business_actions series_mean std corr self = Ok actions ->
  alerts summary <> [] /\ opportunities summary <> []
  /\ (length (key_metrics summary) <= 3)%nat
  /\ (forall n, In (DecliningMetrics n) (alerts summary)
                <-> (0 < n)%nat /\ n = count_category PerformanceAlert actions)
  /\ (forall n, In (VolatileMetrics n) (alerts summary)
                <-> (0 < n)%nat /\ n = count_category HighRiskAlert actions)
  /\ (forall n, In (GrowingMetrics n) (opportunities summary)
                <-> (0 < n)%nat /\ n = count_category GrowthOpportunity actions)
  /\ (forall n, In (StableMetrics n) (opportunities summary)
                <-> (0 < n)%nat /\ n = count_category PlanningAsset actions)
  /\ (forall n, In (BalancedCategories n) (opportunities summary) ->
                (count_category BalancedPortfolio actions <= n)%nat)
  /\ (In NoUrgentIssues (alerts summary) ->
      alerts summary = [NoUrgentIssues]
      /\ count_category PerformanceAlert actions = 0%nat
      /\ count_category HighRiskAlert actions = 0%nat)
  /\ (In ContinueMonitoring (opportunities summary) ->
      opportunities summary = [ContinueMonitoring]
      /\ count_category GrowthOpportunity actions = 0%nat
      /\ count_category PlanningAsset actions = 0%nat
      /\ count_category BalancedPortfolio actions = 0%nat).
Proof.
  intros Hsum Hact.
  destruct (generate_inv series_mean std corr self actions Hact) as (unsorted & Hgen & ->).
  destruct (generated_inv series_mean std corr self unsorted Hgen)
    as (nt & cd & co & Hnt & Hcd & _ & ->).
  unfold Summary.generate_executive_summary in Hsum. cbv zeta in Hsum.
  rewrite Hnt, Hcd in Hsum. unfold bind in Hsum. injection Hsum as <-.
  cbn [alerts opportunities key_metrics].
  assert (Hcount : forall c,
            count_category c (sort_by_key action_key
              (flat_map BusinessInsightGenerator.missing_action
                 (BusinessInsightGenerator.missing_pct
                    (TrendAnalyzer.df (BusinessInsightGenerator.trend_analyzer self)))
               ++ flat_map BusinessInsightGenerator.variability_action nt
               ++ flat_map BusinessInsightGenerator.decline_action nt
               ++ flat_map BusinessInsightGenerator.growth_action nt
               ++ flat_map BusinessInsightGenerator.stable_action nt
               ++ flat_map BusinessInsightGenerator.concentration_action cd
               ++ flat_map BusinessInsightGenerator.correlation_action co
               ++ BusinessInsightGenerator.governance_action
                    (BusinessInsightGenerator.quality_score
                       (TrendAnalyzer.df (BusinessInsightGenerator.trend_analyzer self)))))
            = match family c with
              | 1 => count_category c
                       (flat_map BusinessInsightGenerator.missing_action
                          (BusinessInsightGenerator.missing_pct
                             (TrendAnalyzer.df
                                (BusinessInsightGenerator.trend_analyzer self))))
              | 2 => count_category c
                       (flat_map BusinessInsightGenerator.variability_action nt)
              | 3 => count_category c (flat_map BusinessInsightGenerator.decline_action nt)
              | 4 => count_category c (flat_map BusinessInsightGenerator.growth_action nt)
              | 5 => count_category c (flat_map BusinessInsightGenerator.stable_action nt)
              | 6 => count_category c
                       (flat_map BusinessInsightGenerator.concentration_action cd)
              | 7 => count_category c
                       (flat_map BusinessInsightGenerator.correlation_action co)
              | _ => count_category c
                       (BusinessInsightGenerator.governance_action
                          (BusinessInsightGenerator.quality_score
                             (TrendAnalyzer.df
                                (BusinessInsightGenerator.trend_analyzer self))))
              end%nat).
  { intro c. rewrite <- generated_counts. symmetry.
    apply count_category_perm, sort_by_key_perm. }
  rewrite (Hcount PerformanceAlert), (Hcount HighRiskAlert), (Hcount GrowthOpportunity),
    (Hcount PlanningAsset), (Hcount BalancedPortfolio).
  cbn [family]. rewrite count_decline, count_volatile, count_growth, count_stable.
  pose proof (count_balanced cd) as Hbal.
  destruct (alerts_inv nt (TrendAnalyzer.df (BusinessInsightGenerator.trend_analyzer self)))
    as (Ha0 & Ha1 & Ha2 & Ha3 & Ha4).
  destruct (opportunities_inv nt cd) as (Ho0 & Ho1 & Ho2 & Ho3 & Ho4 & Ho5).
  split; [exact Ha0|]. split; [exact Ho0|].
  split; [unfold Summary._identify_key_metrics; rewrite length_map, length_firstn; lia|].
  split; [exact Ha1|]. split; [exact Ha2|]. split; [exact Ho1|]. split; [exact Ho2|].
  split; [intros n Hn; apply Ho3 in Hn; destruct Hn as [_ ->]; exact Hbal|].
  split.
  - intro H. split; [now apply Ha3 | now apply Ha4].
  - intro H. destruct (Ho5 H) as (Hg & Hs & Hb).
    split; [now apply Ho4|]. split; [exact Hg|]. split; [exact Hs | lia].
Qed.

End SummaryAgreement.

Lemma summary_agrees_witness :
  exists summary actions,
    Summary.generate_executive_summary running_mean zero_std no_round no_round two_trends_generator
      = Ok summary
    /\ BusinessInsightGenerator.generate_business_actions running_mean zero_std no_corr
         two_trends_generator = Ok actions
    /\ In (DecliningMetrics 1) (alerts summary)
    /\ count_category PerformanceAlert actions = 1%nat
    /\ In (GrowingMetrics 1) (opportunities summary).
Proof.
  eexists. eexists. split; [vm_compute; reflexivity|].
  split; [vm_compute; reflexivity|].
  match goal with
  | |- In _ (alerts ?s) /\ count_category _ ?a = _ /\ _ =>
      destruct (summary_agrees_with_actions running_mean zero_std no_corr no_round no_round
                  two_trends_generator s a)
        as (_ & _ & _ & Hdecl & _ & Hgrow & _)
  end.
  - vm_compute. reflexivity.
  - vm_compute. reflexivity.
  - split; [apply Hdecl; split; [lia | vm_compute; reflexivity]|].
    split; [vm_compute; reflexivity|].
    apply Hgrow. split; [lia | vm_compute; reflexivity].
Defined.

(** ** Correlations *)

Lemma pairs_precedes {A : Type} (x y : A) (l : list A) :
  In (x, y) (TrendAnalyzer.pairs l) <-> precedes x y l.
Proof.
  unfold precedes. split.
  - induction l as [|z t IH]; simpl; [tauto|].
    intro H. apply in_app_or in H. destruct H as [H|H].
    + apply in_map_iff in H. destruct H as (w & Hw & Hin). injection Hw as <- <-.
      apply in_split in Hin. destruct Hin as (l2 & l3 & ->).
      exists [], l2, l3. reflexivity.
    + destruct (IH H) as (l1 & l2 & l3 & ->). exists (z :: l1), l2, l3. reflexivity.
  - intros (l1 & l2 & l3 & ->). induction l1 as [|z l1 IH]; simpl.
    + apply in_or_app. left. apply in_map. apply in_or_app. right. now left.
    + apply in_or_app. right. exact IH.
Qed.

Lemma pairs_length {A : Type} (l : list A) :
  (length (TrendAnalyzer.pairs l) * 2 = length l * (length l - 1))%nat.
Proof.
  induction l as [|x t IH]; simpl; [reflexivity|].
  rewrite length_app, length_map. nia.
Qed.

Lemma get_cols_spec (d : DataFrame) (cols : list string)
    (sub_df : list (string * Series)) :
  TrendAnalyzer.get_cols d cols = Ok sub_df ->
  map fst sub_df = cols
  /\ Forall (fun e => get_col d (fst e) = Some (snd e)) sub_df.
Proof.
  revert sub_df. induction cols as [|c rest IH]; simpl; intros sub_df H.
  - injection H as <-. auto.
  - destruct (get_col d c) as [s|] eqn:Hc; [|discriminate].
    destruct (TrendAnalyzer.get_cols d rest) as [tl|e]; simpl in H; [|discriminate].
    injection H as <-. destruct (IH tl eq_refl) as [H1 H2].
    simpl. split; [now rewrite H1 | constructor; auto].
Qed.

Lemma dict_set_keys {V : Type} (k k' : string) (v : V) (d : list (string * V)) :
  In k' (map fst (dict_set k v d)) <-> k' = k \/ In k' (map fst d).
Proof.
  induction d as [|[k0 v0] t IH]; simpl; [intuition|].
  destruct (String.eqb k k0) eqn:E; simpl.
  - apply String.eqb_eq in E. subst k0. intuition.
  - rewrite IH. intuition.
Qed.

Lemma dict_set_nodup {V : Type} (k : string) (v : V) (d : list (string * V)) :
  NoDup (map fst d) -> NoDup (map fst (dict_set k v d)).
Proof.
  induction d as [|[k0 v0] t IH]; simpl; intro H.
  - constructor; [tauto | constructor].
  - inversion H as [|? ? Hk Ht]; subst.
    destruct (String.eqb k k0) eqn:E; simpl.
    + apply String.eqb_eq in E. subst k0. exact H.
    + constructor; [|auto]. rewrite dict_set_keys. intros [->|Hin]; [|contradiction].
      rewrite String.eqb_refl in E. discriminate.
Qed.

Lemma dict_set_length {V : Type} (k : string) (v : V) (d : list (string * V)) :
  (length (dict_set k v d) <= S (length d))%nat.
Proof.
  induction d as [|[k0 v0] t IH]; simpl; [lia|].
  destruct (String.eqb k k0); simpl; lia.
Qed.

(** A coefficient of absolute value above 0.7 is above 0.7 when it is
    positive and below -0.7 when it is not. *)
Lemma strong_label (r : npfloat) :
  gtb (absf r) (Fin (7 # 10)) = true ->
  if gtb r (Fin 0) then gtb r (Fin (7 # 10)) = true
  else ltb r (Fin (- (7 # 10))) = true.
Proof.
  destruct r as [q| | |]; try (simpl; auto; fail).
  cbn [absf]. rewrite gtb_Fin. intro Habs.
  destruct (gtb (Fin q) (Fin 0)) eqn:Hpos.
  - apply gtb_Fin in Hpos. apply gtb_Fin.
    rewrite Qabs_pos in Habs by lra. exact Habs.
  - apply ltb_Fin.
    assert (Hq : q <= 0).
    { apply Qnot_lt_le. intro H. apply gtb_Fin in H. congruence. }
    rewrite Qabs_neg in Habs by exact Hq. lra.
Qed.

Section CorrelationFacts.

Variable corr : Series -> Series -> npfloat.

Lemma add_correlations_spec (ps : list ((string * Series) * (string * Series)))
    (acc : list (string * CorrelationEntry)) :
  let res := fold_left (TrendAnalyzer.add_correlation corr) ps acc in
  (forall k e, In (k, e) res ->
     In (k, e) acc
     \/ exists p, In p ps /\ pair_is_strong corr p = true /\ k = pair_key p /\ e = pair_entry corr p)
  /\ (forall k, In k (map fst acc) -> In k (map fst res))
  /\ (forall p, In p ps -> pair_is_strong corr p = true -> In (pair_key p) (map fst res))
  /\ (NoDup (map fst acc) -> NoDup (map fst res))
  /\ (length res <= length acc + length ps)%nat.
Proof.
  revert acc. induction ps as [|p ps IH]; intro acc; cbn [fold_left].
  - split; [auto|]. split; [auto|]. split; [intros p []|]. split; [auto|].
    simpl. lia.
  - destruct (IH (TrendAnalyzer.add_correlation corr acc p)) as (I1 & I2 & I3 & I4 & I5).
    assert (Hstep : TrendAnalyzer.add_correlation corr acc p
                    = if pair_is_strong corr p then dict_set (pair_key p) (pair_entry corr p) acc
                      else acc) by reflexivity.
    split; [|split; [|split; [|split]]].
    + intros k e Hin. destruct (I1 k e Hin) as [Hacc|(q & Hq & Hs & Hk & He)].
      * rewrite Hstep in Hacc. destruct (pair_is_strong corr p) eqn:Hp; [|auto].
        apply dict_set_In in Hacc. destruct Hacc as [Heq|Hacc]; [|auto].
        injection Heq as -> ->. right. exists p. split; [now left | auto].
      * right. exists q. split; [now right | auto].
    + intros k Hk. apply I2. rewrite Hstep.
      destruct (pair_is_strong corr p); [|exact Hk]. apply dict_set_keys. now right.
    + intros q [<-|Hq] Hs; [|now apply I3].
      apply I2. rewrite Hstep, Hs. apply dict_set_keys. now left.
    + intro Hnd. apply I4. rewrite Hstep.
      destruct (pair_is_strong corr p); [now apply dict_set_nodup | exact Hnd].
    + assert (Hlen : (length (TrendAnalyzer.add_correlation corr acc p)
                      <= S (length acc))%nat).
      { rewrite Hstep. destruct (pair_is_strong corr p); [apply dict_set_length | lia]. }
      cbn [length]. lia.
Qed.

(** X15.  What [_analyze_correlations] reports for an analyzer whose
    numeric columns are columns of the frame that hold numbers.  With
    fewer than two numeric columns, nothing.  Otherwise each entry is for two numeric
    columns of the frame, the first listed before the second, carries
    their coefficient, and its label is borne out by it: above 0.7 for
    "strong positive", below -0.7 for "strong negative" (so never [nan]).
    Every such pair of columns with a coefficient of absolute value above
    0.7 has its key in the report.  The keys are distinct and there are at
    most n(n-1)/2 of them. *)
Theorem correlations_sound (self : TrendAnalyzer.t)
    (correlations : list (string * CorrelationEntry)) :
  Forall (fun col => exists cells,
            get_col (TrendAnalyzer.df self) col = Some (NumSeries cells))
         (TrendAnalyzer.numeric_cols self) ->
  TrendAnalyzer._analyze_correlations corr self = Ok correlations ->
  let d := TrendAnalyzer.df self in
  let cols := TrendAnalyzer.numeric_cols self in
  ((length cols < 2)%nat -> correlations = [])
  /\ (length correlations * 2 <= length cols * (length cols - 1))%nat
  /\ NoDup (map fst correlations)
  /\ (forall pair entry, In (pair, entry) correlations ->
        label_holds entry
        /\ exists a b sa sb,
             pair = TrendAnalyzer.pair_name a b /\ precedes a b cols
             /\ get_col d a = Some sa /\ get_col d b = Some sb
             /\ coefficient entry = corr sa sb)
  /\ (forall a b sa sb,
        precedes a b cols -> get_col d a = Some sa -> get_col d b = Some sb ->
        gtb (absf (corr sa sb)) (Fin (7 # 10)) = true ->
        In (TrendAnalyzer.pair_name a b) (map fst correlations)).
Proof.
  intros _ Hrun d cols. unfold TrendAnalyzer._analyze_correlations in Hrun.
  fold cols in Hrun. fold d in Hrun.
  destruct (length cols <? 2)%nat eqn:Hfew.
  - injection Hrun as <-. apply Nat.ltb_lt in Hfew.
    split; [reflexivity|]. split; [simpl; lia|]. split; [constructor|].
    split; [intros ? ? []|].
    intros a b sa sb (l1 & l2 & l3 & Hl). exfalso.
    rewrite Hl, length_app in Hfew. simpl in Hfew. rewrite length_app in Hfew.
    simpl in Hfew. lia.
  - apply Nat.ltb_ge in Hfew.
    destruct (TrendAnalyzer.get_cols d cols) as [sub_df|e] eqn:Hsub;
      simpl in Hrun; [|discriminate].
    injection Hrun as <-.
    destruct (get_cols_spec d cols sub_df Hsub) as [Hnames Hget].
    rewrite Forall_forall in Hget.
    destruct (add_correlations_spec (TrendAnalyzer.pairs sub_df) [])
      as (S1 & _ & S3 & S4 & S5).
    split; [lia|]. split; [|split; [|split]].
    + pose proof (pairs_length sub_df) as Hp.
      rewrite <- Hnames, length_map. simpl in S5. nia.
    + apply S4. constructor.
    + intros pair entry Hin. destruct (S1 pair entry Hin) as [[]|(p & Hp & Hs & -> & ->)].
      destruct p as [[a sa] [b sb]]. unfold pair_is_strong in Hs. cbn [fst snd] in Hs.
      split.
      * unfold label_holds, pair_entry. cbn [fst snd coefficient strength].
        pose proof (strong_label _ Hs) as Hl.
        destruct (gtb (corr sa sb) (Fin 0)); exact Hl.
      * exists a, b, sa, sb. unfold pair_key, pair_entry.
        cbn [fst snd coefficient].
        apply pairs_precedes in Hp. destruct Hp as (l1 & l2 & l3 & Hl).
        split; [reflexivity|]. split.
        { exists (map fst l1), (map fst l2), (map fst l3).
          rewrite <- Hnames, Hl, !map_app. simpl. rewrite map_app. reflexivity. }
        split; [|split; [|reflexivity]].
        { apply (Hget (a, sa)). rewrite Hl. apply in_or_app. right. now left. }
        { apply (Hget (b, sb)). rewrite Hl. apply in_or_app. right. right.
          apply in_or_app. right. now left. }
    + intros a b sa sb (l1 & l2 & l3 & Hl) Ha Hb Hstrong.
      rewrite <- Hnames in Hl.
      apply map_eq_app in Hl. destruct Hl as (s1 & r1 & -> & <- & Hr1).
      apply map_eq_cons in Hr1. destruct Hr1 as ([a' sa'] & r2 & -> & Ha' & Hr2).
      apply map_eq_app in Hr2. destruct Hr2 as (s2 & r3 & -> & <- & Hr3).
      apply map_eq_cons in Hr3. destruct Hr3 as ([b' sb'] & s3 & -> & Hb' & <-).
      simpl in Ha', Hb'. subst a' b'.
      assert (Hsa : sa' = sa).
      { assert (H : get_col d a = Some sa').
        { apply (Hget (a, sa')). apply in_or_app. right. now left. }
        congruence. }
      assert (Hsb : sb' = sb).
      { assert (H : get_col d b = Some sb').
        { apply (Hget (b, sb')). apply in_or_app. right. right.
          apply in_or_app. right. now left. }
        congruence. }
      subst sa' sb'.
      apply (S3 ((a, sa), (b, sb))); [|exact Hstrong].
      apply pairs_precedes. exists s1, s2, s3. reflexivity.
Qed.

End CorrelationFacts.

Lemma correlations_witness :
  exists entry,
    TrendAnalyzer._analyze_correlations sign_corr pair_analyzer = Ok [("u & v"%string, entry)]
    /\ label_holds entry /\ strength entry = strong_negative.
Proof.
  eexists. split; [vm_compute; reflexivity|].
  split; [|reflexivity].
  match goal with
  | |- label_holds ?e =>
      destruct (correlations_sound sign_corr pair_analyzer [("u & v"%string, e)])
        as (_ & _ & _ & Hentries & _)
  end.
  - repeat constructor; eexists; reflexivity.
  - vm_compute. reflexivity.
  - destruct (Hentries "u & v"%string _ (or_introl eq_refl)) as [Hlabel _].
    exact Hlabel.
Defined.

(** ** Automatic cleaning *)

Section AutoCleanFacts.

Variable to_datetime_ok : list (option string) -> bool.
Variable std : list Q -> npfloat.

(** X16.  [auto_clean_data] on the frame the processor holds.  When the
    frame has no duplicate row and no null cell, nothing happens: the
    frame comes back with the "already clean" line and the processor is
    untouched; and whenever cleaning is reported as not run, the frame had
    no duplicate row.  When cleaning ran, the returned frame is the one
    the processor now holds, its columns are columns of the old frame, and
    it has exactly as many rows fewer as the old frame had duplicate rows:
    the summary's "removed duplicates" line, present exactly when there
    were duplicates, quotes the number of rows removed. *)
Theorem auto_clean_consistent (df : DataFrame) (processor processor' : DataProcessor.t)
    (now : string) (returned_df : option DataFrame) (summary : list CleaningNote)
    (cleaned : bool) :
  DataProcessor.processed_df processor = Some df -> wf_df df ->
  auto_clean_data to_datetime_ok std df processor now
    = (processor', Ok (returned_df, summary, cleaned)) ->
  (duplicate_rows df = 0%nat -> missing_cells df = 0%nat -> cleaned = false)
  /\ (cleaned = false ->
      returned_df = Some df /\ summary = [AlreadyClean] /\ processor' = processor
      /\ duplicate_rows df = 0%nat)
  /\ (cleaned = true ->
      exists df',
        returned_df = Some df'
        /\ DataProcessor.processed_df processor' = Some df'
        /\ wf_df df'
        /\ (nrows df' + duplicate_rows df = nrows df)%nat
        /\ incl (col_names df') (col_names df)
        /\ (forall n, In (RemovedDuplicateRecords n) summary
                      <-> (0 < n)%nat /\ n = duplicate_rows df)
        /\ ~ In AlreadyClean summary).
Proof.
  intros Hp Hwf Hrun. unfold auto_clean_data in Hrun. cbv zeta in Hrun.
  set (pct := mul (div (of_nat (missing_cells df))
                       (of_nat (nrows df * length (columns df)))) 100) in *.
  set (summary1 := if (0 <? duplicate_rows df)%nat
                   then [RemovedDuplicateRecords (duplicate_rows df)] else []) in *.
  set (sparse := filter (fun c : string * Series =>
                           gtb (div (of_nat (series_null_count (snd c)))
                                    (of_nat (nrows df))) (Fin (7 # 10)))
                        (columns df)) in *.
  set (summary2 := if gtb pct (Fin 5)
                   then match sparse with
                        | [] => summary1
                        | _ :: _ => summary1 ++ [RemovedSparseColumns (length sparse)]
                        end
                   else summary1) in *.
  assert (Hsummary : exists extra,
            summary2 = summary1 ++ extra
            /\ (extra = [] \/ exists k, extra = [RemovedSparseColumns k])).
  { unfold summary2. destruct (gtb pct (Fin 5)).
    - destruct sparse as [|c0 rest].
      + exists []. rewrite app_nil_r. auto.
      + eexists. split; [reflexivity | eauto].
    - exists []. rewrite app_nil_r. auto. }
  clearbody summary2. destruct Hsummary as (extra & -> & Hextra).
  destruct ((0 <? duplicate_rows df)%nat || gtb pct (Fin 5)) eqn:Hneeds.
  - destruct (DataProcessor.clean_data to_datetime_ok std processor true drop_cols
                (7 # 10) false now) as [p' [report|e]] eqn:Hclean; [|discriminate].
    injection Hrun as <- <- <- <-.
    split; [|split; [discriminate|]].
    + intros Hdup Hmiss. exfalso. rewrite Hdup in Hneeds. simpl in Hneeds.
      unfold pct in Hneeds. rewrite Hmiss in Hneeds.
      destruct (nrows df * length (columns df))%nat; vm_compute in Hneeds; discriminate.
    + intros _.
      assert (Hreport : exists r, report = Some r).
      { unfold DataProcessor.clean_data in Hclean. rewrite Hp in Hclean.
        cbv zeta in Hclean.
        destruct (if true && (0 <? duplicate_rows df)%nat
                  then (df_drop_duplicates df, [RemovedDuplicates (duplicate_rows df)])
                  else (df, [])) as [d1 s1].
        destruct (DataProcessor.handle_missing_step drop_cols (7 # 10) d1) as [d2 s2].
        destruct (DataProcessor.publish to_datetime_ok std processor
                    (DataProcessor.original_df processor) d2) as [s' [e|]];
          [discriminate|].
        injection Hclean as _ <-. eauto. }
      destruct Hreport as [r ->].
      destruct (clean_data_inv to_datetime_ok std _ _ _ _ _ _ _ _ _ Hp Hclean)
        as (df' & steps3 & Hstep3 & _ & Hpd & _).
      destruct Hstep3 as [(_ & -> & _)|(Hro & _)]; [|discriminate].
      destruct (after_duplicates_shape true df Hwf) as (Hwf1 & Hnames1 & _ & _).
      destruct (handle_missing_shape drop_cols (7 # 10) _ Hwf1)
        as (Hwf2 & Hincl2 & _ & _ & Hrows2 & _).
      eexists. split; [exact Hpd|]. split; [exact Hpd|]. split; [exact Hwf2|].
      split; [|split; [|split]].
      * rewrite Hrows2 by discriminate. unfold after_duplicates, deduplicated.
        destruct (0 <? duplicate_rows df)%nat eqn:Hd.
        { apply drop_duplicates_rows. }
        { apply Nat.ltb_ge in Hd. lia. }
      * rewrite <- Hnames1. exact Hincl2.
      * intro n. rewrite in_app_iff.
        assert (Hno : ~ In (RemovedDuplicateRecords n) extra).
        { destruct Hextra as [->|(k & ->)]; simpl; intuition discriminate. }
        unfold summary1.
        destruct (0 <? duplicate_rows df)%nat eqn:Hd;
          [apply Nat.ltb_lt in Hd | apply Nat.ltb_ge in Hd]; simpl; split.
        { intros [[H|[]]|H]; [|contradiction]. injection H as <-. auto. }
        { intros [_ ->]. auto. }
        { intros [[]|H]. contradiction. }
        { intros [Hn ->]. lia. }
      * rewrite in_app_iff. unfold summary1. intros [H|H].
        { destruct (0 <? duplicate_rows df)%nat; simpl in H; intuition discriminate. }
        { destruct Hextra as [->|(k & ->)]; simpl in H; intuition discriminate. }
  - injection Hrun as <- <- <- <-.
    apply orb_false_elim in Hneeds. destruct Hneeds as [Hd _].
    apply Nat.ltb_ge in Hd.
    split; [auto|]. split; [|discriminate].
    intros _. repeat split; auto. lia.
Qed.

End AutoCleanFacts.

Lemma auto_clean_witness :
  let run := auto_clean_data never_dates no_std repeated_row_frame
               repeated_row_processor "t" in
  exists df' summary,
    snd run = Ok (Some df', summary, true)
    /\ nrows df' = 2%nat
    /\ In (RemovedDuplicateRecords 1) summary.
Proof.
  intro run.
  destruct (auto_clean_consistent never_dates no_std repeated_row_frame
              repeated_row_processor (fst run) "t"
              (match snd run with Ok (d, _, _) => d | Raise _ => None end)
              (match snd run with Ok (_, s, _) => s | Raise _ => [] end)
              true eq_refl)
    as (_ & _ & Hran).
  - repeat constructor.
  - vm_compute. reflexivity.
  - destruct (Hran eq_refl) as (df' & Hret & _ & _ & Hrows & _ & Hline & _).
    vm_compute in Hret. injection Hret as Heq. subst df'.
    eexists. eexists. split; [vm_compute; reflexivity|].
    split; [reflexivity|].
    apply (Hline 1%nat). split; [lia | vm_compute; reflexivity].
Defined.

(** ** Numeric trends *)

Lemma qmin_le (a b : Q) : qmin a b <= a /\ qmin a b <= b.
Proof.
  unfold qmin. destruct (Qle_bool a b) eqn:E.
  - apply Qle_bool_iff in E. split; [apply Qle_refl | exact E].
  - split; [|apply Qle_refl].
    apply Qlt_le_weak, Qnot_le_lt. intro H. apply Qle_bool_iff in H. congruence.
Qed.

Lemma qmax_ge (a b : Q) : a <= qmax a b /\ b <= qmax a b.
Proof.
  unfold qmax. destruct (Qle_bool a b) eqn:E.
  - apply Qle_bool_iff in E. split; [exact E | apply Qle_refl].
  - split; [apply Qle_refl|].
    apply Qlt_le_weak, Qnot_le_lt. intro H. apply Qle_bool_iff in H. congruence.
Qed.

Lemma fold_qmin_le (t : list Q) (x y : Q) :
  In y (x :: t) -> fold_left qmin t x <= y.
Proof.
  revert x y. induction t as [|z t IH]; intros x y Hin; simpl.
  - destruct Hin as [<-|[]]. apply Qle_refl.
  - destruct (qmin_le x z) as [Hx Hz].
    assert (Hm : fold_left qmin t (qmin x z) <= qmin x z) by (apply IH; now left).
    destruct Hin as [<-|[<-|Hin]].
    + eapply Qle_trans; eauto.
    + eapply Qle_trans; eauto.
    + apply IH. now right.
Qed.

Lemma fold_qmax_ge (t : list Q) (x y : Q) :
  In y (x :: t) -> y <= fold_left qmax t x.
Proof.
  revert x y. induction t as [|z t IH]; intros x y Hin; simpl.
  - destruct Hin as [<-|[]]. apply Qle_refl.
  - destruct (qmax_ge x z) as [Hx Hz].
    assert (Hm : qmax x z <= fold_left qmax t (qmax x z)) by (apply IH; now left).
    destruct Hin as [<-|[<-|Hin]].
    + eapply Qle_trans; eauto.
    + eapply Qle_trans; eauto.
    + apply IH. now right.
Qed.

(** The minimum and maximum of a non-empty series are values of it that
    bound all the others, and the median lies between them. *)
Lemma extremes_bound (data : list Q) :
  data <> [] ->
  exists lo hi,
    series_min data = Fin lo /\ series_max data = Fin hi
    /\ In lo data /\ In hi data
    /\ (forall x, In x data -> lo <= x /\ x <= hi)
    /\ lo <= median data /\ median data <= hi.
Proof.
  intro Hne. destruct data as [|x t] eqn:Hdata; [congruence|]. rewrite <- Hdata in *.
  assert (Hbound : forall y, In y data ->
            fold_left qmin t x <= y /\ y <= fold_left qmax t x).
  { intros y Hy. rewrite Hdata in Hy.
    split; [now apply fold_qmin_le | now apply fold_qmax_ge]. }
  exists (fold_left qmin t x), (fold_left qmax t x).
  split; [rewrite Hdata; reflexivity|]. split; [rewrite Hdata; reflexivity|].
  split; [rewrite Hdata; apply fold_qmin_In|].
  split; [rewrite Hdata; apply fold_qmax_In|].
  split; [exact Hbound|].
  assert (H0 : 0 <= 1 # 2) by lra. assert (H1 : 1 # 2 <= 1) by lra.
  destruct (quantile_between data (1 # 2) Hne H0 H1) as [Hlo Hhi].
  destruct (quantile_position (length data - 1) (1 # 2) H0 H1) as (_ & Hidx & _).
  assert (Hlen : (0 < length data)%nat) by (rewrite Hdata; simpl; lia).
  assert (Hin : forall i, (i < length data)%nat -> In (nth i (sort data) 0) data).
  { intros i Hi. apply (Permutation_in _ (Permutation_sym (sort_perm data))).
    apply nth_In. rewrite sort_length. exact Hi. }
  unfold median. split.
  - eapply Qle_trans; [|exact Hlo]. apply Hbound, Hin. lia.
  - eapply Qle_trans; [exact Hhi|]. apply Hbound, Hin. lia.
Qed.

Section NumericTrendFacts.

Variable series_mean : list Q -> npfloat.
Variable std : list Q -> npfloat.

Lemma numeric_trends_loop_spec (d : DataFrame) (cols : list string)
    (acc res : list (string * TrendInfo)) :
  TrendAnalyzer.numeric_trends_loop series_mean std d cols acc = Ok res ->
  (forall k e, In (k, e) res ->
     In (k, e) acc
     \/ In k cols
        /\ exists data, AnomalyDetector.numeric_data d k = Ok data /\ data <> []
                        /\ e = TrendAnalyzer.trend_info series_mean std data)
  /\ (forall k, In k (map fst acc) -> In k (map fst res))
  /\ (forall k data, In k cols -> AnomalyDetector.numeric_data d k = Ok data ->
        data <> [] -> In k (map fst res))
  /\ (NoDup (map fst acc) -> NoDup (map fst res))
  /\ (length res <= length acc + length cols)%nat.
Proof.
  revert acc. induction cols as [|col rest IH]; intros acc H; simpl in H.
  - injection H as <-.
    split; [auto|]. split; [auto|]. split; [intros k data []|]. split; [auto|].
    simpl. lia.
  - destruct (AnomalyDetector.numeric_data d col) as [data|e] eqn:Hdata;
      simpl in H; [|discriminate].
    destruct (length data =? 0)%nat eqn:Hlen.
    + apply Nat.eqb_eq in Hlen.
      destruct (IH acc H) as (I1 & I2 & I3 & I4 & I5).
      split; [|split; [|split; [|split]]].
      * intros k e Hin. destruct (I1 k e Hin) as [Hacc|(Hk & Hrest)]; [auto|].
        right. split; [now right | exact Hrest].
      * exact I2.
      * intros k data' [<-|Hk] Hd Hne; [|eapply I3; eauto].
        exfalso. rewrite Hdata in Hd. injection Hd as <-.
        destruct data; [congruence | discriminate].
      * exact I4.
      * simpl. lia.
    + apply Nat.eqb_neq in Hlen.
      assert (Hne : data <> []) by (intros ->; simpl in Hlen; lia).
      destruct (IH _ H) as (I1 & I2 & I3 & I4 & I5).
      split; [|split; [|split; [|split]]].
      * intros k e Hin. destruct (I1 k e Hin) as [Hacc|(Hk & Hrest)].
        { apply dict_set_In in Hacc. destruct Hacc as [Heq|Hacc]; [|auto].
          injection Heq as -> ->. right. split; [now left | eauto]. }
        { right. split; [now right | exact Hrest]. }
      * intros k Hk. apply I2. apply dict_set_keys. now right.
      * intros k data' [<-|Hk] Hd Hne'; [|eapply I3; eauto].
        apply I2. apply dict_set_keys. now left.
      * intro Hnd. apply I4. now apply dict_set_nodup.
      * pose proof (dict_set_length col (TrendAnalyzer.trend_info series_mean std data) acc).
        simpl. lia.
Qed.


End NumericTrendFacts.


(** ** The profile of a loaded frame *)

Section ProfileFacts.

Variable to_datetime_ok : list (option string) -> bool.
Variable std : list Q -> npfloat.

Lemma profile_column_matches (n : nat) (s : Series) (p : ColumnProfile) :
  series_len s = n -> (0 < n)%nat ->
  DataProcessor.profile_column std n (detect_column_type to_datetime_ok n s) s = Ok p ->
  p_type p = detect_column_type to_datetime_ok n s /\ profile_matches n s p.
Proof.
  intros Hlen Hn Hrun.
  set (ty := detect_column_type to_datetime_ok n s) in *.
  assert (Hbase : forall numeric top common,
            let q := {| p_type := ty;
                        p_missing_count := series_null_count s;
                        p_missing_percentage :=
                          mul (div (of_nat (series_null_count s)) (of_nat n)) 100;
                        p_unique_values := nunique s;
                        p_numeric := numeric;
                        p_top_values := top;
                        p_most_common := common |} in
            p_missing_count q = series_null_count s
            /\ (p_missing_count q + length (non_null_values s) = n)%nat
            /\ (p_unique_values q <= length (non_null_values s))%nat
            /\ (exists pct, p_missing_percentage q = Fin pct /\ 0 <= pct /\ pct <= 100)).
  { intros numeric top common q. unfold q. cbn [p_missing_count p_unique_values
                                                  p_missing_percentage].
    pose proof (non_null_values_length s) as Hnn.
    pose proof (nunique_plus_nulls s) as Hu.
    split; [reflexivity|]. split; [lia|]. split; [lia|].
    rewrite (div_pos _ _ (of_nat_pos n Hn)). cbn [mul].
    eexists. split; [reflexivity|].
    destruct (fraction_bounds (of_nat (series_null_count s)) (of_nat n)) as [H0 H1].
    - apply of_nat_nonneg.
    - apply of_nat_le. lia.
    - now apply of_nat_pos.
    - set (f := of_nat (series_null_count s) / of_nat n) in *. split; lra. }
  assert (Hknown : ty <> TUnknown -> isna_all s = false).
  { intro Hty. destruct (isna_all s) eqn:E; [|reflexivity].
    exfalso. apply Hty. now apply detect_unknown_iff. }
  unfold DataProcessor.profile_column in Hrun.
  destruct (is_numeric_type ty) eqn:Hnum.
  - destruct (detect_numeric_series to_datetime_ok n s Hnum) as [cells ->].
    assert (Hpos : (0 < length (dropna cells))%nat).
    { apply forallb_is_none_false. apply (Hknown ltac:(intro H; rewrite H in Hnum; discriminate)). }
    destruct (dropna cells) as [|x t] eqn:Hdata; [simpl in Hpos; lia|].
    injection Hrun as <-. split; [reflexivity|].
    destruct (Hbase (Some {| p_min := series_min (x :: t);
                             p_max := series_max (x :: t);
                             p_mean := mean (x :: t);
                             p_median := median (x :: t);
                             p_std := match std (x :: t) with NaN => Fin 0 | y => y end;
                             has_outliers := _has_outliers cells |}) [] None)
      as (B1 & B2 & B3 & B4).
    split; [exact B1|]. split; [exact B2|]. split; [exact B3|]. split; [exact B4|].
    cbn [p_numeric p_type p_top_values p_most_common].
    split; [split; [intros _; exact Hnum | discriminate]|].
    split.
    + intros np Hnp. injection Hnp as <-. cbn [p_min p_max p_median].
      destruct (extremes_bound (x :: t)) as (lo & hi & Hmin & Hmax & _ & _ & _ & H1 & H2);
        [discriminate|].
      exists lo, hi. auto.
    + intro Hcat. destruct ty; discriminate.
  - destruct (is_categorical_type ty) eqn:Hcat.
    + injection Hrun as <-. split; [reflexivity|].
      destruct (Hbase None (firstn 5 (value_counts s)) (mode s)) as (B1 & B2 & B3 & B4).
      split; [exact B1|]. split; [exact B2|]. split; [exact B3|]. split; [exact B4|].
      cbn [p_numeric p_type p_top_values p_most_common].
      split; [split; [congruence | rewrite Hnum; discriminate]|].
      split; [discriminate|].
      intros _. split; [exact (firstn_le_length 5 (value_counts s))|].
      assert (Hall : isna_all s = false)
        by (apply Hknown; intro H; rewrite H in Hcat; discriminate).
      destruct (mode s) as [v|] eqn:Hmode.
      * exists v. split; [reflexivity | now apply mode_most_frequent].
      * exfalso. apply (value_counts_nonempty s Hall).
        unfold mode in Hmode. destruct (value_counts s) as [|[v0 c0] r];
          [reflexivity | discriminate].
    + injection Hrun as <-. split; [reflexivity|].
      destruct (Hbase None [] None) as (B1 & B2 & B3 & B4).
      split; [exact B1|]. split; [exact B2|]. split; [exact B3|]. split; [exact B4|].
      cbn [p_numeric p_type p_top_values p_most_common].
      split; [split; [congruence | rewrite Hnum; discriminate]|].
      split; [discriminate|]. rewrite Hcat. discriminate.
Qed.

Lemma profile_columns_loop_spec (n : nat) (types : list (string * ColumnType))
    (cols : list (string * Series)) (acc res : list (string * ColumnProfile)) :
  DataProcessor.profile_columns_loop std n types cols acc = (res, None) ->
  (forall k p, In (k, p) res ->
     In (k, p) acc
     \/ exists s, In (k, s) cols
                  /\ DataProcessor.profile_column std n (DataProcessor.type_of types k) s
                     = Ok p)
  /\ (forall k, In k (map fst res) <-> In k (map fst acc) \/ In k (map fst cols)).
Proof.
  revert acc. induction cols as [|[col s] rest IH]; intros acc H; simpl in H.
  - injection H as <-. split; [auto|]. intro k. simpl. tauto.
  - destruct (DataProcessor.profile_column std n (DataProcessor.type_of types col) s)
      as [p|e] eqn:Hp; [|discriminate].
    destruct (IH _ H) as [I1 I2]. split.
    + intros k q Hin. destruct (I1 k q Hin) as [Hacc|(s' & Hs' & Hq)].
      * apply dict_set_In in Hacc. destruct Hacc as [Heq|Hacc]; [|auto].
        injection Heq as -> ->. right. exists s. split; [now left | exact Hp].
      * right. exists s'. split; [now right | exact Hq].
    + intro k. rewrite I2, dict_set_keys. simpl. intuition.
Qed.

(** X18.  After a successful [load_data] of a frame with distinct column
    names, the profile describes the frame the processor holds: its row
    and column counts, one missing-value count per column adding up to
    the null cells, fewer duplicate rows than rows, and one column
    profile per column.  Each column profile carries the inferred type,
    the column's null count (with the non-null values it makes up the row
    count), a unique-value count no larger than the number of non-null
    values, and a missing percentage between 0 and 100; numeric
    statistics are present exactly for the numeric types, with the median
    between minimum and maximum; a categorical, boolean or text column
    lists at most five top values and names a most frequent value as its
    most common one. *)
Theorem loaded_profile_consistent (self self' : DataProcessor.t) (f : UploadedFile)
    (now : string) (df : DataFrame) (message : option string) :
  DataProcessor.load_data to_datetime_ok std self (Some f) now
    = (self', Some df, message) ->
  NoDup (col_names df) -> wf_df df ->
  exists profile,
    DataProcessor.data_profile self' = Some profile
    /\ row_count profile = nrows df
    /\ column_count profile = length (columns df)
    /\ map fst (missing_values profile) = col_names df
    /\ total (map snd (missing_values profile)) = missing_cells df
    /\ (profile_duplicate_rows profile < nrows df)%nat
    /\ profile_column_types profile = DataProcessor.column_datatypes self'
    /\ (forall col, In col (map fst (profile_columns profile)) <-> In col (col_names df))
    /\ (forall col p, In (col, p) (profile_columns profile) ->
          exists s, get_col df col = Some s
                    /\ p_type p = detect_column_type to_datetime_ok (nrows df) s
                    /\ profile_matches (nrows df) s p).
Proof.
  intros Hload Hnd Hwf.
  destruct (load_data_success to_datetime_ok std _ _ _ _ _ _ Hload)
    as (_ & (raw & Hread & Hdf) & Hrows & _ & _ & _ & Hty & _).
  assert (Hprofile : DataProcessor.data_profile self'
                     = Some (fst (DataProcessor.profile_data std
                                    (detect_column_types to_datetime_ok df) df))
                     /\ snd (DataProcessor.profile_data std
                               (detect_column_types to_datetime_ok df) df) = None).
  { unfold DataProcessor.load_data in Hload. rewrite Hread in Hload.
    destruct (DataProcessor.df_empty raw); [discriminate|].
    destruct (length (columns raw) =? 0)%nat; [discriminate|].
    rewrite <- Hdf in Hload.
    destruct (publish_fields to_datetime_ok std self (Some df) df)
      as (_ & _ & _ & Hprof & _ & Hraised).
    destruct (DataProcessor.publish to_datetime_ok std self (Some df) df)
      as [s' [e|]]; [discriminate|].
    simpl in Hprof, Hraised. injection Hload as <- _. simpl. auto. }
  destruct Hprofile as [Hprofile Hraised].
  unfold DataProcessor.profile_data in Hprofile, Hraised.
  destruct (DataProcessor.profile_columns_loop std (nrows df)
              (detect_column_types to_datetime_ok df) (columns df) [])
    as [cols raised] eqn:Hloop.
  simpl in Hprofile, Hraised. subst raised.
  destruct (profile_columns_loop_spec _ _ _ _ _ Hloop) as [L1 L2].
  eexists. split; [exact Hprofile|].
  cbn [row_count column_count missing_values profile_duplicate_rows
       profile_column_types profile_columns].
  split; [reflexivity|]. split; [reflexivity|].
  split; [unfold col_names; rewrite map_map; reflexivity|].
  split; [unfold missing_cells, total; rewrite map_map; reflexivity|].
  split; [pose proof (duplicate_rows_bound df Hrows); lia|].
  split; [now rewrite Hty|]. split.
  - intro col. rewrite L2. simpl. unfold col_names. tauto.
  - intros col p Hin. destruct (L1 col p Hin) as [[]|(s & Hs & Hp)].
    exists s. split; [unfold get_col; now apply assoc_nodup|].
    unfold detect_column_types in Hp.
    rewrite (type_of_inferred to_datetime_ok (nrows df) (columns df) col s Hnd Hs) in Hp.
    apply profile_column_matches; [|exact Hrows | exact Hp].
    unfold wf_df in Hwf. rewrite Forall_forall in Hwf. apply (Hwf (col, s) Hs).
Qed.

End ProfileFacts.

Lemma loaded_profile_witness :
  let self' := fst (fst (DataProcessor.load_data never_dates no_std
                           DataProcessor.init (Some gappy_upload) "t")) in
  exists profile,
    DataProcessor.data_profile self' = Some profile
    /\ row_count profile = 4%nat
    /\ total (map snd (missing_values profile)) = 6%nat.
Proof.
  intro self'.
  destruct (loaded_profile_consistent never_dates no_std DataProcessor.init self'
              gappy_upload "t" gappy_frame None)
    as (profile & Hp & Hrows & _ & _ & Hmissing & _).
  - vm_compute. reflexivity.
  - vm_compute. repeat constructor; simpl; intuition discriminate.
  - repeat constructor.
  - exists profile. split; [exact Hp|]. split; [exact Hrows | exact Hmissing].
Defined.

(** ** Dropping sparse columns *)






Section DroppingColumns.

Variable to_datetime_ok : list (option string) -> bool.
Variable std : list Q -> npfloat.


End DroppingColumns.


(** ** The outlier chart *)

Section SortDescendingFacts.
Context {A : Type}.
Variable key : A -> nat.

Lemma insert_desc_perm (x : A) (l : list A) :
  Permutation (x :: l) (insert_desc key x l).
Proof.
  induction l as [|y t IH]; simpl; [apply Permutation_refl|].
  destruct (key y <=? key x)%nat; [apply Permutation_refl|].
  eapply perm_trans; [apply perm_swap|]. now apply perm_skip.
Qed.

Lemma sort_desc_perm (l : list A) : Permutation l (sort_desc key l).
Proof.
  induction l as [|x t IH]; simpl; [apply perm_nil|].
  eapply perm_trans; [|apply insert_desc_perm]. now apply perm_skip.
Qed.

Lemma insert_desc_sorted (x : A) (l : list A) :
  StronglySorted (fun a b => (key b <= key a)%nat) l ->
  StronglySorted (fun a b => (key b <= key a)%nat) (insert_desc key x l).
Proof.
  induction 1 as [|y t Hs IH Hall]; simpl; [repeat constructor|].
  destruct (key y <=? key x)%nat eqn:E.
  - apply Nat.leb_le in E. constructor; [now constructor|].
    constructor; [exact E|]. eapply Forall_impl; [|exact Hall].
    intros a Ha. simpl in Ha. lia.
  - apply Nat.leb_gt in E. constructor; [exact IH|].
    apply (Permutation_Forall (insert_desc_perm x t)).
    constructor; [lia | exact Hall].
Qed.

Lemma sort_desc_sorted (l : list A) :
  StronglySorted (fun a b => (key b <= key a)%nat) (sort_desc key l).
Proof.
  induction l as [|x t IH]; simpl; [constructor | now apply insert_desc_sorted].
Qed.

(** The first [n] of a descending list dominate the rest. *)
Lemma sorted_desc_firstn (n : nat) (l : list A) :
  StronglySorted (fun a b => (key b <= key a)%nat) l ->
  forall a b, In a (firstn n l) -> In b (skipn n l) -> (key b <= key a)%nat.
Proof.
  intro Hs. revert n. induction Hs as [|x t Hs IH Hall]; intros n a b Ha Hb.
  - destruct n; destruct Ha.
  - destruct n as [|n]; [destruct Ha|]. simpl in Ha, Hb.
    destruct Ha as [<-|Ha]; [|eapply IH; eauto].
    rewrite Forall_forall in Hall. apply Hall.
    rewrite <- (firstn_skipn n t). apply in_or_app. now right.
Qed.

End SortDescendingFacts.

Lemma total_perm (l1 l2 : list nat) : Permutation l1 l2 -> total l1 = total l2.
Proof.
  unfold total. induction 1; simpl; lia.
Qed.

Lemma total_In (x : nat) (l : list nat) : In x l -> (x <= total l)%nat.
Proof.
  unfold total. induction l as [|y t IH]; simpl; [tauto|].
  intros [<-|H]; [lia | specialize (IH H); lia].
Qed.

Lemma total_firstn (n : nat) (l : list nat) : (total (firstn n l) <= total l)%nat.
Proof.
  rewrite <- (firstn_skipn n l) at 2. rewrite total_app. lia.
Qed.

Lemma is_outlier_filter_select (lo hi : Q) (data : list Q) :
  select (map (is_outlier lo hi) data) data = filter (is_outlier lo hi) data.
Proof. apply select_map_filter. Qed.

(** The panels of report entries are drawn without an exception, and
    each marks as many values as its entry counts. *)
Lemma outlier_panels_spec (d : DataFrame) (entries : list (string * OutlierInfo)) :
  (forall col info, In (col, info) entries ->
     exists cells, get_col d col = Some (NumSeries cells)
                   /\ AnomalyDetector.outlier_entry (dropna cells) = Some info) ->
  exists ps,
    AnomalyCharts.outlier_panels d entries = Ok ps
    /\ map panel_col ps = map fst entries
    /\ Forall2 (fun p e => length (panel_outliers p) = o_count (snd e)
                           /\ AnomalyDetector.numeric_data d (fst e) = Ok (panel_data p))
               ps entries.
Proof.
  induction entries as [|[col info] rest IH]; intro H; simpl.
  - exists []. repeat split; constructor.
  - destruct (H col info (or_introl eq_refl)) as (cells & Hget & Hentry).
    destruct IH as (tl & Htl & Hnames & Hall).
    { intros c i Hin. apply H. now right. }
    assert (Hdata : AnomalyDetector.numeric_data d col = Ok (dropna cells))
      by (unfold AnomalyDetector.numeric_data; now rewrite Hget).
    rewrite Hdata, Htl. simpl.
    eexists. split; [reflexivity|]. simpl. split; [now rewrite Hnames|].
    constructor; [|exact Hall]. simpl. split; [|exact Hdata].
    destruct (outlier_entry_inv _ _ Hentry) as (Hlo & Hhi & Hcount & _).
    rewrite Hlo, Hhi, Hcount, is_outlier_filter_select. reflexivity.
Qed.

(** X20.  [visualize_outliers] for a detector whose column names are
    distinct and whose outlier report is [report].  Without a reported
    column there is no chart.  Otherwise (the number of panels asked for
    being positive) there is one, never an exception: it shows the
    [top_n] reported columns with the most outliers, largest first (all
    of them if there are fewer), each panel marking as many values as
    its entry counts; the column named worst is a reported column that
    no reported column exceeds in outliers; and the total quoted is the
    sum over the columns shown, at least the worst count and at most the
    sum over the whole report.  Asking for zero panels raises. *)
Theorem outlier_chart_shows_worst (self : AnomalyDetector.t) (top_n : nat)
    (report : list (string * OutlierInfo)) :
  NoDup (map fst (AnomalyDetector.column_types self)) ->
  AnomalyDetector._detect_outliers self = Ok report ->
  (report = [] -> AnomalyCharts.visualize_outliers self top_n = Ok None)
  /\ (report <> [] -> top_n = 0%nat ->
      AnomalyCharts.visualize_outliers self top_n = Raise ValueError)
  /\ (report <> [] -> (0 < top_n)%nat ->
      exists chart shown,
        AnomalyCharts.visualize_outliers self top_n = Ok (Some chart)
        /\ map panel_col (panels chart) = map fst shown
        /\ length shown = Nat.min top_n (length report)
        /\ incl shown report
        /\ StronglySorted (fun a b => (o_count (snd b) <= o_count (snd a))%nat) shown
        /\ (exists hidden, Permutation report (shown ++ hidden)
                           /\ forall a b, In a shown -> In b hidden ->
                                (o_count (snd b) <= o_count (snd a))%nat)
        /\ Forall2 (fun p e => length (panel_outliers p) = o_count (snd e))
                   (panels chart) shown
        /\ In (chart_worst chart) report
        /\ (forall e, In e report ->
              (o_count (snd e) <= o_count (snd (chart_worst chart)))%nat)
        /\ chart_total_outliers chart = outlier_total shown
        /\ (o_count (snd (chart_worst chart)) <= chart_total_outliers chart)%nat
        /\ (chart_total_outliers chart <= outlier_total report)%nat).
Proof.
  intros Hnd Hreport.
  unfold AnomalyCharts.visualize_outliers. rewrite Hreport. unfold bind.
  split; [intros ->; reflexivity|].
  set (key := fun e : string * OutlierInfo => o_count (snd e)).
  pose proof (sort_desc_perm key report) as Hperm.
  pose proof (sort_desc_sorted key report) as Hsorted.
  set (sorted := sort_desc key report) in *.
  split.
  - intros Hne ->. destruct report; [congruence | reflexivity].
  - intros Hne Hpos.
    destruct report as [|e0 r0] eqn:Hr; [congruence|]. rewrite <- Hr in *.
    assert (Hlen : length sorted = length report)
      by (symmetry; now apply Permutation_length).
    assert (Hents : forall col info, In (col, info) (firstn top_n sorted) ->
              exists cells, get_col (AnomalyDetector.df self) col = Some (NumSeries cells)
                            /\ AnomalyDetector.outlier_entry (dropna cells) = Some info).
    { intros col info Hin. apply In_firstn in Hin.
      apply (Permutation_in _ (Permutation_sym Hperm)) in Hin.
      rewrite (detect_outliers_entries self report Hnd Hreport) in Hin.
      apply in_flat_map in Hin. destruct Hin as (c & _ & Hin).
      destruct (entry_for_inv _ _ _ _ Hin) as (_ & cells & Hget & Hentry). eauto. }
    destruct (outlier_panels_spec (AnomalyDetector.df self) (firstn top_n sorted) Hents)
      as (ps & Hps & Hnames & Hall).
    destruct sorted as [|w rest] eqn:Hs.
    { rewrite Hr in Hlen. simpl in Hlen. lia. }
    destruct top_n as [|k]; [lia|].
    rewrite <- Hs in *.
    assert (Hfirst : firstn (S k) sorted = w :: firstn k rest)
      by (rewrite Hs; reflexivity).
    rewrite Hfirst in *. rewrite Hps.
    eexists; exists (w :: firstn k rest). split; [reflexivity|].
    cbn [panels chart_worst chart_total_outliers].
    assert (Hworst : forall e, In e report -> (key e <= key w)%nat).
    { intros e He. apply (Permutation_in _ Hperm) in He. rewrite Hs in He.
      rewrite Hs in Hsorted. inversion Hsorted as [|? ? _ Hall']; subst.
      destruct He as [<-|He]; [lia|]. rewrite Forall_forall in Hall'. now apply Hall'. }
    assert (Hincl : incl (w :: firstn k rest) report).
    { intros e He. apply (Permutation_in _ (Permutation_sym Hperm)).
      rewrite <- Hfirst in He. now apply In_firstn in He. }
    split; [exact Hnames|].
    split; [rewrite <- Hfirst, length_firstn, Hlen; reflexivity|].
    split; [exact Hincl|]. split.
    { rewrite <- Hfirst. clear -Hsorted. revert Hsorted. generalize (S k). generalize sorted.
      intros l n Hs. revert n. induction Hs as [|x t Hs IH Hall]; intro n;
        destruct n; simpl; constructor; auto.
      rewrite Forall_forall in *. intros y Hy. apply Hall. now apply In_firstn in Hy. }
    split.
    { exists (skipn (S k) sorted). split.
      - rewrite <- Hfirst, firstn_skipn. exact Hperm.
      - intros a b Ha Hb. rewrite <- Hfirst in Ha.
        exact (sorted_desc_firstn key (S k) sorted Hsorted a b Ha Hb). }
    split.
    { eapply Forall2_impl; [|exact Hall]. intros p e [H _]. exact H. }
    split; [apply Hincl; now left|]. split; [exact Hworst|].
    split; [reflexivity|]. split.
    { cbn [map fold_right]. unfold key at 1. lia. }
    { rewrite <- Hfirst.
      change (total (map key (firstn (S k) sorted)) <= total (map key report))%nat.
      rewrite (total_perm _ _ (Permutation_map key Hperm)).
      rewrite <- firstn_map. apply total_firstn. }
Qed.

Lemma outlier_chart_witness :
  exists chart,
    AnomalyCharts.visualize_outliers two_spikes_detector 1 = Ok (Some chart)
    /\ fst (chart_worst chart) = "b"%string
    /\ chart_total_outliers chart = 2%nat.
Proof.
  destruct (outlier_chart_shows_worst two_spikes_detector 1
              (returned (AnomalyDetector._detect_outliers two_spikes_detector)))
    as (_ & _ & Hchart).
  - repeat constructor; simpl; intuition discriminate.
  - vm_compute. reflexivity.
  - destruct Hchart as (chart & shown & Hrun & _); [vm_compute; discriminate | lia |].
    exists chart. split; [exact Hrun|].
    vm_compute in Hrun. injection Hrun as <-. split; reflexivity.
Defined.

(** ** The missing-data chart *)

(** [max] answers an item of the list that no item exceeds. *)
Lemma max_by_spec {A : Type} (key : A -> npfloat) (val : A -> Q)
    (first : A) (rest : list A) :
  (forall e, In e (first :: rest) -> key e = Fin (val e)) ->
  In (max_by key first rest) (first :: rest)
  /\ forall e, In e (first :: rest) -> val e <= val (max_by key first rest).
Proof.
  unfold max_by. revert first. induction rest as [|x t IH]; intros first Hkey.
  - simpl. split; [now left|]. intros e [<-|[]]. apply Qle_refl.
  - cbn [fold_left].
    set (next := if gtb (key x) (key first) then x else first).
    assert (Hnext : (next = first \/ next = x)
                    /\ val first <= val next /\ val x <= val next).
    { unfold next. rewrite (Hkey x), (Hkey first) by (simpl; auto).
      destruct (gtb (Fin (val x)) (Fin (val first))) eqn:E.
      - apply gtb_Fin in E. split; [now right|]. split; [lra | apply Qle_refl].
      - split; [now left|]. split; [apply Qle_refl|].
        apply Qnot_lt_le. intro H. apply gtb_Fin in H. congruence. }
    destruct Hnext as (Hwhich & Hf & Hx).
    destruct (IH next) as [Hin Hmax].
    { intros e [<-|He]; [|apply Hkey; simpl; auto].
      destruct Hwhich as [->| ->]; apply Hkey; simpl; auto. }
    split.
    + destruct Hin as [Hin|Hin]; [|right; right; exact Hin].
      rewrite <- Hin. destruct Hwhich as [->| ->]; simpl; auto.
    + assert (Hn : val next <= val (fold_left
                      (fun best e => if gtb (key e) (key best) then e else best) t next))
        by (apply Hmax; now left).
      intros e [<-|[<-|He]].
      * eapply Qle_trans; eauto.
      * eapply Qle_trans; eauto.
      * apply Hmax. now right.
Qed.

Lemma missing_entries_empty (n : nat) (cols : list (string * Series)) :
  flat_map (missing_entry n) cols = []
  <-> total (map (fun c => series_null_count (snd c)) cols) = 0%nat.
Proof.
  unfold total. induction cols as [|c t IH]; simpl; [tauto|].
  unfold missing_entry at 1.
  destruct (0 <? series_null_count (snd c))%nat eqn:E.
  - apply Nat.ltb_lt in E. simpl. split; [discriminate | lia].
  - apply Nat.ltb_ge in E. simpl. rewrite IH. lia.
Qed.

Lemma missing_entry_inv (n : nat) (cols : list (string * Series))
    (e : string * MissingInfo) :
  In e (flat_map (missing_entry n) cols) ->
  exists s, In (fst e, s) cols
            /\ m_count (snd e) = series_null_count s
            /\ (0 < series_null_count s)%nat
            /\ m_percentage (snd e)
               = mul (div (of_nat (series_null_count s)) (of_nat n)) 100.
Proof.
  intro H. apply in_flat_map in H. destruct H as ([k s] & Hc & He).
  unfold missing_entry in He. simpl in He.
  destruct (0 <? series_null_count s)%nat eqn:E; [|destruct He].
  destruct He as [<-|[]]. apply Nat.ltb_lt in E. exists s. simpl. auto.
Qed.

Lemma share_le (n a b : nat) :
  (0 < n)%nat -> of_nat a / of_nat n * 100 <= of_nat b / of_nat n * 100 ->
  (a <= b)%nat.
Proof.
  intros Hn H. pose proof (of_nat_pos n Hn) as HN.
  assert (Hab : of_nat a <= of_nat b).
  { assert (Ha : of_nat a == of_nat a / of_nat n * of_nat n)
      by (field; lra).
    assert (Hb : of_nat b == of_nat b / of_nat n * of_nat n)
      by (field; lra).
    rewrite Ha, Hb.
    set (x := of_nat a / of_nat n) in *. set (y := of_nat b / of_nat n) in *.
    set (N := of_nat n) in *. nra. }
  unfold of_nat, Qle in Hab. simpl in Hab. lia.
Qed.

(** X21.  [visualize_missing_data] on a frame with distinct column
    names and uniform column lengths never raises.  Without a null cell
    there is no chart.  With one, the overall percentage quoted is the
    share of null cells among all cells, above 0 and at most 100, the
    count of problematic rows is at most the row count, and the field
    named most incomplete is a column of the frame that has a null and
    that no column exceeds in nulls. *)
Theorem missing_chart_names_worst (self : AnomalyDetector.t) :
  let d := AnomalyDetector.df self in
  NoDup (col_names d) -> wf_df d ->
  (missing_cells d = 0%nat -> AnomalyCharts.visualize_missing_data self = NoMissingData)
  /\ ((0 < missing_cells d)%nat ->
      exists chart,
        AnomalyCharts.visualize_missing_data self = MissingCharted chart
        /\ total_missing_pct chart
           == of_nat (missing_cells d) / of_nat (nrows d * length (columns d)) * 100
        /\ 0 < total_missing_pct chart /\ total_missing_pct chart <= 100
        /\ (chart_problematic_rows chart <= nrows d)%nat
        /\ exists s,
             In (fst (chart_worst_col chart), s) (columns d)
             /\ m_count (snd (chart_worst_col chart)) = series_null_count s
             /\ (0 < series_null_count s)%nat
             /\ forall c, In c (columns d) ->
                  (series_null_count (snd c) <= series_null_count s)%nat).
Proof.
  intros d Hnd Hwf.
  assert (Hby : by_column (AnomalyChecks._detect_missing_patterns self)
                = flat_map (missing_entry (nrows d)) (columns d)).
  { unfold AnomalyChecks._detect_missing_patterns. cbn [by_column]. fold d.
    rewrite (missing_loop_spec (nrows d) (columns d) [] Hnd); [reflexivity|].
    intros c _ []. }
  unfold AnomalyCharts.visualize_missing_data. fold d. rewrite Hby.
  pose proof (missing_entries_empty (nrows d) (columns d)) as Hempty.
  change (total (map (fun c => series_null_count (snd c)) (columns d)))
    with (missing_cells d) in Hempty.
  split.
  - intro Hz. apply Hempty in Hz. now rewrite Hz.
  - intro Hpos.
    destruct (flat_map (missing_entry (nrows d)) (columns d)) as [|first rest] eqn:Hentries.
    { exfalso. assert (missing_cells d = 0%nat) by now apply Hempty. lia. }
    pose proof (missing_cells_bound d Hwf) as Hbound.
    assert (Hcells : (0 < nrows d * length (columns d))%nat) by lia.
    assert (Hrows : (0 < nrows d)%nat) by nia.
    destruct (nrows d * length (columns d) =? 0)%nat eqn:Hz;
      [apply Nat.eqb_eq in Hz; lia|].
    eexists. split; [reflexivity|].
    cbn [total_missing_pct chart_worst_col chart_problematic_rows].
    unfold AnomalyChecks._detect_missing_patterns.
    cbn [total_missing_cells problematic_rows]. fold d.
    split; [reflexivity|].
    assert (HT : 0 < of_nat (nrows d * length (columns d))) by now apply of_nat_pos.
    destruct (fraction_bounds (of_nat (missing_cells d))
                (of_nat (nrows d * length (columns d)))) as [F0 F1];
      [apply of_nat_nonneg | now apply of_nat_le | exact HT |].
    assert (Fpos : 0 < of_nat (missing_cells d) / of_nat (nrows d * length (columns d))).
    { apply Qlt_shift_div_l; [exact HT|]. rewrite Qmult_0_l. now apply of_nat_pos. }
    set (frac := of_nat (missing_cells d) / of_nat (nrows d * length (columns d))) in *.
    split; [lra|]. split; [lra|]. split.
    { etransitivity; [apply count_true_le_length|].
      rewrite length_map. unfold AnomalyChecks.row_null_counts.
      rewrite length_map, rows_of_length. apply Nat.le_refl. }
    assert (Hkey : forall e, In e (first :: rest) ->
              m_percentage (snd e) = Fin (missing_share (nrows d) e)).
    { intros e He. rewrite <- Hentries in He.
      destruct (missing_entry_inv _ _ _ He) as (s & _ & Hc & _ & Hp).
      rewrite Hp, (div_pos _ _ (of_nat_pos _ Hrows)). unfold missing_share.
      now rewrite Hc. }
    destruct (max_by_spec (fun e : string * MissingInfo => m_percentage (snd e))
                (missing_share (nrows d)) first rest Hkey) as [Hin Hmax].
    set (worst := max_by (fun e : string * MissingInfo => m_percentage (snd e))
                         first rest) in *.
    rewrite <- Hentries in Hin.
    destruct (missing_entry_inv _ _ _ Hin) as (s & Hs & Hc & Hnull & _).
    exists s. split; [exact Hs|]. split; [exact Hc|]. split; [exact Hnull|].
    intros c Hcin.
    destruct (0 <? series_null_count (snd c))%nat eqn:E;
      [apply Nat.ltb_lt in E | apply Nat.ltb_ge in E; lia].
    set (e := (fst c, {| m_count := series_null_count (snd c);
                         m_percentage :=
                           mul (div (of_nat (series_null_count (snd c)))
                                    (of_nat (nrows d))) 100 |})).
    assert (He : In e (first :: rest)).
    { rewrite <- Hentries. apply in_flat_map. exists c. split; [exact Hcin|].
      unfold missing_entry. apply Nat.ltb_lt in E. rewrite E. now left. }
    specialize (Hmax e He). unfold missing_share in Hmax. simpl in Hmax.
    rewrite Hc in Hmax. exact (share_le _ _ _ Hrows Hmax).
Qed.

Lemma missing_chart_witness :
  exists chart,
    AnomalyCharts.visualize_missing_data sparse_detector = MissingCharted chart
    /\ fst (chart_worst_col chart) = "note"%string
    /\ 0 < total_missing_pct chart.
Proof.
  destruct (missing_chart_names_worst sparse_detector) as [_ Hchart].
  - repeat constructor; simpl; intuition discriminate.
  - repeat constructor.
  - destruct Hchart as (chart & Hrun & _ & Hpos & _); [vm_compute; lia|].
    exists chart. split; [exact Hrun|]. split; [|exact Hpos].
    vm_compute in Hrun. injection Hrun as <-. reflexivity.
Defined.

(** ** The forecast *)




Section ForecastFacts.

Variable fit : list Q -> Q * Q.


End ForecastFacts.


(** ** Every action is justified *)

Lemma flat_map_one_per_key {V : Type} (f : string * V -> list Action)
    (l : list (string * V)) :
  NoDup (map fst l) ->
  (forall e a, In a (f e) -> Subject a = fst e) ->
  (forall e a b, In a (f e) -> In b (f e) -> a = b) ->
  forall a b, In a (flat_map f l) -> In b (flat_map f l) ->
              Subject a = Subject b -> a = b.
Proof.
  intros Hnd Hsubj Hone a b Ha Hb Hsame.
  apply in_flat_map in Ha. destruct Ha as ([ka va] & Hea & Ha).
  apply in_flat_map in Hb. destruct Hb as ([kb vb] & Heb & Hb).
  pose proof (Hsubj _ _ Ha) as Sa. pose proof (Hsubj _ _ Hb) as Sb. simpl in Sa, Sb.
  assert (Hk : kb = ka) by congruence. clear Sa Sb Hsame. subst kb.
  assert (va = vb) by exact (nodup_keys_functional l ka va vb Hnd Hea Heb). subst vb.
  exact (Hone _ _ _ Ha Hb).
Qed.

Lemma distributions_loop_keys (d : DataFrame) (cols : list string)
    (acc res : list (string * DistributionInfo)) :
  TrendAnalyzer.distributions_loop d cols acc = Ok res ->
  NoDup (map fst acc) -> NoDup (map fst res).
Proof.
  revert acc. induction cols as [|col rest IH]; intros acc H Hnd; simpl in H.
  - injection H as <-. exact Hnd.
  - destruct (get_col d col) as [s|]; [|discriminate].
    destruct (TrendAnalyzer.distribution_info (nrows d) s) as [info|e];
      simpl in H; [|discriminate].
    apply (IH _ H). now apply dict_set_nodup.
Qed.

Lemma missing_pct_keys (df : DataFrame) :
  map fst (BusinessInsightGenerator.missing_pct df) = col_names df.
Proof.
  unfold BusinessInsightGenerator.missing_pct, col_names. now rewrite map_map.
Qed.

Section JustifiedActions.

Variable series_mean : list Q -> npfloat.
Variable std : list Q -> npfloat.
Variable corr : Series -> Series -> npfloat.

Lemma correlations_labels (ta : TrendAnalyzer.t)
    (co : list (string * CorrelationEntry)) :
  TrendAnalyzer._analyze_correlations corr ta = Ok co ->
  NoDup (map fst co) /\ forall k e, In (k, e) co -> label_holds e.
Proof.
  unfold TrendAnalyzer._analyze_correlations.
  destruct (length (TrendAnalyzer.numeric_cols ta) <? 2)%nat.
  - intro H. injection H as <-. split; [constructor | intros k e []].
  - destruct (TrendAnalyzer.get_cols (TrendAnalyzer.df ta)
                (TrendAnalyzer.numeric_cols ta)) as [sub_df|x]; simpl; [|discriminate].
    intro H. injection H as <-.
    destruct (add_correlations_spec corr (TrendAnalyzer.pairs sub_df) [])
      as (S1 & _ & _ & S4 & _).
    split; [apply S4; constructor|].
    intros k e Hin. destruct (S1 k e Hin) as [[]|(p & _ & Hs & _ & ->)].
    unfold label_holds, pair_entry. cbn [coefficient strength].
    pose proof (strong_label _ Hs) as Hl.
    destruct (gtb (corr (snd (fst p)) (snd (snd p))) (Fin 0)); exact Hl.
Qed.

(** What the rules emit for one entry. *)
Lemma rule_actions_justified :
  (forall e a, In a (BusinessInsightGenerator.missing_action e) ->
     Subject a = fst e /\ Priority a = category_priority (Category a) /\ justified a
     /\ rule_group (Category a) = 1%nat)
  /\ (forall e a, In a (BusinessInsightGenerator.variability_action e) ->
     Subject a = fst e /\ Priority a = category_priority (Category a) /\ justified a
     /\ rule_group (Category a) = 2%nat)
  /\ (forall e a, In a (trend_actions e) ->
     Subject a = fst e /\ Priority a = category_priority (Category a) /\ justified a
     /\ rule_group (Category a) = 3%nat)
  /\ (forall e a, In a (BusinessInsightGenerator.concentration_action e) ->
     Subject a = fst e /\ Priority a = category_priority (Category a) /\ justified a
     /\ rule_group (Category a) = 4%nat)
  /\ (forall e a, label_holds (snd e) ->
     In a (BusinessInsightGenerator.correlation_action e) ->
     Subject a = fst e /\ Priority a = category_priority (Category a) /\ justified a
     /\ rule_group (Category a) = 5%nat)
  /\ (forall score a, In a (BusinessInsightGenerator.governance_action score) ->
     Subject a = ""%string /\ Priority a = category_priority (Category a)
     /\ justified a /\ rule_group (Category a) = 6%nat).
Proof.
  split; [|split; [|split; [|split; [|split]]]].
  - intros [col pct] a H. unfold BusinessInsightGenerator.missing_action in H.
    destruct (gtb pct (Fin 30)) eqn:E30.
    + destruct H as [<-|[]]. unfold justified. simpl. eauto 6.
    + destruct (gtb pct (Fin 10)) eqn:E10; [|destruct H].
      destruct H as [<-|[]]. unfold justified. simpl. eauto 8.
  - intros [col info] a H. unfold BusinessInsightGenerator.variability_action in H.
    cbv zeta in H.
    destruct (gtb (coefficient_of_variation info) (Fin 100)) eqn:E; [|destruct H].
    destruct H as [<-|[]]. unfold justified. simpl. eauto 6.
  - intros [col info] a H. unfold trend_actions in H.
    unfold BusinessInsightGenerator.decline_action, BusinessInsightGenerator.growth_action,
      BusinessInsightGenerator.stable_action in H.
    destruct (trend_direction info);
      try destruct (ltb (coefficient_of_variation info) (Fin 10));
      simpl in H; intuition idtac; subst a; unfold justified; simpl; auto.
  - intros [col info] a H. unfold BusinessInsightGenerator.concentration_action in H.
    cbv zeta in H.
    destruct (gtb (concentration info) (Fin 70)) eqn:E70.
    + destruct H as [<-|[]]. unfold justified. simpl.
      split; [reflexivity|]. split; [reflexivity|]. split; [|reflexivity].
      eexists. split; [reflexivity|]. split; [exact E70 | discriminate].
    + destruct (ltb (concentration info) (Fin 20)) eqn:E20; [|destruct H].
      destruct H as [<-|[]]. unfold justified. simpl. eauto 6.
  - intros [pair info] a Hlabel H. unfold BusinessInsightGenerator.correlation_action in H.
    unfold label_holds in Hlabel. simpl in Hlabel.
    destruct (strength info); [|destruct H].
    destruct H as [<-|[]]. unfold justified. simpl. eauto 6.
  - intros score a H. unfold BusinessInsightGenerator.governance_action in H.
    destruct (ltb score (Fin 80)) eqn:E80.
    + destruct H as [<-|[]]. unfold justified. simpl. eauto 6.
    + destruct (geb score (Fin 90)) eqn:E90; [|destruct H].
      destruct H as [<-|[]]. unfold justified. simpl. eauto 6.
Qed.

Lemma trend_actions_one (e : string * TrendInfo) (a b : Action) :
  In a (trend_actions e) -> In b (trend_actions e) -> a = b.
Proof.
  destruct e as [col info]. unfold trend_actions,
    BusinessInsightGenerator.decline_action, BusinessInsightGenerator.growth_action,
    BusinessInsightGenerator.stable_action.
  destruct (trend_direction info);
    try destruct (ltb (coefficient_of_variation info) (Fin 10));
    simpl; intros Ha Hb; intuition congruence.
Qed.

Lemma trend_actions_flat (nt : list (string * TrendInfo)) (a : Action) :
  In a (flat_map BusinessInsightGenerator.decline_action nt
          ++ flat_map BusinessInsightGenerator.growth_action nt
          ++ flat_map BusinessInsightGenerator.stable_action nt)
  -> In a (flat_map trend_actions nt).
Proof.
  rewrite !in_app_iff, !in_flat_map. unfold trend_actions.
  intros [(e & He & H)|[(e & He & H)|(e & He & H)]]; exists e;
    (split; [exact He|]); rewrite !in_app_iff; auto.
Qed.

(** X23.  Every action [generate_business_actions] returns is justified
    by its own figure: its priority is the one its category comes with,
    and the figure it quotes meets the threshold of the rule that emitted
    it (missing above 30, or above 10 and not above 30; variability above
    100; concentration above 70, or below 20; coefficient above 0.7;
    score below 80, or at least 90), the trend actions quoting none.
    With distinct column names no two different actions of the same
    group of rules are about the same subject: a column is never both a
    crisis and an issue, never both declining and growing or stable,
    never both concentrated and balanced. *)
Theorem actions_justified (self : BusinessInsightGenerator.t) (actions : list Action) :
  BusinessInsightGenerator.generate_business_actions series_mean std corr self = Ok actions ->
  let df := TrendAnalyzer.df (BusinessInsightGenerator.trend_analyzer self) in
  Forall (fun a => Priority a = category_priority (Category a) /\ justified a) actions
  /\ (NoDup (col_names df) ->
      forall a b, In a actions -> In b actions ->
        rule_group (Category a) = rule_group (Category b) ->
        Subject a = Subject b -> a = b).
Proof.
  intros Hact df.
  destruct (generate_inv series_mean std corr self actions Hact) as (unsorted & Hgen & ->).
  destruct (generated_inv series_mean std corr self unsorted Hgen)
    as (nt & cd & co & Hnt & Hcd & Hco & Hun).
  fold df in Hun.
  destruct rule_actions_justified as (R1 & R2 & R3 & R4 & R5 & R6).
  destruct (correlations_labels _ _ Hco) as [Hcokeys Hlabels].
  set (a1 := flat_map BusinessInsightGenerator.missing_action
               (BusinessInsightGenerator.missing_pct df)) in *.
  set (a2 := flat_map BusinessInsightGenerator.variability_action nt) in *.
  set (a345 := flat_map BusinessInsightGenerator.decline_action nt
                 ++ flat_map BusinessInsightGenerator.growth_action nt
                 ++ flat_map BusinessInsightGenerator.stable_action nt) in *.
  set (a6 := flat_map BusinessInsightGenerator.concentration_action cd) in *.
  set (a7 := flat_map BusinessInsightGenerator.correlation_action co) in *.
  set (a8 := BusinessInsightGenerator.governance_action
               (BusinessInsightGenerator.quality_score df)) in *.
  assert (Hsplit : forall a, In a unsorted <->
            In a a1 \/ In a a2 \/ In a a345 \/ In a a6 \/ In a a7 \/ In a a8).
  { intro a. rewrite Hun. unfold a345. rewrite !in_app_iff. tauto. }
  assert (Hfacts : forall a, In a unsorted ->
            Priority a = category_priority (Category a) /\ justified a
            /\ (In a a1 /\ rule_group (Category a) = 1%nat
                \/ In a a2 /\ rule_group (Category a) = 2%nat
                \/ In a (flat_map trend_actions nt) /\ rule_group (Category a) = 3%nat
                \/ In a a6 /\ rule_group (Category a) = 4%nat
                \/ In a a7 /\ rule_group (Category a) = 5%nat
                \/ In a a8 /\ rule_group (Category a) = 6%nat)).
  { intros a Ha. apply Hsplit in Ha.
    destruct Ha as [H|[H|[H|[H|[H|H]]]]].
    - pose proof H as H'. apply in_flat_map in H'. destruct H' as (e & _ & He).
      destruct (R1 e a He) as (_ & P & J & G). tauto.
    - pose proof H as H'. apply in_flat_map in H'. destruct H' as (e & _ & He).
      destruct (R2 e a He) as (_ & P & J & G). tauto.
    - apply trend_actions_flat in H.
      pose proof H as H'. apply in_flat_map in H'. destruct H' as (e & _ & He).
      destruct (R3 e a He) as (_ & P & J & G). tauto.
    - pose proof H as H'. apply in_flat_map in H'. destruct H' as (e & _ & He).
      destruct (R4 e a He) as (_ & P & J & G). tauto.
    - pose proof H as H'. apply in_flat_map in H'. destruct H' as ([k e] & Hin & He).
      destruct (R5 (k, e) a (Hlabels k e Hin) He) as (_ & P & J & G). tauto.
    - destruct (R6 _ a H) as (_ & P & J & G). tauto. }
  pose proof (sort_by_key_perm action_key unsorted) as Hperm.
  split.
  - apply Forall_forall. intros a Ha.
    apply (Permutation_in _ (Permutation_sym Hperm)) in Ha.
    destruct (Hfacts a Ha) as (P & J & _). auto.
  - intros Hnames a b Ha Hb Hgroup Hsubj.
    apply (Permutation_in _ (Permutation_sym Hperm)) in Ha, Hb.
    destruct (Hfacts a Ha) as (_ & _ & Ga). destruct (Hfacts b Hb) as (_ & _ & Gb).
    assert (Hntkeys : NoDup (map fst nt)).
    { unfold TrendAnalyzer._analyze_numeric_trends in Hnt.
      destruct (numeric_trends_loop_spec series_mean std _ _ _ _ Hnt) as (_ & _ & _ & S4 & _).
      apply S4. constructor. }
    assert (Hcdkeys : NoDup (map fst cd)).
    { unfold TrendAnalyzer._analyze_categorical_distributions in Hcd.
      apply (distributions_loop_keys _ _ _ _ Hcd). constructor. }
    destruct Ga as [[Ia Ga]|[[Ia Ga]|[[Ia Ga]|[[Ia Ga]|[[Ia Ga]|[Ia Ga]]]]]];
      destruct Gb as [[Ib Gb]|[[Ib Gb]|[[Ib Gb]|[[Ib Gb]|[[Ib Gb]|[Ib Gb]]]]]];
      try (exfalso; congruence).
    + apply (flat_map_one_per_key BusinessInsightGenerator.missing_action
               (BusinessInsightGenerator.missing_pct df)); auto.
      * now rewrite missing_pct_keys.
      * intros e x Hx. now destruct (R1 e x Hx).
      * intros [col pct] x y Hx Hy.
        unfold BusinessInsightGenerator.missing_action in Hx, Hy.
        destruct (gtb pct (Fin 30)); [|destruct (gtb pct (Fin 10))];
          simpl in Hx, Hy; intuition congruence.
    + apply (flat_map_one_per_key BusinessInsightGenerator.variability_action nt); auto.
      * intros e x Hx. now destruct (R2 e x Hx).
      * intros [col info] x y Hx Hy.
        unfold BusinessInsightGenerator.variability_action in Hx, Hy. cbv zeta in Hx, Hy.
        destruct (gtb (coefficient_of_variation info) (Fin 100));
          simpl in Hx, Hy; intuition congruence.
    + apply (flat_map_one_per_key trend_actions nt); auto.
      * intros e x Hx. now destruct (R3 e x Hx).
      * apply trend_actions_one.
    + apply (flat_map_one_per_key BusinessInsightGenerator.concentration_action cd); auto.
      * intros e x Hx. now destruct (R4 e x Hx).
      * intros [col info] x y Hx Hy.
        unfold BusinessInsightGenerator.concentration_action in Hx, Hy.
        cbv zeta in Hx, Hy.
        destruct (gtb (concentration info) (Fin 70));
          [|destruct (ltb (concentration info) (Fin 20))];
          simpl in Hx, Hy; intuition congruence.
    + apply (flat_map_one_per_key BusinessInsightGenerator.correlation_action co); auto.
      * intros [k e] x Hx. unfold BusinessInsightGenerator.correlation_action in Hx.
        destruct (strength e); simpl in Hx; [|contradiction].
        destruct Hx as [<-|[]]. reflexivity.
      * intros [k e] x y Hx Hy. unfold BusinessInsightGenerator.correlation_action in Hx, Hy.
        destruct (strength e); simpl in Hx, Hy; intuition congruence.
    + unfold a8, BusinessInsightGenerator.governance_action in Ia, Ib.
      destruct (ltb _ (Fin 80)); [|destruct (geb _ (Fin 90))];
        simpl in Ia, Ib; intuition congruence.
Qed.

End JustifiedActions.

Lemma actions_justified_witness :
  exists actions,
    BusinessInsightGenerator.generate_business_actions running_mean zero_std no_corr
      half_empty_generator = Ok actions
    /\ actions <> []
    /\ Forall (fun a => Priority a = category_priority (Category a) /\ justified a)
              actions.
Proof.
  eexists. split; [vm_compute; reflexivity|]. split; [discriminate|].
  match goal with
  | |- Forall _ ?l =>
      destruct (actions_justified running_mean zero_std no_corr half_empty_generator l) as [H _]
  end.
  - vm_compute. reflexivity.
  - exact H.
Defined.
